(* ===== verification/_CoqProject ===== *)
-Q . S2P
Prelude.v
Memory.v
Machine.v
FreeList.v
CowAlloc.v
CowRace.v
CowVm.v
CowFork.v
Trap.v
Procdump.v
CowTrap.v
CowExample.v
Printer.v
SuperAlloc.v
Walk.v
CowWalk.v
CowWalkExample.v
SuperVm.v
SuperProc.v
SuperTrap.v
Alarm.v
TrapExample.v
SuperExample.v
Tracing.v
Backtrace.v
Attack.v
AttackVm.v
AttackExample.v
Find.v
Exec.v
ExecExample.v
Fork.v
ForkExample.v
Primes.v
Xargs.v
Pingpong.v
Proc.v
ProcLabs.v
ProcExample.v
