(* ===== verification/Prelude.v ===== *)
(** * xv6 lab solutions: a verification library

    The repository holds one student's changes to the xv6 teaching kernel, lab
    by lab: each directory under src/xv6-labs-2024 has the functions that lab
    changes, and nothing else of the kernel.  Every lab is its own variant of
    the kernel; the labs do not run together.  This library models the C code
    of all of them, function by function, and proves what each function does.

    ** How code becomes definitions

    A kernel function is a computation in the monad [M] of this file over a
    state [kst X] (Machine): physical memory as bytes, the spinlocks this hart
    holds, the lines printed, and a part [X] of the variant's own.  Its outcome
    is a result, a [panic], the end of the process, or behaviour C leaves
    undefined (an index outside an array, for instance), so that a theorem that
    says a function returns also says that it does not panic and does nothing
    undefined.  [uint64], [int] and [uint] are integers with the wrap-around
    written where the code can reach it ([u64], [s32], [u32]).  Loops are
    [loop] with fuel: a bound from the arguments of the function (the rounds a
    range of pages has, the entries of a table, NPROC, the length of a string),
    which the theorems show to be enough, as they state that the function
    returns.  The user programs that run concurrently (Primes, Pingpong) and two
    harts in one function (CowRace) are step relations on configurations, with
    theorems on all reachable ones.

    Code that is not in the repository, the stock kernel's, is a parameter: a
    class of operations ([PageTable], [TrapEnv], [ProcEnv], [AtkVm], [ExecEnv],
    [ForkEnv]) with a class of laws that state what it is documented to do.
    Every such class has an instance in one of the Example files, which also
    apply each property to a concrete state.  Constants of stock headers are
    classes too ([Riscv], [MemLayout], [TrapLayout], [ProcLayout],
    [ExecConsts], [ForkLayout]).  Where a function of the repository plays the
    part of a parameter elsewhere, it is an instance: both page allocators of
    CowAlloc and SuperAlloc implement the interface [KAlloc] against which
    Walk proves [walk]; Walk implements the lookups of [PageTable], and CowWalk
    proves of it, over CowAlloc, what CowFork asks of a [walk] that may take
    pages for tables ([ForkLaws]).  Laws of stock code hold only where that code
    does not panic: [loadseg] on mapped memory, [mappages] on aligned addresses
    below MAXVA (above it [AtkVmLaws] says that it panics); and [uvmfree] and
    [uvmdealloc] give the user pages back ([ProcEnvLaws], [DeallocLaw]).

    ** The parts

    Foundations.  Prelude: outcomes, loops, machine integers, bits, counting,
    tactics.  Memory: byte memory, words, [memset], [memmove], with agreement
    of memories on a set of addresses as an equivalence.  Machine: page sizes,
    PTE bits, kernel state, spinlocks.  FreeList: lists threaded through free
    pages ([struct run]), shared by the three allocators.

    Copy-on-write (lab6).  CowAlloc: kernel/kalloc.c with its reference counts;
    refines an abstract allocator with a multiset of references.  CowRace: two
    harts in [kfree]; they can put a page on the free list twice.  CowVm:
    [cowhandle] (proc.c) and [copyout] (vm.c) under an invariant [cow_inv] that
    ties the counts to the page tables: nobody reads anything new but the
    process that writes.  CowFork: [uvmcopy] shares every page of a parent; and
    after it a process can write its text.  CowWalk: the page tables of several
    processes as three-level trees apart from each other, which [walk] extends
    and [uvmcopy] therefore keeps apart.  CowTrap: [usertrap] of trap.c, over
    the registers and trapframe of Trap.  Procdump: the listing of proc.c.

    Superpages (lab3 "use superpages").  SuperAlloc: kalloc.c with its two
    lists, refined by an abstract pair of lists; [kinit] partitions memory.
    Walk: [walk] of vm.c; looking up what was allocated.  SuperVm: [superwalk],
    [supermappages], [uvmunmap], [uvmalloc], [sbrksuperuvmalloc], [uvmcopy].
    SuperProc: [growproc] of proc.c and the record it keeps of blocks: which
    blocks and entries a shrinking process gives up, and where the record goes
    wrong.
    SuperTrap: [usertrap].  Printer: [vmprint] here and in "print a page
    table", against a function that lists the tree.

    Processes.  Proc: [allocproc] and [freeproc] over an interface [Lab] for
    what labs add to them: either a complete process or everything given back.
    ProcLabs: module [Usyscall] (lab3 "speed up system calls", proc.c),
    [SuperTable] (lab3 "use superpages"), [AlarmProc] (lab4 "alarm") and
    [Trace] (lab2 "system call tracing").

    Alarms and traps (lab4).  Alarm: the timer branch of [usertrap],
    [sys_sigalarm], [sys_sigreturn]: the handler is called once every n idle
    ticks, with the trapframe saved, is never re-entered, and the interrupted
    trapframe comes back byte for byte; an interval made shorter can be missed.
    Backtrace: [backtrace] and [sys_sleep] of the backtrace lab, with sleeps
    that a tick or [kill] ends.

    System calls (lab2).  Tracing: [syscall], its tables (also lab4's) and
    [sys_trace].  Attack, AttackVm: the kernel that does not clear pages, and
    how user/attack.c reads what user/secret.c left.  Exec and Fork: [exec] and
    [fork] of that kernel: all or nothing, and what the new image or the new
    process is.

    User programs (lab1).  Primes: the pipeline of primes.c, all schedules.
    Pingpong: both processes of pingpong.c, all schedules.  Find: find.c over
    any file system.  Xargs: xargs.c with its children.

    CowExample, CowWalkExample, SuperExample, TrapExample, ProcExample,
    AttackExample, ExecExample, ForkExample: concrete instances and witnesses.

    ** What the properties show

    - Allocators: refinement of abstract specifications over any legal history
      of calls, conservation of pages, and which addresses are refused.
    - Address spaces: isolation (what every other process reads is kept),
      functional correctness of mapping, unmapping, growing, copying and of
      writing from the kernel, on success and on every failure.
    - Traps and alarms: every branch of the handlers; an invariant over any
      sequence of ticks.
    - Processes: creation, freeing, fork and exec leave no trace when they fail.
    - User programs: termination and absence of deadlock over all schedules,
      exact output.
    - Defects: where the code does not do what it means to, a theorem says what
      it does instead (for instance [fork_makes_text_writable],
      [kfree_race_double_free], [supermappages_fresh_region],
      [growproc_shrink_part_page], [sigalarm_shortened_misses],
      [xargs_exec_failure_piles]).

    ** Bounds

    Physical memory ends below 2^43 and user memory below 2^39 ([MemLayout]),
    so that address arithmetic wraps only where the code can make it; the 104
    megabytes of superpages are 52 blocks, as in kalloc.c; the sieve goes up to
    280, as in primes.c; printing follows tables as deep as its fuel, and
    three levels are all there are.

    ** Not modelled

    - Stock code the labs call: see the classes above.
    - Calls of the kernel on several harts other than [kfree]: the functions
      are sequential, with locks taken and released as in the code.
    - lab2 kernel/main.c calls initialisation code that is not in the
      repository; its flag [has_record] is state of Attack.
    - lab3 kernel/exec.c is an excerpt with dots in place of code.
    - lab1 sleep.c is two calls of library functions.
    - [r_ra] of lab4 riscv.h reads a register nothing asks for.
    - user/pgtbltest.c is a test of the course; the Go program, the Python
      scripts, usys.pl, the make file and the assembly listings are tools and
      outputs. *)

From stdpp Require Export base tactics list numbers strings option gmap.
From Stdlib Require Export ZArith Lia.

#[global] Open Scope Z_scope.

(** ** Outcomes of kernel code

    A C function of the kernel either returns a value in a new state, stops
    the machine with [panic], ends the calling process with [exit], or runs
    into behaviour C leaves undefined.  [NoFuel] is the only artefact of the
    model: a loop ran out of the bound it was given; theorems show it does
    not occur. *)

Inductive outcome (S A : Type) : Type :=
  | Ok (a : A) (s : S)
  | Panic (msg : string) (s : S)
  | Exited (status : Z) (s : S)
  | Undef (why : string)
  | NoFuel.
Arguments Ok {S A} a s.
Arguments Panic {S A} msg s.
Arguments Exited {S A} status s.
Arguments Undef {S A} why.
Arguments NoFuel {S A}.

Definition M (S A : Type) : Type := S → outcome S A.

#[export] Instance M_ret S : MRet (M S) := λ A a s, Ok a s.

#[export] Instance M_bind S : MBind (M S) := λ A B f m s,
  match m s with
  | Ok a s' => f a s'
  | Panic msg s' => Panic msg s'
  | Exited st s' => Exited st s'
  | Undef why => Undef why
  | NoFuel => NoFuel
  end.

Definition gets {S A} (f : S → A) : M S A := λ s, Ok (f s) s.
Definition modify {S} (f : S → S) : M S unit := λ s, Ok tt (f s).
Definition panic {S A} (msg : string) : M S A := λ s, Panic msg s.
Definition exit_with {S A} (status : Z) : M S A := λ s, Exited status s.
Definition undefined {S A} (why : string) : M S A := λ _, Undef why.

(** A C loop: the body maps the loop variables either to their next values
    ([inl]) or to the value the enclosing function goes on with ([inr]), a
    [break] or an early [return]. *)
Fixpoint loop {S L R} (fuel : nat) (body : L → M S (L + R)) (x : L) : M S R :=
  match fuel with
  | O => λ _, NoFuel
  | S fuel => r ← body x;
              match r with
              | inl x' => loop fuel body x'
              | inr v => mret v
              end
  end.

(** ** Reasoning about outcomes *)

(** [returns m s Q]: [m] started in [s] returns normally and the result and
    the final state satisfy [Q].  This is total correctness: a computation
    that panics, exits, is undefined or runs out of fuel does not satisfy it. *)
Definition returns {S A} (m : M S A) (s : S) (Q : A → S → Prop) : Prop :=
  ∃ a s', m s = Ok a s' ∧ Q a s'.

Section monad.
Context {S : Type}.

Lemma bind_Ok {A B} (m : M S A) (f : A → M S B) s a s' :
  m s = Ok a s' → (m ≫= f) s = f a s'.
Proof. intros H. unfold mbind, M_bind. by rewrite H. Qed.

Lemma bind_Panic {A B} (m : M S A) (f : A → M S B) s msg s' :
  m s = Panic msg s' → (m ≫= f) s = Panic msg s'.
Proof. intros H. unfold mbind, M_bind. by rewrite H. Qed.

Lemma bind_Exited {A B} (m : M S A) (f : A → M S B) s st s' :
  m s = Exited st s' → (m ≫= f) s = Exited st s'.
Proof. intros H. unfold mbind, M_bind. by rewrite H. Qed.

Lemma bind_assoc {A B C} (m : M S A) (f : A → M S B) (g : B → M S C) s :
  ((m ≫= f) ≫= g) s = (m ≫= λ a, f a ≫= g) s.
Proof. unfold mbind, M_bind. by destruct (m s). Qed.

Lemma bind_ext {A B} (m : M S A) (f g : A → M S B) s :
  (∀ a s', f a s' = g a s') → (m ≫= f) s = (m ≫= g) s.
Proof. intros H. unfold mbind, M_bind. by destruct (m s). Qed.

Lemma returns_intro {A} (m : M S A) s a s' (Q : A → S → Prop) :
  m s = Ok a s' → Q a s' → returns m s Q.
Proof. intros H HQ. exists a, s'. done. Qed.

Lemma returns_ret {A} (a : A) s (Q : A → S → Prop) :
  Q a s → returns (mret a) s Q.
Proof. by apply returns_intro. Qed.

Lemma returns_bind {A B} (m : M S A) (f : A → M S B) s (Q : B → S → Prop) :
  returns m s (λ a s', returns (f a) s' Q) → returns (m ≫= f) s Q.
Proof.
  intros (a & s1 & Hm & b & s2 & Hf & HQ). exists b, s2.
  by rewrite (bind_Ok _ _ _ _ _ Hm).
Qed.

Lemma returns_mono {A} (m : M S A) s (P Q : A → S → Prop) :
  returns m s P → (∀ a s', P a s' → Q a s') → returns m s Q.
Proof. intros (a & s' & Hm & HP) HPQ. exists a, s'. auto. Qed.

Lemma returns_bind_mono {A B} (m : M S A) (f : A → M S B) s P (Q : B → S → Prop) :
  returns m s P → (∀ a s', P a s' → returns (f a) s' Q) → returns (m ≫= f) s Q.
Proof. intros Hm Hf. apply returns_bind. by eapply returns_mono. Qed.

(** Total correctness of a loop: an invariant, and a measure that each
    iteration that goes on decreases below the fuel that is left. *)
Lemma loop_returns {L R} (body : L → M S (L + R)) (I : L → S → Prop)
    (μ : L → nat) (Q : R → S → Prop) fuel x s :
  (∀ x s, I x s → returns (body x) s (λ r s',
     match r with inl x' => I x' s' ∧ (μ x' < μ x)%nat | inr v => Q v s' end)) →
  I x s → (μ x < fuel)%nat → returns (loop fuel body x) s Q.
Proof.
  intros Hbody. revert x s. induction fuel as [|fuel IH]; intros x s HI Hμ; [lia|].
  cbn [loop]. eapply returns_bind_mono; [by apply Hbody|].
  intros [x'|v] s'; cbn.
  - intros [HI' Hlt]. apply IH; [done|lia].
  - apply returns_ret.
Qed.

Lemma loop_S {L R} (body : L → M S (L + R)) fuel x :
  loop (Datatypes.S fuel) body x =
  (r ← body x; match r with inl x' => loop fuel body x' | inr v => mret v end).
Proof. done. Qed.
End monad.

(** ** Machine integers *)

(** Two's complement at the widths of the code: [uint64], [int]. *)
Definition u64 (z : Z) : Z := z mod 2 ^ 64.
Definition u32 (z : Z) : Z := z mod 2 ^ 32.
Definition s32 (z : Z) : Z := (z + 2 ^ 31) mod 2 ^ 32 - 2 ^ 31.

Lemma u64_small z : 0 ≤ z < 2 ^ 64 → u64 z = z.
Proof. intros. unfold u64. by apply Z.mod_small. Qed.

Lemma u64_range z : 0 ≤ u64 z < 2 ^ 64.
Proof. unfold u64. apply Z.mod_pos_bound. lia. Qed.

Lemma s32_small z : -2 ^ 31 ≤ z < 2 ^ 31 → s32 z = z.
Proof. intros. unfold s32. rewrite Z.mod_small; lia. Qed.

Lemma s32_range z : -2 ^ 31 ≤ s32 z < 2 ^ 31.
Proof. unfold s32. pose proof (Z.mod_pos_bound (z + 2 ^ 31) (2 ^ 32)). lia. Qed.

(** ** Bits *)

Lemma shiftl_shiftr_floor z n :
  0 ≤ n → Z.shiftl (Z.shiftr z n) n = z / 2 ^ n * 2 ^ n.
Proof. intros. by rewrite Z.shiftl_mul_pow2, Z.shiftr_div_pow2. Qed.

(** Two words with no common bit add up to their bitwise or. *)
Lemma lor_add_disjoint a b : Z.land a b = 0 → Z.lor a b = a + b.
Proof. intros H. pose proof (Z.add_lor_land a b). lia. Qed.

Lemma land_shiftl_small a b n :
  0 ≤ n → 0 ≤ b < 2 ^ n → Z.land (Z.shiftl a n) b = 0.
Proof.
  intros Hn Hb. apply Z.bits_inj'. intros i Hi.
  rewrite Z.land_spec, Z.bits_0. destruct (decide (i < n)).
  - by rewrite Z.shiftl_spec_low.
  - rewrite <-(Z.mod_small b (2 ^ n)), Z.mod_pow2_bits_high by lia.
    by rewrite andb_false_r.
Qed.

Lemma testbit_above a n i : 0 ≤ a < 2 ^ n → 0 ≤ n ≤ i → Z.testbit a i = false.
Proof. intros Ha Hi. by rewrite <-(Z.mod_small a (2 ^ n)), Z.mod_pow2_bits_high by lia. Qed.

Lemma bits_small a n :
  0 ≤ n → (∀ i, n ≤ i → Z.testbit a i = false) → 0 ≤ a < 2 ^ n.
Proof.
  intros Hn H. assert (a = a mod 2 ^ n) as ->; [|apply Z.mod_pos_bound; lia].
  apply Z.bits_inj'. intros i Hi. destruct (decide (i < n)).
  - by rewrite Z.mod_pow2_bits_low.
  - rewrite Z.mod_pow2_bits_high by lia. apply H. lia.
Qed.

Lemma land_bit_pow2 a i : 0 ≤ i → Z.land a (2 ^ i) = if Z.testbit a i then 2 ^ i else 0.
Proof.
  intros Hi. apply Z.bits_inj'. intros j Hj. rewrite Z.land_spec.
  destruct (decide (i = j)) as [->|Hne].
  - rewrite Z.pow2_bits_true by lia. destruct (Z.testbit a j); [|by rewrite Z.bits_0].
    by rewrite Z.pow2_bits_true.
  - rewrite Z.pow2_bits_false, andb_false_r by lia.
    destruct (Z.testbit a i); [|by rewrite Z.bits_0]. by rewrite Z.pow2_bits_false by lia.
Qed.

(** ** Automation *)

Create HintDb kernel.
#[export] Hint Resolve returns_ret : kernel.

(** Case analysis on the boolean tests of the code, turning each into the
    fact it decides. *)
Ltac case_bool :=
  match goal with
  | |- context [if ?b then _ else _] =>
      lazymatch type of b with
      | bool => let E := fresh "E" in destruct b eqn:E
      end
  end.

Ltac bool_to_Prop :=
  repeat match goal with
  | H : (_ =? _) = true |- _ => apply Z.eqb_eq in H
  | H : (_ =? _) = false |- _ => apply Z.eqb_neq in H
  | H : (_ <? _) = true |- _ => apply Z.ltb_lt in H
  | H : (_ <? _) = false |- _ => apply Z.ltb_ge in H
  | H : (_ <=? _) = true |- _ => apply Z.leb_le in H
  | H : (_ <=? _) = false |- _ => apply Z.leb_gt in H
  | H : negb _ = true |- _ => apply negb_true_iff in H
  | H : negb _ = false |- _ => apply negb_false_iff in H
  | H : _ && _ = true |- _ => apply andb_true_iff in H as [? ?]
  | H : _ || _ = false |- _ => apply orb_false_iff in H as [? ?]
  | H : bool_decide _ = true |- _ => apply bool_decide_eq_true in H
  | H : bool_decide _ = false |- _ => apply bool_decide_eq_false in H
  end.

(** [lia] after replacing divisions and remainders by their equations. *)
Ltac dlia := Z.to_euclidean_division_equations; lia.

(** A sublist as long as the list is the list. *)
Lemma sublist_full {A} (l1 l2 : list A) :
  l1 `sublist_of` l2 → (length l2 ≤ length l1)%nat → l1 = l2.
Proof.
  induction 1 as [|x l1 l2 Hl IH|x l1 l2 Hl IH]; cbn; intros Hlen; [done|f_equal; auto with lia|].
  apply sublist_length in Hl. lia.
Qed.

(** ** Counting *)

(** How many elements of [l] satisfy [f]. *)
Fixpoint countb {A} (f : A → bool) (l : list A) : Z :=
  match l with
  | [] => 0
  | x :: l => (if f x then 1 else 0) + countb f l
  end.

Section countb.
Context {A : Type}.
Implicit Types (f g : A → bool) (l : list A).

Lemma countb_nonneg f l : 0 ≤ countb f l.
Proof. induction l; cbn; [lia|]. case_match; lia. Qed.

Lemma countb_ext f g l : (∀ x, x ∈ l → f x = g x) → countb f l = countb g l.
Proof.
  induction l as [|x l IH]; intros H; [done|]. cbn.
  rewrite (H x), IH; [done| |by apply elem_of_cons; left].
  intros y Hy. apply H. by apply elem_of_cons; right.
Qed.

Lemma countb_pos f l x : x ∈ l → f x = true → 1 ≤ countb f l.
Proof.
  induction 1 as [x l|x y l _ IH]; intros Hf; cbn.
  - rewrite Hf. pose proof (countb_nonneg f l). lia.
  - specialize (IH Hf). case_match; lia.
Qed.

Lemma countb_zero f l : (∀ x, x ∈ l → f x = false) → countb f l = 0.
Proof.
  induction l as [|x l IH]; intros H; [done|]. cbn.
  rewrite (H x) by (by apply elem_of_cons; left). rewrite IH; [done|].
  intros y Hy. apply H. by apply elem_of_cons; right.
Qed.

(** Changing the answer at one element of a list without duplicates. *)
Lemma countb_change f g l x :
  NoDup l → x ∈ l → (∀ y, y ∈ l → y ≠ x → f y = g y) →
  countb g l = countb f l - (if f x then 1 else 0) + (if g x then 1 else 0).
Proof.
  induction 1 as [|y l Hy Hnd IH]; intros Hx H; [by apply not_elem_of_nil in Hx|].
  cbn. apply elem_of_cons in Hx as [->|Hx].
  - rewrite (countb_ext f g l); [lia|]. intros z Hz. apply H; [by apply elem_of_cons; right|].
    congruence.
  - rewrite IH; [|done|intros z Hz; apply H; by apply elem_of_cons; right].
    rewrite (H y); [lia|by apply elem_of_cons; left|congruence].
Qed.

(** Two distinct elements count twice. *)
Lemma countb_two f l x y :
  x ∈ l → y ∈ l → x ≠ y → f x = true → f y = true → 2 ≤ countb f l.
Proof.
  induction l as [|z l IH]; intros Hx Hy Hne Hfx Hfy; [by apply not_elem_of_nil in Hx|].
  cbn. apply elem_of_cons in Hx as [->|Hx]; apply elem_of_cons in Hy as [->|Hy].
  - done.
  - rewrite Hfx. pose proof (countb_pos f l y Hy Hfy). lia.
  - rewrite Hfy. pose proof (countb_pos f l x Hx Hfx). lia.
  - specialize (IH Hx Hy Hne Hfx Hfy). case_match; lia.
Qed.

Lemma countb_app f l1 l2 : countb f (l1 ++ l2) = countb f l1 + countb f l2.
Proof. induction l1 as [|x l IH]; cbn; [done|]. rewrite IH. lia. Qed.
End countb.
