(* ===== verification/Memory.v ===== *)
(** * Physical memory

    The kernel runs with all of physical memory mapped one to one, so a
    pointer of the C code is an address of this byte-addressed memory.  Bytes
    are integers in [0, 256); 64-bit loads and stores are little-endian.
    [memset] and [memmove] act on whole ranges at once. *)

From S2P Require Import Prelude.

Definition mem : Type := Z → Z.

(** [m] and [m'] hold the same bytes at every address of [P]. *)
Definition agree_on (P : Z → Prop) (m m' : mem) : Prop := ∀ a, P a → m' a = m a.

Definition in_range (lo n : Z) (a : Z) : Prop := lo ≤ a < lo + n.

#[export] Instance agree_on_equiv P : Equivalence (agree_on P).
Proof.
  split.
  - by intros m a Ha.
  - intros m m' H a Ha. symmetry. by apply H.
  - intros m1 m2 m3 H12 H23 a Ha. by rewrite (H23 a Ha), (H12 a Ha).
Qed.

Lemma agree_on_mono (P Q : Z → Prop) m m' :
  agree_on P m m' → (∀ a, Q a → P a) → agree_on Q m m'.
Proof. intros H HQP a Ha. by apply H, HQP. Qed.

(** ** Little-endian words *)

Fixpoint le_load (n : nat) (m : mem) (p : Z) : Z :=
  match n with
  | O => 0
  | S n => m p + 256 * le_load n m (p + 1)
  end.

Definition load64 (m : mem) (p : Z) : Z := le_load 8 m p.

Definition store64 (m : mem) (p v : Z) : mem :=
  λ a, if (p <=? a) && (a <? p + 8) then v / 2 ^ (8 * (a - p)) mod 256 else m a.

(** An [int] in memory: four bytes. *)
Definition load32 (m : mem) (p : Z) : Z := le_load 4 m p.
Definition store32 (m : mem) (p v : Z) : mem :=
  λ a, if (p <=? a) && (a <? p + 4) then v / 2 ^ (8 * (a - p)) mod 256 else m a.

Definition memset (m : mem) (p c n : Z) : mem :=
  λ a, if (p <=? a) && (a <? p + n) then c mod 256 else m a.

Definition memmove (m : mem) (dst src n : Z) : mem :=
  λ a, if (dst <=? a) && (a <? dst + n) then m (src + (a - dst)) else m a.

(** The bytes of a list written from address [p] on. *)
Definition store_bytes (m : mem) (p : Z) (bs : list Z) : mem :=
  λ a, if (p <=? a) && (a <? p + Z.of_nat (length bs))
       then default 0 (bs !! Z.to_nat (a - p)) else m a.

Definition load_bytes (m : mem) (p : Z) (n : nat) : list Z :=
  (λ i, m (p + Z.of_nat i)) <$> seq 0 n.

Arguments load64 : simpl never.
Arguments store64 : simpl never.
Arguments load32 : simpl never.
Arguments store32 : simpl never.
Arguments memset : simpl never.
Arguments memmove : simpl never.
Arguments store_bytes : simpl never.

(** ** Bytes after an update *)

Ltac range_case := repeat case_bool; bool_to_Prop; try lia; try done.

Lemma store64_ne m p v a : ¬ in_range p 8 a → store64 m p v a = m a.
Proof. unfold in_range, store64. intros. range_case. Qed.

Lemma memset_in m p c n a : in_range p n a → memset m p c n a = c mod 256.
Proof. unfold in_range, memset. intros. range_case. Qed.

Lemma memset_ne m p c n a : ¬ in_range p n a → memset m p c n a = m a.
Proof. unfold in_range, memset. intros. range_case. Qed.

Lemma memmove_in m d s n a : in_range d n a → memmove m d s n a = m (s + (a - d)).
Proof. unfold in_range, memmove. intros. range_case. Qed.

Lemma memmove_ne m d s n a : ¬ in_range d n a → memmove m d s n a = m a.
Proof. unfold in_range, memmove. intros. range_case. Qed.

Lemma store_bytes_ne m p bs a :
  ¬ in_range p (Z.of_nat (length bs)) a → store_bytes m p bs a = m a.
Proof. unfold in_range, store_bytes. intros. range_case. Qed.

Lemma store_bytes_in m p bs i b :
  bs !! i = Some b → store_bytes m p bs (p + Z.of_nat i) = b.
Proof.
  intros H. pose proof (lookup_lt_Some _ _ _ H). unfold store_bytes. range_case.
  replace (Z.to_nat (p + Z.of_nat i - p)) with i by lia. by rewrite H.
Qed.

(** ** Words after an update *)

Lemma le_load_ext n m m' p :
  agree_on (in_range p (Z.of_nat n)) m m' → le_load n m' p = le_load n m p.
Proof.
  revert p. induction n as [|n IH]; intros p H; [done|]. cbn [le_load].
  rewrite (H p) by (unfold in_range; lia). f_equal. f_equal. apply IH.
  eapply agree_on_mono; [done|]. unfold in_range. lia.
Qed.

Lemma load64_ext m m' p : agree_on (in_range p 8) m m' → load64 m' p = load64 m p.
Proof. apply (le_load_ext 8). Qed.

Lemma le_load_digits n m p v :
  (∀ i, 0 ≤ i < Z.of_nat n → m (p + i) = v / 2 ^ (8 * i) mod 256) →
  le_load n m p = v mod 2 ^ (8 * Z.of_nat n).
Proof.
  revert p v. induction n as [|n IH]; intros p v H; cbn [le_load].
  { change (8 * Z.of_nat 0) with 0. by rewrite Z.pow_0_r, Z.mod_1_r. }
  rewrite (IH (p + 1) (v / 256)).
  - specialize (H 0 ltac:(lia)). rewrite Z.add_0_r in H. rewrite H.
    rewrite Z.mul_0_r, Z.pow_0_r, Z.div_1_r.
    replace (8 * Z.of_nat (S n)) with (8 + 8 * Z.of_nat n) by lia.
    rewrite Z.pow_add_r by lia. change (2 ^ 8) with 256.
    rewrite Z.rem_mul_r by lia. done.
  - intros i Hi. rewrite <-Z.add_assoc, (Z.add_comm 1 i), (H (i + 1)) by lia.
    rewrite Z.div_div by lia. f_equal. f_equal. change 256 with (2 ^ 8).
    rewrite <-Z.pow_add_r by lia. f_equal. lia.
Qed.

Lemma load64_store64_eq m p v : load64 (store64 m p v) p = u64 v.
Proof.
  unfold load64, u64. rewrite (le_load_digits 8 _ _ v); [done|].
  intros i Hi. unfold store64. range_case. do 2 f_equal. f_equal. lia.
Qed.

Lemma load32_store32_eq m p v : load32 (store32 m p v) p = u32 v.
Proof.
  unfold load32, u32. rewrite (le_load_digits 4 _ _ v); [done|].
  intros i Hi. unfold store32. range_case. do 2 f_equal. f_equal. lia.
Qed.

Lemma store32_ne m p v a : ¬ in_range p 4 a → store32 m p v a = m a.
Proof. unfold in_range, store32. intros. range_case. Qed.

Lemma load32_ext m m' p : agree_on (in_range p 4) m m' → load32 m' p = load32 m p.
Proof. apply (le_load_ext 4). Qed.

Lemma load64_store64_ne m p q v :
  q + 8 ≤ p ∨ p + 8 ≤ q → load64 (store64 m p v) q = load64 m q.
Proof. intros H. apply load64_ext. intros a Ha. apply store64_ne. unfold in_range in *. lia. Qed.

Lemma load64_memset_ne m p c n q :
  q + 8 ≤ p ∨ p + n ≤ q → load64 (memset m p c n) q = load64 m q.
Proof. intros H. apply load64_ext. intros a Ha. apply memset_ne. unfold in_range in *. lia. Qed.

Lemma load64_memset_0 m p n q :
  p ≤ q → q + 8 ≤ p + n → load64 (memset m p 0 n) q = 0.
Proof.
  intros. unfold load64. rewrite (le_load_digits 8 _ _ 0); [done|].
  intros i Hi. rewrite memset_in by (unfold in_range; lia).
  by rewrite Z.div_0_l by lia.
Qed.

Lemma load64_memmove_ne m d s n q :
  q + 8 ≤ d ∨ d + n ≤ q → load64 (memmove m d s n) q = load64 m q.
Proof. intros H. apply load64_ext. intros a Ha. apply memmove_ne. unfold in_range in *. lia. Qed.

Lemma le_load_bound n m p :
  (∀ a, 0 ≤ m a < 256) → 0 ≤ le_load n m p < 2 ^ (8 * Z.of_nat n).
Proof.
  intros Hm. revert p. induction n as [|n IH]; intros p; cbn [le_load]; [lia|].
  specialize (IH (p + 1)). specialize (Hm p).
  replace (8 * Z.of_nat (S n)) with (8 + 8 * Z.of_nat n) by lia.
  rewrite Z.pow_add_r by lia. change (2 ^ 8) with 256. lia.
Qed.

Lemma load_bytes_length m p n : length (load_bytes m p n) = n.
Proof. unfold load_bytes. by rewrite length_fmap, length_seq. Qed.

Lemma load_bytes_lookup m p n i :
  (i < n)%nat → load_bytes m p n !! i = Some (m (p + Z.of_nat i)).
Proof. intros. unfold load_bytes. rewrite list_lookup_fmap, lookup_seq_lt by lia. done. Qed.

Lemma load_bytes_ext m m' p n :
  agree_on (in_range p (Z.of_nat n)) m m' → load_bytes m' p n = load_bytes m p n.
Proof.
  intros H. unfold load_bytes. apply list_fmap_ext. intros i j Hij.
  apply lookup_seq in Hij as [-> Hlt]. apply H. unfold in_range. lia.
Qed.

Create Rewrite HintDb memory.
#[export] Hint Rewrite load64_store64_eq : memory.
#[export] Hint Rewrite load64_store64_ne load64_memset_ne load64_memmove_ne
  using (solve [lia]) : memory.
