(* ===== verification/Machine.v ===== *)
(** * The machine under the kernels

    The page size and PTE bits the labs define or state, the macros and
    addresses of stock headers as type classes, and the state every kernel
    variant shares: physical memory, the locks this hart holds, the console
    and a variant-specific part. *)

From S2P Require Import Prelude Memory.

(** ** Constants stated in the sources *)

(** "Allocates whole 4096-byte pages" (kalloc.c); "2MB, 2 to the 21st"
    (superpages, vm.c). *)
Definition PGSIZE : Z := 4096.
Definition SUPERPGSIZE : Z := 2 ^ 21.

Definition PTE_V : Z := Z.shiftl 1 0.
Definition PTE_R : Z := Z.shiftl 1 1.
Definition PTE_W : Z := Z.shiftl 1 2.
Definition PTE_X : Z := Z.shiftl 1 3.
Definition PTE_U : Z := Z.shiftl 1 4.
Definition PTE_S : Z := Z.shiftl 1 8.
Definition PTE_COW : Z := Z.shiftl 1 9.

(** The test [*pte & FLAG] of the code. *)
Definition has_flag (pte flag : Z) : bool := negb (Z.land pte flag =? 0).

(** ** Stock headers

    The macros of kernel/riscv.h that the labs use and do not define.  The
    laws are the Sv39 layout the README documents: a PTE is a 44-bit page
    number above 10 bits of flags, a virtual address three 9-bit indices
    above a 12-bit offset. *)
Class Riscv := {
  PGROUNDUP : Z → Z;
  PGROUNDDOWN : Z → Z;
  PTE2PA : Z → Z;
  PA2PTE : Z → Z;
  PTE_FLAGS : Z → Z;
  PXSHIFT : Z → Z;
  PX : Z → Z → Z;
  PGROUNDUP_spec a : 0 ≤ a → a + 4095 < 2 ^ 64 → PGROUNDUP a = (a + 4095) / 4096 * 4096;
  PGROUNDDOWN_spec a : 0 ≤ a < 2 ^ 64 → PGROUNDDOWN a = a / 4096 * 4096;
  PTE2PA_spec pte : 0 ≤ pte < 2 ^ 54 → PTE2PA pte = pte / 2 ^ 10 * 2 ^ 12;
  PA2PTE_spec pa : 0 ≤ pa < 2 ^ 56 → PA2PTE pa = pa / 2 ^ 12 * 2 ^ 10;
  PTE_FLAGS_spec pte : 0 ≤ pte < 2 ^ 64 → PTE_FLAGS pte = pte mod 2 ^ 10;
  PXSHIFT_spec level : 0 ≤ level ≤ 2 → PXSHIFT level = 12 + 9 * level;
  PX_spec level va : 0 ≤ level ≤ 2 → 0 ≤ va < 2 ^ 64 →
    PX level va = va / 2 ^ (12 + 9 * level) mod 512;
}.

(** The addresses of kernel/memlayout.h and of the linker script: [KERNEND] is
    the symbol [end], the first address after the kernel. *)
Class MemLayout := {
  KERNEND : Z;
  PHYSTOP : Z;
  KERNBASE : Z;
  MAXVA : Z;
  TRAMPOLINE : Z;
  TRAPFRAME : Z;
  USYSCALL : Z;
  KERNEND_pos : 0 < KERNEND;
  KERNEND_PHYSTOP : KERNEND ≤ PHYSTOP;
  PHYSTOP_aligned : PHYSTOP mod 4096 = 0;
  PHYSTOP_bound : PHYSTOP < 2 ^ 43;
  MAXVA_bound : 0 < MAXVA ≤ 2 ^ 39;
  TRAPFRAME_below : TRAPFRAME + 4096 = TRAMPOLINE;
  USYSCALL_below : USYSCALL + 4096 = TRAPFRAME;
  TRAMPOLINE_top : TRAMPOLINE + 4096 = MAXVA;
  USYSCALL_aligned : USYSCALL mod 4096 = 0;
  USYSCALL_pos : 0 < USYSCALL;
}.

(** ** Kernel state *)

(** A spinlock: a name and, for locks that come in arrays, an index. *)
Definition lock : Type := string * Z.

(** An argument of [printf]: a number or a pointer, or a string. *)
Inductive parg := PInt (z : Z) | PStr (s : string).

Record kst (X : Type) := KSt {
  kmem : mem;
  held : gset lock;
  console : list (string * list parg);
  ext : X;
}.
Arguments KSt {X} kmem held console ext.
Arguments kmem {X} _.
Arguments held {X} _.
Arguments console {X} _.
Arguments ext {X} _.

Section kernel_ops.
Context {X : Type}.
Implicit Types s : kst X.

Definition set_mem (m : mem) s : kst X := KSt m (held s) (console s) (ext s).
Definition set_held (h : gset lock) s : kst X := KSt (kmem s) h (console s) (ext s).
Definition set_ext (x : X) s : kst X := KSt (kmem s) (held s) (console s) x.

(** spinlock.h.  Taking a lock the hart already holds and releasing one it
    does not hold are panics of the stock kernel. *)
Definition initlock (lk : lock) : M (kst X) unit :=
  modify (λ s, set_held (held s ∖ {[lk]}) s).
Definition acquire (lk : lock) : M (kst X) unit := λ s,
  if decide (lk ∈ held s) then Panic "acquire" s
  else Ok tt (set_held ({[lk]} ∪ held s) s).
Definition release (lk : lock) : M (kst X) unit := λ s,
  if decide (lk ∈ held s) then Ok tt (set_held (held s ∖ {[lk]}) s)
  else Panic "release" s.

Definition printf (fmt : string) (args : list parg) : M (kst X) unit :=
  modify (λ s, KSt (kmem s) (held s) (console s ++ [(fmt, args)]) (ext s)).

Definition load (p : Z) : M (kst X) Z := gets (λ s, load64 (kmem s) p).
Definition store (p v : Z) : M (kst X) unit :=
  modify (λ s, set_mem (store64 (kmem s) p v) s).
Definition memsetM (p c n : Z) : M (kst X) unit :=
  modify (λ s, set_mem (memset (kmem s) p c n) s).
Definition memmoveM (dst src n : Z) : M (kst X) unit :=
  modify (λ s, set_mem (memmove (kmem s) dst src n) s).

Definition getx {A} (f : X → A) : M (kst X) A := gets (λ s, f (ext s)).
Definition modx (f : X → X) : M (kst X) unit := modify (λ s, set_ext (f (ext s)) s).

Lemma acquire_ok lk s :
  lk ∉ held s → acquire lk s = Ok tt (set_held ({[lk]} ∪ held s) s).
Proof. intros. unfold acquire. by rewrite decide_False. Qed.

Lemma release_ok lk h m c x :
  lk ∉ h → release lk (KSt m ({[lk]} ∪ h) c x) = Ok tt (KSt m h c x).
Proof.
  intros. unfold release, set_held; cbn. rewrite decide_True by set_solver.
  do 2 f_equal. apply set_eq. intros k. rewrite elem_of_difference, elem_of_union, elem_of_singleton. destruct (decide (k = lk)) as [->|]; tauto.
Qed.
End kernel_ops.

(** One step of straight-line code: run the first operation of a sequence. *)
Ltac kstep := erewrite bind_Ok;
  [| first [ apply acquire_ok; cbn; assumption | apply release_ok; assumption
           | reflexivity | solve [eauto with kernel] ] ]; cbn.

(** ** Facts about addresses and entries *)

Section riscv_facts.
Context `{Riscv}.

(** A PTE built from a page address and flags gives both back. *)
Lemma PA2PTE_flags pa flags :
  pa mod 4096 = 0 → 0 ≤ pa < 2 ^ 56 → 0 ≤ flags < 2 ^ 10 →
  Z.lor (PA2PTE pa) flags = pa / 4 + flags ∧
  PTE2PA (Z.lor (PA2PTE pa) flags) = pa ∧
  PTE_FLAGS (Z.lor (PA2PTE pa) flags) = flags.
Proof.
  intros Hal Hpa Hfl. rewrite PA2PTE_spec by done.
  apply Z.mod_divide in Hal as [q ->]; [|lia].
  change (2 ^ 56) with 72057594037927936 in *. change (2 ^ 12) with 4096 in *.
  change (2 ^ 10) with 1024 in *.
  assert (Hor : Z.lor (q * 4096 / 4096 * 1024) flags = q * 4096 / 4 + flags).
  { rewrite Z.div_mul by lia. change 1024 with (2 ^ 10) at 1.
    rewrite <-Z.shiftl_mul_pow2 by lia.
    rewrite lor_add_disjoint by (apply land_shiftl_small; lia).
    rewrite Z.shiftl_mul_pow2 by lia. change (2 ^ 10) with 1024. dlia. }
  rewrite Hor. replace (q * 4096 / 4) with (q * 1024) by dlia.
  assert (0 ≤ q * 1024 + flags < 2 ^ 54) by (change (2 ^ 54) with 18014398509481984; lia).
  split; [done|]. split.
  - rewrite PTE2PA_spec by done. change (2 ^ 10) with 1024. change (2 ^ 12) with 4096. dlia.
  - rewrite PTE_FLAGS_spec by lia. change (2 ^ 10) with 1024. dlia.
Qed.
End riscv_facts.

(** ** A concrete machine, for evaluating the model

    The Sv39 macros as arithmetic, and a machine with thirty-two pages of
    memory above a one-page kernel. *)

Definition sv39 : Riscv.
Proof.
  refine {|
    PGROUNDUP a := (a + 4095) / 4096 * 4096;
    PGROUNDDOWN a := a / 4096 * 4096;
    PTE2PA pte := pte / 2 ^ 10 * 2 ^ 12;
    PA2PTE pa := pa / 2 ^ 12 * 2 ^ 10;
    PTE_FLAGS pte := pte mod 2 ^ 10;
    PXSHIFT level := 12 + 9 * level;
    PX level va := va / 2 ^ (12 + 9 * level) mod 512;
  |}; done.
Defined.

Definition small_layout : MemLayout.
Proof.
  refine {|
    KERNEND := 4096;
    PHYSTOP := 33 * 4096;
    KERNBASE := 0;
    MAXVA := 2 ^ 38;
    TRAMPOLINE := 2 ^ 38 - 4096;
    TRAPFRAME := 2 ^ 38 - 2 * 4096;
    USYSCALL := 2 ^ 38 - 3 * 4096;
  |}; done.
Defined.
