(* ===== verification/FreeList.v ===== *)
(** * Free lists threaded through free pages

    Every allocator of the kernels keeps its free pages in a singly linked
    list whose nodes are the pages themselves: the first word of a free page
    is the address of the next one ([struct run]). *)

From S2P Require Import Prelude Memory Machine.

(** [flist m head l]: following the links from [head] visits exactly the pages
    of [l], in order, and ends in the null pointer. *)
Fixpoint flist (m : mem) (head : Z) (l : list Z) : Prop :=
  match l with
  | [] => head = 0
  | p :: l => head = p ∧ p ≠ 0 ∧ flist m (load64 m p) l
  end.

(** [l] is made of distinct [size]-aligned blocks inside [lo, hi). *)
Definition blocks (lo hi size : Z) (l : list Z) : Prop :=
  NoDup l ∧ Forall (λ p, p mod size = 0 ∧ lo ≤ p ∧ p + size ≤ hi) l.

(** Distinct blocks do not overlap. *)
Lemma aligned_disjoint size p q :
  0 < size → p mod size = 0 → q mod size = 0 → p ≠ q → p + size ≤ q ∨ q + size ≤ p.
Proof.
  intros Hs Hp Hq Hne. apply Z.mod_divide in Hp as [a ->]; [|lia].
  apply Z.mod_divide in Hq as [b ->]; [|lia].
  assert (a ≠ b) by congruence. nia.
Qed.

Lemma aligned_add size a k : a mod size = 0 → (a + k * size) mod size = 0.
Proof. intros. by rewrite Z_mod_plus_full. Qed.

Section flist.
Implicit Types (m : mem) (l : list Z).

Lemma flist_nil m head : flist m head [] ↔ head = 0.
Proof. done. Qed.

Lemma flist_null m l : flist m 0 l → l = [].
Proof. destruct l as [|p l]; [done|]. cbn. intros (H & Hp & _). congruence. Qed.

Lemma flist_cons_inv m head l :
  head ≠ 0 → flist m head l → ∃ l', l = head :: l' ∧ flist m (load64 m head) l'.
Proof. destruct l as [|p l]; cbn; [done|]. intros _ (<- & _ & H). eauto. Qed.

Lemma flist_deterministic m head l1 l2 : flist m head l1 → flist m head l2 → l1 = l2.
Proof.
  revert head l2. induction l1 as [|p l1 IH]; intros head l2 H1 H2.
  - cbn in H1. subst. by apply flist_null in H2.
  - destruct H1 as (-> & Hp & H1).
    apply flist_cons_inv in H2 as (l' & -> & H2); [|done].
    f_equal. by eapply IH.
Qed.

(** Only the link words of the listed pages matter. *)
Lemma flist_frame m m' head l :
  (∀ p, p ∈ l → load64 m' p = load64 m p) → flist m head l → flist m' head l.
Proof.
  revert head. induction l as [|p l IH]; intros head Hm; cbn; [done|].
  intros (-> & Hp & H). split; [done|]. split; [done|].
  rewrite Hm by set_solver. apply IH; [set_solver|done].
Qed.

Lemma flist_push m m' head l p :
  flist m head l → (∀ q, q ∈ l → load64 m' q = load64 m q) →
  load64 m' p = head → p ≠ 0 → flist m' p (p :: l).
Proof.
  intros H Hm Hp Hne. cbn. rewrite Hp. split; [done|]. split; [done|].
  by eapply flist_frame.
Qed.

Lemma flist_head m head l : flist m head l → head = default 0 (list.head l).
Proof. destruct l; cbn; [done|]. by intros [-> _]. Qed.
End flist.

Section blocks.
Context (lo hi size : Z) (Hsize : 0 < size).

Lemma blocks_nil : blocks lo hi size [].
Proof. split; constructor. Qed.

Lemma blocks_cons p l :
  blocks lo hi size (p :: l) ↔
  (((p ∉ l) ∧ p mod size = 0 ∧ lo ≤ p ∧ p + size ≤ hi) ∧ blocks lo hi size l).
Proof. unfold blocks. rewrite NoDup_cons, Forall_cons. tauto. Qed.

Lemma blocks_elem p l :
  blocks lo hi size l → p ∈ l → p mod size = 0 ∧ lo ≤ p ∧ p + size ≤ hi.
Proof. intros [_ H] Hp. rewrite Forall_forall in H. by apply H. Qed.

(** An update confined to a block that is not listed keeps every link. *)
Lemma blocks_links m m' l p :
  8 ≤ size → blocks lo hi size l → p ∉ l → p mod size = 0 →
  agree_on (λ a, ¬ in_range p size a) m m' →
  ∀ q, q ∈ l → load64 m' q = load64 m q.
Proof.
  intros H8 Hl Hp Hpm Hag q Hq. apply load64_ext.
  eapply agree_on_mono; [done|]. intros a.
  destruct (blocks_elem q l Hl Hq) as [Hqm _].
  assert (q ≠ p) by congruence.
  pose proof (aligned_disjoint size p q Hsize Hpm Hqm ltac:(done)).
  unfold in_range. lia.
Qed.
End blocks.

(** The address of a block fits in a word. *)
Lemma flist_head_u64 m head l lo hi size :
  0 < lo → hi < 2 ^ 64 → 0 ≤ size → flist m head l → blocks lo hi size l → u64 head = head.
Proof.
  intros Hlo Hhi Hs Hf Hb. apply u64_small. rewrite (flist_head _ _ _ Hf).
  destruct l as [|q l]; cbn; [lia|]. apply blocks_cons in Hb as [(_ & _ & ? & ?) _]. lia.
Qed.

(** ** Runs of consecutive blocks *)

(** The [n] blocks from [start] on, lowest first. *)
Definition run (start size : Z) (n : nat) : list Z :=
  (λ i, start + Z.of_nat i * size) <$> seq 0 n.

Arguments run : simpl never.

Section run.
Context (start size : Z) (Hsize : 0 < size).

Lemma run_S n : run start size (S n) = run start size n ++ [start + Z.of_nat n * size].
Proof. unfold run. by rewrite seq_S, fmap_app. Qed.

Lemma elem_of_run p n :
  p ∈ run start size n ↔ ∃ i, p = start + Z.of_nat i * size ∧ (i < n)%nat.
Proof.
  unfold run. rewrite list_elem_of_fmap.
  split; intros (i & -> & Hi); exists i; rewrite elem_of_seq in *; (split; [done|lia]).
Qed.

Lemma run_blocks lo hi n :
  start mod size = 0 → lo ≤ start → start + Z.of_nat n * size ≤ hi →
  blocks lo hi size (run start size n).
Proof.
  intros Hal Hlo. induction n as [|n IH]; intros Hhi; [apply blocks_nil|].
  rewrite run_S. destruct IH as [Hnd Hall]; [lia|]. split.
  - apply NoDup_app. split; [done|]. split; [|apply NoDup_singleton].
    intros p Hp. rewrite list_elem_of_singleton. intros ->.
    apply elem_of_run in Hp as (i & Heq & Hi).
    assert (Z.of_nat i = Z.of_nat n) by nia. lia.
  - apply Forall_app. split; [done|]. apply Forall_singleton.
    split; [by apply aligned_add|]. lia.
Qed.

(** A run covers every aligned block of its range. *)
Lemma run_complete p n :
  start mod size = 0 → p mod size = 0 → start ≤ p → p + size ≤ start + Z.of_nat n * size →
  p ∈ run start size n.
Proof.
  intros Hs Hp Hle Hhi. apply elem_of_run.
  apply Z.mod_divide in Hs as [a ->]; [|lia]. apply Z.mod_divide in Hp as [b ->]; [|lia].
  assert (a ≤ b) by nia. exists (Z.to_nat (b - a)). split.
  - rewrite Z2Nat.id by lia. lia.
  - assert (b < a + Z.of_nat n) by nia. lia.
Qed.
End run.

Lemma blocks_perm lo hi size l l' : l ≡ₚ l' → blocks lo hi size l → blocks lo hi size l'.
Proof. intros Hp [Hnd Hall]. split; [by rewrite <-Hp|by rewrite <-Hp]. Qed.
