(* ===== verification/CowAlloc.v ===== *)
(** * Reference-counted page allocator (lab6, kernel/kalloc.c)

    State: the head of the free list threaded through the free pages, and
    [memrefc.count], one counter per physical page.  [kalloc] takes a page
    off the list and counts one reference; [kfree] drops a reference and puts
    the page back when none is left. *)

From S2P Require Import Prelude Memory Machine FreeList.

Section cow_alloc.
Context `{Riscv, MemLayout} {P : Type}.

(** ** State and operations *)

(** [rest] is the part of the kernel state the allocator does not touch. *)
Record cow := Cow { freelist : Z; count : Z → Z; rest : P }.

Definition kmem_lock : lock := ("kmem", 0).
Definition memrefc_lock : lock := ("memrefc", 0).

Definition set_freelist (r : Z) (x : cow) : cow := Cow r (count x) (rest x).
Definition set_count (i c : Z) (x : cow) : cow :=
  Cow (freelist x) (λ j, if j =? i then c else count x j) (rest x).

(** [int count[PGROUNDUP(PHYSTOP) / PGSIZE]]: an access outside the array is
    undefined. *)
Definition ncount : Z := PGROUNDUP PHYSTOP / PGSIZE.

Definition count_get (i : Z) : M (kst cow) Z := λ s,
  if (0 <=? i) && (i <? ncount) then Ok (count (ext s) i) s else Undef "memrefc.count".
Definition count_set (i c : Z) : M (kst cow) unit := λ s,
  if (0 <=? i) && (i <? ncount) then Ok tt (set_ext (set_count i c (ext s)) s)
  else Undef "memrefc.count".

Definition refcadd (pa : Z) : M (kst cow) unit :=
  acquire memrefc_lock;;
  let offset := s32 (Z.shiftr pa 12) in
  c ← count_get offset;
  count_set offset (s32 (c + 1));;
  release memrefc_lock.

Definition refcremove (pa : Z) : M (kst cow) unit :=
  acquire memrefc_lock;;
  let offset := s32 (Z.shiftr pa 12) in
  c ← count_get offset;
  count_set offset (s32 (c - 1));;
  release memrefc_lock.

Definition refcget (pa : Z) : M (kst cow) Z :=
  let offset := s32 (Z.shiftr pa 12) in count_get offset.

Definition kfree (pa : Z) : M (kst cow) unit :=
  (if negb (pa mod PGSIZE =? 0) || (pa <? KERNEND) || (PHYSTOP <=? pa)
   then panic "kfree" else mret tt);;
  refcremove pa;;
  c ← refcget pa;
  if 0 <? c then mret tt
  else
    memsetM pa 1 PGSIZE;;
    acquire kmem_lock;;
    next ← getx freelist;
    store pa next;;
    modx (set_freelist pa);;
    release kmem_lock.

Definition kalloc : M (kst cow) Z :=
  acquire kmem_lock;;
  r ← getx freelist;
  (if negb (r =? 0) then next ← load r; modx (set_freelist next) else mret tt);;
  release kmem_lock;;
  (if negb (r =? 0) then refcadd r;; memsetM r 5 PGSIZE else mret tt);;
  mret r.

(** The loop runs once per page of the range and once more to leave it. *)
Definition freerange (pa_start pa_end : Z) : M (kst cow) unit :=
  let p := PGROUNDUP pa_start in
  loop (S (S (Z.to_nat ((pa_end - p) / PGSIZE))))
    (λ p, if p + PGSIZE <=? pa_end then kfree p;; mret (inl (p + PGSIZE))
          else mret (inr tt)) p.

Definition clear_counts : M (kst cow) unit :=
  loop (S (Z.to_nat ncount))
    (λ i, if i <? ncount then count_set i 0;; mret (inl (i + 1)) else mret (inr tt)) 0.

Definition kinit : M (kst cow) unit :=
  initlock kmem_lock;;
  initlock memrefc_lock;;
  freerange KERNEND PHYSTOP;;
  clear_counts.

(** ** The allocator's contract

    Free pages in the order they are handed out, and the number of references
    to every page. *)

Record alloc_spec := AllocSpec { avail : list Z; refs : Z → Z }.

Definition upd (f : Z → Z) (p v : Z) : Z → Z := λ q, if q =? p then v else f q.

Definition spec_kalloc (a : alloc_spec) : Z * alloc_spec :=
  match avail a with
  | [] => (0, a)
  | p :: l => (p, AllocSpec l (upd (refs a) p 1))
  end.

Definition spec_kfree (p : Z) (a : alloc_spec) : alloc_spec :=
  if refs a p <=? 1 then AllocSpec (p :: avail a) (upd (refs a) p 0)
  else AllocSpec (avail a) (upd (refs a) p (refs a p - 1)).

Definition spec_refcadd (p : Z) (a : alloc_spec) : alloc_spec :=
  AllocSpec (avail a) (upd (refs a) p (refs a p + 1)).

(** A page the allocator manages. *)
Definition managed (p : Z) : Prop := p mod 4096 = 0 ∧ KERNEND ≤ p ∧ p + 4096 ≤ PHYSTOP.

(** The concrete state represents the abstract one: the chain in memory is
    [avail], the counters are [refs], and the free pages are exactly the
    managed pages nothing refers to. *)
Record rep (s : kst cow) (a : alloc_spec) : Prop := {
  rep_chain : flist (kmem s) (freelist (ext s)) (avail a);
  rep_blocks : blocks KERNEND PHYSTOP 4096 (avail a);
  rep_count p : managed p → count (ext s) (p / 4096) = refs a p;
  rep_refs p : managed p → 0 ≤ refs a p < 2 ^ 31 - 1;
  rep_free p : managed p → (p ∈ avail a ↔ refs a p = 0);
}.

(** The allocator leaves the locks as it found them, prints nothing, and does
    not touch the rest of the state. *)
Definition keeps (s s' : kst cow) : Prop :=
  held s' = held s ∧ console s' = console s ∧ rest (ext s') = rest (ext s).

#[local] Instance keeps_refl : Reflexive keeps.
Proof. done. Qed.

Lemma keeps_trans s1 s2 s3 : keeps s1 s2 → keeps s2 s3 → keeps s1 s3.
Proof. unfold keeps. intuition congruence. Qed.

Definition unlocked (s : kst cow) : Prop := (kmem_lock ∉ held s) ∧ (memrefc_lock ∉ held s).


(** ** Reference counters *)

Lemma managed_offset p :
  managed p → s32 (Z.shiftr p 12) = p / 4096 ∧ 0 ≤ p / 4096 < ncount.
Proof.
  intros (Hal & Hlo & Hhi). pose proof KERNEND_pos. pose proof PHYSTOP_bound.
  pose proof PHYSTOP_aligned. unfold ncount, PGSIZE.
  rewrite PGROUNDUP_spec by lia. rewrite Z.shiftr_div_pow2 by lia.
  change (2 ^ 12) with 4096. rewrite s32_small; dlia.
Qed.

Lemma managed_nonzero p : managed p → 0 < p < 2 ^ 43.
Proof. intros (? & ? & ?). pose proof KERNEND_pos. pose proof PHYSTOP_bound. lia. Qed.

Lemma count_get_ok i s : 0 ≤ i < ncount → count_get i s = Ok (count (ext s) i) s.
Proof. intros. unfold count_get. case_bool; [done|]. lia. Qed.

Lemma count_set_ok i c s :
  0 ≤ i < ncount → count_set i c s = Ok tt (set_ext (set_count i c (ext s)) s).
Proof. intros. unfold count_set. case_bool; [done|]. lia. Qed.

#[local] Hint Resolve count_get_ok count_set_ok : kernel.

Lemma refcadd_ok p m h c x :
  managed p → memrefc_lock ∉ h →
  refcadd p (KSt m h c x) =
  Ok tt (KSt m h c (set_count (p / 4096) (s32 (count x (p / 4096) + 1)) x)).
Proof.
  intros Hp Hl. destruct (managed_offset p Hp) as [Hoff Hb].
  unfold refcadd. rewrite Hoff. do 3 kstep. by apply release_ok.
Qed.

Lemma refcremove_ok p m h c x :
  managed p → memrefc_lock ∉ h →
  refcremove p (KSt m h c x) =
  Ok tt (KSt m h c (set_count (p / 4096) (s32 (count x (p / 4096) - 1)) x)).
Proof.
  intros Hp Hl. destruct (managed_offset p Hp) as [Hoff Hb].
  unfold refcremove. rewrite Hoff. do 3 kstep. by apply release_ok.
Qed.

Lemma refcget_ok p s : managed p → refcget p s = Ok (count (ext s) (p / 4096)) s.
Proof.
  intros Hp. destruct (managed_offset p Hp) as [Hoff Hb].
  unfold refcget. rewrite Hoff. by apply count_get_ok.
Qed.

(** ** The operations as equations *)

Lemma kalloc_empty m h c x :
  kmem_lock ∉ h → freelist x = 0 → kalloc (KSt m h c x) = Ok 0 (KSt m h c x).
Proof.
  intros Hl Hx. unfold kalloc. do 2 kstep. rewrite Hx. by do 2 kstep.
Qed.

Lemma kalloc_page m h c x :
  kmem_lock ∉ h → memrefc_lock ∉ h → managed (freelist x) →
  kalloc (KSt m h c x) =
  Ok (freelist x)
     (KSt (memset m (freelist x) 5 PGSIZE) h c
        (set_count (freelist x / 4096) (s32 (count x (freelist x / 4096) + 1))
           (set_freelist (load64 m (freelist x)) x))).
Proof.
  intros Hl Hl' Hp. pose proof (managed_nonzero _ Hp). unfold kalloc. do 2 kstep.
  rewrite (proj2 (Z.eqb_neq _ _)) by lia. cbn. rewrite bind_assoc. do 3 kstep.
  rewrite bind_assoc. unfold set_held; cbn.
  erewrite bind_Ok; [|by apply refcadd_ok]. by kstep.
Qed.

Definition free_state (p : Z) (m : mem) (x : cow) : mem :=
  store64 (memset m p 1 PGSIZE) p (freelist x).

Lemma managed_guard p :
  managed p → negb (p mod PGSIZE =? 0) || (p <? KERNEND) || (PHYSTOP <=? p) = false.
Proof. intros (? & ? & ?). unfold PGSIZE. lia. Qed.

Lemma kfree_shared p m h c x :
  kmem_lock ∉ h → memrefc_lock ∉ h → managed p → 0 < s32 (count x (p / 4096) - 1) →
  kfree p (KSt m h c x) =
  Ok tt (KSt m h c (set_count (p / 4096) (s32 (count x (p / 4096) - 1)) x)).
Proof.
  intros Hl Hl' Hp Hc. unfold kfree. rewrite managed_guard by done. kstep.
  erewrite bind_Ok; [|by apply refcremove_ok].
  erewrite bind_Ok; [|by apply refcget_ok]. cbn. rewrite Z.eqb_refl.
  by rewrite (proj2 (Z.ltb_lt _ _)).
Qed.

Lemma kfree_last p m h c x :
  kmem_lock ∉ h → memrefc_lock ∉ h → managed p → s32 (count x (p / 4096) - 1) ≤ 0 →
  kfree p (KSt m h c x) =
  Ok tt (KSt (free_state p m x) h c
           (set_freelist p (set_count (p / 4096) (s32 (count x (p / 4096) - 1)) x))).
Proof.
  intros Hl Hl' Hp Hc. unfold kfree. rewrite managed_guard by done. kstep.
  erewrite bind_Ok; [|by apply refcremove_ok].
  erewrite bind_Ok; [|by apply refcget_ok]. cbn. rewrite Z.eqb_refl.
  rewrite (proj2 (Z.ltb_ge _ _)) by done. do 5 kstep. by apply release_ok.
Qed.

(** Outside the managed pages [kfree] stops the machine. *)
Lemma kfree_panics p s :
  p mod 4096 ≠ 0 ∨ p < KERNEND ∨ PHYSTOP ≤ p → kfree p s = Panic "kfree" s.
Proof.
  intros Hp. unfold kfree, PGSIZE.
  assert (negb (p mod 4096 =? 0) || (p <? KERNEND) || (PHYSTOP <=? p) = true) as -> by lia.
  done.
Qed.

(** ** Refinement *)

Lemma page_index_inj p q : p mod 4096 = 0 → q mod 4096 = 0 → p / 4096 = q / 4096 → p = q.
Proof. intros. dlia. Qed.

(** Writing the counter of [p] changes the counters of the other pages
    nowhere. *)
Lemma set_count_upd x p q v (f : Z → Z) :
  managed p → managed q → count x (q / 4096) = f q →
  count (set_count (p / 4096) v x) (q / 4096) = upd f p v q.
Proof.
  intros (Hp & _) (Hq & _) Hf. cbn. unfold upd.
  destruct (decide (q = p)) as [->|Hne]; [by rewrite !Z.eqb_refl|].
  rewrite (proj2 (Z.eqb_neq q p)) by done.
  rewrite (proj2 (Z.eqb_neq _ _)); [done|]. intros Heq. by apply Hne, page_index_inj.
Qed.

Lemma upd_eq f p v : upd f p v p = v.
Proof. unfold upd. by rewrite Z.eqb_refl. Qed.

Lemma upd_ne f p q v : q ≠ p → upd f p v q = f q.
Proof. intros. unfold upd. by rewrite (proj2 (Z.eqb_neq _ _)). Qed.

Lemma memset_store_agree m p c v :
  agree_on (λ a, ¬ in_range p 4096 a) m (store64 (memset m p c 4096) p v).
Proof.
  intros a Ha. unfold in_range in Ha.
  rewrite store64_ne by (unfold in_range; lia). by rewrite memset_ne.
Qed.

Lemma memset_agree m p c n : agree_on (λ a, ¬ in_range p n a) m (memset m p c n).
Proof. intros a Ha. by rewrite memset_ne. Qed.

Lemma rep_head s a p l :
  rep s a → avail a = p :: l → freelist (ext s) = p ∧ managed p ∧ refs a p = 0.
Proof.
  intros [Hch Hbl Hct Hrf Hfr] Hav. rewrite Hav in *.
  apply blocks_cons in Hbl as [(_ & ? & ? & ?) _].
  destruct Hch as (-> & _). split; [done|].
  assert (managed p) by done. split; [done|]. apply Hfr; [done|]. by apply elem_of_cons; left.
Qed.

(** The result of [kalloc] and the state it leaves follow the contract; an
    allocated page is filled with junk and nothing else in memory changes. *)
Lemma kalloc_refines_spec s a :
  rep s a → unlocked s →
  ∃ s', kalloc s = Ok (spec_kalloc a).1 s' ∧ rep s' (spec_kalloc a).2 ∧
        keeps s s' ∧
        agree_on (λ b, ¬ in_range (spec_kalloc a).1 4096 b ∨ avail a = []) (kmem s) (kmem s') ∧
        (∀ b, avail a ≠ [] → in_range (spec_kalloc a).1 4096 b → kmem s' b = 5).
Proof.
  intros Hrep [Hl Hl']. destruct s as [m h c x]. unfold spec_kalloc.
  destruct (avail a) as [|p l] eqn:Hav.
  - pose proof (rep_chain _ _ Hrep) as Hch. rewrite Hav in Hch.
    eexists. split; [by apply kalloc_empty|]. cbn.
    do 2 (split; [done|]). split; [by intros b _|done].
  - destruct (rep_head _ _ _ _ Hrep Hav) as (Hfl & Hp & H0'). 
    destruct Hrep as [Hch Hbl Hct Hrf Hfr]. rewrite Hav in *. cbn in *.
    subst p. eexists. split; [by apply kalloc_page|].
    set (p := freelist x) in *.
    cbn. unfold PGSIZE.
    apply blocks_cons in Hbl as [(Hnin & Hal & _) Hbl].
    split; [|split; [done|split]].
    + constructor; cbn -[managed].
      * eapply flist_frame, Hch.
        apply (blocks_links KERNEND PHYSTOP 4096 ltac:(lia) m _ l p); try done.
        apply memset_agree.
      * done.
      * intros q Hq. rewrite (Hct p Hp), H0', s32_small by lia. cbn.
        apply (set_count_upd x p q 1 (refs a)); try done. by apply Hct.
      * intros q Hq. destruct (decide (q = p)) as [->|]; [rewrite upd_eq; lia|].
        rewrite upd_ne by done. by apply Hrf.
      * intros q Hq. destruct (decide (q = p)) as [->|].
        { rewrite upd_eq. split; [done|lia]. }
        rewrite upd_ne by done. rewrite <-Hfr by done. rewrite elem_of_cons. tauto.
    + intros b [Hb|Hb]; [by apply memset_ne|done].
    + intros b _ Hb. by rewrite memset_in.
Qed.

Lemma kfree_refines_spec s a p :
  rep s a → unlocked s → managed p → 1 ≤ refs a p →
  ∃ s', kfree p s = Ok tt s' ∧ rep s' (spec_kfree p a) ∧
        keeps s s' ∧
        agree_on (λ b, ¬ in_range p 4096 b ∨ 1 < refs a p) (kmem s) (kmem s').
Proof.
  intros Hrep [Hl Hl'] Hp Href. destruct s as [m h c x].
  destruct Hrep as [Hch Hbl Hct Hrf Hfr]; cbn in *.
  pose proof (Hrf p Hp). pose proof (managed_nonzero p Hp).
  assert (Hcnt : s32 (count x (p / 4096) - 1) = refs a p - 1)
    by (rewrite (Hct p Hp), s32_small by lia; done).
  assert (Hnin : p ∉ avail a) by (rewrite Hfr by done; lia).
  unfold spec_kfree. destruct (refs a p <=? 1) eqn:Hle; bool_to_Prop.
  - assert (refs a p = 1) as Hr1 by lia.
    eexists. split; [apply kfree_last; try done; lia|].
    rewrite Hcnt, Hr1. cbn. unfold free_state, PGSIZE.
    split; [|split; [done|]].
    + destruct (Hp) as (Hal & Hlo & Hhi). constructor; cbn -[managed].
      * eapply flist_push; [done| |rewrite load64_store64_eq|lia].
        { apply (blocks_links KERNEND PHYSTOP 4096 ltac:(lia) m _ _ p); try done.
          apply memset_store_agree. }
        rewrite u64_small; [done|]. rewrite (flist_head _ _ _ Hch).
        destruct (avail a) as [|q l'] eqn:Hav; cbn; [lia|].
        apply blocks_cons in Hbl as [(? & ? & ? & ?) _].
        pose proof KERNEND_pos. pose proof PHYSTOP_bound. lia.
      * apply blocks_cons. done.
      * intros q Hq. apply (set_count_upd x p q 0 (refs a)); try done. by apply Hct.
      * intros q Hq. destruct (decide (q = p)) as [->|]; [rewrite upd_eq; lia|].
        rewrite upd_ne by done. by apply Hrf.
      * intros q Hq. destruct (decide (q = p)) as [->|].
        { rewrite upd_eq, elem_of_cons. tauto. }
        rewrite upd_ne by done. rewrite <-Hfr by done. rewrite elem_of_cons. tauto.
    + intros b [Hb|Hb]; [|lia]. by apply memset_store_agree.
  - eexists. split; [apply kfree_shared; try done; lia|].
    rewrite Hcnt. split; [|done]. constructor; cbn -[managed]; try done.
    + intros q Hq. apply (set_count_upd x p q _ (refs a)); try done. by apply Hct.
    + intros q Hq. destruct (decide (q = p)) as [->|]; [rewrite upd_eq; lia|].
      rewrite upd_ne by done. by apply Hrf.
    + intros q Hq. destruct (decide (q = p)) as [->|].
      { rewrite upd_eq, Hfr by done. lia. }
      rewrite upd_ne by done. by apply Hfr.
Qed.

Lemma refcadd_refines_spec s a p :
  rep s a → unlocked s → managed p → 1 ≤ refs a p < 2 ^ 31 - 2 →
  ∃ s', refcadd p s = Ok tt s' ∧ rep s' (spec_refcadd p a) ∧
        keeps s s' ∧ kmem s' = kmem s.
Proof.
  intros Hrep [Hl Hl'] Hp Href. destruct s as [m h c x].
  destruct Hrep as [Hch Hbl Hct Hrf Hfr]; cbn in *.
  eexists. split; [by apply refcadd_ok|]. rewrite (Hct p Hp), s32_small by lia.
  split; [|done]. constructor; cbn -[managed]; try done.
  - intros q Hq. apply (set_count_upd x p q _ (refs a)); try done. by apply Hct.
  - intros q Hq. destruct (decide (q = p)) as [->|]; [rewrite upd_eq; lia|].
    rewrite upd_ne by done. by apply Hrf.
  - intros q Hq. destruct (decide (q = p)) as [->|].
    { rewrite upd_eq, Hfr by done. lia. }
    rewrite upd_ne by done. by apply Hfr.
Qed.

(** ** Initialisation *)

(** The pages [kinit] hands to the allocator. *)
Definition first_page : Z := PGROUNDUP KERNEND.
Definition npages : nat := Z.to_nat ((PHYSTOP - first_page) / 4096).

(** The allocator [kinit] builds: every page free, the highest first. *)
Definition spec_init : alloc_spec := AllocSpec (rev (run first_page 4096 npages)) (λ _, 0).

Lemma first_page_facts :
  first_page mod 4096 = 0 ∧ KERNEND ≤ first_page < KERNEND + 4096 ∧
  first_page ≤ PHYSTOP ∧ first_page + Z.of_nat npages * 4096 = PHYSTOP.
Proof.
  pose proof KERNEND_pos. pose proof KERNEND_PHYSTOP. pose proof PHYSTOP_aligned.
  pose proof PHYSTOP_bound. unfold npages, first_page. rewrite PGROUNDUP_spec by lia.
  assert (first_page ≤ PHYSTOP) by (unfold first_page; rewrite PGROUNDUP_spec by lia; dlia).
  unfold first_page in *. rewrite PGROUNDUP_spec in * by lia.
  split; [dlia|]. split; [dlia|]. split; [done|]. rewrite Z2Nat.id by dlia. dlia.
Qed.

Lemma page_managed i : (i < npages)%nat → managed (first_page + Z.of_nat i * 4096).
Proof.
  intros Hi. destruct first_page_facts as (Hal & Hlo & _ & Hhi). split; [|lia].
  by apply aligned_add.
Qed.

(** While [freerange] runs, the counters of the pages already freed go below
    zero: [kinit] clears them afterwards. *)
Record freeing (k : nat) (s : kst cow) : Prop := {
  fr_chain : flist (kmem s) (freelist (ext s)) (rev (run first_page 4096 k));
  fr_count i : - Z.of_nat k ≤ count (ext s) i ≤ 0;
  fr_locks : unlocked s;
}.

Lemma kfree_freeing k s :
  freeing k s → (k < npages)%nat →
  returns (kfree (first_page + Z.of_nat k * 4096)) s
    (λ _ s', freeing (S k) s' ∧ keeps s s').
Proof.
  intros [Hch Hct [Hl Hl']] Hk. destruct s as [m h c x]; cbn in *.
  set (p := first_page + Z.of_nat k * 4096).
  assert (Hp : managed p) by by apply page_managed.
  destruct (first_page_facts) as (Hal & Hlo & _ & Hhi).
  pose proof (Hct (p / 4096)). pose proof PHYSTOP_bound. pose proof KERNEND_pos.
  assert (Z.of_nat npages < 2 ^ 31) by lia.
  eapply returns_intro; [apply kfree_last; try done; rewrite s32_small; lia|].
  split; [|done].
  assert (Hbl : blocks KERNEND PHYSTOP 4096 (rev (run first_page 4096 k))).
  { eapply blocks_perm; [apply Permutation_rev|]. apply run_blocks; lia. }
  constructor; cbn -[flist]; [|intros i|done].
  - rewrite run_S, rev_app_distr. cbn. fold p. unfold free_state, PGSIZE.
    split; [done|]. split; [pose proof (managed_nonzero p Hp); lia|].
    rewrite load64_store64_eq, u64_small.
    + eapply flist_frame, Hch. apply (blocks_links KERNEND PHYSTOP 4096 ltac:(lia) m _ _ p); try done.
      * rewrite <-Permutation_rev, elem_of_run. intros (i & Heq & Hi). lia.
      * by apply aligned_add.
      * apply memset_store_agree.
    + rewrite (flist_head _ _ _ Hch).
      destruct (rev (run first_page 4096 k)) as [|q l] eqn:E; cbn; [lia|].
      apply blocks_cons in Hbl as [(_ & _ & ? & ?) _]. lia.
  - pose proof (Hct i). case_bool; [rewrite s32_small; lia|lia].
Qed.

Lemma freerange_init s :
  freeing 0 s →
  returns (freerange KERNEND PHYSTOP) s
    (λ _ s', freeing npages s' ∧ keeps s s').
Proof.
  intros Hs. destruct first_page_facts as (Hal & Hlo & Hle & Hhi).
  unfold freerange. fold first_page. unfold PGSIZE.
  apply (loop_returns _ (λ p s1, ∃ k, p = first_page + Z.of_nat k * 4096 ∧ (k ≤ npages)%nat ∧
    freeing k s1 ∧ keeps s s1)
    (λ p, S (Z.to_nat ((PHYSTOP - p) / 4096)))); [|by exists O; rewrite Z.add_0_r; split; [lia|split; [lia|]]|].
  2: { lia. }
  intros p s1 (k & -> & Hk & Hf & Hkp). case_bool; bool_to_Prop.
  - assert (Hk' : (k < npages)%nat) by lia.
    eapply returns_bind_mono; [by apply kfree_freeing|].
    intros _ s2 [Hf2 Hk2]. apply returns_ret. cbn beta iota.
    split; [exists (S k); split; [lia|]; split; [lia|]; split; [done|by eapply keeps_trans]|].
    assert (1 ≤ Z.of_nat npages - Z.of_nat k) by lia.
    replace (PHYSTOP - (first_page + Z.of_nat k * 4096))
      with ((Z.of_nat npages - Z.of_nat k) * 4096) by lia.
    replace (PHYSTOP - (first_page + Z.of_nat k * 4096 + 4096))
      with ((Z.of_nat npages - Z.of_nat k - 1) * 4096) by lia.
    rewrite !Z.div_mul by lia. lia.
  - apply returns_ret. cbn. replace npages with k by lia. done.
Qed.

Lemma clear_counts_ok s :
  returns clear_counts s
    (λ _ s', (∀ i, 0 ≤ i < ncount → count (ext s') i = 0) ∧ kmem s' = kmem s ∧
             freelist (ext s') = freelist (ext s) ∧ keeps s s').
Proof.
  apply (loop_returns _ (λ i s1, 0 ≤ i ∧ (∀ j, 0 ≤ j < i → count (ext s1) j = 0) ∧
    kmem s1 = kmem s ∧ freelist (ext s1) = freelist (ext s) ∧ keeps s s1)
    (λ i, Z.to_nat (ncount - i))); [| |lia].
  - intros i s1 (Hi & Hz & Hm & Hfl & Hk). case_bool; bool_to_Prop.
    + apply returns_bind. eapply returns_intro; [by apply count_set_ok|].
      apply returns_ret. cbn. split; [|lia]. split; [lia|].
      split; [|done]. intros j Hj. case_bool; [done|]. bool_to_Prop. apply Hz. lia.
    + apply returns_ret. split; [|done]. intros j Hj. apply Hz. lia.
  - split; [lia|]. split; [lia|done].
Qed.

Lemma bss_freeing m h c r :
  freeing 0 (KSt m (h ∖ {[kmem_lock]} ∖ {[memrefc_lock]}) c (Cow 0 (λ _, 0) r)).
Proof. constructor; cbn; [done|done|]. unfold unlocked; cbn.
  rewrite !elem_of_difference, !elem_of_singleton. tauto. Qed.

(** From the zeroed globals the kernel starts with, [kinit] builds the
    allocator of the contract. *)
Lemma kinit_rep m h c r :
  returns kinit (KSt m h c (Cow 0 (λ _, 0) r)) (λ _ s', rep s' spec_init ∧ unlocked s' ∧
    console s' = c ∧ rest (ext s') = r).
Proof.
  unfold kinit. apply returns_bind. eapply returns_intro; [done|].
  apply returns_bind. eapply returns_intro; [done|].
  eapply returns_bind_mono; [apply freerange_init, bss_freeing|].
  intros _ s1 ([Hch Hct Hul] & Hh & Hc & Hr).
  eapply returns_mono; [apply clear_counts_ok|].
  intros _ s2 (Hz & Hm & Hfl & Hh2 & Hc2 & Hr2). unfold unlocked.
  rewrite Hh2, Hc2, Hc, Hr2, Hr. split; [|done].
  destruct first_page_facts as (Hal & Hlo & Hle & Hhi).
  constructor; cbn -[managed]; rewrite ?Hm, ?Hfl; try done.
  - eapply blocks_perm; [apply Permutation_rev|]. apply run_blocks; lia.
  - intros p Hp. apply Hz, managed_offset, Hp.
  - intros p (Hpal & Hplo & Hphi). split; [done|]. intros _.
    rewrite <-Permutation_rev. apply run_complete; try lia.
    pose proof PHYSTOP_aligned. dlia.
Qed.

(** ** Histories

    What the kernel does with the allocator after boot: any sequence of
    allocations, frees and new references, each free and reference to a page
    that is in use. *)

Inductive op := OpAlloc | OpFree (p : Z) | OpShare (p : Z).

Definition managedb (p : Z) : bool :=
  (p mod 4096 =? 0) && (KERNEND <=? p) && (p + 4096 <=? PHYSTOP).

Definition spec_op (o : op) (a : alloc_spec) : option (Z * alloc_spec) :=
  match o with
  | OpAlloc => Some (spec_kalloc a)
  | OpFree p => if managedb p && (1 <=? refs a p) then Some (0, spec_kfree p a) else None
  | OpShare p => if managedb p && (1 <=? refs a p) && (refs a p <? 2 ^ 31 - 2)
                 then Some (0, spec_refcadd p a) else None
  end.

Fixpoint spec_run (os : list op) (a : alloc_spec) : option (list Z * alloc_spec) :=
  match os with
  | [] => Some ([], a)
  | o :: os => '(r, a) ← spec_op o a; '(rs, a) ← spec_run os a; Some (r :: rs, a)
  end.

Definition run_op (o : op) : M (kst cow) Z :=
  match o with
  | OpAlloc => kalloc
  | OpFree p => kfree p;; mret 0
  | OpShare p => refcadd p;; mret 0
  end.

Fixpoint run_ops (os : list op) : M (kst cow) (list Z) :=
  match os with
  | [] => mret []
  | o :: os => r ← run_op o; rs ← run_ops os; mret (r :: rs)
  end.

Lemma managedb_spec p : managedb p = true ↔ managed p.
Proof. unfold managedb, managed. lia. Qed.

Lemma run_op_refines o s a r a' :
  rep s a → unlocked s → spec_op o a = Some (r, a') →
  ∃ s', run_op o s = Ok r s' ∧ rep s' a' ∧ unlocked s'.
Proof.
  intros Hrep Hul. assert (Hkeep : ∀ s', keeps s s' → unlocked s').
  { intros s' [Hh _]. unfold unlocked. by rewrite Hh. }
  destruct o as [|p|p]; cbn [spec_op run_op]; intros Heq.
  - destruct (kalloc_refines_spec s a Hrep Hul) as (s' & Hrun & Hrep' & Hk & _).
    injection Heq as Heq. rewrite Heq in Hrun, Hrep'. eauto.
  - destruct (managedb p && _) eqn:Hg in Heq; [|done]. injection Heq as <- <-.
    apply andb_true_iff in Hg as [Hp%managedb_spec Hr]. bool_to_Prop.
    destruct (kfree_refines_spec s a p Hrep Hul Hp Hr) as (s' & Hrun & Hrep' & Hk & _).
    exists s'. rewrite (bind_Ok _ _ _ _ _ Hrun). auto.
  - destruct (managedb p && _ && _) eqn:Hg in Heq; [|done]. injection Heq as <- <-.
    rewrite !andb_true_iff, managedb_spec, Z.leb_le, Z.ltb_lt in Hg. destruct Hg as [[Hp Hr] Hlt].
    destruct (refcadd_refines_spec s a p Hrep Hul Hp (conj Hr Hlt)) as (s' & Hrun & Hrep' & Hk & _).
    exists s'. rewrite (bind_Ok _ _ _ _ _ Hrun). auto.
Qed.

Lemma run_ops_refines os : ∀ s a rs a',
  rep s a → unlocked s → spec_run os a = Some (rs, a') →
  ∃ s', run_ops os s = Ok rs s' ∧ rep s' a' ∧ unlocked s'.
Proof.
  induction os as [|o os IH]; intros s a rs a' Hrep Hul Heq.
  - injection Heq as <- <-. by exists s.
  - cbn in Heq. destruct (spec_op o a) as [[r a1]|] eqn:E1; [|done]. cbn in Heq.
    destruct (spec_run os a1) as [[rs1 a2]|] eqn:E2; [|done]. cbn in Heq. injection Heq as <- <-.
    destruct (run_op_refines o s a r a1 Hrep Hul E1) as (s1 & Hrun1 & Hrep1 & Hul1).
    destruct (IH s1 a1 rs1 a2 Hrep1 Hul1 E2) as (s2 & Hrun2 & Hrep2 & Hul2).
    exists s2. cbn. by rewrite (bind_Ok _ _ _ _ _ Hrun1), (bind_Ok _ _ _ _ _ Hrun2).
Qed.

(** Free pages and pages in use make up the memory: nothing leaks. *)
Lemma rep_conserves s a :
  rep s a →
  Z.of_nat (length (avail a)) + countb (λ p, 1 <=? refs a p) (run first_page 4096 npages) =
  Z.of_nat npages.
Proof.
  intros Hrep. destruct first_page_facts as (Hal & Hlo & Hle & Hhi).
  assert (Hblocks : blocks KERNEND PHYSTOP 4096 (run first_page 4096 npages))
    by (apply run_blocks; lia).
  assert (Hin : ∀ p, p ∈ run first_page 4096 npages ↔ managed p).
  { intros p. split.
    - intros Hp. by eapply blocks_elem.
    - intros (Hpal & Hplo & Hphi). apply run_complete; try lia.
      pose proof PHYSTOP_aligned. dlia. }
  assert (Hperm : avail a ≡ₚ filter (λ p, refs a p = 0) (run first_page 4096 npages)).
  { apply NoDup_Permutation.
    - apply (rep_blocks _ _ Hrep).
    - apply NoDup_filter, Hblocks.
    - intros p. rewrite list_elem_of_filter, Hin. split.
      + intros Hp. assert (managed p) by (eapply blocks_elem; [apply (rep_blocks _ _ Hrep)|done]).
        split; [by apply (rep_free _ _ Hrep)|done].
      + intros [Hz Hp]. by apply (rep_free _ _ Hrep). }
  rewrite Hperm. transitivity (Z.of_nat (length (run first_page 4096 npages))).
  2: { unfold run. by rewrite length_fmap, length_seq. }
  assert (Hr : ∀ p, p ∈ run first_page 4096 npages → 0 ≤ refs a p)
    by (intros p Hp; apply (rep_refs _ _ Hrep); by apply Hin).
  clear -Hr. revert Hr. induction (run first_page 4096 npages) as [|p l IH]; intros Hr; [done|].
  rewrite filter_cons. cbn [countb length].
  assert (IH' := IH (λ q Hq, Hr q (proj2 (elem_of_cons _ _ _) (or_intror Hq)))).
  pose proof (Hr p (proj2 (elem_of_cons _ _ _) (or_introl eq_refl))).
  case_decide as Hd; cbn [length]; destruct (1 <=? refs a p) eqn:E; bool_to_Prop; lia.
Qed.

(** ** Main theorems *)

(** C1: the allocator implements its contract.  Booted from zeroed globals,
    and then put through any history of allocations, frees and new references
    that is legal (a page freed or shared is one in use), it never panics,
    returns exactly the pages the contract [spec_run] returns (each a free
    page, null when there is none), and ends in a state that represents the
    contract's: the free list in memory threads exactly the pages no one
    refers to, and free pages and pages in use add up to the machine's. *)
Theorem allocator_refines_contract m h c r os rs a :
  spec_run os spec_init = Some (rs, a) →
  ∃ s, (kinit;; run_ops os) (KSt m h c (Cow 0 (λ _, 0) r)) = Ok rs s ∧ rep s a ∧
    flist (kmem s) (freelist (ext s)) (avail a) ∧
    (∀ p, managed p → (p ∈ avail a ↔ count (ext s) (p / 4096) = 0)) ∧
    Z.of_nat (length (avail a)) + countb (λ p, 1 <=? refs a p) (run first_page 4096 npages)
      = Z.of_nat npages.
Proof.
  intros Hspec. destruct (kinit_rep m h c r) as ([] & s0 & Hinit & Hrep & Hul & _).
  destruct (run_ops_refines os s0 _ _ _ Hrep Hul Hspec) as (s & Hrun & Hrep' & _).
  exists s. rewrite (bind_Ok _ _ _ _ _ Hinit). split; [done|]. split; [done|].
  split; [by apply rep_chain|]. split; [|by apply rep_conserves with s].
  intros p Hp. rewrite (rep_count _ _ Hrep' p Hp). by apply (rep_free _ _ Hrep').
Qed.

(** [kfree] refuses every address that is not a page of the allocator's
    memory, and accepts every page that is in use: it panics exactly outside. *)
Theorem kfree_guards (s : kst cow) a p :
  rep s a → unlocked s → (managed p → 1 ≤ refs a p) →
  (managed p ∧ returns (kfree p) s (λ _ s', rep s' (spec_kfree p a))) ∨
  (¬ managed p ∧ kfree p s = Panic "kfree" s).
Proof.
  intros Hrep Hul Href. destruct (managedb p) eqn:E.
  - apply managedb_spec in E as Hp. left. split; [done|].
    destruct (kfree_refines_spec s a p Hrep Hul Hp (Href Hp)) as (s' & Hrun & Hrep' & _).
    by apply (returns_intro _ _ _ _ _ Hrun).
  - right. split; [rewrite <-managedb_spec; congruence|]. apply kfree_panics.
    unfold managedb in E. pose proof PHYSTOP_aligned. rewrite !andb_false_iff in E. dlia.
Qed.

End cow_alloc.
