(* ===== verification/CowRace.v ===== *)
(** * Two harts freeing the same page (lab6, [kfree] of kernel/kalloc.c)

    [kfree] drops a reference in one critical section ([refcremove]) and reads
    the counter outside any lock ([refcget]).  Here it is cut into its atomic
    actions, shown to compose to the sequential function, and two copies are
    interleaved. *)

From S2P Require Import Prelude Memory Machine FreeList CowAlloc.

Section race.
Context `{Riscv, MemLayout} {P : Type}.
Local Abbreviation cow := (cow (P := P)).

(** The next action of a hart inside [kfree p]. *)
Inductive kpc := Drop | Test | Fill | Push | Done.

(** One atomic action.  [Drop] and [Push] are critical sections; the read of
    the counter and the junk fill hold no lock. *)
Definition kfree_action (p : Z) (pc : kpc) : M (kst cow) kpc :=
  match pc with
  | Drop => refcremove p;; mret Test
  | Test => c ← refcget p; mret (if 0 <? c then Done else Fill)
  | Fill => memsetM p 1 PGSIZE;; mret Push
  | Push =>
      acquire kmem_lock;;
      next ← getx freelist;
      store p next;;
      modx (set_freelist p);;
      release kmem_lock;;
      mret Done
  | Done => mret Done
  end.

(** Run alone, the actions are [kfree]. *)
Lemma kfree_actions p s :
  managed p →
  kfree p s = (pc ← kfree_action p Drop; pc ← kfree_action p pc; pc ← kfree_action p pc;
               pc ← kfree_action p pc; mret tt) s.
Proof.
  intros Hp. unfold kfree. rewrite managed_guard by done. kstep.
  assert (Hret : ∀ A B (a : A) (f : A → M (kst cow) B) s, (mret a ≫= f) s = f a s) by done.
  cbn [kfree_action]. rewrite bind_assoc. apply bind_ext. intros [] s1.
  rewrite Hret. cbn [kfree_action]. rewrite bind_assoc. apply bind_ext. intros c s2.
  rewrite Hret. destruct (0 <? c); [done|]. cbn [kfree_action]. rewrite bind_assoc.
  apply bind_ext. intros [] s3. rewrite Hret. cbn [kfree_action]. rewrite !bind_assoc.
  apply bind_ext. intros [] s4. rewrite !bind_assoc. apply bind_ext. intros n s5.
  rewrite !bind_assoc. apply bind_ext. intros [] s6. rewrite !bind_assoc.
  apply bind_ext. intros [] s7. rewrite !bind_assoc.
  unfold mbind, M_bind, mret, M_ret. by destruct (release kmem_lock s7) as [[] ?| | | |].
Qed.

(** Two harts, each inside a [kfree], over one state. *)
Record harts := Harts { hart1 : kpc; hart2 : kpc; shared : kst cow }.

Inductive step (p1 p2 : Z) : harts → harts → Prop :=
  | step_1 pc pc' q s s' :
      pc ≠ Done → kfree_action p1 pc s = Ok pc' s' →
      step p1 p2 (Harts pc q s) (Harts pc' q s')
  | step_2 pc pc' q s s' :
      pc ≠ Done → kfree_action p2 pc s = Ok pc' s' →
      step p1 p2 (Harts q pc s) (Harts q pc' s').

(** Both harts free [p], the last two references to it: each drops its own
    before either reads the counter. *)
Lemma race_tests m h c x p :
  managed p → kmem_lock ∉ h → memrefc_lock ∉ h → count x (p / 4096) = 2 →
  ∃ x', rtc (step p p) (Harts Drop Drop (KSt m h c x)) (Harts Fill Fill (KSt m h c x')) ∧
    freelist x' = freelist x.
Proof.
  intros Hp Hl Hl' Hc. destruct (managed_offset p Hp) as [_ Hr].
  set (x1 := set_count (p / 4096) 1 x). set (x2 := set_count (p / 4096) 0 x1).
  assert (H1 : kfree_action p Drop (KSt m h c x) = Ok Test (KSt m h c x1)).
  { cbn [kfree_action]. rewrite (bind_Ok _ _ _ _ _ (refcremove_ok p m h c x Hp Hl')). by rewrite Hc. }
  assert (H2 : kfree_action p Drop (KSt m h c x1) = Ok Test (KSt m h c x2)).
  { cbn [kfree_action]. rewrite (bind_Ok _ _ _ _ _ (refcremove_ok p m h c x1 Hp Hl')).
    unfold x1 at 1; cbn. by rewrite Z.eqb_refl. }
  assert (H3 : kfree_action p Test (KSt m h c x2) = Ok Fill (KSt m h c x2)).
  { cbn [kfree_action]. rewrite (bind_Ok _ _ _ _ _ (refcget_ok p _ Hp)). cbn. by rewrite Z.eqb_refl. }
  exists x2. split; [|done].
  eapply rtc_l; [by apply step_1|]. eapply rtc_l; [by apply step_2|].
  eapply rtc_l; [by apply step_1|]. eapply rtc_l; [by apply step_2|]. done.
Qed.

Lemma race_push m h c (x : cow) p :
  kmem_lock ∉ h →
  kfree_action p Push (KSt m h c x) =
  Ok Done (KSt (store64 m p (freelist x)) h c (set_freelist p x)).
Proof.
  intros Hl. cbn [kfree_action]. do 4 kstep. unfold set_held, set_mem, set_ext; cbn.
  by erewrite bind_Ok by (by apply release_ok).
Qed.

(** C7: two harts that free a page at the same time, dropping its last two
    references, can free it twice.  Since [refcremove] and [refcget] are not
    one critical section, both harts can see the counter at zero, and each
    puts the page on the free list: the list then links the page to itself,
    and the next two allocations return the same page. *)
Theorem kfree_race_double_free m h c x p :
  managed p → kmem_lock ∉ h → memrefc_lock ∉ h → count x (p / 4096) = 2 →
  ∃ s', rtc (step p p) (Harts Drop Drop (KSt m h c x)) (Harts Done Done s') ∧
    freelist (ext s') = p ∧ load64 (kmem s') p = p ∧
    ∃ s'', (q1 ← kalloc; q2 ← kalloc; mret (q1, q2)) s' = Ok (p, p) s''.
Proof.
  intros Hp Hl Hl' Hc. destruct (race_tests m h c x p Hp Hl Hl' Hc) as (x' & Hrun & _).
  pose proof (managed_nonzero p Hp).
  set (m1 := memset (memset m p 1 PGSIZE) p 1 PGSIZE).
  exists (KSt (store64 (store64 m1 p (freelist x')) p p) h c (set_freelist p (set_freelist p x'))).
  assert (Hlink : load64 (store64 (store64 m1 p (freelist x')) p p) p = p)
    by (rewrite load64_store64_eq; apply u64_small; lia).
  split; [|split; [done|split; [done|]]].
  2: { eexists. erewrite bind_Ok by (by apply kalloc_page). cbn [freelist set_freelist].
       rewrite Hlink. by erewrite bind_Ok by (by apply kalloc_page). }
  etrans; [exact Hrun|].
  eapply rtc_l; [by apply step_1|]. eapply rtc_l; [by apply step_2|].
  eapply rtc_l; [apply step_1; [done|by apply race_push]|].
  eapply rtc_l; [apply step_2; [done|by apply race_push]|]. done.
Qed.
End race.
