(* ===== verification/CowVm.v ===== *)
(** * Copy-on-write memory (lab6, kernel/proc.c and kernel/vm.c)

    [cowhandle] gives a process its own copy of a page it shares; [copyout]
    writes kernel data to user memory, breaking the sharing of the pages it
    writes; [uvmcopy] shares a parent's pages with a child.  The stock
    functions they call ([walk], [mappages], [uvmunmap]) are not in the
    repository: they are the class [PageTable], with the laws of [walk] the
    development relies on. *)

From S2P Require Import Prelude Memory Machine FreeList CowAlloc.

(** What a page-table implementation promises: a lookup ([walk] with
    [alloc = 0]) changes nothing, depends only on the bytes the traversal
    reads and on the page of the address, and is refused above [MAXVA]. *)
Class PageTable `{MemLayout} (X : Type) := {
  walk : Z → Z → Z → M (kst X) Z;
  mappages : Z → Z → Z → Z → Z → M (kst X) Z;
  uvmunmap : Z → Z → Z → Z → M (kst X) unit;
  walk0 : mem → Z → Z → Z;
  visits : mem → Z → Z → Z → Prop;
  walk_lookup pt va s : 0 ≤ va < MAXVA → walk pt va 0 s = Ok (walk0 (kmem s) pt va) s;
  walk_high pt va alloc s : MAXVA ≤ va → walk pt va alloc s = Panic "walk" s;
  walk0_page m pt va : walk0 m pt va = walk0 m pt (va / 4096 * 4096);
  walk0_local m m' pt va :
    agree_on (visits m pt va) m m' → walk0 m' pt va = walk0 m pt va;
  visits_local m m' pt va b :
    agree_on (visits m pt va) m m' → visits m' pt va b → visits m pt va b;
}.

Section cow_vm.
Context `{Riscv, MemLayout} {P : Type} `{!PageTable (cow (P := P))}.

Local Abbreviation cow := (cow (P := P)).

(** ** Operations *)

Definition cowhandle (pagetable va : Z) : M (kst cow) Z :=
  pte ← walk pagetable va 0;
  bad ← (if pte =? 0 then mret true
         else v ← load pte;
              if negb (has_flag v PTE_V) then mret true
              else v ← load pte; mret (negb (has_flag v PTE_COW)));
  if (bad : bool) then mret (-1)
  else if va =? 0 then mret (-1)
  else
    v ← load pte;
    let pa := PTE2PA v in
    mem ← kalloc;
    if mem =? 0 then mret (-1)
    else
      v ← load pte;
      let flags := PTE_FLAGS v in
      memmoveM mem pa PGSIZE;;
      store pte (PA2PTE mem);;
      let flags := Z.lor (Z.land flags (Z.lnot PTE_COW)) PTE_W in
      v ← load pte;
      store pte (Z.lor v flags);;
      kfree pa;;
      mret 0.

(** One round of the copy loop; the variables are [dstva], [src] and [len]. *)
Definition copyout_body (pagetable : Z) (v : Z * Z * Z) : M (kst cow) (Z * Z * Z + Z) :=
  let '(dstva, src, len) := v in
  if len <=? 0 then mret (inr 0)
  else
    let va0 := PGROUNDDOWN dstva in
    if MAXVA <=? va0 then mret (inr (-1))
    else
      pte ← walk pagetable va0 0;
      bad ← (if pte =? 0 then mret true
             else v ← load pte;
                  if negb (has_flag v PTE_U) then mret true
                  else v ← load pte; mret (negb (has_flag v PTE_V)));
      if (bad : bool) then mret (inr (-1))
      else
        v ← load pte;
        pte ← (if has_flag v PTE_COW then
                 if va0 =? 0 then mret None
                 else r ← cowhandle pagetable va0;
                      if negb (r =? 0) then mret None
                      else pte ← walk pagetable va0 0; mret (Some pte)
               else mret (Some pte));
        match pte with
        | None => mret (inr (-1))
        | Some pte =>
            v ← load pte;
            let pa0 := PTE2PA v in
            let n := PGSIZE - (dstva - va0) in
            let n := if len <? n then len else n in
            memmoveM (pa0 + (dstva - va0)) src n;;
            mret (inl (va0 + PGSIZE, src + n, len - n))
        end.

Definition copyout (pagetable dstva src len : Z) : M (kst cow) Z :=
  loop (S (Z.to_nat len)) (copyout_body pagetable) (dstva, src, len).

(** One round of the fork loop, over [i]. *)
Definition uvmcopy_body (old new sz : Z) (i : Z) : M (kst cow) (Z + Z) :=
  if negb (i <? sz) then mret (inr 0)
  else
    pte ← walk old i 0;
    (if pte =? 0 then panic "uvmcopy: pte should exist" else mret tt);;
    v ← load pte;
    (if negb (has_flag v PTE_V) then panic "uvmcopy: page not present" else mret tt);;
    v ← load pte;
    let pa := PTE2PA v in
    let flags := u32 (PTE_FLAGS v) in
    let flags := Z.land flags (Z.lnot PTE_W) in
    let flags := Z.lor flags PTE_COW in
    store pte (Z.lor (PA2PTE pa) flags);;
    r ← mappages new i PGSIZE pa flags;
    if negb (r =? 0) then
      uvmunmap new 0 (i / PGSIZE) 1;;
      mret (inr (-1))
    else
      refcadd pa;;
      mret (inl (i + PGSIZE)).

Definition uvmcopy (old new sz : Z) : M (kst cow) Z :=
  loop (S (Z.to_nat ((sz + PGSIZE - 1) / PGSIZE))) (uvmcopy_body old new sz) 0.

(** ** Address spaces

    A slot is a page of a user address space: a page table and a page-aligned
    virtual address.  Its entry is the word [walk] finds. *)

Definition slot : Type := Z * Z.
Definition pte_of (m : mem) (σ : slot) : Z := walk0 m σ.1 σ.2.
Definition entry (m : mem) (σ : slot) : Z := load64 m (pte_of m σ).
Definition page_of (m : mem) (σ : slot) : Z := PTE2PA (entry m σ).
Definition mapped (m : mem) (σ : slot) : bool :=
  negb (pte_of m σ =? 0) && has_flag (entry m σ) PTE_V.
(** How many of the slots map the page [pa]. *)
Definition mapcount (m : mem) (slots : list slot) (pa : Z) : Z :=
  countb (λ σ, mapped m σ && (page_of m σ =? pa)) slots.
(** The byte a user reads at offset [off] of a slot. *)
Definition uread (m : mem) (σ : slot) (off : Z) : Z := m (page_of m σ + off).

(** The page a byte lies in. *)
Definition frame (b : Z) : Z := b / 4096 * 4096.

(** A byte of the page tables: read by some lookup, or part of an entry. *)
Definition table_byte (m : mem) (slots : list slot) (b : Z) : Prop :=
  ∃ σ, σ ∈ slots ∧ (visits m σ.1 σ.2 b ∨ pte_of m σ ≠ 0 ∧ in_range (pte_of m σ) 8 b).

Record cow_inv (slots : list slot) (s : kst cow) (a : alloc_spec) : Prop := {
  ci_rep : rep s a;
  ci_nodup : NoDup slots;
  ci_aligned σ : σ ∈ slots → σ.2 mod 4096 = 0 ∧ 0 ≤ σ.2 < MAXVA;
  ci_pte σ : σ ∈ slots → pte_of (kmem s) σ mod 8 = 0;
  ci_entry σ : σ ∈ slots → mapped (kmem s) σ = true → 0 ≤ entry (kmem s) σ < 2 ^ 54;
  ci_distinct σ τ : σ ∈ slots → τ ∈ slots → pte_of (kmem s) σ ≠ 0 →
    pte_of (kmem s) σ = pte_of (kmem s) τ → σ = τ;
  ci_interior σ τ b : σ ∈ slots → τ ∈ slots → visits (kmem s) σ.1 σ.2 b →
    pte_of (kmem s) τ ≠ 0 → ¬ in_range (pte_of (kmem s) τ) 8 b;
  ci_tables_alloc b : table_byte (kmem s) slots b → frame b ∉ avail a;
  ci_tables_user b σ : table_byte (kmem s) slots b → σ ∈ slots →
    mapped (kmem s) σ = true → page_of (kmem s) σ ≠ frame b;
  ci_managed σ : σ ∈ slots → mapped (kmem s) σ = true → managed (page_of (kmem s) σ);
  ci_count σ : σ ∈ slots → mapped (kmem s) σ = true →
    refs a (page_of (kmem s) σ) = mapcount (kmem s) slots (page_of (kmem s) σ);
  ci_shared σ : σ ∈ slots → mapped (kmem s) σ = true →
    2 ≤ refs a (page_of (kmem s) σ) →
    has_flag (entry (kmem s) σ) PTE_COW = true ∧ has_flag (entry (kmem s) σ) PTE_W = false;
}.

(** ** Frames *)

Lemma frame_range b : in_range (frame b) 4096 b.
Proof. unfold in_range, frame. dlia. Qed.

Lemma frame_aligned b : frame b mod 4096 = 0.
Proof. unfold frame. apply Z_mod_mult. Qed.

Lemma in_page_frame p b : p mod 4096 = 0 → in_range p 4096 b ↔ frame b = p.
Proof. unfold in_range, frame. intros. dlia. Qed.

Lemma word_frame p b : p mod 8 = 0 → in_range p 8 b → frame b = frame p.
Proof. unfold in_range, frame. intros. dlia. Qed.

(** ** The allocator across unrelated writes *)

Lemma rep_mem m m' h h' c c' (x : cow) a :
  rep (KSt m h c x) a → (∀ q, q ∈ avail a → load64 m' q = load64 m q) →
  rep (KSt m' h' c' x) a.
Proof.
  intros [Hch Hbl Hct Hrf Hfr] Hm. constructor; cbn -[flist managed] in *; try done.
  by eapply flist_frame.
Qed.

Lemma avail_managed (s : kst cow) a q : rep s a → q ∈ avail a → managed q.
Proof. intros Hrep Hq. by eapply blocks_elem; [apply (rep_blocks _ _ Hrep)|]. Qed.

(** A write to bytes of frames that are not free keeps the free list. *)
Lemma rep_write m m' h c (x : cow) a :
  rep (KSt m h c x) a →
  agree_on (λ b, frame b ∈ avail a) m m' → rep (KSt m' h c x) a.
Proof.
  intros Hrep Hag. eapply rep_mem; [done|]. intros q Hq. apply load64_ext.
  eapply agree_on_mono; [done|]. intros b Hb. cbn.
  destruct (avail_managed _ _ _ Hrep Hq) as [Hal _].
  rewrite (word_frame q b) by (done || dlia). unfold frame. by replace (q / 4096 * 4096) with q by dlia.
Qed.

Lemma rep_set_mem m' (s : kst cow) a :
  rep s a → agree_on (λ b, frame b ∈ avail a) (kmem s) m' → rep (set_mem m' s) a.
Proof. destruct s. apply rep_write. Qed.

(** ** [cowhandle] on every branch *)

Section cowhandle.
Context (pagetable va : Z) (Hva : 0 ≤ va < MAXVA).

Lemma walk_bind {B} s (k : Z → M (kst cow) B) :
  (walk pagetable va 0 ≫= k) s = k (walk0 (kmem s) pagetable va) s.
Proof. by erewrite bind_Ok by by apply walk_lookup. Qed.

(** Not a copy-on-write page: refused, nothing changes. *)
Lemma cowhandle_rejects s :
  let pte := walk0 (kmem s) pagetable va in
  let v := load64 (kmem s) pte in
  pte = 0 ∨ has_flag v PTE_V = false ∨ has_flag v PTE_COW = false ∨ va = 0 →
  cowhandle pagetable va s = Ok (-1) s.
Proof.
  cbn zeta. intros Hbad. unfold cowhandle. rewrite walk_bind.
  set (pte := walk0 _ _ _) in *. set (v := load64 _ _) in *.
  destruct (pte =? 0) eqn:E; [by kstep|bool_to_Prop]. rewrite bind_assoc. kstep.
  change (load64 (kmem s) pte) with v.
  destruct (has_flag v PTE_V) eqn:EV; [|by kstep]. cbn. rewrite bind_assoc. kstep.
  change (load64 (kmem s) pte) with v.
  destruct (has_flag v PTE_COW) eqn:EC; cbn; [|by kstep]. kstep.
  destruct Hbad as [?|[?|[?|Hz]]]; try congruence. by rewrite Hz.
Qed.

(** A copy-on-write page: what remains is to copy it. *)
Lemma cowhandle_copies s :
  let pte := walk0 (kmem s) pagetable va in
  let v := load64 (kmem s) pte in
  pte ≠ 0 → has_flag v PTE_V = true → has_flag v PTE_COW = true → va ≠ 0 →
  cowhandle pagetable va s =
  (mem ← kalloc;
   if mem =? 0 then mret (-1)
   else
     w ← load pte;
     memmoveM mem (PTE2PA v) PGSIZE;;
     store pte (PA2PTE mem);;
     w' ← load pte;
     store pte (Z.lor w' (Z.lor (Z.land (PTE_FLAGS w) (Z.lnot PTE_COW)) PTE_W));;
     kfree (PTE2PA v);;
     mret 0) s.
Proof.
  cbn zeta. intros Hpte HV HC Hz. unfold cowhandle. rewrite walk_bind.
  set (pte := walk0 _ _ _) in *.
  rewrite (proj2 (Z.eqb_neq _ _) Hpte). rewrite bind_assoc. kstep.
  rewrite HV. cbn. rewrite bind_assoc. kstep. rewrite HC. cbn. kstep.
  rewrite (proj2 (Z.eqb_neq _ _) Hz). by kstep.
Qed.

(** With no page left the handler fails and changes nothing. *)
Lemma cowhandle_no_memory s a :
  let pte := walk0 (kmem s) pagetable va in
  let v := load64 (kmem s) pte in
  rep s a → unlocked s → avail a = [] →
  pte ≠ 0 → has_flag v PTE_V = true → has_flag v PTE_COW = true → va ≠ 0 →
  cowhandle pagetable va s = Ok (-1) s.
Proof.
  cbn zeta. intros Hrep [Hl _] Hav Hpte HV HC Hz. rewrite cowhandle_copies by done.
  pose proof (rep_chain _ _ Hrep) as Hch. rewrite Hav in Hch.
  destruct s as [m h c x]. by erewrite bind_Ok by (by apply kalloc_empty).
Qed.
End cowhandle.

(** ** The copy *)

Definition cow_flags (v : Z) : Z :=
  Z.lor (Z.land (PTE_FLAGS v) (Z.lnot PTE_COW)) PTE_W.

Lemma cow_flags_range v : 0 ≤ v < 2 ^ 64 → 0 ≤ cow_flags v < 2 ^ 10.
Proof.
  intros Hv. unfold cow_flags. rewrite PTE_FLAGS_spec by done.
  apply bits_small; [done|]. intros i Hi.
  rewrite Z.lor_spec, Z.land_spec, (testbit_above (v mod 2 ^ 10) 10)
    by first [apply Z.mod_pos_bound; lia | lia].
  apply (testbit_above PTE_W 10); [by split|lia].
Qed.

Lemma frame_not_in p b : p mod 4096 = 0 → frame b ≠ p → ¬ in_range p 4096 b.
Proof. intros Hp Hne Hb. by apply Hne, in_page_frame. Qed.

Section success.
Context (pagetable va : Z) (Hva : 0 ≤ va < MAXVA).
Context (s : kst cow) (a : alloc_spec) (Hrep : rep s a) (Hul : unlocked s).
Let pte := walk0 (kmem s) pagetable va.
Let v := load64 (kmem s) pte.
Let pa := PTE2PA v.
Context (Hpte : pte ≠ 0) (HV : has_flag v PTE_V = true)
        (HC : has_flag v PTE_COW = true) (Hz : va ≠ 0).
Context (Hpte8 : pte mod 8 = 0) (Htab : frame pte ∉ avail a)
        (Hpa : managed pa) (Hne : frame pte ≠ pa) (Href : 1 ≤ refs a pa).

Context (p : Z) (l : list Z) (Hav : avail a = p :: l).

Lemma cowhandle_success :
  ∃ s', cowhandle pagetable va s = Ok 0 s' ∧ keeps s s' ∧
    rep s' (spec_kfree pa (AllocSpec l (upd (refs a) p 1))) ∧
    load64 (kmem s') pte = u64 (Z.lor (u64 (PA2PTE p)) (cow_flags v)) ∧
    (∀ off, 0 ≤ off < 4096 → kmem s' (p + off) = kmem s (pa + off)) ∧
    agree_on (λ b, frame b ≠ p ∧ ¬ in_range pte 8 b ∧ (frame b ≠ pa ∨ 1 < refs a pa))
             (kmem s) (kmem s').
Proof.
  rewrite cowhandle_copies by done. fold pte v pa.
  destruct (kalloc_refines_spec s a Hrep Hul) as (s1 & Hk & Hrep1 & Hkeep1 & Hag1 & _).
  unfold spec_kalloc in *. rewrite Hav in *. cbn in Hk, Hrep1, Hag1.
  destruct (rep_head _ _ _ _ Hrep Hav) as (_ & Hp & Hp0).
  assert (Hpne : pa ≠ p) by (intros Heq; rewrite Heq in Href; lia).
  destruct (Hp) as (Hpal & _). destruct (Hpa) as (Hpaal & _).
  assert (Htp : frame pte ≠ p) by (intros Heq; apply Htab; rewrite Heq; by apply elem_of_cons; left).
  assert (Hpl : p ∉ l).
  { pose proof (rep_blocks _ _ Hrep) as Hb. rewrite Hav in Hb. by apply blocks_cons in Hb as [[? _] _]. }
  erewrite bind_Ok by done. cbn beta.
  rewrite (proj2 (Z.eqb_neq p 0)) by (pose proof (managed_nonzero p Hp); lia).
  do 5 kstep.
  destruct s1 as [m1 h1 c1 x1]. cbn in *. unfold set_mem; cbn.
  assert (Hv1 : load64 m1 pte = v).
  { apply load64_ext. eapply agree_on_mono; [done|]. cbn. intros b Hb. left.
    apply frame_not_in; [done|]. by rewrite (word_frame pte). }
  assert (Hm1 : ∀ b, frame b ≠ p → m1 b = kmem s b).
  { intros b Hb. apply Hag1. left. by apply frame_not_in. }
  rewrite Hv1, load64_store64_eq. fold (cow_flags v).
  set (m2 := store64 (store64 (memmove m1 p pa PGSIZE) pte (PA2PTE p)) pte _).
  assert (Hm2 : ∀ b, frame b ≠ p → ¬ in_range pte 8 b → m2 b = kmem s b).
  { intros b Hb Hb8. unfold m2. rewrite !store64_ne by done.
    rewrite memmove_ne by (by apply frame_not_in). by apply Hm1. }
  assert (Hrep2 : rep (KSt m2 h1 c1 x1) (AllocSpec l (upd (refs a) p 1))).
  { eapply rep_write; [done|]. intros b Hb. cbn in Hb.
    assert (frame b ≠ p) by congruence.
    rewrite Hm2, Hm1; try done. intros Hb8. apply Htab.
    rewrite <-(word_frame pte b) by done. by apply elem_of_cons; right. }
  destruct (kfree_refines_spec (KSt m2 h1 c1 x1) _ pa Hrep2) as (s3 & Hk3 & Hrep3 & Hkeep3 & Hag3).
  { destruct Hkeep1 as [Hh _]. unfold unlocked; cbn. cbn in Hh. by rewrite Hh. }
  { done. }
  { cbn. by rewrite upd_ne by done. }
  cbn in Hag3. rewrite upd_ne in Hag3 by done. cbn beta iota.
  erewrite bind_Ok by done. exists s3. split; [done|].
  split; [by eapply keeps_trans|]. split; [done|].
  assert (Hm3 : ∀ b, frame b ≠ pa ∨ 1 < refs a pa → kmem s3 b = m2 b).
  { intros b Hb. apply Hag3. destruct Hb as [Hb|]; [left; by apply frame_not_in|by right]. }
  split; [|split].
  - erewrite (load64_ext m2 (kmem s3)); [by unfold m2; rewrite load64_store64_eq|].
    intros b Hb. apply Hm3. left. by rewrite (word_frame pte).
  - intros off Hoff.
    assert (Hfr : frame (p + off) = p) by (apply in_page_frame; [done|unfold in_range; lia]).
    assert (Hfr' : frame (pa + off) = pa) by (apply in_page_frame; [done|unfold in_range; lia]).
    rewrite Hm3 by (left; congruence). unfold m2.
    assert (¬ in_range pte 8 (p + off)).
    { intros Hb. apply Htp. rewrite <-(word_frame pte (p + off)); done. }
    rewrite !store64_ne by done.
    rewrite memmove_in by (unfold in_range, PGSIZE; lia).
    rewrite Hm1 by (replace (pa + (p + off - p)) with (pa + off) by lia; congruence).
    f_equal. lia.
  - intros b (Hb1 & Hb2 & Hb3). by rewrite Hm3, Hm2.
Qed.
End success.

(** ** The invariant across a copy *)

Lemma has_flag_bit v i : 0 ≤ i → has_flag v (2 ^ i) = Z.testbit v i.
Proof.
  intros Hi. unfold has_flag. rewrite land_bit_pow2 by done.
  destruct (Z.testbit v i); [|done]. rewrite (proj2 (Z.eqb_neq _ _)); [done|].
  pose proof (Z.pow_pos_nonneg 2 i). lia.
Qed.

Lemma cow_flags_bit v i :
  0 ≤ v < 2 ^ 64 → 0 ≤ i < 10 →
  Z.testbit (cow_flags v) i = (Z.testbit v i && negb (i =? 9)) || (i =? 2).
Proof.
  intros Hv Hi. unfold cow_flags. rewrite PTE_FLAGS_spec by done.
  rewrite Z.lor_spec, Z.land_spec, Z.lnot_spec, Z.mod_pow2_bits_low by lia.
  change PTE_COW with (2 ^ 9). change PTE_W with (2 ^ 2).
  by rewrite !Z.pow2_bits_eqb, (Z.eqb_sym 9), (Z.eqb_sym 2) by lia.
Qed.

(** The entry the handler writes maps the new page, with the old flags except
    that it is writable and no longer copy-on-write. *)
Lemma new_entry p v :
  managed p → 0 ≤ v < 2 ^ 64 →
  let e := u64 (Z.lor (u64 (PA2PTE p)) (cow_flags v)) in
  0 ≤ e < 2 ^ 54 ∧ PTE2PA e = p ∧ PTE_FLAGS e = cow_flags v.
Proof.
  intros Hp Hv. cbn zeta. pose proof (managed_nonzero p Hp) as Hp'. destruct Hp as (Hal & _).
  pose proof (cow_flags_range v Hv) as Hf.
  destruct (PA2PTE_flags p (cow_flags v)) as (He & Hpa & Hfl); [done|lia|done|].
  rewrite (u64_small (PA2PTE p)).
  2: { rewrite PA2PTE_spec by lia. change (2 ^ 12) with 4096. change (2 ^ 10) with 1024. dlia. }
  rewrite u64_small; [|rewrite He; change (2 ^ 10) with 1024 in *; dlia].
  split; [rewrite He; change (2 ^ 10) with 1024 in *; dlia|done].
Qed.

Section isolation.
Context (slots : list slot) (s s' : kst cow) (a : alloc_spec) (p : Z) (l : list Z).
Context (σ : slot) (Hinv : cow_inv slots s a) (Hσ : σ ∈ slots).
Let pte := pte_of (kmem s) σ.
Let pa := page_of (kmem s) σ.
Context (Hmap : mapped (kmem s) σ = true) (Hav : avail a = p :: l).
Let a' := spec_kfree pa (AllocSpec l (upd (refs a) p 1)).
Context (Hrep' : rep s' a').
Context (Hword : load64 (kmem s') pte =
                 u64 (Z.lor (u64 (PA2PTE p)) (cow_flags (entry (kmem s) σ)))).
Context (Hcopy : ∀ off, 0 ≤ off < 4096 → kmem s' (p + off) = kmem s (pa + off)).
Context (Hag : agree_on (λ b, frame b ≠ p ∧ ¬ in_range pte 8 b ∧ (frame b ≠ pa ∨ 1 < refs a pa))
                        (kmem s) (kmem s')).

Lemma iso_pte : pte ≠ 0.
Proof. unfold mapped in Hmap. apply andb_true_iff in Hmap as [H1 _]. by bool_to_Prop. Qed.

Lemma iso_fresh : p ∈ avail a ∧ managed p ∧ refs a p = 0 ∧ p ∉ l.
Proof.
  destruct Hinv. destruct (rep_head _ _ _ _ ci_rep0 Hav) as (_ & Hp & H0').
  rewrite Hav. split; [by apply elem_of_cons; left|]. split; [done|]. split; [done|].
  pose proof (rep_blocks _ _ ci_rep0) as Hb. rewrite Hav in Hb. by apply blocks_cons in Hb as [[? _] _].
Qed.

(** A mapped page is referred to, so it is not the fresh page. *)
Lemma iso_page_refs τ :
  τ ∈ slots → mapped (kmem s) τ = true →
  1 ≤ refs a (page_of (kmem s) τ) ∧ page_of (kmem s) τ ≠ p.
Proof.
  intros Hτ Hm. pose proof (ci_count _ _ _ Hinv τ Hτ Hm) as Hc.
  assert (1 ≤ refs a (page_of (kmem s) τ)).
  { rewrite Hc. apply (countb_pos _ _ τ); [done|]. by rewrite Hm, Z.eqb_refl. }
  split; [done|]. intros Heq. destruct iso_fresh as (_ & _ & H0' & _). rewrite Heq in *. lia.
Qed.

Lemma iso_table b :
  table_byte (kmem s) slots b → ¬ in_range pte 8 b → kmem s' b = kmem s b.
Proof.
  intros Hb Hpte8. apply Hag. split; [|split; [done|left]].
  - intros Heq. apply (ci_tables_alloc _ _ _ Hinv b Hb). rewrite Heq. by apply iso_fresh.
  - intros Heq. by apply (ci_tables_user _ _ _ Hinv b σ Hb Hσ Hmap).
Qed.

Lemma iso_visits τ : τ ∈ slots → agree_on (visits (kmem s) τ.1 τ.2) (kmem s) (kmem s').
Proof.
  intros Hτ b Hb. apply iso_table; [exists τ; auto|].
  by apply (ci_interior _ _ _ Hinv τ σ), iso_pte.
Qed.

Lemma iso_walk τ : τ ∈ slots → pte_of (kmem s') τ = pte_of (kmem s) τ.
Proof. intros Hτ. by apply walk0_local, iso_visits. Qed.

Lemma iso_entry τ :
  τ ∈ slots → τ ≠ σ → pte_of (kmem s) τ ≠ 0 → entry (kmem s') τ = entry (kmem s) τ.
Proof.
  intros Hτ Hne Hz. unfold entry. rewrite iso_walk by done. apply load64_ext. intros b Hb.
  apply iso_table; [exists τ; auto|].
  pose proof (ci_pte _ _ _ Hinv τ Hτ). pose proof (ci_pte _ _ _ Hinv σ Hσ).
  assert (pte_of (kmem s) τ ≠ pte) by (intros Heq; by apply Hne, (ci_distinct _ _ _ Hinv)).
  subst pte. unfold in_range in *. dlia.
Qed.

Lemma iso_entry_range : 0 ≤ entry (kmem s) σ < 2 ^ 64.
Proof. pose proof (ci_entry _ _ _ Hinv σ Hσ Hmap). lia. Qed.

Lemma iso_new :
  entry (kmem s') σ = u64 (Z.lor (u64 (PA2PTE p)) (cow_flags (entry (kmem s) σ))).
Proof. unfold entry at 1. by rewrite iso_walk. Qed.

Lemma iso_new_page :
  page_of (kmem s') σ = p ∧ 0 ≤ entry (kmem s') σ < 2 ^ 54 ∧
  PTE_FLAGS (entry (kmem s') σ) = cow_flags (entry (kmem s) σ).
Proof.
  unfold page_of. rewrite iso_new. destruct iso_fresh as (_ & Hp & _).
  destruct (new_entry p (entry (kmem s) σ) Hp iso_entry_range) as (? & ? & ?). done.
Qed.

Lemma iso_new_bit i :
  0 ≤ i < 10 → Z.testbit (entry (kmem s') σ) i =
  (Z.testbit (entry (kmem s) σ) i && negb (i =? 9)) || (i =? 2).
Proof.
  intros Hi. destruct iso_new_page as (_ & He & Hfl).
  rewrite <-cow_flags_bit, <-Hfl, PTE_FLAGS_spec by (done || apply iso_entry_range || lia).
  by rewrite Z.mod_pow2_bits_low by lia.
Qed.

Lemma iso_new_mapped : mapped (kmem s') σ = true.
Proof.
  pose proof Hmap as HV. unfold mapped in HV |- *. rewrite iso_walk by done.
  apply andb_true_iff in HV as [-> HV].
  change PTE_V with (2 ^ 0) in HV |- *. rewrite has_flag_bit in HV |- * by lia.
  by rewrite iso_new_bit, HV by lia.
Qed.

Lemma iso_mapped τ : τ ∈ slots → mapped (kmem s') τ = mapped (kmem s) τ.
Proof.
  intros Hτ. destruct (decide (τ = σ)) as [->|Hne]; [by rewrite iso_new_mapped|].
  unfold mapped. rewrite iso_walk by done. destruct (pte_of (kmem s) τ =? 0) eqn:E; [done|].
  bool_to_Prop. by rewrite iso_entry.
Qed.

Lemma iso_page τ :
  τ ∈ slots → τ ≠ σ → mapped (kmem s) τ = true → page_of (kmem s') τ = page_of (kmem s) τ.
Proof.
  intros Hτ Hne Hm. unfold page_of. rewrite iso_entry; try done.
  unfold mapped in Hm. apply andb_true_iff in Hm as [H1 _]. by bool_to_Prop.
Qed.

Lemma iso_refs q :
  refs a' q = upd (upd (refs a) p 1) pa (refs a pa - 1) q ∧
  (q ∈ avail a' → q ∈ l ∨ q = pa).
Proof.
  destruct (iso_page_refs σ Hσ Hmap) as [Hr Hne]. subst a' pa.
  unfold spec_kfree; cbn. rewrite (upd_ne (refs a)) by done.
  destruct (refs a (page_of (kmem s) σ) <=? 1) eqn:E; bool_to_Prop; cbn.
  - replace (refs a (page_of (kmem s) σ) - 1) with 0 by lia. rewrite elem_of_cons. tauto.
  - tauto.
Qed.

(** One slot moved from [pa] to [p]. *)
Lemma iso_mapcount q :
  mapcount (kmem s') slots q =
  mapcount (kmem s) slots q - (if pa =? q then 1 else 0) + (if p =? q then 1 else 0).
Proof.
  unfold mapcount.
  rewrite (countb_change (λ τ, mapped (kmem s) τ && (page_of (kmem s) τ =? q)) _ slots σ);
    [|apply Hinv|done|].
  - rewrite iso_new_mapped, Hmap. destruct iso_new_page as [-> _]. done.
  - intros τ Hτ Hne. cbn. rewrite iso_mapped by done.
    destruct (mapped (kmem s) τ) eqn:E; [|done]. by rewrite iso_page.
Qed.

Lemma iso_fresh_count : mapcount (kmem s) slots p = 0.
Proof.
  apply countb_zero. intros τ Hτ. destruct (mapped (kmem s) τ) eqn:E; [|done]. cbn.
  apply Z.eqb_neq. by apply iso_page_refs.
Qed.

Lemma iso_count τ :
  τ ∈ slots → mapped (kmem s') τ = true →
  refs a' (page_of (kmem s') τ) = mapcount (kmem s') slots (page_of (kmem s') τ).
Proof.
  intros Hτ Hm. rewrite iso_mapped in Hm by done.
  rewrite (proj1 (iso_refs _)), iso_mapcount. unfold upd.
  destruct (iso_page_refs σ Hσ Hmap) as [Hr Hne]. fold pa in Hr, Hne.
  destruct (decide (τ = σ)) as [->|Hneq].
  - destruct iso_new_page as [-> _]. rewrite (proj2 (Z.eqb_neq p pa)), Z.eqb_refl by done.
    rewrite (proj2 (Z.eqb_neq pa p)), iso_fresh_count by done. lia.
  - rewrite iso_page by done. destruct (iso_page_refs τ Hτ Hm) as [_ Hnp].
    rewrite (proj2 (Z.eqb_neq _ p)) by done.
    rewrite (proj2 (Z.eqb_neq p _)) by done.
    rewrite (Z.eqb_sym pa). destruct (page_of (kmem s) τ =? pa) eqn:E; bool_to_Prop.
    + rewrite E. unfold pa. rewrite (ci_count _ _ _ Hinv σ) by done. lia.
    + rewrite (ci_count _ _ _ Hinv τ) by done. lia.
Qed.

Lemma iso_table_byte b : table_byte (kmem s') slots b → table_byte (kmem s) slots b.
Proof.
  intros (τ & Hτ & Hb). exists τ. split; [done|]. rewrite iso_walk in Hb by done.
  destruct Hb as [Hb|Hb]; [left|by right].
  eapply visits_local; [by apply iso_visits|done].
Qed.

Lemma iso_shared τ :
  τ ∈ slots → mapped (kmem s') τ = true → 2 ≤ refs a' (page_of (kmem s') τ) →
  has_flag (entry (kmem s') τ) PTE_COW = true ∧ has_flag (entry (kmem s') τ) PTE_W = false.
Proof.
  intros Hτ Hm. rewrite iso_mapped in Hm by done. rewrite (proj1 (iso_refs _)).
  destruct (iso_page_refs σ Hσ Hmap) as [Hr Hne]. fold pa in Hr, Hne.
  destruct (decide (τ = σ)) as [->|Hneq].
  - destruct iso_new_page as [-> _]. rewrite upd_ne, upd_eq by done. lia.
  - rewrite iso_page, iso_entry; try done.
    2: { unfold mapped in Hm. apply andb_true_iff in Hm as [H1 _]. by bool_to_Prop. }
    destruct (iso_page_refs τ Hτ Hm) as [_ Hnp]. intros H2.
    apply (ci_shared _ _ _ Hinv); [done..|]. revert H2. unfold upd.
    destruct (page_of (kmem s) τ =? pa) eqn:E; bool_to_Prop; [rewrite E; lia|].
    by rewrite (proj2 (Z.eqb_neq _ p)).
Qed.

Lemma iso_inv : cow_inv slots s' a'.
Proof.
  constructor; try apply Hinv; [done|intros τ Hτ..|intros b Hb|intros b τ Hb Hτ Hm| | |].
  - rewrite iso_walk by done. by apply Hinv.
  - intros Hm. destruct (decide (τ = σ)) as [->|Hne]; [apply iso_new_page|].
    rewrite iso_mapped in Hm by done. rewrite iso_entry; [by apply Hinv|done..|].
    unfold mapped in Hm. apply andb_true_iff in Hm as [H1 _]. by bool_to_Prop.
  - intros υ Hυ. rewrite !iso_walk by done. by apply Hinv.
  - intros υ b Hυ Hb. rewrite iso_walk by done. apply (ci_interior _ _ _ Hinv τ); [done..|].
    eapply visits_local; [by apply iso_visits|done].
  - apply iso_table_byte in Hb. intros Hin. apply iso_refs in Hin as [Hin|Hin]; [|
      by apply (ci_tables_user _ _ _ Hinv b σ Hb Hσ Hmap); fold pa].
    apply (ci_tables_alloc _ _ _ Hinv b Hb). rewrite Hav. by apply elem_of_cons; right.
  - apply iso_table_byte in Hb. rewrite iso_mapped in Hm by done.
    destruct (decide (τ = σ)) as [->|Hne].
    + destruct iso_new_page as [-> _]. intros Heq. apply (ci_tables_alloc _ _ _ Hinv b Hb).
      rewrite <-Heq. by apply iso_fresh.
    + rewrite iso_page by done. by apply (ci_tables_user _ _ _ Hinv b τ).
  - intros τ Hτ Hm. rewrite iso_mapped in Hm by done.
    destruct (decide (τ = σ)) as [->|Hne].
    + destruct iso_new_page as [-> _]. apply iso_fresh.
    + rewrite iso_page by done. by apply Hinv.
  - apply iso_count.
  - apply iso_shared.
Qed.

(** Every process still reads what it read before. *)
Lemma iso_uread τ off :
  τ ∈ slots → mapped (kmem s) τ = true → 0 ≤ off < 4096 →
  uread (kmem s') τ off = uread (kmem s) τ off.
Proof.
  intros Hτ Hm Hoff. unfold uread. destruct (decide (τ = σ)) as [->|Hne].
  { destruct iso_new_page as [-> _]. by apply Hcopy. }
  rewrite iso_page by done. destruct (ci_managed _ _ _ Hinv τ Hτ Hm) as (Hal & _).
  set (q := page_of (kmem s) τ) in *.
  assert (Hfr : frame (q + off) = q) by (apply in_page_frame; [done|unfold in_range; lia]).
  apply Hag. rewrite Hfr. split; [by apply iso_page_refs|]. split.
  - intros Hb. apply (ci_tables_user _ _ _ Hinv (q + off) τ); [|done..|by rewrite Hfr].
    exists σ. split; [done|]. right. split; [apply iso_pte|done].
  - destruct (decide (q = pa)) as [Heq|]; [right|by left].
    pose proof (ci_count _ _ _ Hinv σ Hσ Hmap) as Hc. fold pa in Hc. rewrite Hc. unfold mapcount.
    assert (2 ≤ mapcount (kmem s) slots pa); [|unfold mapcount in *; lia].
    apply (countb_two _ _ τ σ); [done..| |]; fold pa q; rewrite ?Hm, ?Hmap.
    + apply Z.eqb_eq. done.
    + apply Z.eqb_refl.
Qed.
End isolation.

(** ** [cowhandle] under the invariant *)

(** The slot of an address. *)
Definition slot_at (pagetable va : Z) : slot := (pagetable, va / 4096 * 4096).

Lemma pte_slot_at m pagetable va : pte_of m (slot_at pagetable va) = walk0 m pagetable va.
Proof. unfold pte_of. symmetry. apply walk0_page. Qed.

Lemma mapped_true m σ :
  mapped m σ = true ↔ pte_of m σ ≠ 0 ∧ has_flag (entry m σ) PTE_V = true.
Proof. unfold mapped. rewrite andb_true_iff, negb_true_iff, Z.eqb_neq. done. Qed.

(** No slot is mapped or unmapped; every process reads what it read before. *)
Definition mapped_kept (slots : list slot) (m m' : mem) : Prop :=
  ∀ τ, τ ∈ slots → mapped m' τ = mapped m τ.
Definition reads_kept (slots : list slot) (m m' : mem) : Prop :=
  ∀ τ off, τ ∈ slots → mapped m τ = true → 0 ≤ off < 4096 → uread m' τ off = uread m τ off.
(** The entries of the slots other than [σ] are not changed. *)
Definition others_kept (slots : list slot) (σ : slot) (m m' : mem) : Prop :=
  ∀ τ, τ ∈ slots → τ ≠ σ → mapped m τ = true → entry m' τ = entry m τ.

(** Every mapped slot keeps its entry. *)
Definition entries_kept (slots : list slot) (m m' : mem) : Prop :=
  ∀ τ, τ ∈ slots → mapped m τ = true → entry m' τ = entry m τ.
Definition pages_kept (slots : list slot) (m m' : mem) : Prop :=
  ∀ τ, τ ∈ slots → mapped m τ = true → page_of m' τ = page_of m τ.

Lemma reads_kept_trans slots m1 m2 m3 :
  (∀ τ, τ ∈ slots → mapped m1 τ = true → mapped m2 τ = true) →
  reads_kept slots m1 m2 → reads_kept slots m2 m3 → reads_kept slots m1 m3.
Proof. intros Hm H12 H23 τ off Hτ Hmτ Hoff. rewrite H23, H12; auto. Qed.

(** A byte of the kernel's own: not in a free page, a page table or a page
    mapped by a user. *)
Definition private_byte (slots : list slot) (s : kst cow) (a : alloc_spec) (b : Z) : Prop :=
  (frame b ∉ avail a) ∧ ¬ table_byte (kmem s) slots b ∧
  ∀ τ, τ ∈ slots → mapped (kmem s) τ = true → page_of (kmem s) τ ≠ frame b.
Definition private_kept (slots : list slot) (s : kst cow) (a : alloc_spec)
    (s' : kst cow) (a' : alloc_spec) : Prop :=
  ∀ b, private_byte slots s a b → private_byte slots s' a' b ∧ kmem s' b = kmem s b.

Lemma table_byte_pte slots m σ :
  σ ∈ slots → pte_of m σ ≠ 0 → table_byte m slots (pte_of m σ).
Proof. intros Hσ Hz. exists σ. split; [done|]. right. unfold in_range. split; [done|lia]. Qed.

Lemma cow_refs slots (s : kst cow) a σ :
  cow_inv slots s a → σ ∈ slots → mapped (kmem s) σ = true →
  1 ≤ refs a (page_of (kmem s) σ) ∧ page_of (kmem s) σ ∉ avail a.
Proof.
  intros Hinv Hσ Hm.
  assert (1 ≤ refs a (page_of (kmem s) σ)).
  { rewrite (ci_count _ _ _ Hinv) by done. apply (countb_pos _ _ σ); [done|].
    by rewrite Hm, Z.eqb_refl. }
  split; [done|]. intros Hin. apply (rep_free _ _ (ci_rep _ _ _ Hinv)) in Hin; [lia|].
  by apply (ci_managed _ _ _ Hinv).
Qed.

Lemma cowhandle_ok slots (s : kst cow) a pagetable va :
  let σ := slot_at pagetable va in
  cow_inv slots s a → unlocked s → 0 ≤ va < MAXVA → σ ∈ slots →
  mapped (kmem s) σ = true → has_flag (entry (kmem s) σ) PTE_COW = true → va ≠ 0 →
  avail a ≠ [] →
  ∃ s' a', cowhandle pagetable va s = Ok 0 s' ∧ keeps s s' ∧ cow_inv slots s' a' ∧
    mapped_kept slots (kmem s) (kmem s') ∧ others_kept slots σ (kmem s) (kmem s') ∧
    reads_kept slots (kmem s) (kmem s') ∧ private_kept slots s a s' a' ∧ refs a' (page_of (kmem s') σ) = 1 ∧
    (∀ i, 0 ≤ i < 10 → Z.testbit (entry (kmem s') σ) i =
       (Z.testbit (entry (kmem s) σ) i && negb (i =? 9)) || (i =? 2)).
Proof.
  cbn zeta. set (σ := slot_at pagetable va). intros Hinv Hul Hva Hσ Hm HC Hz Hav.
  destruct (avail a) as [|p l] eqn:Ha; [done|].
  pose proof (proj1 (mapped_true _ _) Hm) as [Hpte HV].
  destruct (cow_refs _ _ _ _ Hinv Hσ Hm) as [Href _].
  assert (Htb : table_byte (kmem s) slots (pte_of (kmem s) σ)).
  { by apply table_byte_pte. }
  assert (Hpe : walk0 (kmem s) pagetable va = pte_of (kmem s) σ) by (symmetry; apply pte_slot_at).
  pose proof (ci_tables_alloc _ _ _ Hinv _ Htb) as Htab.
  pose proof (ci_tables_user _ _ _ Hinv _ _ Htb Hσ Hm) as Htu.
  pose proof (ci_managed _ _ _ Hinv σ Hσ Hm) as Hman.
  pose proof (ci_pte _ _ _ Hinv σ Hσ) as H8.
  destruct (cowhandle_success pagetable va Hva s a (ci_rep _ _ _ Hinv) Hul) with (p := p) (l := l)
    as (s' & Hrun & Hkeep & Hrep' & Hword & Hcopy & Hag); rewrite ?Hpe; try done.
  rewrite Hpe in *. fold (entry (kmem s) σ) in *. fold (page_of (kmem s) σ) in *.
  exists s', (spec_kfree (page_of (kmem s) σ) (AllocSpec l (upd (refs a) p 1))).
  split; [done|]. split; [done|].
  destruct (iso_new_page slots s s' a p l σ) as (Hnp & _); try done.
  split; [by apply (iso_inv slots s s' a p l σ)|].
  assert (Hmk : mapped_kept slots (kmem s) (kmem s')) by
    (intros τ Hτ; by rewrite (iso_mapped slots s s' a p l σ)).
  split; [done|]. split; [|split; [|split; [|split]]].
  - intros τ Hτ Hne Hmτ. apply (iso_entry slots s s' a p l σ); try done.
    by apply mapped_true in Hmτ as [].
  - intros τ off Hτ Hmτ Hoff. by apply (iso_uread slots s s' a p l σ).
  - intros b (Hb1 & Hb2 & Hb3).
    assert (Hbp : frame b ≠ p) by (intros Heq; apply Hb1; rewrite Heq, Ha; by apply elem_of_cons; left).
    split; [split; [|split]|].
    + intros Hin. apply (iso_refs slots s a p l σ Hinv Hσ Hm Ha) in Hin as [Hin|Hin].
      * apply Hb1. rewrite Ha. by apply elem_of_cons; right.
      * by apply (Hb3 σ).
    + intros Ht. by apply Hb2, (iso_table_byte slots s s' a p l σ).
    + intros τ Hτ Hmτ. rewrite Hmk in Hmτ by done.
      destruct (decide (τ = σ)) as [->|Hne]; [by rewrite Hnp|].
      rewrite (iso_page slots s s' a p l σ) by done. by apply Hb3.
    + apply Hag. split; [done|]. split; [|left; intros Heq; by apply (Hb3 σ)].
      intros Hr. apply Hb2. exists σ. auto.
  - rewrite Hnp. rewrite (proj1 (iso_refs slots s a p l σ Hinv Hσ Hm Ha p)).
    rewrite upd_ne, upd_eq; [done|].
    intros Heq. destruct (iso_page_refs slots s a p l σ Hinv Ha σ Hσ Hm). congruence.
  - intros i Hi. by apply (iso_new_bit slots s s' a p l σ).
Qed.

(** ** Writing to a page *)

(** Replacing the contents of a page that is neither free nor a page table. *)
Section data_write.
Context (slots : list slot) (s : kst cow) (a : alloc_spec) (m' : mem) (q : Z).
Context (Hinv : cow_inv slots s a) (Hq : q ∉ avail a)
        (Hqt : ∀ b, table_byte (kmem s) slots b → frame b ≠ q)
        (Hag : agree_on (λ b, frame b ≠ q) (kmem s) m').

Lemma dw_walk τ : τ ∈ slots → pte_of m' τ = pte_of (kmem s) τ.
Proof.
  intros Hτ. apply walk0_local. intros b Hb. apply Hag, Hqt. exists τ. auto.
Qed.

Lemma dw_entry τ : τ ∈ slots → pte_of (kmem s) τ ≠ 0 → entry m' τ = entry (kmem s) τ.
Proof.
  intros Hτ Hz. unfold entry. rewrite dw_walk by done. apply load64_ext.
  intros b Hb. apply Hag, Hqt. exists τ. auto.
Qed.

Lemma dw_mapped τ : τ ∈ slots → mapped m' τ = mapped (kmem s) τ.
Proof.
  intros Hτ. unfold mapped. rewrite dw_walk by done.
  destruct (pte_of (kmem s) τ =? 0) eqn:E; [done|]. bool_to_Prop. by rewrite dw_entry.
Qed.

Lemma dw_page τ :
  τ ∈ slots → mapped (kmem s) τ = true →
  entry m' τ = entry (kmem s) τ ∧ page_of m' τ = page_of (kmem s) τ.
Proof.
  intros Hτ Hm. unfold page_of. rewrite dw_entry; [done|done|]. by apply mapped_true in Hm as [].
Qed.

Lemma dw_table b : table_byte m' slots b → table_byte (kmem s) slots b.
Proof.
  intros (τ & Hτ & Hb). exists τ. split; [done|]. rewrite dw_walk in Hb by done.
  destruct Hb as [Hb|Hb]; [left|by right]. eapply visits_local, Hb.
  intros b' Hb'. apply Hag, Hqt. exists τ. auto.
Qed.

Lemma dw_mapcount pa : mapcount m' slots pa = mapcount (kmem s) slots pa.
Proof.
  apply countb_ext. intros τ Hτ. rewrite dw_mapped by done.
  destruct (mapped (kmem s) τ) eqn:E; [|done]. by rewrite (proj2 (dw_page τ Hτ E)).
Qed.

Lemma dw_inv : cow_inv slots (set_mem m' s) a.
Proof.
  constructor; cbn [kmem set_mem]; try apply Hinv.
  - apply rep_set_mem; [apply Hinv|]. intros b Hb. apply Hag. congruence.
  - intros τ Hτ. rewrite dw_walk by done. by apply Hinv.
  - intros τ Hτ Hm. rewrite dw_mapped in Hm by done. destruct (dw_page τ Hτ Hm) as [-> _].
    by apply Hinv.
  - intros τ υ Hτ Hυ. rewrite !dw_walk by done. by apply Hinv.
  - intros τ υ b Hτ Hυ Hb. rewrite dw_walk by done. apply (ci_interior _ _ _ Hinv τ); [done..|].
    eapply visits_local, Hb. intros b' Hb'. apply Hag, Hqt. exists τ. auto.
  - intros b Hb. by apply (ci_tables_alloc _ _ _ Hinv), dw_table.
  - intros b τ Hb Hτ Hm. rewrite dw_mapped in Hm by done. destruct (dw_page τ Hτ Hm) as [_ ->].
    apply (ci_tables_user _ _ _ Hinv b τ); [by apply dw_table|done..].
  - intros τ Hτ Hm. rewrite dw_mapped in Hm by done. destruct (dw_page τ Hτ Hm) as [_ ->].
    by apply Hinv.
  - intros τ Hτ Hm. rewrite dw_mapped in Hm by done. destruct (dw_page τ Hτ Hm) as [_ ->].
    rewrite dw_mapcount. by apply (ci_count _ _ _ Hinv).
  - intros τ Hτ Hm. rewrite dw_mapped in Hm by done. destruct (dw_page τ Hτ Hm) as [-> ->].
    by apply Hinv.
Qed.
End data_write.

(** ** [copyout] *)

(** The entry a copy-out to [σ] may write through. *)
Definition user_entry (m : mem) (σ : slot) : bool :=
  mapped m σ && has_flag (entry m σ) PTE_U.

(** The break-the-sharing part of a round, named for the proofs. *)
Definition copyout_unshare (pagetable va0 pte v : Z) : M (kst cow) (option Z) :=
  if has_flag v PTE_COW then
    if va0 =? 0 then mret None
    else r ← cowhandle pagetable va0;
         if negb (r =? 0) then mret None
         else pte ← walk pagetable va0 0; mret (Some pte)
  else mret (Some pte).

Definition copyout_write (va0 dstva src len : Z) (pte : option Z) :
    M (kst cow) (Z * Z * Z + Z) :=
  match pte with
  | None => mret (inr (-1))
  | Some pte =>
      v ← load pte;
      let pa0 := PTE2PA v in
      let n := PGSIZE - (dstva - va0) in
      let n := if len <? n then len else n in
      memmoveM (pa0 + (dstva - va0)) src n;;
      mret (inl (va0 + PGSIZE, src + n, len - n))
  end.

Lemma copyout_body_user pagetable dstva src len (s : kst cow) :
  let va0 := dstva / 4096 * 4096 in
  let pte := walk0 (kmem s) pagetable va0 in
  let v := load64 (kmem s) pte in
  0 ≤ dstva < 2 ^ 64 → 0 < len → va0 < MAXVA →
  copyout_body pagetable (dstva, src, len) s =
  (if negb (pte =? 0) && has_flag v PTE_U && has_flag v PTE_V
   then (copyout_unshare pagetable va0 pte v ≫= copyout_write va0 dstva src len) s
   else Ok (inr (-1)) s).
Proof.
  cbn zeta. intros Hd Hl Hm. unfold copyout_body. cbv zeta.
  rewrite (proj2 (Z.leb_gt _ _)), PGROUNDDOWN_spec by lia.
  rewrite (proj2 (Z.leb_gt _ _)) by lia.
  set (va0 := dstva / 4096 * 4096) in *.
  rewrite (walk_bind pagetable va0) by (unfold va0 in *; dlia).
  set (pte := walk0 _ _ _). destruct (pte =? 0) eqn:E; [by kstep|]. cbn.
  rewrite bind_assoc. kstep. destruct (has_flag _ PTE_U) eqn:EU; cbn; [|by kstep].
  rewrite bind_assoc. kstep. destruct (has_flag _ PTE_V) eqn:EV; cbn; [|by kstep].
  do 2 kstep. apply bind_ext. intros [pte'|] s'; [|done]. done.
Qed.

(** The part of a round that writes: one page that no one else maps. *)
Lemma copyout_write_ok slots (s : kst cow) a pagetable dstva src len :
  let va0 := dstva / 4096 * 4096 in
  let σ := slot_at pagetable dstva in
  let n := Z.min len (4096 - dstva mod 4096) in
  cow_inv slots s a → 0 < len → 0 ≤ dstva →
  σ ∈ slots → mapped (kmem s) σ = true → refs a (page_of (kmem s) σ) = 1 →
  (∀ b, src ≤ b < src + len → private_byte slots s a b) →
  ∃ s', copyout_write va0 dstva src len (Some (pte_of (kmem s) σ)) s =
        Ok (inl (va0 + 4096, src + n, len - n)) s' ∧
    keeps s s' ∧ cow_inv slots s' a ∧ private_kept slots s a s' a ∧
    mapped_kept slots (kmem s) (kmem s') ∧
    ∀ τ off, τ ∈ slots → mapped (kmem s) τ = true → 0 ≤ off < 4096 →
      uread (kmem s') τ off =
      if bool_decide (τ = σ ∧ dstva mod 4096 ≤ off < dstva mod 4096 + n)
      then kmem s (src + (off - dstva mod 4096)) else uread (kmem s) τ off.
Proof.
  cbn zeta. intros Hinv Hlen Hd Hσ Hm Href Hsrc. set (σ := slot_at pagetable dstva) in *.
  set (off0 := dstva mod 4096). assert (Hoff0 : 0 ≤ off0 < 4096) by (unfold off0; dlia).
  replace (dstva / 4096 * 4096) with (dstva - off0) by (unfold off0; dlia).
  set (n := Z.min len (4096 - off0)). set (q := page_of (kmem s) σ) in *.
  destruct (ci_managed _ _ _ Hinv σ Hσ Hm) as (Hqal & _). fold q in Hqal.
  unfold copyout_write. do 2 kstep. fold (entry (kmem s) σ). fold (page_of (kmem s) σ). fold q.
  unfold PGSIZE. replace (dstva - (dstva - off0)) with off0 by lia.
  replace (if len <? 4096 - off0 then len else 4096 - off0) with n
    by (unfold n; case_bool; bool_to_Prop; lia).
  eexists. split; [done|].
  assert (Hag : agree_on (λ b, frame b ≠ q) (kmem s) (memmove (kmem s) (q + off0) src n)).
  { intros b Hb. apply memmove_ne. intros Hr. apply Hb, in_page_frame; [done|].
    unfold in_range, n in *. lia. }
  assert (Hqt : ∀ b, table_byte (kmem s) slots b → frame b ≠ q).
  { intros b Hb Heq. by apply (ci_tables_user _ _ _ Hinv b σ). }
  destruct (cow_refs _ _ _ _ Hinv Hσ Hm) as [_ Hqa]. fold q in Hqa.
  split; [done|]. split; [by apply (dw_inv slots s a _ q)|]. split; [|split].
  - intros b (Hb1 & Hb2 & Hb3). split; [split; [done|split]|].
    + intros Ht. by apply Hb2, (dw_table slots s _ q Hqt Hag).
    + intros τ Hτ Hmτ. cbn in *. rewrite (dw_mapped slots s _ q Hqt Hag) in Hmτ by done.
      rewrite (proj2 (dw_page slots s _ q Hqt Hag τ Hτ Hmτ)). by apply Hb3.
    + apply Hag. intros Heq. by apply (Hb3 σ).
  - intros τ Hτ. by apply (dw_mapped slots s _ q Hqt Hag).
  - intros τ off Hτ Hmτ Hoff. unfold uread; cbn.
    rewrite (proj2 (dw_page slots s _ q Hqt Hag τ Hτ Hmτ)).
    destruct (decide (τ = σ)) as [->|Hne].
    + fold q. case_bool_decide as Hin.
      * rewrite memmove_in by (unfold in_range; lia). f_equal. lia.
      * assert (¬ (off0 ≤ off < off0 + n)) by tauto.
        apply memmove_ne. unfold in_range. lia.
    + rewrite bool_decide_eq_false_2 by tauto. apply Hag.
      destruct (ci_managed _ _ _ Hinv τ Hτ Hmτ) as (Hτal & _).
      rewrite (proj1 (in_page_frame (page_of (kmem s) τ) _ Hτal)) by (unfold in_range; lia).
      intros Heq. pose proof (ci_count _ _ _ Hinv σ Hσ Hm) as Hc. fold q in Hc.
      assert (2 ≤ mapcount (kmem s) slots q); [|lia].
      apply (countb_two _ _ τ σ); [done..| |]; fold q; rewrite ?Hmτ, ?Hm; by apply Z.eqb_eq.
Qed.

(** One round under the invariant. *)
Lemma copyout_round slots (s : kst cow) a pagetable dstva src len :
  let va0 := dstva / 4096 * 4096 in
  let σ := slot_at pagetable dstva in
  let n := Z.min len (4096 - dstva mod 4096) in
  cow_inv slots s a → unlocked s → 0 < len → 0 ≤ dstva < 2 ^ 64 →
  (va0 < MAXVA → σ ∈ slots) →
  (∀ b, src ≤ b < src + len → private_byte slots s a b) →
  ∃ r s' a', copyout_body pagetable (dstva, src, len) s = Ok r s' ∧
    keeps s s' ∧ cow_inv slots s' a' ∧ private_kept slots s a s' a' ∧
    mapped_kept slots (kmem s) (kmem s') ∧
    match r with
    | inr z => z = -1 ∧ reads_kept slots (kmem s) (kmem s')
    | inl v => v = (va0 + 4096, src + n, len - n) ∧ va0 < MAXVA ∧ mapped (kmem s) σ = true ∧
        ∀ τ off, τ ∈ slots → mapped (kmem s) τ = true → 0 ≤ off < 4096 →
          uread (kmem s') τ off =
          if bool_decide (τ = σ ∧ dstva mod 4096 ≤ off < dstva mod 4096 + n)
          then kmem s (src + (off - dstva mod 4096)) else uread (kmem s) τ off
    end.
Proof.
  cbn zeta. intros Hinv Hul Hlen Hd Hcov Hsrc. set (σ := slot_at pagetable dstva) in *.
  destruct (Z.le_gt_cases MAXVA (dstva / 4096 * 4096)) as [Hhi|Hlo].
  { exists (inr (-1)), s, a. split; [|done]. unfold copyout_body. cbv zeta.
    rewrite (proj2 (Z.leb_gt _ _)), PGROUNDDOWN_spec by lia.
    by rewrite (proj2 (Z.leb_le _ _)). }
  assert (Hva : 0 ≤ dstva / 4096 * 4096 < MAXVA) by (split; [|done]; dlia).
  specialize (Hcov Hlo). rewrite copyout_body_user by lia.
  assert (Hpe : walk0 (kmem s) pagetable (dstva / 4096 * 4096) = pte_of (kmem s) σ) by done.
  rewrite Hpe. fold (entry (kmem s) σ).
  destruct (negb _ && _ && _) eqn:Hok; [|by exists (inr (-1)), s, a].
  apply andb_true_iff in Hok as [Hok HV]. apply andb_true_iff in Hok as [Hz _].
  apply negb_true_iff, Z.eqb_neq in Hz.
  assert (Hm : mapped (kmem s) σ = true) by by apply mapped_true.
  unfold copyout_unshare. destruct (has_flag (entry (kmem s) σ) PTE_COW) eqn:HC.
  - destruct (dstva / 4096 * 4096 =? 0) eqn:E0; bool_to_Prop.
    { exists (inr (-1)), s, a. done. }
    assert (Hslot : slot_at pagetable (dstva / 4096 * 4096) = σ).
    { unfold σ, slot_at. f_equal. by rewrite Z.div_mul. }
    destruct (decide (avail a = [])) as [Hav|Hav].
    { exists (inr (-1)), s, a. split; [|done]. rewrite bind_assoc.
      pose proof (table_byte_pte slots (kmem s) σ Hcov Hz) as Htb.
      assert (cowhandle pagetable (dstva / 4096 * 4096) s = Ok (-1) s) as Hcw.
      { apply (cowhandle_no_memory pagetable _ Hva s a); rewrite ?Hpe; try done.
        apply Hinv. }
      by rewrite (bind_Ok _ _ _ _ _ Hcw). }
    destruct (cowhandle_ok slots s a pagetable (dstva / 4096 * 4096))
      as (s1 & a1 & Hrun & Hk1 & Hinv1 & Hmk1 & _ & Hr1 & Hp1 & Hone & _);
      rewrite ?Hslot in *; try done.
    rewrite bind_assoc. erewrite bind_Ok by done. cbn. rewrite bind_assoc.
    rewrite walk_bind by done. cbn.
    assert (Hm1 : mapped (kmem s1) σ = true) by (by rewrite Hmk1).
    destruct (copyout_write_ok slots s1 a1 pagetable dstva src len)
      as (s2 & Hw & Hk2 & Hinv2 & Hp2 & Hmk2 & Hur); try done; [lia| |].
    { intros b Hb. by apply Hp1, Hsrc. }
    exists (inl (dstva / 4096 * 4096 + 4096, src + Z.min len (4096 - dstva mod 4096),
                 len - Z.min len (4096 - dstva mod 4096))), s2, a1.
    split; [exact Hw|]. split; [by eapply keeps_trans|]. split; [done|].
    split; [|split; [|split; [done|split; [done|split; [done|]]]]].
    + intros b Hb. destruct (Hp1 b Hb) as [Hb1 Hbe]. destruct (Hp2 b Hb1) as [Hb2 Hbe2].
      split; [done|]. by rewrite Hbe2.
    + intros τ Hτ. by rewrite Hmk2, Hmk1.
    + intros τ off Hτ Hmτ Hoff. rewrite Hur by (rewrite ?Hmk1; done).
      change (slot_at pagetable dstva) with σ. case_bool_decide as Hin; [|by apply Hr1].
      apply Hp1, Hsrc. lia.
  - destruct (copyout_write_ok slots s a pagetable dstva src len)
      as (s2 & Hw & Hk2 & Hinv2 & Hp2 & Hmk2 & Hur); try done; [lia| |].
    { destruct (cow_refs _ _ _ _ Hinv Hcov Hm) as [H1 _].
      destruct (Z.le_gt_cases 2 (refs a (page_of (kmem s) σ))) as [H2|]; [|unfold σ in *; lia].
      destruct (ci_shared _ _ _ Hinv σ Hcov Hm H2). congruence. }
    exists (inl (dstva / 4096 * 4096 + 4096, src + Z.min len (4096 - dstva mod 4096),
                 len - Z.min len (4096 - dstva mod 4096))), s2, a.
    split; [exact Hw|]. done.
Qed.

(** ** The whole copy *)

(** After [k] bytes: user memory holds the first [k] bytes of the source at
    [dstva] and is otherwise as it was. *)
Definition copied (slots : list slot) (m m' : mem) (pagetable dstva src k : Z) : Prop :=
  ∀ τ off, τ ∈ slots → mapped m τ = true → 0 ≤ off < 4096 →
    uread m' τ off =
    if bool_decide (τ.1 = pagetable ∧ dstva ≤ τ.2 + off < dstva + k)
    then m (src + (τ.2 + off - dstva)) else uread m τ off.

Lemma slot_at_eq slots (s : kst cow) a τ pagetable va :
  cow_inv slots s a → τ ∈ slots → 0 ≤ va →
  τ = slot_at pagetable va ↔ τ.1 = pagetable ∧ τ.2 ≤ va < τ.2 + 4096.
Proof.
  intros Hinv Hτ Hva. destruct (ci_aligned _ _ _ Hinv τ Hτ) as [Hal _].
  destruct τ as [pt a0]. unfold slot_at; cbn in *. split.
  - intros [= -> ->]. split; [done|]. dlia.
  - intros [-> Hr]. f_equal. dlia.
Qed.

(** What holds between the rounds of [copyout], [k] bytes done. *)
Record copying (slots : list slot) (s : kst cow) (a : alloc_spec)
    (pagetable dstva src len : Z) (k : Z) (a' : alloc_spec) (v : Z * Z * Z)
    (s' : kst cow) : Prop := {
  co_src : v.1.2 = src + k;
  co_len : v.2 = len - k;
  co_k : 0 ≤ k ≤ len;
  co_range : 0 ≤ v.1.1 < 2 ^ 64;
  co_dst : 0 < v.2 → v.1.1 = dstva + k;
  co_keeps : keeps s s';
  co_inv : cow_inv slots s' a';
  co_priv : private_kept slots s a s' a';
  co_mapped : mapped_kept slots (kmem s) (kmem s');
  co_copied : copied slots (kmem s) (kmem s') pagetable dstva src k;
  co_cover i : 0 ≤ i < k → slot_at pagetable (dstva + i) ∈ slots ∧
    mapped (kmem s) (slot_at pagetable (dstva + i)) = true;
}.

(** What [copyout] guarantees when it returns [r]. *)
Definition copyout_post (slots : list slot) (s : kst cow) (a : alloc_spec)
    (pagetable dstva src len : Z) (r : Z) (s' : kst cow) : Prop :=
  ∃ k a' v, copying slots s a pagetable dstva src len k a' v s' ∧
    (r = 0 ∧ k = len ∨ r = -1 ∧ k < len).

Lemma keeps_unlocked (s s' : kst cow) : keeps s s' → unlocked s → unlocked s'.
Proof. intros [Hh _]. unfold unlocked. by rewrite Hh. Qed.

(** One more piece of at most a page copied. *)
Lemma copied_round slots (s s1 s2 : kst cow) a1 pagetable dstva src len k n :
  let d := dstva + k in
  cow_inv slots s1 a1 → 0 ≤ d < 2 ^ 64 → 0 ≤ k → 0 < n ≤ 4096 - d mod 4096 → k + n ≤ len →
  (∀ b, src ≤ b < src + len → kmem s1 b = kmem s b) →
  copied slots (kmem s) (kmem s1) pagetable dstva src k →
  (∀ τ off, τ ∈ slots → mapped (kmem s) τ = true → 0 ≤ off < 4096 →
     uread (kmem s2) τ off =
     if bool_decide (τ = slot_at pagetable d ∧ d mod 4096 ≤ off < d mod 4096 + n)
     then kmem s1 (src + k + (off - d mod 4096)) else uread (kmem s1) τ off) →
  copied slots (kmem s) (kmem s2) pagetable dstva src (k + n).
Proof.
  cbn zeta. intros Hinv Hd Hk Hn Hlen Hsrc Hcp Hur τ off Hτ Hmτ Hoff. rewrite Hur, (Hcp τ off Hτ Hmτ Hoff) by done.
  pose proof (slot_at_eq _ _ _ τ pagetable (dstva + k) Hinv Hτ ltac:(lia)) as Hiff.
  destruct (ci_aligned _ _ _ Hinv τ Hτ) as [Hal _].
  assert (Hmod : (dstva + k) mod 4096 = dstva + k - (dstva + k) / 4096 * 4096) by dlia.
  case_bool_decide as Hb1.
  - destruct Hb1 as [Heq Hr1]. assert (τ.2 = (dstva + k) / 4096 * 4096) as Hτ2 by by rewrite Heq.
    rewrite bool_decide_eq_true_2 by (apply Hiff in Heq; split; [tauto|lia]).
    rewrite Hsrc by lia. f_equal. lia.
  - case_bool_decide as Hb2.
    + by rewrite bool_decide_eq_true_2 by (split; [tauto|lia]).
    + rewrite bool_decide_eq_false_2; [done|]. intros [Hpt Hr3].
      assert (Hge : dstva + k ≤ τ.2 + off) by (destruct (Z.lt_ge_cases (τ.2 + off) (dstva + k)); [exfalso; apply Hb2; split; [done|lia]|done]).
      apply Hb1. assert (Heq : τ = slot_at pagetable (dstva + k)) by (apply Hiff; split; [done|dlia]).
      split; [done|]. assert (τ.2 = (dstva + k) / 4096 * 4096) as Hτ2 by by rewrite Heq. lia.
Qed.

Lemma copying_round slots (s : kst cow) a pagetable dstva src len k a1 v s1 :
  unlocked s → 0 ≤ dstva →
  (∀ va, dstva ≤ va < dstva + len → va / 4096 * 4096 < MAXVA → slot_at pagetable va ∈ slots) →
  (∀ b, src ≤ b < src + len → private_byte slots s a b) →
  copying slots s a pagetable dstva src len k a1 v s1 →
  returns (copyout_body pagetable v) s1 (λ r s2,
    match r with
    | inl v' => (∃ k' a', copying slots s a pagetable dstva src len k' a' v' s2) ∧ v'.2 < v.2 ∧ 0 < v.2
    | inr z => copyout_post slots s a pagetable dstva src len z s2
    end).
Proof.
  intros Hul Hd0 Hcov Hsrc Hco. destruct v as [[d sr] ln].
  destruct Hco as [Hsr Hln Hk Hrg Hdst Hkp Hinv Hpr Hmk Hcp Hcv]; cbn in *. subst sr.
  destruct (Z.le_gt_cases ln 0) as [Hz|Hpos].
  { eapply returns_intro; [unfold copyout_body; by rewrite (proj2 (Z.leb_le _ _))|].
    exists k, a1, (d, src + k, ln). split; [done|]. left. lia. }
  specialize (Hdst Hpos). subst d.
  destruct (copyout_round slots s1 a1 pagetable (dstva + k) (src + k) ln)
    as (r & s2 & a2 & Hrun & Hk2 & Hinv2 & Hp2 & Hmk2 & Hr);
    [done|by eapply keeps_unlocked|done|done| | |].
  { intros Hm. apply Hcov; [lia|done]. }
  { intros b Hb. apply Hpr, Hsrc. lia. }
  assert (Hpr2 : private_kept slots s a s2 a2).
  { intros b Hb. destruct (Hpr b Hb) as [Hb1 He1]. destruct (Hp2 b Hb1) as [Hb2 He2].
    split; [done|]. by rewrite He2. }
  assert (Hmk12 : mapped_kept slots (kmem s) (kmem s2)) by (intros τ Hτ; by rewrite Hmk2, Hmk).
  eapply returns_intro; [done|]. destruct r as [v'|z].
  - destruct Hr as (-> & Hm & Hms & Hur). set (n := Z.min ln (4096 - (dstva + k) mod 4096)) in *.
    assert (Hn : 0 < n ≤ ln) by (unfold n; pose proof (Z.mod_pos_bound (dstva + k) 4096); lia).
    assert (Hσ : slot_at pagetable (dstva + k) ∈ slots) by (apply Hcov; [lia|done]).
    split; [|cbn; lia]. exists (k + n), a2. pose proof MAXVA_bound.
    constructor; cbn; try done; try lia.
    + unfold n. dlia.
    + intros Hlt. unfold n in *. dlia.
    + by eapply keeps_trans.
    + apply (copied_round slots s s1 s2 a1 pagetable dstva src len); try done; try lia.
      * intros b Hb. apply (Hpr _ (Hsrc _ Hb)).
      * intros τ off Hτ Hmτ Hoff. apply Hur; [done|by rewrite Hmk|done].
    + intros i Hi. destruct (Z.lt_ge_cases i k); [apply Hcv; lia|].
      assert (slot_at pagetable (dstva + i) = slot_at pagetable (dstva + k)) as ->.
      { unfold slot_at. f_equal. unfold n in *. dlia. }
      split; [done|]. by rewrite <-(Hmk _ Hσ).
  - destruct Hr as (-> & Hrk). exists k, a2, (dstva + k, src + k, ln). split; [|right; lia].
    constructor; cbn; try done.
    + by eapply keeps_trans.
    + intros τ off Hτ Hmτ Hoff. rewrite Hrk by (rewrite ?Hmk; done). by apply Hcp.
Qed.

Lemma copyout_ok slots (s : kst cow) a pagetable dstva src len :
  cow_inv slots s a → unlocked s → 0 ≤ dstva < 2 ^ 64 → 0 ≤ len →
  (∀ va, dstva ≤ va < dstva + len → va / 4096 * 4096 < MAXVA → slot_at pagetable va ∈ slots) →
  (∀ b, src ≤ b < src + len → private_byte slots s a b) →
  returns (copyout pagetable dstva src len) s (copyout_post slots s a pagetable dstva src len).
Proof.
  intros Hinv Hul Hd Hlen Hcov Hsrc. unfold copyout.
  apply (loop_returns _ (λ v s1, ∃ k a1, copying slots s a pagetable dstva src len k a1 v s1)
           (λ v, Z.to_nat v.2)).
  - intros v s1 (k & a1 & Hco). eapply returns_mono;
      [exact (copying_round _ _ _ _ _ _ _ _ _ _ _ Hul (proj1 Hd) Hcov Hsrc Hco)|].
    intros [v'|z] s2; [|done]. intros (Hx & Hlt & Hp). split; [done|]. lia.
  - exists 0, a. constructor; cbn; try done; try lia.
    intros τ off Hτ Hm Hoff. rewrite bool_decide_eq_false_2 by lia. done.
  - cbn. lia.
Qed.

(** The faults [cowhandle] serves. *)
Definition breakable (m : mem) (a : alloc_spec) (σ : slot) (va : Z) : Prop :=
  mapped m σ = true ∧ has_flag (entry m σ) PTE_COW = true ∧ va ≠ 0 ∧ avail a ≠ [].

Lemma cowhandle_refused slots (s : kst cow) a pagetable va :
  cow_inv slots s a → unlocked s → 0 ≤ va < MAXVA →
  ¬ breakable (kmem s) a (slot_at pagetable va) va → cowhandle pagetable va s = Ok (-1) s.
Proof.
  intros Hinv Hul Hva Hno. set (σ := slot_at pagetable va) in *.
  assert (Hpe := pte_slot_at (kmem s) pagetable va). fold σ in Hpe.
  destruct (mapped (kmem s) σ) eqn:Hm.
  - pose proof (proj1 (mapped_true _ _) Hm) as [Hz HV].
    destruct (has_flag (entry (kmem s) σ) PTE_COW) eqn:HC;
      [|apply cowhandle_rejects; [done|]; rewrite <-Hpe; fold (entry (kmem s) σ); tauto].
    destruct (decide (va = 0)) as [|Hv0]; [apply cowhandle_rejects; [done|]; tauto|].
    apply (cowhandle_no_memory _ _ Hva s a); rewrite <-?Hpe; try done; [apply Hinv|].
    destruct (avail a) eqn:Ha; [done|]. exfalso. apply Hno. unfold breakable. by rewrite Ha.
  - apply cowhandle_rejects; [done|]. rewrite <-Hpe. fold (entry (kmem s) σ).
    unfold mapped in Hm. apply andb_false_iff in Hm as [Hm|Hm]; [|tauto].
    apply negb_false_iff, Z.eqb_eq in Hm. tauto.
Qed.

(** ** Main theorems *)

(** C2: [cowhandle] gives the faulting process a private, writable copy and
    disturbs nobody.  On a page that is mapped copy-on-write, at an address
    other than 0 and with memory left, it returns 0: the process alone maps
    the new page, may write it, and every process (this one included) still
    reads the bytes it read before through an otherwise unchanged page table;
    the reference counts again equal the number of mappings.  In every other
    case it returns -1 and changes nothing. *)
Theorem cowhandle_isolates slots (s : kst cow) a pagetable va :
  let σ := slot_at pagetable va in
  cow_inv slots s a → unlocked s → 0 ≤ va < MAXVA → σ ∈ slots →
  (¬ breakable (kmem s) a σ va → cowhandle pagetable va s = Ok (-1) s) ∧
  (breakable (kmem s) a σ va → ∃ s' a', cowhandle pagetable va s = Ok 0 s' ∧ keeps s s' ∧
     cow_inv slots s' a' ∧ mapped_kept slots (kmem s) (kmem s') ∧
     others_kept slots σ (kmem s) (kmem s') ∧ reads_kept slots (kmem s) (kmem s') ∧
     has_flag (entry (kmem s') σ) PTE_W = true ∧
     has_flag (entry (kmem s') σ) PTE_COW = false ∧
     mapcount (kmem s') slots (page_of (kmem s') σ) = 1).
Proof.
  cbn zeta. intros Hinv Hul Hva Hσ. set (σ := slot_at pagetable va) in *. split.
  - intros Hno. by apply (cowhandle_refused slots s a).
  - intros (Hm & HC & Hv0 & Hav).
    destruct (cowhandle_ok slots s a pagetable va)
      as (s' & a' & Hrun & Hk & Hinv' & Hmk & Hok & Hrk & _ & Hone & Hbits); try done.
    fold σ in Hok, Hone, Hbits. exists s', a'. do 6 (split; [done|]).
    change PTE_W with (2 ^ 2). change PTE_COW with (2 ^ 9). rewrite !has_flag_bit by lia.
    rewrite !Hbits by lia. split; [by rewrite orb_true_r|]. split; [by rewrite andb_false_r|].
    rewrite <-(ci_count _ _ _ Hinv' σ Hσ); [done|]. by rewrite Hmk.
Qed.

(** C3: [copyout] writes exactly the source bytes to exactly the destination
    range, whatever it has to unshare on the way, and always terminates.
    When it returns 0 the whole range holds the source; when it returns -1 a
    proper prefix does.  No other byte any process reads changes: in
    particular an address space other than [pagetable] that shared a written
    page keeps its contents.  The copy-on-write invariant is kept. *)
Theorem copyout_isolates slots (s : kst cow) a pagetable dstva src len :
  cow_inv slots s a → unlocked s → 0 ≤ dstva < 2 ^ 64 → 0 ≤ len →
  (∀ va, dstva ≤ va < dstva + len → va / 4096 * 4096 < MAXVA → slot_at pagetable va ∈ slots) →
  (∀ b, src ≤ b < src + len → private_byte slots s a b) →
  ∃ r s' a' k, copyout pagetable dstva src len s = Ok r s' ∧ keeps s s' ∧
    cow_inv slots s' a' ∧ mapped_kept slots (kmem s) (kmem s') ∧
    (r = 0 ∧ k = len ∨ r = -1 ∧ 0 ≤ k < len) ∧
    (∀ i, 0 ≤ i < k → mapped (kmem s) (slot_at pagetable (dstva + i)) = true) ∧
    (∀ τ off, τ ∈ slots → mapped (kmem s) τ = true → 0 ≤ off < 4096 →
       uread (kmem s') τ off =
       if bool_decide (τ.1 = pagetable ∧ dstva ≤ τ.2 + off < dstva + k)
       then kmem s (src + (τ.2 + off - dstva)) else uread (kmem s) τ off).
Proof.
  intros Hinv Hul Hd Hlen Hcov Hsrc.
  destruct (copyout_ok slots s a pagetable dstva src len Hinv Hul Hd Hlen Hcov Hsrc)
    as (r & s' & Hrun & k & a' & v & [] & Hr).
  exists r, s', a', k. do 4 (split; [done|]). split; [lia|].
  split; [|done]. intros i Hi. by apply co_cover0.
Qed.

End cow_vm.
