(* ===== verification/CowFork.v ===== *)
(** * Copy-on-write fork (lab6, [uvmcopy] of kernel/vm.c)

    [uvmcopy] maps every page of the parent into the child, marks both
    entries copy-on-write and read-only, and counts the new reference.  The
    stock functions it calls are used through the laws below: [mappages] on
    one page and [uvmunmap] page by page, in terms of [walk] and of the
    allocator of [CowAlloc]; and [walk] with [alloc = 1], which takes free
    pages for the tables it needs and changes no existing mapping.  [CowWalk]
    proves the law of [walk] of the three-level walk of [Walk]. *)

From S2P Require Import Prelude Memory Machine FreeList CowAlloc CowVm.

Section cow_fork.
Context `{Riscv, MemLayout} {P : Type} `{!PageTable (cow (P := P))}.

Local Abbreviation cow := (cow (P := P)).

(** ** Page tables on their own *)

(** The structural part of the invariant: entries are distinct aligned words,
    no traversal reads an entry, and no table lies in a free page. *)
Record tables_ok (slots : list slot) (m : mem) (av : list Z) : Prop := {
  to_pte σ : σ ∈ slots → pte_of m σ mod 8 = 0;
  to_distinct σ τ : σ ∈ slots → τ ∈ slots → pte_of m σ ≠ 0 →
    pte_of m σ = pte_of m τ → σ = τ;
  to_interior σ τ b : σ ∈ slots → τ ∈ slots → visits m σ.1 σ.2 b →
    pte_of m τ ≠ 0 → ¬ in_range (pte_of m τ) 8 b;
  to_alloc b : table_byte m slots b → frame b ∉ av;
}.

(** What holds of a mapped slot. *)
Record user_ok (slots : list slot) (m : mem) (a : alloc_spec) (σ : slot) : Prop := {
  uo_entry : 0 ≤ entry m σ < 2 ^ 54;
  uo_managed : managed (page_of m σ);
  uo_table b : table_byte m slots b → page_of m σ ≠ frame b;
  uo_count : refs a (page_of m σ) = mapcount m slots (page_of m σ);
  uo_shared : 2 ≤ refs a (page_of m σ) →
    has_flag (entry m σ) PTE_COW = true ∧ has_flag (entry m σ) PTE_W = false;
}.

Lemma cow_inv_split slots (s : kst cow) a :
  cow_inv slots s a ↔
  rep s a ∧ NoDup slots ∧ (∀ σ, σ ∈ slots → σ.2 mod 4096 = 0 ∧ 0 ≤ σ.2 < MAXVA) ∧
  tables_ok slots (kmem s) (avail a) ∧
  (∀ σ, σ ∈ slots → mapped (kmem s) σ = true → user_ok slots (kmem s) a σ).
Proof.
  split.
  - intros []. do 3 (split; [done|]). split; [by constructor|].
    intros σ Hσ Hm. constructor; auto.
  - intros (Hrep & Hnd & Hal & [] & Hu). constructor; try done.
    + intros σ Hσ Hm. apply (Hu σ Hσ Hm).
    + intros b σ Hb Hσ Hm. by apply (Hu σ Hσ Hm).
    + intros σ Hσ Hm. apply (Hu σ Hσ Hm).
    + intros σ Hσ Hm. apply (Hu σ Hσ Hm).
    + intros σ Hσ Hm. apply (Hu σ Hσ Hm).
Qed.

(** ** The laws of the stock functions *)

(** The bytes the lookups of the slots read on their way to the entries. *)
Definition visited (slots : list slot) (m : mem) (b : Z) : Prop :=
  ∃ σ, σ ∈ slots ∧ visits m σ.1 σ.2 b.

(** [trees] is what the implementation of [walk] asks of the tables before it
    extends them: that the slots' page tables are trees apart from each other.
    It is read off the bytes above the entries. *)
Class ForkLaws := {
  mappages_page pt va pa perm s :
    va mod 4096 = 0 →
    mappages pt va PGSIZE pa perm s =
    (pte ← walk pt va 1;
     if pte =? 0 then mret (-1)
     else v ← load pte;
          (if has_flag v PTE_V then panic "mappages: remap" else mret tt);;
          store pte (Z.lor (Z.lor (PA2PTE pa) perm) PTE_V);;
          mret 0) s;
  uvmunmap_none pt va s : uvmunmap pt va 0 1 s = Ok tt s;
  uvmunmap_page pt va n s :
    va mod 4096 = 0 → 0 ≤ va < MAXVA → 0 ≤ n →
    mapped (kmem s) (pt, va) = true → PTE_FLAGS (entry (kmem s) (pt, va)) ≠ PTE_V →
    uvmunmap pt va (n + 1) 1 s =
    (let pte := pte_of (kmem s) (pt, va) in
     kfree (PTE2PA (load64 (kmem s) pte));;
     store pte 0;;
     uvmunmap pt (va + PGSIZE) n 1) s;
  trees : list slot → mem → Prop;
  trees_local slots m m' :
    agree_on (visited slots m) m m' → trees slots m → trees slots m';
  walk_alloc slots s a σ :
    rep s a → unlocked s → (∀ τ, τ ∈ slots → τ.2 mod 4096 = 0 ∧ 0 ≤ τ.2 < MAXVA) →
    tables_ok slots (kmem s) (avail a) → trees slots (kmem s) → σ ∈ slots →
    ∃ pte s' a', walk σ.1 σ.2 1 s = Ok pte s' ∧ keeps s s' ∧ rep s' a' ∧
      (pte = 0 ∨ pte = pte_of (kmem s') σ) ∧
      tables_ok slots (kmem s') (avail a') ∧ trees slots (kmem s') ∧
      (∀ q, q ∈ avail a' → q ∈ avail a) ∧
      (∀ q, q ∉ avail a → refs a' q = refs a q) ∧
      (∀ b, table_byte (kmem s') slots b → table_byte (kmem s) slots b ∨ frame b ∈ avail a) ∧
      (∀ τ, τ ∈ slots → if decide (pte_of (kmem s) τ = 0)
         then pte_of (kmem s') τ = 0 ∨ entry (kmem s') τ = 0
         else pte_of (kmem s') τ = pte_of (kmem s) τ ∧ entry (kmem s') τ = entry (kmem s) τ) ∧
      (∀ b, frame b ∉ avail a →
         (∀ b', frame b' = frame b → ¬ table_byte (kmem s) slots b') → kmem s' b = kmem s b);
}.

(** ** Writing one entry *)

Section entry_write.
Context (slots : list slot) (m m' : mem) (av : list Z) (σ : slot).
Context (Hto : tables_ok slots m av) (Hσ : σ ∈ slots) (Hz : pte_of m σ ≠ 0).
Context (Hag : agree_on (λ b, ¬ in_range (pte_of m σ) 8 b) m m').

Lemma ew_visits τ : τ ∈ slots → agree_on (visits m τ.1 τ.2) m m'.
Proof. intros Hτ b Hb. by apply Hag, (to_interior _ _ _ Hto τ). Qed.

Lemma ew_walk τ : τ ∈ slots → pte_of m' τ = pte_of m τ.
Proof. intros Hτ. by apply walk0_local, ew_visits. Qed.

Lemma ew_visited : agree_on (visited slots m) m m'.
Proof. intros b (τ & Hτ & Hb). by apply (ew_visits τ). Qed.

Lemma ew_entry τ : τ ∈ slots → τ ≠ σ → pte_of m τ ≠ 0 → entry m' τ = entry m τ.
Proof.
  intros Hτ Hne Hzτ. unfold entry. rewrite ew_walk by done. apply load64_ext.
  intros b Hb. apply Hag.
  pose proof (to_pte _ _ _ Hto τ Hτ). pose proof (to_pte _ _ _ Hto σ Hσ).
  assert (pte_of m τ ≠ pte_of m σ) by (intros Heq; by apply Hne, (to_distinct _ _ _ Hto)).
  unfold in_range in *. dlia.
Qed.

Lemma ew_mapped τ : τ ∈ slots → τ ≠ σ → mapped m' τ = mapped m τ.
Proof.
  intros Hτ Hne. unfold mapped. rewrite ew_walk by done.
  destruct (pte_of m τ =? 0) eqn:E; [done|]. bool_to_Prop. by rewrite ew_entry.
Qed.

Lemma ew_page τ :
  τ ∈ slots → τ ≠ σ → mapped m τ = true →
  entry m' τ = entry m τ ∧ page_of m' τ = page_of m τ.
Proof.
  intros Hτ Hne Hm. apply mapped_true in Hm as [Hzτ _]. unfold page_of. by rewrite ew_entry.
Qed.

Lemma ew_table b : table_byte m' slots b → table_byte m slots b.
Proof.
  intros (τ & Hτ & Hb). exists τ. split; [done|]. rewrite ew_walk in Hb by done.
  destruct Hb as [Hb|Hb]; [left|by right]. eapply visits_local, Hb. by apply ew_visits.
Qed.

Lemma ew_tables : tables_ok slots m' av.
Proof.
  constructor.
  - intros τ Hτ. rewrite ew_walk by done. by apply Hto.
  - intros τ υ Hτ Hυ. rewrite !ew_walk by done. by apply Hto.
  - intros τ υ b Hτ Hυ Hb. rewrite ew_walk by done. apply (to_interior _ _ _ Hto τ); [done..|].
    eapply visits_local, Hb. by apply ew_visits.
  - intros b Hb. by apply (to_alloc _ _ _ Hto), ew_table.
Qed.

Lemma ew_table_pte : table_byte m slots (pte_of m σ).
Proof. by apply table_byte_pte. Qed.

(** Bytes of frames that hold no table are not touched. *)
Lemma ew_byte b : frame b ≠ frame (pte_of m σ) → m' b = m b.
Proof.
  intros Hb. apply Hag. intros Hr. apply Hb. apply word_frame, Hr.
  by apply (to_pte _ _ _ Hto).
Qed.

Lemma ew_rep h c (x : cow) a :
  avail a = av → rep (KSt m h c x) a → rep (KSt m' h c x) a.
Proof.
  intros Hav Hrep. eapply rep_write; [done|]. intros b Hb. apply ew_byte. intros Heq.
  apply (to_alloc _ _ _ Hto _ ew_table_pte). by rewrite <-Heq, <-Hav.
Qed.

Lemma ew_mapcount q :
  NoDup slots →
  mapcount m' slots q =
  mapcount m slots q - (if mapped m σ && (page_of m σ =? q) then 1 else 0)
                     + (if mapped m' σ && (page_of m' σ =? q) then 1 else 0).
Proof.
  intros Hnd. unfold mapcount.
  rewrite (countb_change (λ τ, mapped m τ && (page_of m τ =? q)) _ slots σ); [done..|].
  intros τ Hτ Hne. rewrite ew_mapped by done.
  destruct (mapped m τ) eqn:E; [|done]. by rewrite (proj2 (ew_page τ Hτ Hne E)).
Qed.
End entry_write.

(** ** Sharing an entry *)

(** The flags [uvmcopy] gives both entries. *)
Definition share_flags (v : Z) : Z :=
  Z.lor (Z.land (u32 (PTE_FLAGS v)) (Z.lnot PTE_W)) PTE_COW.
Definition share_entry (v : Z) : Z := Z.lor (PA2PTE (PTE2PA v)) (share_flags v).

Lemma share_flags_bit v i :
  0 ≤ v < 2 ^ 64 → 0 ≤ i → Z.testbit (share_flags v) i =
  (bool_decide (i < 10) && Z.testbit v i && negb (i =? 2)) || (i =? 9).
Proof.
  intros Hv Hi. unfold share_flags. rewrite PTE_FLAGS_spec by done.
  unfold u32. rewrite Z.mod_small by (pose proof (Z.mod_pos_bound v (2 ^ 10)); lia).
  rewrite Z.lor_spec, Z.land_spec, Z.lnot_spec by done.
  change PTE_COW with (2 ^ 9). change PTE_W with (2 ^ 2).
  rewrite !Z.pow2_bits_eqb, (Z.eqb_sym 9), (Z.eqb_sym 2) by lia.
  case_bool_decide; [by rewrite Z.mod_pow2_bits_low by lia|].
  by rewrite Z.mod_pow2_bits_high by lia.
Qed.

Lemma share_flags_range v : 0 ≤ v < 2 ^ 64 → 0 ≤ share_flags v < 2 ^ 10.
Proof.
  intros Hv. apply bits_small; [lia|]. intros i Hi.
  rewrite share_flags_bit, bool_decide_eq_false_2 by lia. cbn. apply Z.eqb_neq. lia.
Qed.

Lemma share_entry_ok v :
  0 ≤ v < 2 ^ 54 → managed (PTE2PA v) →
  0 ≤ share_entry v < 2 ^ 54 ∧ PTE2PA (share_entry v) = PTE2PA v ∧
  (∀ i, 0 ≤ i < 10 → Z.testbit (share_entry v) i =
     (Z.testbit v i && negb (i =? 2)) || (i =? 9)).
Proof.
  intros Hv Hp. pose proof (managed_nonzero _ Hp) as Hp'. destruct Hp as (Hal & _).
  assert (Hv64 : 0 ≤ v < 2 ^ 64) by lia. pose proof (share_flags_range v Hv64) as Hf.
  destruct (PA2PTE_flags (PTE2PA v) (share_flags v)) as (He & Hpa & Hfl); [done|lia|done|].
  fold (share_entry v) in *.
  assert (Hr : 0 ≤ share_entry v < 2 ^ 54) by (rewrite He; change (2 ^ 10) with 1024 in *; dlia).
  split; [done|]. split; [done|]. intros i Hi.
  rewrite PTE_FLAGS_spec in Hfl by lia.
  rewrite <-(Z.mod_pow2_bits_low (share_entry v) 10 i), Hfl, share_flags_bit by lia.
  by rewrite bool_decide_eq_true_2 by lia.
Qed.

Lemma flag_bits : PTE_V = 2 ^ 0 ∧ PTE_R = 2 ^ 1 ∧ PTE_W = 2 ^ 2 ∧ PTE_COW = 2 ^ 9.
Proof. done. Qed.

(** A shared entry is valid, copy-on-write and not writable. *)
Lemma share_entry_flags v :
  0 ≤ v < 2 ^ 54 → managed (PTE2PA v) → has_flag v PTE_V = true →
  has_flag (share_entry v) PTE_V = true ∧ has_flag (share_entry v) PTE_COW = true ∧
  has_flag (share_entry v) PTE_W = false.
Proof.
  intros Hv Hp HV. destruct (share_entry_ok v Hv Hp) as (_ & _ & Hb).
  destruct flag_bits as (EV & _ & EW & EC). rewrite EV, EW, EC in *.
  rewrite !has_flag_bit in * by lia. rewrite !Hb, HV by lia. by rewrite andb_false_r, orb_true_r.
Qed.

(** Or-ing a bit that is already there. *)
Lemma lor_set_bit v i : 0 ≤ i → Z.testbit v i = true → Z.lor v (2 ^ i) = v.
Proof.
  intros Hi Hv. apply Z.bits_inj'. intros j Hj. rewrite Z.lor_spec, Z.pow2_bits_eqb by done.
  destruct (i =? j) eqn:E; [|by rewrite orb_false_r]. bool_to_Prop. subst. by rewrite Hv.
Qed.

Section mark.
Context (slots : list slot) (s : kst cow) (a : alloc_spec) (σ : slot).
Context (Hinv : cow_inv slots s a) (Hσ : σ ∈ slots) (Hm : mapped (kmem s) σ = true).
Let e := share_entry (entry (kmem s) σ).
Let m' := store64 (kmem s) (pte_of (kmem s) σ) e.

Lemma mark_ok :
  cow_inv slots (set_mem m' s) a ∧ mapped_kept slots (kmem s) m' ∧
  reads_kept slots (kmem s) m' ∧ others_kept slots σ (kmem s) m' ∧
  entry m' σ = e ∧ page_of m' σ = page_of (kmem s) σ ∧
  (∀ τ, τ ∈ slots → mapped (kmem s) τ = true → page_of m' τ = page_of (kmem s) τ).
Proof.
  pose proof (proj1 (mapped_true _ _) Hm) as [Hz HV].
  apply cow_inv_split in Hinv as Hs. destruct Hs as (Hrep & Hnd & Hal & Hto & Hu).
  destruct (Hu σ Hσ Hm) as [He Hp Ht Hc Hsh].
  destruct (share_entry_ok _ He Hp) as (Her & Hep & _). fold e in Her, Hep.
  destruct (share_entry_flags _ He Hp HV) as (HeV & HeC & HeW). fold e in HeV, HeC, HeW.
  assert (Hag : agree_on (λ b, ¬ in_range (pte_of (kmem s) σ) 8 b) (kmem s) m')
    by (intros b Hb; by apply store64_ne).
  pose proof (ew_walk slots _ m' _ σ Hto Hσ Hz Hag) as Hwalk.
  pose proof (ew_page slots _ m' _ σ Hto Hσ Hz Hag) as Hpage.
  pose proof (ew_mapped slots _ m' _ σ Hto Hσ Hz Hag) as Hmap.
  assert (Hent : entry m' σ = e).
  { unfold entry. rewrite Hwalk by done. unfold m'. rewrite load64_store64_eq.
    apply u64_small. lia. }
  assert (Hpg : page_of m' σ = page_of (kmem s) σ) by (unfold page_of; by rewrite Hent).
  assert (Hmσ : mapped m' σ = true) by (apply mapped_true; by rewrite Hwalk, Hent).
  assert (Hmk : mapped_kept slots (kmem s) m').
  { intros τ Hτ. destruct (decide (τ = σ)) as [->|]; [congruence|by apply Hmap]. }
  assert (Hpk : ∀ τ, τ ∈ slots → mapped (kmem s) τ = true → page_of m' τ = page_of (kmem s) τ).
  { intros τ Hτ Hmτ. destruct (decide (τ = σ)) as [->|]; [done|by apply Hpage]. }
  split; [|split; [done|split; [|split; [|done]]]].
  - apply cow_inv_split. split.
    { destruct s. by apply (ew_rep slots _ m' _ σ Hto Hσ Hz Hag). }
    do 2 (split; [done|]). split; [by apply (ew_tables slots _ m' _ σ Hto Hσ Hz Hag)|].
    intros τ Hτ Hmτ. cbn in Hmτ. rewrite Hmk in Hmτ by done.
    destruct (Hu τ Hτ Hmτ) as [Heτ Hpτ Htτ Hcτ Hshτ].
    assert (Hmc : ∀ q, mapcount m' slots q = mapcount (kmem s) slots q).
    { intros q. rewrite (ew_mapcount slots _ m' _ σ Hto Hσ Hz Hag) by done.
      rewrite Hm, Hmσ, Hpg. lia. }
    constructor; cbn [kmem set_mem]; rewrite ?Hpk, ?Hmc by done; try done.
    + destruct (decide (τ = σ)) as [->|Hne]; [by rewrite Hent|by rewrite (proj1 (Hpage τ Hτ Hne Hmτ))].
    + intros b Hb. apply Htτ. by apply (ew_table slots _ m' _ σ Hto Hσ Hz Hag).
    + intros H2. destruct (decide (τ = σ)) as [->|Hne]; [by rewrite Hent|].
      rewrite (proj1 (Hpage τ Hτ Hne Hmτ)). by apply Hshτ.
  - intros τ off Hτ Hmτ Hoff. unfold uread. rewrite Hpk by done.
    apply (ew_byte slots _ m' _ σ Hto Hσ Hag).
    destruct (Hu τ Hτ Hmτ) as [_ Hpτ Htτ _ _]. destruct Hpτ as (Hpal & _).
    rewrite (proj1 (in_page_frame _ _ Hpal)) by (unfold in_range; lia).
    apply Htτ. by apply (ew_table_pte slots).
  - intros τ Hτ Hne Hmτ. by apply Hpage.
Qed.
End mark.

(** ** Taking pages for tables *)

Lemma countb_le_length {A} (f : A → bool) (l : list A) : countb f l ≤ Z.of_nat (length l).
Proof. induction l as [|x l IH]; cbn; [lia|]. destruct (f x); lia. Qed.

Lemma mapped_zero m τ : entry m τ = 0 → mapped m τ = false.
Proof.
  intros He. unfold mapped. rewrite He. destruct (pte_of m τ =? 0); [done|]. done.
Qed.

Lemma walk_alloc_inv `{!ForkLaws} slots (s : kst cow) a σ :
  cow_inv slots s a → unlocked s → trees slots (kmem s) → σ ∈ slots →
  ∃ pte s' a', walk σ.1 σ.2 1 s = Ok pte s' ∧ keeps s s' ∧ cow_inv slots s' a' ∧
    trees slots (kmem s') ∧
    (pte = 0 ∨ pte = pte_of (kmem s') σ) ∧
    mapped_kept slots (kmem s) (kmem s') ∧ reads_kept slots (kmem s) (kmem s') ∧
    entries_kept slots (kmem s) (kmem s').
Proof.
  intros Hinv Hul Htr Hσ. apply cow_inv_split in Hinv as Hs.
  destruct Hs as (Hrep & Hnd & Hal & Hto & Hu).
  destruct (walk_alloc slots s a σ Hrep Hul Hal Hto Htr Hσ)
    as (pte & s' & a' & Hrun & Hk & Hrep' & Hpte & Hto' & Htr' & Hav & Hrefs & Htb & Hent & Hmem).
  assert (Hek : ∀ τ, τ ∈ slots → mapped (kmem s) τ = true →
    pte_of (kmem s') τ = pte_of (kmem s) τ ∧ entry (kmem s') τ = entry (kmem s) τ).
  { intros τ Hτ Hm. apply mapped_true in Hm as [Hz _]. specialize (Hent τ Hτ).
    by rewrite decide_False in Hent. }
  assert (Hmk : mapped_kept slots (kmem s) (kmem s')).
  { intros τ Hτ. destruct (mapped (kmem s) τ) eqn:Em.
    - destruct (Hek τ Hτ Em) as [E1 E2]. unfold mapped. by rewrite E1, E2.
    - specialize (Hent τ Hτ). destruct (decide (pte_of (kmem s) τ = 0)) as [Hz|Hz].
      + destruct Hent as [E|E]; [unfold mapped; by rewrite E|by apply mapped_zero].
      + unfold mapped. by rewrite (proj1 Hent), (proj2 Hent). }
  assert (Hpk : pages_kept slots (kmem s) (kmem s')).
  { intros τ Hτ Hm. unfold page_of. by rewrite (proj2 (Hek τ Hτ Hm)). }
  exists pte, s', a'. do 2 (split; [done|]). split; [|split; [done|split; [done|split; [done|split]]]].
  - apply cow_inv_split. do 4 (split; [done|]). intros τ Hτ Hm. rewrite Hmk in Hm by done.
    destruct (Hu τ Hτ Hm) as [He Hp Ht Hc Hsh]. destruct (cow_refs _ _ _ _ Hinv Hτ Hm) as [_ Hna].
    assert (Hmc : mapcount (kmem s') slots (page_of (kmem s) τ) =
                  mapcount (kmem s) slots (page_of (kmem s) τ)).
    { apply countb_ext. intros υ Hυ. rewrite Hmk by done.
      destruct (mapped (kmem s) υ) eqn:E; [|done]. by rewrite Hpk. }
    constructor; rewrite ?Hpk, ?(proj2 (Hek τ Hτ Hm)), ?Hmc, ?Hrefs by done; try done.
    intros b Hb. destruct (Htb b Hb) as [Hb'|Hb']; [by apply Ht|]. intros Heq. apply Hna. by rewrite Heq.
  - intros τ off Hτ Hm Hoff. unfold uread. rewrite Hpk by done.
    destruct (Hu τ Hτ Hm) as [_ (Hpal & _) Ht _ _].
    assert (Hfr : frame (page_of (kmem s) τ + off) = page_of (kmem s) τ)
      by (apply in_page_frame; [done|unfold in_range; lia]).
    apply Hmem; rewrite Hfr; [by apply (cow_refs _ _ _ _ Hinv)|].
    intros b' Hb' Hb. by apply (Ht b').
  - intros τ Hτ Hm. by apply Hek.
Qed.

(** ** Giving the child the page *)

Section link.
Context (slots : list slot) (m : mem) (h : gset lock) (c : list (string * list parg)) (x : cow).
Context (a : alloc_spec) (σ τ : slot).
Context (Hinv : cow_inv slots (KSt m h c x) a) (Hσ : σ ∈ slots) (Hτ : τ ∈ slots).
Context (Hm : mapped m σ = true) (Hun : mapped m τ = false) (Hz : pte_of m τ ≠ 0).
Context (HC : has_flag (entry m σ) PTE_COW = true) (HW : has_flag (entry m σ) PTE_W = false).
Let m' := store64 m (pte_of m τ) (entry m σ).
Let q := page_of m σ.
Context (x' : cow) (Hrep' : rep (KSt m' h c x') (spec_refcadd q a)).

Lemma link_agree : agree_on (λ b, ¬ in_range (pte_of m τ) 8 b) m m'.
Proof. intros b Hb. by apply store64_ne. Qed.

Lemma link_entry : entry m' τ = entry m σ.
Proof.
  pose proof (proj1 (cow_inv_split _ _ _) Hinv) as (Hrep & Hnd & Hal & Hto & Hu).
  unfold entry at 1. rewrite (ew_walk slots m m' _ τ Hto Hτ Hz link_agree) by done.
  unfold m'. rewrite load64_store64_eq. apply u64_small.
  destruct (Hu σ Hσ Hm) as [He _ _ _ _]. cbn in He. lia.
Qed.

Lemma link_mapped υ : υ ∈ slots → mapped m' υ = (mapped m υ || bool_decide (υ = τ)).
Proof.
  intros Hυ. pose proof (proj1 (cow_inv_split _ _ _) Hinv) as (Hrep & Hnd & Hal & Hto & Hu).
  case_bool_decide as E.
  - subst υ. rewrite orb_true_r. apply mapped_true. split.
    + by rewrite (ew_walk slots m m' _ τ Hto Hτ Hz link_agree).
    + rewrite link_entry. by apply mapped_true in Hm as [_ ?].
  - rewrite orb_false_r. by apply (ew_mapped slots m m' _ τ Hto Hτ Hz link_agree).
Qed.

Lemma link_others υ : υ ∈ slots → mapped m υ = true → entry m' υ = entry m υ ∧ page_of m' υ = page_of m υ.
Proof.
  intros Hυ Hmυ. pose proof (proj1 (cow_inv_split _ _ _) Hinv) as (Hrep & Hnd & Hal & Hto & Hu).
  apply (ew_page slots m m' _ τ Hto Hτ Hz link_agree); [done| |done]. congruence.
Qed.

Lemma link_page : page_of m' τ = q.
Proof. unfold page_of. by rewrite link_entry. Qed.

Lemma link_mapcount r : mapcount m' slots r = mapcount m slots r + (if q =? r then 1 else 0).
Proof.
  apply cow_inv_split in Hinv as Hs. destruct Hs as (Hrep & Hnd & Hal & Hto & Hu).
  rewrite (ew_mapcount slots m m' _ τ Hto Hτ Hz link_agree r Hnd).
  rewrite Hun, link_page, link_mapped, bool_decide_eq_true_2, orb_true_r by done. cbn. lia.
Qed.

Lemma link_inv : cow_inv slots (KSt m' h c x') (spec_refcadd q a).
Proof.
  apply cow_inv_split in Hinv as Hs. destruct Hs as (Hrep & Hnd & Hal & Hto & Hu).
  apply cow_inv_split. split; [done|]. do 2 (split; [done|]).
  split; [by apply (ew_tables slots m m' _ τ Hto Hτ Hz link_agree)|]. cbn [kmem] in *.
  destruct (Hu σ Hσ Hm) as [Heσ Hpσ Htσ Hcσ Hshσ]. cbn [kmem] in *.
  intros υ Hυ Hmυ. rewrite link_mapped in Hmυ by done.
  assert (Htab : ∀ b, table_byte m' slots b → table_byte m slots b)
    by (intros b; by apply (ew_table slots m m' _ τ Hto Hτ Hz link_agree)).
  case_bool_decide as E.
  - subst υ. constructor; cbn [kmem]; rewrite ?link_entry, ?link_page, ?link_mapcount; try done.
    + intros b Hb. by apply Htσ, Htab.
    + cbn. rewrite upd_eq, Z.eqb_refl. unfold q. by rewrite Hcσ.
  - rewrite orb_false_r in Hmυ. destruct (Hu υ Hυ Hmυ) as [He Hp Ht Hc Hsh]. cbn [kmem] in *.
    destruct (link_others υ Hυ Hmυ) as [E1 E2].
    constructor; cbn [kmem]; rewrite ?E1, ?E2, ?link_mapcount; try done.
    + intros b Hb. by apply Ht, Htab.
    + cbn. unfold upd. rewrite (Z.eqb_sym q). destruct (page_of m υ =? q) eqn:Eq; bool_to_Prop.
      * rewrite Eq. unfold q. by rewrite Hcσ.
      * rewrite Hc. lia.
    + cbn. unfold upd. destruct (page_of m υ =? q) eqn:Eq; bool_to_Prop; [|done].
      intros H2. destruct (decide (υ = σ)) as [->|Hne]; [done|]. apply Hsh.
      rewrite Hc. apply (countb_two _ _ υ σ Hυ Hσ); [done|by rewrite Hmυ, Z.eqb_refl|].
      rewrite Hm. cbn. unfold q in Eq. by rewrite Eq, Z.eqb_refl.
Qed.

Lemma link_reads : reads_kept slots m m'.
Proof.
  intros υ off Hυ Hmυ Hoff. unfold uread. rewrite (proj2 (link_others υ Hυ Hmυ)).
  apply cow_inv_split in Hinv as Hs. destruct Hs as (Hrep & Hnd & Hal & Hto & Hu).
  apply (ew_byte slots _ m' _ τ Hto Hτ link_agree).
  destruct (Hu υ Hυ Hmυ) as [_ (Hpal & _) Ht _ _]. cbn [kmem] in *.
  rewrite (proj1 (in_page_frame _ _ Hpal)) by (unfold in_range; lia).
  apply Ht. by apply (ew_table_pte slots).
Qed.
End link.

(** The store of [mappages] and the new reference, together. *)
Lemma link_run slots (s : kst cow) a σ τ :
  Z.of_nat (length slots) < 2 ^ 31 - 2 →
  cow_inv slots s a → unlocked s → σ ∈ slots → τ ∈ slots →
  mapped (kmem s) σ = true → mapped (kmem s) τ = false → pte_of (kmem s) τ ≠ 0 →
  has_flag (entry (kmem s) σ) PTE_COW = true → has_flag (entry (kmem s) σ) PTE_W = false →
  ∃ s' a', (store (pte_of (kmem s) τ) (entry (kmem s) σ);; refcadd (page_of (kmem s) σ)) s = Ok tt s' ∧
    keeps s s' ∧ cow_inv slots s' a' ∧
    (∀ υ, υ ∈ slots → mapped (kmem s') υ = (mapped (kmem s) υ || bool_decide (υ = τ))) ∧
    entry (kmem s') τ = entry (kmem s) σ ∧
    entries_kept slots (kmem s) (kmem s') ∧ reads_kept slots (kmem s) (kmem s') ∧
    agree_on (visited slots (kmem s)) (kmem s) (kmem s').
Proof.
  intros Hlen Hinv Hul Hσ Hτ Hm Hun Hz HC HW. destruct s as [m h c x]. cbn [kmem] in *.
  assert (Hto : tables_ok slots m (avail a)) by (apply cow_inv_split in Hinv; apply Hinv).
  set (m' := store64 m (pte_of m τ) (entry m σ)).
  assert (Hrep : rep (KSt m' h c x) a).
  { apply (ew_rep slots m m' (avail a) τ Hto Hτ Hz); [|done|apply Hinv].
    intros b Hb. by apply store64_ne. }
  destruct (refcadd_refines_spec (KSt m' h c x) a (page_of m σ)) as (s' & Hadd & Hrep' & Hk & Hm').
  { done. } { done. } { by apply (ci_managed _ _ _ Hinv σ). }
  { split; [by apply (cow_refs _ _ _ _ Hinv Hσ Hm)|].
    pose proof (ci_count _ _ _ Hinv σ Hσ Hm) as Hc. cbn [kmem] in Hc. rewrite Hc. unfold mapcount.
    pose proof (countb_le_length (λ υ, mapped m υ && (page_of m υ =? page_of m σ)) slots). lia. }
  destruct s' as [m4 h4 c4 x']. destruct Hk as (Hk1 & Hk2 & Hk3). cbn [kmem held console ext] in *. subst m4 h4 c4.
  exists (KSt m' h c x'), (spec_refcadd (page_of m σ) a). cbn [kmem].
  split; [by kstep|]. split; [done|].
  split; [by apply (link_inv slots m h c x a σ τ)|]. split; [intros υ Hυ; by apply (link_mapped slots m h c x a σ τ)|].
  split; [by apply (link_entry slots m h c x a σ τ)|].
  split; [intros υ Hυ Hmυ; by apply (link_others slots m h c x a σ τ)|].
  split; [by apply (link_reads slots m h c x a σ τ)|].
  by apply (ew_visited slots m m' (avail a) τ Hto Hτ Hz), (link_agree m σ τ).
Qed.

(** ** One page *)

Lemma bind_head {S A B} (m1 m2 : M S A) (f : A → M S B) s :
  m1 s = m2 s → (m1 ≫= f) s = (m2 ≫= f) s.
Proof. intros Heq. unfold mbind, M_bind. by rewrite Heq. Qed.

(** What one round of the fork loop does to the address spaces: the child's
    slot [τ] maps the parent's page, both entries are [share_entry] of the
    parent's, and no other mapping and no reading changes. *)
Record shared (slots : list slot) (σ τ : slot) (m m' : mem) : Prop := {
  sh_mapped υ : υ ∈ slots → mapped m' υ = (mapped m υ || bool_decide (υ = τ));
  sh_child : entry m' τ = share_entry (entry m σ);
  sh_parent : entry m' σ = share_entry (entry m σ);
  sh_others υ : υ ∈ slots → υ ≠ σ → mapped m υ = true → entry m' υ = entry m υ;
  sh_pages : pages_kept slots m m';
  sh_reads : reads_kept slots m m';
}.

Section round.
Context `{!ForkLaws} (slots : list slot) (s : kst cow) (a : alloc_spec) (old new i sz : Z).
Let σ : slot := (old, i).
Let τ : slot := (new, i).
Context (Hinv : cow_inv slots s a) (Hul : unlocked s) (Htr : trees slots (kmem s)).
Context (Hσ : σ ∈ slots) (Hτ : τ ∈ slots) (Hm : mapped (kmem s) σ = true)
        (Hun : mapped (kmem s) τ = false) (Hsz : i < sz)
        (Hlen : Z.of_nat (length slots) < 2 ^ 31 - 2).
Let e := share_entry (entry (kmem s) σ).
Let s1 := set_mem (store64 (kmem s) (pte_of (kmem s) σ) e) s.

(** The entry both share. *)
Lemma shared_entry :
  has_flag e PTE_COW = true ∧ has_flag e PTE_W = false ∧
  Z.lor (Z.lor (PA2PTE (page_of (kmem s) σ)) (share_flags (entry (kmem s) σ))) PTE_V = e.
Proof.
  destruct (share_entry_flags (entry (kmem s) σ)) as (HeV & HeC & HeW).
  { by apply (ci_entry _ _ _ Hinv). }
  { by apply (ci_managed _ _ _ Hinv). }
  { by apply mapped_true in Hm as []. }
  destruct (share_entry_ok (entry (kmem s) σ)) as (Her & _ & _).
  { by apply (ci_entry _ _ _ Hinv). }
  { by apply (ci_managed _ _ _ Hinv). }
  do 2 (split; [done|]). apply (lor_set_bit (share_entry _) 0); [done|].
  by rewrite <-has_flag_bit by done.
Qed.

(** The parent's entry is marked and the child's table is about to be
    extended. *)
Lemma round_marks :
  uvmcopy_body old new sz i s =
  (r ← mappages new i PGSIZE (page_of (kmem s) σ) (share_flags (entry (kmem s) σ));
   if negb (r =? 0) then uvmunmap new 0 (i / PGSIZE) 1;; mret (inr (-1))
   else refcadd (page_of (kmem s) σ);; mret (inl (i + PGSIZE))) s1.
Proof.
  pose proof (proj1 (mapped_true _ _) Hm) as [Hz HV].
  destruct (ci_aligned _ _ _ Hinv σ Hσ) as [Hal Hb].
  unfold uvmcopy_body. rewrite (proj2 (Z.ltb_lt i sz)) by done. cbn [negb].
  rewrite (walk_bind old i) by done. change (walk0 (kmem s) old i) with (pte_of (kmem s) σ).
  rewrite (proj2 (Z.eqb_neq _ _) Hz). do 2 kstep.
  change (load64 (kmem s) (pte_of (kmem s) σ)) with (entry (kmem s) σ).
  rewrite HV. by do 3 kstep.
Qed.

Lemma uvmcopy_round :
  ∃ s' a', cow_inv slots s' a' ∧ keeps s s' ∧ trees slots (kmem s') ∧
    ((uvmcopy_body old new sz i s = Ok (inl (i + PGSIZE)) s' ∧
      shared slots σ τ (kmem s) (kmem s')) ∨
     (uvmcopy_body old new sz i s = (uvmunmap new 0 (i / PGSIZE) 1;; mret (inr (-1))) s' ∧
      mapped_kept slots (kmem s) (kmem s') ∧ pages_kept slots (kmem s) (kmem s') ∧
      reads_kept slots (kmem s) (kmem s') ∧ others_kept slots σ (kmem s) (kmem s'))).
Proof.
  rewrite round_marks. destruct (ci_aligned _ _ _ Hinv σ Hσ) as [Hal Hb].
  destruct (mark_ok slots s a σ Hinv Hσ Hm) as (Hinv1 & Hmk1 & Hrd1 & Hot1 & He1 & Hp1 & Hpk1).
  fold e in Hinv1, Hmk1, Hrd1, Hot1, He1, Hp1, Hpk1. fold s1 in Hinv1. change (store64 (kmem s) (pte_of (kmem s) σ) e) with (kmem s1) in Hmk1, Hrd1, Hot1, He1, Hp1, Hpk1.
  assert (Htr1 : trees slots (kmem s1)).
  { eapply trees_local, Htr. apply (ew_visited slots (kmem s) _ (avail a) σ); [|done| |].
    - by apply cow_inv_split in Hinv as (_ & _ & _ & ? & _).
    - by apply mapped_true in Hm as [].
    - intros b Hbb. by apply store64_ne. }
  destruct (walk_alloc_inv slots s1 a τ Hinv1) as
    (pte & s2 & a2 & Hrun & Hk2 & Hinv2 & Htr2 & Hpte & Hmk2 & Hrd2 & Hek2); [by destruct s|done|done|].
  assert (Hm2 : ∀ υ, υ ∈ slots → mapped (kmem s2) υ = mapped (kmem s) υ)
    by (intros υ Hυ; by rewrite Hmk2, Hmk1).
  assert (Hpk2 : pages_kept slots (kmem s) (kmem s2)).
  { intros υ Hυ Hmυ. unfold page_of. rewrite Hek2 by (done || by rewrite Hmk1). by apply Hpk1. }
  assert (Hrd : reads_kept slots (kmem s) (kmem s2)).
  { apply (reads_kept_trans _ _ (kmem s1)); try done. intros υ Hυ. by rewrite Hmk1. }
  assert (Hks : keeps s s2) by (by destruct s).
  rewrite (bind_head _ _ _ _ (mappages_page new i _ _ s1 Hal)).
  rewrite bind_assoc, (bind_Ok _ _ _ _ _ Hrun).
  destruct (pte =? 0) eqn:Ez; bool_to_Prop.
  { kstep. exists s2, a2. do 3 (split; [done|]). right. do 4 (split; [done|]).
    intros υ Hυ Hne Hmυ. rewrite Hek2 by (done || by rewrite Hmk1). by apply Hot1. }
  destruct Hpte as [?|Hpte]; [done|]. rewrite Hpte in Ez |- *.
  assert (Hvz : has_flag (entry (kmem s2) τ) PTE_V = false).
  { destruct (has_flag (entry (kmem s2) τ) PTE_V) eqn:E; [|done]. exfalso.
    rewrite <-(Hm2 τ Hτ) in Hun. rewrite (proj2 (mapped_true _ _) (conj Ez E)) in Hun. done. }
  rewrite bind_assoc. kstep. change (load64 (kmem s2) (pte_of (kmem s2) τ)) with (entry (kmem s2) τ).
  rewrite Hvz. rewrite bind_assoc. kstep. rewrite bind_assoc. do 2 kstep. fold τ.
  assert (Hm2σ : mapped (kmem s2) σ = true) by (by rewrite Hm2).
  assert (He2 : entry (kmem s2) σ = e) by (by rewrite Hek2, He1 by (done || by rewrite Hmk1)).
  destruct shared_entry as (HeC & HeW & Heq). rewrite Heq, <-He2.
  assert (HC2 : has_flag (entry (kmem s2) σ) PTE_COW = true) by (by rewrite He2).
  assert (HW2 : has_flag (entry (kmem s2) σ) PTE_W = false) by (by rewrite He2).
  destruct (link_run slots s2 a2 σ τ Hlen Hinv2) as
    (s4 & a4 & Hrun4 & Hk4 & Hinv4 & Hm4 & He4 & Hek4 & Hrd4 & Hvis4); try done.
  { destruct Hks as [Hh _]. unfold unlocked. by rewrite Hh. }
  { by rewrite Hm2. }
  rewrite (Hpk2 σ Hσ Hm) in Hrun4. exists s4, a4. split; [done|].
  split; [by eapply keeps_trans|]. split; [by eapply trees_local, Htr2|]. left. split.
  { by erewrite bind_Ok by exact Hrun4. }
  assert (Hek : ∀ υ, υ ∈ slots → mapped (kmem s) υ = true → entry (kmem s4) υ = entry (kmem s1) υ).
  { intros υ Hυ Hmυ. rewrite Hek4 by (done || by rewrite Hm2). apply Hek2; [done|]. by rewrite Hmk1. }
  constructor.
  - intros υ Hυ. by rewrite Hm4, Hm2.
  - by rewrite He4.
  - by rewrite Hek, He1.
  - intros υ Hυ Hne Hmυ. rewrite Hek by done. by apply Hot1.
  - intros υ Hυ Hmυ. unfold page_of. rewrite Hek by done. by apply Hpk1.
  - apply (reads_kept_trans _ _ (kmem s2)); [intros υ Hυ; by rewrite Hm2|done|done].
Qed.
End round.

(** Freeing a page others still use leaves memory alone. *)
Lemma kfree_shared_mem (s : kst cow) a p :
  rep s a → unlocked s → managed p → 2 ≤ refs a p →
  ∃ s', kfree p s = Ok tt s' ∧ kmem s' = kmem s.
Proof.
  intros Hrep [Hl Hl'] Hp Href. destruct s as [m h c x].
  pose proof (rep_count _ _ Hrep p Hp). pose proof (rep_refs _ _ Hrep p Hp). cbn in *.
  eexists. split; [apply kfree_shared; try done; rewrite s32_small; lia|done].
Qed.

(** ** Taking a shared page back from the child *)

Section unlink.
Context (slots : list slot) (s : kst cow) (a : alloc_spec) (τ : slot).
Context (Hinv : cow_inv slots s a) (Hul : unlocked s) (Hτ : τ ∈ slots)
        (Hm : mapped (kmem s) τ = true).
Let q := page_of (kmem s) τ.
Context (Href : 2 ≤ refs a q).
Let a' := AllocSpec (avail a) (upd (refs a) q (refs a q - 1)).
Let m' := store64 (kmem s) (pte_of (kmem s) τ) 0.

Lemma unlink_page υ :
  υ ∈ slots → υ ≠ τ → mapped (kmem s) υ = true →
  entry m' υ = entry (kmem s) υ ∧ page_of m' υ = page_of (kmem s) υ.
Proof.
  intros. pose proof (proj1 (mapped_true _ _) Hm) as [Hz _].
  apply (ew_page slots (kmem s) m' (avail a) τ); try done.
  - apply (proj1 (cow_inv_split _ _ _) Hinv).
  - intros b Hb. by apply store64_ne.
Qed.

Lemma unlink_run :
  ∃ s', (kfree q;; store (pte_of (kmem s) τ) 0) s = Ok tt s' ∧ keeps s s' ∧
    cow_inv slots s' a' ∧ kmem s' = m' ∧
    (∀ υ, υ ∈ slots → mapped (kmem s') υ = (mapped (kmem s) υ && negb (bool_decide (υ = τ)))) ∧
    agree_on (visited slots (kmem s)) (kmem s) (kmem s').
Proof.
  pose proof (proj1 (mapped_true _ _) Hm) as [Hz _].
  destruct (proj1 (cow_inv_split _ _ _) Hinv) as (Hrep & Hnd & Hal & Hto & Hu).
  destruct (Hu τ Hτ Hm) as [He Hp Ht Hc Hsh]. fold q in Hp, Ht, Hc, Hsh.
  destruct (kfree_refines_spec s a q Hrep Hul Hp) as (s1 & Hrun & Hrep1 & Hk1 & Hag1); [lia|].
  unfold spec_kfree in Hrep1. rewrite (proj2 (Z.leb_gt _ _)) in Hrep1 by lia. fold a' in Hrep1.
  destruct (kfree_shared_mem s a q) as (s1' & Hrun' & Hm1); try done.
  rewrite Hrun in Hrun'. injection Hrun' as <-.
  assert (Hag : agree_on (λ b, ¬ in_range (pte_of (kmem s) τ) 8 b) (kmem s) m')
    by (intros b Hb; by apply store64_ne).
  assert (Hun : mapped m' τ = false).
  { apply mapped_zero. unfold entry. rewrite (ew_walk slots _ m' _ τ Hto Hτ Hz Hag) by done.
    unfold m'. by rewrite load64_store64_eq. }
  assert (Hmap : ∀ υ, υ ∈ slots → mapped m' υ = (mapped (kmem s) υ && negb (bool_decide (υ = τ)))).
  { intros υ Hυ. case_bool_decide; [subst; by rewrite andb_false_r|]. rewrite andb_true_r.
    by apply (ew_mapped slots _ m' _ τ Hto Hτ Hz Hag). }
  exists (set_mem m' s1). split; [|split; [by destruct s1|split; [|split; [by destruct s1|split; [by destruct s1|]]]]].
  3: { destruct s1. by apply (ew_visited slots _ m' (avail a) τ). }
  { rewrite (bind_Ok _ _ _ _ _ Hrun). unfold store, modify, m'. by rewrite Hm1. }
  apply cow_inv_split. split.
  { apply rep_set_mem; [done|]. intros b Hb. rewrite Hm1. apply (ew_byte slots _ m' _ τ Hto Hτ Hag).
    intros Heq. apply (to_alloc _ _ _ Hto (pte_of (kmem s) τ)); [by apply table_byte_pte|].
    by rewrite <-Heq. }
  do 2 (split; [done|]). cbn [kmem set_mem].
  split; [by apply (ew_tables slots _ m' _ τ Hto Hτ Hz Hag)|].
  intros υ Hυ Hmυ. rewrite Hmap in Hmυ by done.
  apply andb_true_iff in Hmυ as [Hmυ Hne]. rewrite negb_true_iff, bool_decide_eq_false in Hne.
  destruct (Hu υ Hυ Hmυ) as [Heυ Hpυ Htυ Hcυ Hshυ]. destruct (unlink_page υ Hυ Hne Hmυ) as [E1 E2].
  assert (Hmc : ∀ r, mapcount m' slots r = mapcount (kmem s) slots r - (if q =? r then 1 else 0)).
  { intros r. rewrite (ew_mapcount slots _ m' _ τ Hto Hτ Hz Hag r Hnd).
    rewrite Hm, Hun. fold q. cbn. lia. }
  constructor; cbn [kmem set_mem refs a']; rewrite ?E1, ?E2, ?Hmc; try done.
  + intros b Hb. by apply Htυ, (ew_table slots _ m' _ τ Hto Hτ Hz Hag).
  + unfold upd. rewrite (Z.eqb_sym q). destruct (page_of (kmem s) υ =? q) eqn:Eq; bool_to_Prop.
    * rewrite Eq, Hc. lia.
    * rewrite Hcυ. lia.
  + unfold upd. destruct (page_of (kmem s) υ =? q) eqn:Eq; bool_to_Prop; [|done].
    intros H2. apply Hshυ. rewrite Eq. lia.
Qed.

Lemma unlink_reads υ off :
  υ ∈ slots → υ ≠ τ → mapped (kmem s) υ = true → 0 ≤ off < 4096 →
  uread m' υ off = uread (kmem s) υ off.
Proof.
  intros Hυ Hne Hmυ Hoff. unfold uread. rewrite (proj2 (unlink_page υ Hυ Hne Hmυ)).
  destruct (proj1 (cow_inv_split _ _ _) Hinv) as (_ & _ & _ & Hto & Hu).
  apply (ew_byte slots _ m' _ τ Hto Hτ); [intros b Hb; by apply store64_ne|].
  destruct (Hu υ Hυ Hmυ) as [_ (Hpal & _) Ht _ _].
  rewrite (proj1 (in_page_frame _ _ Hpal)) by (unfold in_range; lia).
  apply Ht. apply (ew_table_pte slots); [done|]. by apply mapped_true in Hm as [].
Qed.
End unlink.

(** ** The whole address space *)

Definition page_slot (pt j : Z) : slot := (pt, j * 4096).

(** The child maps the pages [lo .. hi-1] of the parent and nothing else has
    changed, compared with the memory [m] before the fork. *)
Record forked (slots : list slot) (old new lo hi : Z) (m m' : mem) : Prop := {
  fk_mapped υ : υ ∈ slots →
    mapped m' υ = true ↔ mapped m υ = true ∨ ∃ j, lo ≤ j < hi ∧ υ = page_slot new j;
  fk_pages : pages_kept slots m m';
  fk_reads : reads_kept slots m m';
  fk_entries j : lo ≤ j < hi →
    entry m' (page_slot new j) = share_entry (entry m (page_slot old j)) ∧
    entry m' (page_slot old j) = share_entry (entry m (page_slot old j));
  fk_others υ : υ ∈ slots → υ.1 ≠ old → mapped m υ = true → entry m' υ = entry m υ;
  fk_above j : hi ≤ j → page_slot old j ∈ slots → mapped m (page_slot old j) = true →
    entry m' (page_slot old j) = entry m (page_slot old j);
}.

(** Parent and child before the fork. *)
Record forkable (slots : list slot) (old new n : Z) (m : mem) : Prop := {
  fb_slots j : 0 ≤ j < n → page_slot old j ∈ slots ∧ page_slot new j ∈ slots;
  fb_parent j : 0 ≤ j < n → mapped m (page_slot old j) = true;
  fb_child j : 0 ≤ j < n → mapped m (page_slot new j) = false;
}.

Lemma forked_start slots old new m : forked slots old new 0 0 m m.
Proof.
  constructor; try done.
  - intros υ _. split; [by left|]. intros [?|(j & ? & _)]; [done|lia].
  - intros j Hj. lia.
Qed.

Lemma forked_step slots old new n k m m' m'' :
  forkable slots old new n m → 0 ≤ k < n → forked slots old new 0 k m m' →
  shared slots (page_slot old k) (page_slot new k) m' m'' →
  forked slots old new 0 (k + 1) m m''.
Proof.
  intros Hfb Hk Hfk Hsh. assert (Hne : old ≠ new).
  { intros ->. pose proof (fb_parent _ _ _ _ _ Hfb k Hk). by rewrite (fb_child _ _ _ _ _ Hfb k Hk) in *. }
  assert (Hmm : ∀ υ, υ ∈ slots → mapped m υ = true → mapped m' υ = true)
    by (intros υ Hυ Hm; apply (fk_mapped _ _ _ _ _ _ _ Hfk); auto).
  destruct (fb_slots _ _ _ _ _ Hfb k Hk) as [Ho Hn].
  pose proof (fb_parent _ _ _ _ _ Hfb k Hk) as Hpk.
  assert (Habove : entry m' (page_slot old k) = entry m (page_slot old k))
    by (apply (fk_above _ _ _ _ _ _ _ Hfk); [lia|done..]).
  constructor.
  - intros υ Hυ. rewrite (sh_mapped _ _ _ _ _ Hsh υ Hυ), orb_true_iff, bool_decide_eq_true.
    rewrite (fk_mapped _ _ _ _ _ _ _ Hfk υ Hυ). split.
    + intros [[?|(j & ? & ?)]| ->]; [by left|right; exists j; split; [lia|done]|right; exists k; split; [lia|done]].
    + intros [?|(j & ? & ?)]; [by left; left|]. destruct (decide (j = k)) as [->|]; [by right|].
      left; right. exists j. split; [lia|done].
  - intros υ Hυ Hm. rewrite (sh_pages _ _ _ _ _ Hsh υ Hυ) by auto. by apply (fk_pages _ _ _ _ _ _ _ Hfk).
  - apply (reads_kept_trans _ _ m'); [done|by apply Hfk|by apply Hsh].
  - intros j Hj. destruct (decide (j = k)) as [->|Hjk].
    + rewrite (sh_child _ _ _ _ _ Hsh), (sh_parent _ _ _ _ _ Hsh). by rewrite Habove.
    + destruct (fk_entries _ _ _ _ _ _ _ Hfk j ltac:(lia)) as [E1 E2].
      destruct (fb_slots _ _ _ _ _ Hfb j ltac:(lia)) as [Hoj Hnj].
      rewrite !(sh_others _ _ _ _ _ Hsh); try done.
      * unfold page_slot. intros Heq. injection Heq. lia.
      * apply Hmm; [done|]. apply (fb_parent _ _ _ _ _ Hfb). lia.
      * unfold page_slot. intros Heq. injection Heq. intros. congruence.
      * apply (fk_mapped _ _ _ _ _ _ _ Hfk); [done|]. right. exists j. split; [lia|done].
  - intros υ Hυ Hυo Hm. rewrite (sh_others _ _ _ _ _ Hsh); auto; [by apply (fk_others _ _ _ _ _ _ _ Hfk)|].
    intros ->. by apply Hυo.
  - intros j Hj Hjs Hm. rewrite (sh_others _ _ _ _ _ Hsh); auto.
    + apply (fk_above _ _ _ _ _ _ _ Hfk); [lia|done..].
    + unfold page_slot. intros Heq. injection Heq. lia.
Qed.

(** The error path: pages [lo .. k-1] are still in the child. *)
Record undoing (slots : list slot) (old new lo k : Z) (m m' : mem) : Prop := {
  un_mapped υ : υ ∈ slots →
    mapped m' υ = true ↔ mapped m υ = true ∨ ∃ j, lo ≤ j < k ∧ υ = page_slot new j;
  un_pages : pages_kept slots m m';
  un_reads : reads_kept slots m m';
  un_child j : lo ≤ j < k → page_of m' (page_slot new j) = page_of m (page_slot old j) ∧
    has_flag (entry m' (page_slot new j)) PTE_COW = true;
}.

Lemma undo_step slots old new n lo k m m' m'' :
  forkable slots old new n m → 0 ≤ lo < k → k ≤ n →
  let τ := page_slot new lo in
  undoing slots old new lo k m m' →
  (∀ υ, υ ∈ slots → mapped m'' υ = (mapped m' υ && negb (bool_decide (υ = τ)))) →
  (∀ υ, υ ∈ slots → υ ≠ τ → mapped m' υ = true →
     (entry m'' υ = entry m' υ ∧ page_of m'' υ = page_of m' υ) ∧
     ∀ off, 0 ≤ off < 4096 → uread m'' υ off = uread m' υ off) →
  undoing slots old new (lo + 1) k m m''.
Proof.
  cbn zeta. intros Hfb Hlo Hk Hun Hmap Hother.
  assert (Hold : ∀ υ, υ ∈ slots → mapped m υ = true → υ ≠ page_slot new lo ∧ mapped m' υ = true).
  { intros υ Hυ Hm. split; [|apply (un_mapped _ _ _ _ _ _ _ Hun); auto].
    intros ->. by rewrite (fb_child _ _ _ _ _ Hfb lo ltac:(lia)) in Hm. }
  constructor.
  - intros υ Hυ. rewrite Hmap, andb_true_iff, (un_mapped _ _ _ _ _ _ _ Hun),
      negb_true_iff, bool_decide_eq_false by done. split.
    + intros [[?|(j & Hj & ->)] Hne]; [by left|right]. exists j. split; [|done].
      destruct (decide (j = lo)) as [->|]; [done|lia].
    + intros [Hm|(j & Hj & ->)]; [split; [by left|by apply Hold]|].
      split; [right; exists j; split; [lia|done]|]. unfold page_slot. intros Heq. injection Heq. lia.
  - intros υ Hυ Hm. destruct (Hold υ Hυ Hm) as [Hne Hm'].
    rewrite (proj2 (proj1 (Hother υ Hυ Hne Hm'))). by apply (un_pages _ _ _ _ _ _ _ Hun).
  - intros υ off Hυ Hm Hoff. destruct (Hold υ Hυ Hm) as [Hne Hm'].
    rewrite (proj2 (Hother υ Hυ Hne Hm')) by done. by apply (un_reads _ _ _ _ _ _ _ Hun).
  - intros j Hj. destruct (fb_slots _ _ _ _ _ Hfb j ltac:(lia)) as [_ Hnj].
    destruct (Hother (page_slot new j)) as [[-> ->] _]; [done|..].
    + unfold page_slot. intros Heq. injection Heq. lia.
    + apply (un_mapped _ _ _ _ _ _ _ Hun); [done|]. right. exists j. split; [lia|done].
    + apply (un_child _ _ _ _ _ _ _ Hun). lia.
Qed.

(** A child's page is used by the parent too. *)
Lemma undo_refs slots old new n lo k (s0 s : kst cow) a :
  forkable slots old new n (kmem s0) → 0 ≤ lo < k → k ≤ n → cow_inv slots s a →
  undoing slots old new lo k (kmem s0) (kmem s) →
  mapped (kmem s) (page_slot new lo) = true ∧ 2 ≤ refs a (page_of (kmem s) (page_slot new lo)).
Proof.
  intros Hfb Hlo Hk Hinv Hun. destruct (fb_slots _ _ _ _ _ Hfb lo ltac:(lia)) as [Ho Hn].
  pose proof (fb_parent _ _ _ _ _ Hfb lo ltac:(lia)) as Hmo.
  assert (Hmτ : mapped (kmem s) (page_slot new lo) = true).
  { apply (un_mapped _ _ _ _ _ _ _ Hun); [done|]. right. exists lo. split; [lia|done]. }
  split; [done|]. destruct (un_child _ _ _ _ _ _ _ Hun lo ltac:(lia)) as [Hpg _].
  rewrite (ci_count _ _ _ Hinv) by done.
  apply (countb_two _ _ (page_slot old lo) (page_slot new lo) Ho Hn).
  - intros Heq. pose proof (fb_child _ _ _ _ _ Hfb lo ltac:(lia)). congruence.
  - rewrite (proj2 (un_mapped _ _ _ _ _ _ _ Hun _ Ho)) by (by left). cbn. apply Z.eqb_eq.
    rewrite (un_pages _ _ _ _ _ _ _ Hun) by done. by rewrite Hpg.
  - by rewrite Hmτ, Z.eqb_refl.
Qed.

Lemma cow_entry_flags v : 0 ≤ v < 2 ^ 64 → has_flag v PTE_COW = true → PTE_FLAGS v ≠ PTE_V.
Proof.
  intros Hv HC. rewrite PTE_FLAGS_spec by done. change PTE_COW with (2 ^ 9) in HC.
  rewrite has_flag_bit in HC by done. intros Heq.
  rewrite <-(Z.mod_pow2_bits_low v 10 9), Heq in HC by lia. done.
Qed.

Lemma undo `{!ForkLaws} slots old new n k (s0 : kst cow) :
  forkable slots old new n (kmem s0) → k ≤ n →
  ∀ (d : nat) (s : kst cow) a, Z.of_nat d ≤ k → cow_inv slots s a → unlocked s →
  trees slots (kmem s) → undoing slots old new (k - Z.of_nat d) k (kmem s0) (kmem s) →
  ∃ s' a', uvmunmap new ((k - Z.of_nat d) * 4096) (Z.of_nat d) 1 s = Ok tt s' ∧ keeps s s' ∧
    cow_inv slots s' a' ∧ trees slots (kmem s') ∧ undoing slots old new k k (kmem s0) (kmem s').
Proof.
  intros Hfb Hkn d. induction d as [|d IH]; intros s a Hd Hinv Hul Htr Hun.
  { exists s, a. split; [apply uvmunmap_none|]. do 3 (split; [done|]).
    by replace k with (k - Z.of_nat 0) at 1 by lia. }
  set (lo := k - Z.of_nat (S d)) in *. set (τ := page_slot new lo).
  destruct (fb_slots _ _ _ _ _ Hfb lo ltac:(lia)) as [Ho Hn].
  destruct (undo_refs slots old new n lo k s0 s a) as [Hmτ Href]; [done|lia|done..|].
  destruct (ci_aligned _ _ _ Hinv τ Hn) as [Hal Hb].
  destruct (un_child _ _ _ _ _ _ _ Hun lo ltac:(lia)) as [_ HC].
  destruct (unlink_run slots s a τ Hinv Hul Hn Hmτ Href) as (s1 & Hrun & Hk1 & Hinv1 & Hm1 & Hmap1 & Hvis1).
  destruct (IH s1 _ ltac:(lia) Hinv1) as (s2 & a2 & Hrun2 & Hk2 & Hinv2 & Htr2 & Hun2).
  { destruct Hk1 as [Hh _]. unfold unlocked. by rewrite Hh. }
  { by eapply trees_local, Htr. }
  { replace (k - Z.of_nat d) with (lo + 1) by lia.
    apply (undo_step slots old new n lo k _ (kmem s)); [done|lia|done..|].
    intros υ Hυ Hne Hmυ. rewrite Hm1. split; [by apply (unlink_page slots s a τ)|].
    intros off Hoff. by apply (unlink_reads slots s a τ). }
  exists s2, a2. split; [|split; [by eapply keeps_trans|done]].
  replace (Z.of_nat (S d)) with (Z.of_nat d + 1) by lia.
  rewrite uvmunmap_page; [|done|done|lia|done|].
  2: { apply cow_entry_flags; [|done]. pose proof (ci_entry _ _ _ Hinv τ Hn Hmτ). unfold τ, page_slot in *. lia. }
  cbn zeta. rewrite <-bind_assoc. change (PTE2PA _) with (page_of (kmem s) τ).
  change (pte_of (kmem s) (new, lo * 4096)) with (pte_of (kmem s) τ).
  rewrite (bind_Ok _ _ _ _ _ Hrun). unfold PGSIZE.
  by replace (lo * 4096 + 4096) with ((k - Z.of_nat d) * 4096) by lia.
Qed.

Lemma forked_undoing slots old new n k (s0 s : kst cow) :
  forkable slots old new n (kmem s0) → k ≤ n →
  (∀ υ, υ ∈ slots → mapped (kmem s0) υ = true →
     0 ≤ entry (kmem s0) υ < 2 ^ 54 ∧ managed (page_of (kmem s0) υ)) →
  forked slots old new 0 k (kmem s0) (kmem s) → undoing slots old new 0 k (kmem s0) (kmem s).
Proof.
  intros Hfb Hk Hent Hfk. constructor; try apply Hfk.
  intros j Hj. destruct (fk_entries _ _ _ _ _ _ _ Hfk j Hj) as [He _].
  destruct (fb_slots _ _ _ _ _ Hfb j ltac:(lia)) as [Ho _].
  pose proof (fb_parent _ _ _ _ _ Hfb j ltac:(lia)) as Hm.
  destruct (Hent _ Ho Hm) as [Hr Hp].
  destruct (share_entry_ok _ Hr Hp) as (_ & Hpg & _).
  destruct (share_entry_flags _ Hr Hp) as (_ & HC & _); [by apply mapped_true in Hm as []|].
  unfold page_of at 1. by rewrite He.
Qed.

Lemma undone_kept slots old new k m m' :
  undoing slots old new k k m m' → mapped_kept slots m m'.
Proof.
  intros Hun τ Hτ. apply eq_true_iff_eq. rewrite (un_mapped _ _ _ _ _ _ _ Hun τ Hτ).
  split; [intros [?|(j & ? & _)]; [done|lia]|by left].
Qed.

Section fork.
Context `{!ForkLaws} (slots : list slot) (s0 : kst cow) (a0 : alloc_spec) (old new sz : Z).
Let n := (sz + 4095) / 4096.
Context (Hinv0 : cow_inv slots s0 a0) (Hul0 : unlocked s0) (Htr0 : trees slots (kmem s0)) (Hsz : 0 ≤ sz)
        (Hlen : Z.of_nat (length slots) < 2 ^ 31 - 2)
        (Hfb : forkable slots old new n (kmem s0)).

(** The outcome of [uvmcopy]. *)
Definition fork_post (z : Z) (s : kst cow) : Prop :=
  ∃ a, cow_inv slots s a ∧ keeps s0 s ∧ trees slots (kmem s) ∧
    reads_kept slots (kmem s0) (kmem s) ∧
    ((z = 0 ∧ forked slots old new 0 n (kmem s0) (kmem s)) ∨
     (z = -1 ∧ mapped_kept slots (kmem s0) (kmem s) ∧ pages_kept slots (kmem s0) (kmem s))).

Lemma fork_entries υ :
  υ ∈ slots → mapped (kmem s0) υ = true →
  0 ≤ entry (kmem s0) υ < 2 ^ 54 ∧ managed (page_of (kmem s0) υ).
Proof. intros Hυ Hm. by split; [apply (ci_entry _ _ _ Hinv0)|apply (ci_managed _ _ _ Hinv0)]. Qed.

(** The error path: what the loop mapped is unmapped again. *)
Lemma fork_fails k (s s1 : kst cow) a1 :
  0 ≤ k < n → forked slots old new 0 k (kmem s0) (kmem s) → cow_inv slots s1 a1 → keeps s0 s1 →
  trees slots (kmem s1) → mapped_kept slots (kmem s) (kmem s1) → pages_kept slots (kmem s) (kmem s1) →
  reads_kept slots (kmem s) (kmem s1) →
  (∀ j, 0 ≤ j < k → has_flag (entry (kmem s1) (page_slot new j)) PTE_COW = true) →
  returns (uvmunmap new 0 (k * 4096 / PGSIZE) 1;; mret (inr (-1) : Z + Z)) s1
    (λ r s', ∃ z, r = inr z ∧ fork_post z s').
Proof.
  intros Hk Hfk Hinv1 Hk1 Htr1 Hmk Hpk Hrd HC.
  pose proof (forked_undoing slots old new n k s0 s Hfb ltac:(lia) fork_entries Hfk) as Hun.
  assert (Hmm : ∀ υ, υ ∈ slots → mapped (kmem s0) υ = true → mapped (kmem s) υ = true)
    by (intros υ Hυ Hm; apply (un_mapped _ _ _ _ _ _ _ Hun); auto).
  assert (Hun1 : undoing slots old new 0 k (kmem s0) (kmem s1)).
  { constructor.
    - intros υ Hυ. rewrite Hmk by done. by apply Hun.
    - intros υ Hυ Hm. rewrite Hpk by auto. by apply (un_pages _ _ _ _ _ _ _ Hun).
    - apply (reads_kept_trans _ _ (kmem s)); [done|apply Hun|done].
    - intros j Hj. split; [|by apply HC]. destruct (fb_slots _ _ _ _ _ Hfb j ltac:(lia)) as [_ Hn].
      rewrite Hpk; [by apply (un_child _ _ _ _ _ _ _ Hun)|done|].
      apply (un_mapped _ _ _ _ _ _ _ Hun); [done|]. right. exists j. split; [lia|done]. }
  destruct (undo slots old new n k s0 Hfb ltac:(lia) (Z.to_nat k) s1 a1) as (s2 & a2 & Hrun & Hk2 & Hinv2 & Htr2 & Hun2).
  { lia. } { done. } { destruct Hk1 as [Hh _]. unfold unlocked. by rewrite Hh. } { done. }
  { by replace (k - Z.of_nat (Z.to_nat k)) with 0 by lia. }
  replace (k - Z.of_nat (Z.to_nat k)) with 0 in Hrun by lia. rewrite Z2Nat.id in Hrun by lia.
  unfold PGSIZE. rewrite Z.div_mul by lia.
  apply (returns_intro _ _ (inr (-1)) s2); [by rewrite (bind_Ok _ _ _ _ _ Hrun)|].
  exists (-1). split; [done|]. exists a2. split; [done|]. split; [by eapply keeps_trans|].
  split; [done|]. split; [apply Hun2|]. right. split; [done|]. split; [by eapply undone_kept|apply Hun2].
Qed.

Lemma fork_loop : ∀ (d : nat) k (s : kst cow) a, k + Z.of_nat d = n → 0 ≤ k →
  cow_inv slots s a → keeps s0 s → trees slots (kmem s) →
  forked slots old new 0 k (kmem s0) (kmem s) →
  returns (loop (S d) (uvmcopy_body old new sz) (k * 4096)) s fork_post.
Proof.
  induction d as [|d IH]; intros k s a Hd Hk Hinv Hks Htr Hfk; rewrite loop_S.
  - assert (Hge : negb (k * 4096 <? sz) = true) by (unfold n in *; rewrite negb_true_iff, Z.ltb_ge; dlia).
    apply returns_bind, (returns_intro _ _ (inr 0) s); [unfold uvmcopy_body; by rewrite Hge|].
    apply returns_ret. exists a. do 3 (split; [done|]). split; [apply Hfk|]. left. split; [done|].
    by replace n with k by lia.
  - assert (Hlt : k * 4096 < sz) by (unfold n in *; dlia).
    destruct (fb_slots _ _ _ _ _ Hfb k ltac:(lia)) as [Ho Hn].
    pose proof (fb_parent _ _ _ _ _ Hfb k ltac:(lia)) as Hmo.
    assert (Hne : old ≠ new).
    { intros Heq. pose proof (fb_child _ _ _ _ _ Hfb k ltac:(lia)). rewrite Heq in *. congruence. }
    destruct (uvmcopy_round slots s a old new (k * 4096) sz Hinv) as
      (s1 & a1 & Hinv1 & Hk1 & Htr1 & [[Hrun Hsh]|(Hrun & Hmk & Hpk & Hrd & Hot)]); try done.
    { destruct Hks as [Hh _]. unfold unlocked. by rewrite Hh. }
    { apply (fk_mapped _ _ _ _ _ _ _ Hfk); [done|by left]. }
    { apply not_true_iff_false. intros Hm. apply (fk_mapped _ _ _ _ _ _ _ Hfk) in Hm; [|done].
      destruct Hm as [Hm|(j & Hj & Heq)].
      - pose proof (fb_child _ _ _ _ _ Hfb k ltac:(lia)) as Hc. unfold page_slot in Hc. congruence.
      - unfold page_slot in Heq. injection Heq. lia. }
    + apply returns_bind, (returns_intro _ _ _ _ _ Hrun).
      replace (k * 4096 + PGSIZE) with ((k + 1) * 4096) by (unfold PGSIZE; lia).
      apply (IH (k + 1) s1 a1); [lia|lia|done|by eapply keeps_trans|done|].
      eapply forked_step; [done|lia|done|done].
    + apply returns_bind. destruct (fork_fails k s s1 a1) as (r & s2 & Hr2 & z & -> & Hpost);
        [lia|done..|by eapply keeps_trans|done|done|done|done| |].
      { intros j Hj. destruct (fb_slots _ _ _ _ _ Hfb j ltac:(lia)) as [Hoj Hnj].
        rewrite Hot; [|done|unfold page_slot; intros Heq; injection Heq; intros; congruence|].
        - destruct (fk_entries _ _ _ _ _ _ _ Hfk j Hj) as [-> _].
          pose proof (fb_parent _ _ _ _ _ Hfb j ltac:(lia)) as Hmj.
          destruct (fork_entries _ Hoj Hmj) as [Hr Hp].
          apply share_entry_flags; [done..|]. by apply mapped_true in Hmj as [].
        - apply (fk_mapped _ _ _ _ _ _ _ Hfk); [done|]. right. exists j. split; [lia|done]. }
      apply (returns_intro _ _ (inr z) s2); [by rewrite Hrun|]. by apply returns_ret.
Qed.

Lemma fork_total : returns (uvmcopy old new sz) s0 fork_post.
Proof.
  unfold uvmcopy, PGSIZE. replace (sz + 4096 - 1) with (sz + 4095) by lia. fold n.
  change 0 with (0 * 4096). apply (fork_loop (Z.to_nat n) 0 s0 a0); try done.
  - rewrite Z2Nat.id; [lia|]. unfold n. dlia.
  - apply forked_start.
Qed.
End fork.

(** C4: [uvmcopy] forks an address space without copying it.  On success the
    child maps every page of the parent: both entries name the parent's page,
    are valid, marked copy-on-write and not writable, child and parent read
    the bytes the parent read before, and the counters again equal the number
    of mappings; no entry of another process changes.  When memory for page
    tables runs out it returns -1 with the child empty again.  In both cases
    no process reads anything new, and the machine does not panic. *)
Theorem uvmcopy_shares `{!ForkLaws} slots (s : kst cow) a old new sz :
  let n := (sz + 4095) / 4096 in
  cow_inv slots s a → unlocked s → trees slots (kmem s) → 0 ≤ sz → Z.of_nat (length slots) < 2 ^ 31 - 2 →
  forkable slots old new n (kmem s) →
  ∃ z s' a', uvmcopy old new sz s = Ok z s' ∧ cow_inv slots s' a' ∧ keeps s s' ∧
    trees slots (kmem s') ∧ reads_kept slots (kmem s) (kmem s') ∧
    (z = 0 ∧
     (∀ j, 0 ≤ j < n →
        let parent := page_slot old j in let child := page_slot new j in
        mapped (kmem s') child = true ∧
        entry (kmem s') child = entry (kmem s') parent ∧
        page_of (kmem s') child = page_of (kmem s) parent ∧
        has_flag (entry (kmem s') child) PTE_COW = true ∧
        has_flag (entry (kmem s') child) PTE_W = false ∧
        ∀ off, 0 ≤ off < 4096 → uread (kmem s') child off = uread (kmem s) parent off) ∧
     (∀ τ, τ ∈ slots → τ.1 ≠ old → mapped (kmem s) τ = true →
        entry (kmem s') τ = entry (kmem s) τ)
     ∨ z = -1 ∧ mapped_kept slots (kmem s) (kmem s') ∧ pages_kept slots (kmem s) (kmem s')).
Proof.
  cbn zeta. intros Hinv Hul Htr Hsz Hlen Hfb.
  destruct (fork_total slots s a old new sz Hinv Hul Htr Hsz Hlen Hfb)
    as (z & s' & Hrun & a' & Hinv' & Hk & Htr' & Hrd & Hcase).
  exists z, s', a'. do 5 (split; [done|]). destruct Hcase as [[-> Hfk]|Hcase]; [left|by right].
  split; [done|]. split; [|apply Hfk]. intros j Hj.
  destruct (fb_slots _ _ _ _ _ Hfb j Hj) as [Ho Hn].
  pose proof (fb_parent _ _ _ _ _ Hfb j Hj) as Hm.
  destruct (fk_entries _ _ _ _ _ _ _ Hfk j Hj) as [E1 E2].
  destruct (share_entry_flags _ (ci_entry _ _ _ Hinv _ Ho Hm) (ci_managed _ _ _ Hinv _ Ho Hm))
    as (_ & HC & HW); [by apply mapped_true in Hm as []|].
  assert (Hpg : page_of (kmem s') (page_slot new j) = page_of (kmem s) (page_slot old j)).
  { rewrite <-(fk_pages _ _ _ _ _ _ _ Hfk _ Ho Hm). unfold page_of. by rewrite E1, E2. }
  split; [apply (fk_mapped _ _ _ _ _ _ _ Hfk); [done|]; right; by exists j|].
  rewrite E1, E2. do 2 (split; [done|]). do 2 (split; [done|]). intros off Hoff.
  rewrite <-(Hrd _ off Ho Hm Hoff). unfold uread. rewrite Hpg.
  by rewrite (fk_pages _ _ _ _ _ _ _ Hfk _ Ho Hm).
Qed.

(** C6: [uvmcopy] marks every page copy-on-write, whether the parent may write
    it or not, and [cowhandle] makes every such page writable: after a fork that
    succeeds, a write fault of the child on any page other than the first is
    served, and the child can write the page from then on, a page of text
    included. *)
Theorem fork_makes_text_writable `{!ForkLaws} slots (s : kst cow) a old new sz j :
  let n := (sz + 4095) / 4096 in
  let child := page_slot new j in
  cow_inv slots s a → unlocked s → trees slots (kmem s) → 0 ≤ sz → Z.of_nat (length slots) < 2 ^ 31 - 2 →
  forkable slots old new n (kmem s) → 0 < j < n → j * 4096 < MAXVA →
  ∃ z s1 a1, uvmcopy old new sz s = Ok z s1 ∧ cow_inv slots s1 a1 ∧
    (z = 0 → avail a1 ≠ [] →
     ∃ s2, cowhandle new (j * 4096) s1 = Ok 0 s2 ∧ has_flag (entry (kmem s2) child) PTE_W = true).
Proof.
  cbn zeta. intros Hinv Hul Htr Hsz Hlen Hfb Hj HMAX.
  destruct (fork_total slots s a old new sz Hinv Hul Htr Hsz Hlen Hfb) as (z & s1 & Hrun & a1 & Hinv1 & Hk & _ & _ & Hcase).
  exists z, s1, a1. do 2 (split; [done|]). intros -> Hav. destruct Hcase as [[_ Hfk]|[Hz _]]; [|done].
  destruct (fb_slots _ _ _ _ _ Hfb j ltac:(lia)) as [Ho Hn].
  pose proof (fb_parent _ _ _ _ _ Hfb j ltac:(lia)) as Hm.
  destruct (fk_entries _ _ _ _ _ _ _ Hfk j ltac:(lia)) as [E1 _].
  destruct (share_entry_flags _ (ci_entry _ _ _ Hinv _ Ho Hm) (ci_managed _ _ _ Hinv _ Ho Hm))
    as (_ & HC & _); [by apply mapped_true in Hm as []|].
  assert (Hs : slot_at new (j * 4096) = page_slot new j) by (unfold slot_at, page_slot; f_equal; dlia).
  destruct (cowhandle_ok slots s1 a1 new (j * 4096)) as (s2 & a2 & Hcow & _ & _ & _ & _ & _ & _ & _ & Hbits);
    rewrite ?Hs; try done; [by eapply keeps_unlocked|lia| |by rewrite E1|lia|].
  - apply (fk_mapped _ _ _ _ _ _ _ Hfk); [done|]. right. exists j. split; [lia|done].
  - exists s2. split; [done|]. rewrite Hs in Hbits. change PTE_W with (2 ^ 2).
    rewrite has_flag_bit, Hbits by lia. by rewrite orb_true_r.
Qed.
End cow_fork.
