(* ===== verification/Trap.v ===== *)
(** * The user trap path: what the [usertrap] functions share

    The registers of the hart and the fields of the current process the trap
    handlers read and write, the layout of the trapframe in memory, and the
    stock functions the handlers call, as classes.  Each lab has its own
    handler, in its own file. *)

From S2P Require Import Prelude Memory Machine.

(** The control registers of the hart: [r_sstatus] and the like read them. *)
Record hart := Hart {
  sstatus : Z; stvec : Z; sepc : Z; scause : Z; stval : Z;
}.
Definition set_stvec (v : Z) (h : hart) : hart :=
  Hart (sstatus h) v (sepc h) (scause h) (stval h).

(** Where the handlers find the parts of the kernel state: the registers, and
    the current process's [killed], [pid], trapframe and page table. *)
Class TrapState (X : Type) := {
  regs : X → hart;
  set_regs : hart → X → X;
  p_killed : X → Z;
  p_pid : X → Z;
  p_trapframe : X → Z;
  p_pagetable : X → Z;
  mark_killed : X → X;
  regs_set h x : regs (set_regs h x) = h;
  p_killed_set h x : p_killed (set_regs h x) = p_killed x;
  p_trapframe_set h x : p_trapframe (set_regs h x) = p_trapframe x;
  p_pagetable_set h x : p_pagetable (set_regs h x) = p_pagetable x;
  p_killed_mark x : p_killed (mark_killed x) ≠ 0;
}.

(** trapframe, riscv.h and trampoline constants of the stock kernel. *)
Class TrapLayout := {
  TF_EPC : Z; TF_SP : Z; TF_A0 : Z;
  TF_SIZE : Z;
  SSTATUS_SPP : Z;
  kernelvec : Z;
  TF_EPC_in : 0 ≤ TF_EPC ∧ TF_EPC + 8 ≤ TF_SIZE ∧ TF_EPC mod 8 = 0;
  TF_SP_in : 0 ≤ TF_SP ∧ TF_SP + 8 ≤ TF_SIZE ∧ TF_SP mod 8 = 0;
  TF_A0_in : 0 ≤ TF_A0 ∧ TF_A0 + 8 ≤ TF_SIZE ∧ TF_A0 mod 8 = 0;
  TF_distinct : TF_EPC ≠ TF_SP ∧ TF_EPC ≠ TF_A0;
  TF_SIZE_page : TF_SIZE ≤ 4096;
}.

(** The interrupt bit of [scause]. *)
Definition is_interrupt (cause : Z) : bool := 2 ^ 63 <=? cause.

(** The stock functions.  [killed] and [setkilled] read and set the process's
    flag; [devintr] recognises interrupts only; the rest are any code. *)
Class TrapEnv (X : Type) `{TrapState X} := {
  killed : M (kst X) bool;
  setkilled : M (kst X) unit;
  devintr : M (kst X) Z;
  intr_on : M (kst X) unit;
  syscall : M (kst X) unit;
  yield : M (kst X) unit;
  usertrapret : M (kst X) unit;
  killed_spec s : killed s = Ok (negb (p_killed (ext s) =? 0)) s;
  setkilled_spec s : setkilled s = Ok tt (set_ext (mark_killed (ext s)) s);
  devintr_exception s :
    is_interrupt (scause (regs (ext s))) = false → devintr s = Ok 0 s;
}.

Section trap_ops.
Context {X : Type} `{TrapEnv X, TrapLayout}.

Definition reg (r : hart → Z) : M (kst X) Z := getx (λ x, r (regs x)).
Definition w_stvec (v : Z) : M (kst X) unit := modx (λ x, set_regs (set_stvec v (regs x)) x).

(** [p->trapframe->field]. *)
Definition tf_load (field : Z) : M (kst X) Z :=
  tf ← getx p_trapframe; load (tf + field).
Definition tf_store (field v : Z) : M (kst X) unit :=
  tf ← getx p_trapframe; store (tf + field) v.

Definition tf_addr (field : Z) (s : kst X) : Z := p_trapframe (ext s) + field.

(** Entering the kernel: the trap vector is switched and the user program
    counter saved. *)
Definition entered (s : kst X) : kst X :=
  let x := set_regs (set_stvec kernelvec (regs (ext s))) (ext s) in
  set_ext x (set_mem (store64 (kmem s) (tf_addr TF_EPC s) (sepc (regs (ext s)))) s).

Lemma enter_run {B} (s : kst X) (k : M (kst X) B) :
  has_flag (sstatus (regs (ext s))) SSTATUS_SPP = false →
  (ss ← reg sstatus;
   (if has_flag ss SSTATUS_SPP then panic "usertrap: not from user mode" else mret tt);;
   w_stvec kernelvec;;
   pc ← reg sepc;
   tf_store TF_EPC pc;;
   k) s = k (entered s).
Proof.
  intros Hu. kstep. rewrite Hu. do 3 kstep. unfold tf_store. rewrite bind_assoc. do 2 kstep.
  unfold entered, tf_addr, set_ext, set_mem; cbn. by rewrite p_trapframe_set, regs_set.
Qed.

Lemma entered_regs s :
  scause (regs (ext (entered s))) = scause (regs (ext s)) ∧
  sepc (regs (ext (entered s))) = sepc (regs (ext s)) ∧
  stval (regs (ext (entered s))) = stval (regs (ext s)) ∧
  p_killed (ext (entered s)) = p_killed (ext s) ∧
  p_trapframe (ext (entered s)) = p_trapframe (ext s) ∧
  p_pagetable (ext (entered s)) = p_pagetable (ext s).
Proof.
  unfold entered; cbn. by rewrite regs_set, p_killed_set, p_trapframe_set, p_pagetable_set.
Qed.

(** The other fields of the trapframe are as they were. *)
Lemma entered_field f s :
  f ≠ TF_EPC → f mod 8 = 0 →
  load64 (kmem (entered s)) (tf_addr f s) = load64 (kmem s) (tf_addr f s).
Proof.
  intros Hne Hf. destruct TF_EPC_in as (_ & _ & He). unfold entered, tf_addr; cbn.
  apply load64_store64_ne. dlia.
Qed.

(** ** The end of every handler *)

Definition trap_end (w : Z) : M (kst X) unit :=
  k ← killed;
  (if (k : bool) then exit_with (-1) else mret tt);;
  (if w =? 2 then yield else mret tt);;
  usertrapret.

Lemma trap_end_killed (s : kst X) w :
  p_killed (ext s) ≠ 0 → trap_end w s = Exited (-1) s.
Proof.
  intros Hk. unfold trap_end. rewrite (bind_Ok _ _ _ _ _ (killed_spec s)).
  by rewrite (proj2 (Z.eqb_neq _ _) Hk).
Qed.

Lemma trap_end_alive (s : kst X) w :
  p_killed (ext s) = 0 → trap_end w s = ((if w =? 2 then yield else mret tt);; usertrapret) s.
Proof.
  intros Hk. unfold trap_end. rewrite (bind_Ok _ _ _ _ _ (killed_spec s)), Hk. done.
Qed.

(** ** System calls *)

(** The trapframe's program counter moved past the [ecall]. *)
Definition advanced (s : kst X) : kst X :=
  set_mem (store64 (kmem (entered s)) (tf_addr TF_EPC s) (u64 (sepc (regs (ext s))) + 4)) (entered s).

Lemma advanced_epc s : load64 (kmem (advanced s)) (tf_addr TF_EPC s) = u64 (sepc (regs (ext s)) + 4).
Proof.
  unfold advanced; cbn. rewrite load64_store64_eq. unfold u64.
  by rewrite Zplus_mod_idemp_l.
Qed.

(** The system-call case of every handler, before what follows it. *)
Definition ecall : M (kst X) Z :=
  k ← killed;
  (if (k : bool) then exit_with (-1) else mret tt);;
  epc ← tf_load TF_EPC;
  tf_store TF_EPC (epc + 4);;
  intr_on;;
  syscall;;
  mret 0.

Lemma ecall_killed {B} (g : Z → M (kst X) B) s :
  p_killed (ext s) ≠ 0 → (ecall ≫= g) (entered s) = Exited (-1) (entered s).
Proof.
  intros Hk. unfold ecall. rewrite bind_assoc, (bind_Ok _ _ _ _ _ (killed_spec _)).
  destruct (entered_regs s) as (_ & _ & _ & Hkl & _). rewrite Hkl.
  by rewrite (proj2 (Z.eqb_neq _ _) Hk).
Qed.

Lemma ecall_runs {B} (g : Z → M (kst X) B) s :
  p_killed (ext s) = 0 → (ecall ≫= g) (entered s) = (intr_on;; syscall;; g 0) (advanced s).
Proof.
  intros Hk. unfold ecall. rewrite bind_assoc, (bind_Ok _ _ _ _ _ (killed_spec _)).
  destruct (entered_regs s) as (_ & _ & _ & -> & Htf & _). rewrite Hk. set (e := entered s) in *.
  transitivity (((intr_on;; syscall;; mret 0) ≫= g)
    (set_mem (store64 (kmem e) (tf_addr TF_EPC e) (load64 (kmem e) (tf_addr TF_EPC e) + 4)) e));
    [reflexivity|].
  replace (set_mem _ e) with (advanced s).
  - rewrite bind_assoc. apply bind_ext. intros [] s'. rewrite bind_assoc. by apply bind_ext.
  - unfold advanced, tf_addr. rewrite Htf. fold e. do 3 f_equal. unfold e, entered; cbn.
    symmetry. apply load64_store64_eq.
Qed.
End trap_ops.

#[export] Hint Resolve killed_spec setkilled_spec : kernel.
