(* ===== verification/Procdump.v ===== *)
(** * The process listing (lab6, kernel/proc.c, procdump) *)

From S2P Require Import Prelude Memory Machine.

(** The numbers of [enum procstate]. *)
Class ProcStates := {
  sUNUSED : Z; sUSED : Z; sSLEEPING : Z; sRUNNABLE : Z; sRUNNING : Z; sZOMBIE : Z;
  states_nodup : NoDup [sUNUSED; sUSED; sSLEEPING; sRUNNABLE; sRUNNING; sZOMBIE];
}.

Record dproc := DProc { d_state : Z; d_pid : Z; d_name : string }.

Section procdump.
Context `{ProcStates} {X : Type}.

(** The array [states], null where no state has its number. *)
Definition states : gmap Z string :=
  list_to_map [(sUNUSED, "unused"); (sUSED, "used"); (sSLEEPING, "sleep "); (sRUNNABLE, "runble");
               (sRUNNING, "run   "); (sZOMBIE, "zombie")]%string.

Definition state_name (st : Z) : string := default "???"%string (states !! st).

(** Every state has its own name, whatever the numbers are. *)
Lemma state_name_known st name :
  (st, name) ∈ [(sUNUSED, "unused"); (sUSED, "used"); (sSLEEPING, "sleep "); (sRUNNABLE, "runble");
                (sRUNNING, "run   "); (sZOMBIE, "zombie")]%string → state_name st = name.
Proof.
  intros Hin. unfold state_name, states. apply elem_of_list_to_map_1 in Hin; [by rewrite Hin|exact states_nodup].
Qed.

Fixpoint dump_procs (proc : list dproc) : M (kst X) unit :=
  match proc with
  | [] => mret tt
  | p :: proc =>
      (if d_state p =? sUNUSED then mret tt
       else
         printf "%d %s %s" [PInt (d_pid p); PStr (state_name (d_state p)); PStr (d_name p)];;
         printf "\n" []);;
      dump_procs proc
  end.

Definition procdump (proc : list dproc) : M (kst X) unit :=
  printf "\n" [];;
  dump_procs proc.

(** What is printed for one process. *)
Definition listing (p : dproc) : list (string * list parg) :=
  if d_state p =? sUNUSED then []
  else [("%d %s %s", [PInt (d_pid p); PStr (state_name (d_state p)); PStr (d_name p)]); ("\n", [])]%string.

Lemma dump_procs_run proc : ∀ s : kst X,
  dump_procs proc s = Ok tt (KSt (kmem s) (held s) (console s ++ concat (map listing proc)) (ext s)).
Proof.
  induction proc as [|p proc IH]; intros s; cbn [dump_procs map concat].
  - rewrite app_nil_r. by destruct s.
  - unfold listing at 1. destruct (d_state p =? sUNUSED).
    + erewrite bind_Ok by reflexivity. apply IH.
    + erewrite bind_Ok by reflexivity. rewrite IH. cbn. by rewrite <-!app_assoc.
Qed.

(** [procdump] lists exactly the slots in use, in order, each with its pid, the
    name of its state and its name, and changes nothing but the console. *)
Theorem procdump_lists proc (s : kst X) :
  procdump proc s = Ok tt (KSt (kmem s) (held s) (console s ++ ("\n"%string, []) :: concat (map listing proc)) (ext s)).
Proof. unfold procdump. erewrite bind_Ok by reflexivity. rewrite dump_procs_run. cbn. by rewrite <-app_assoc. Qed.
End procdump.
