(* ===== verification/CowTrap.v ===== *)
(** * Page faults on shared pages (lab6, kernel/trap.c)

    [usertrap] sends load, store and instruction page faults to [cowhandle]
    unless the address is out of range or next to the stack pointer's page. *)

From S2P Require Import Prelude Memory Machine FreeList CowAlloc CowVm Trap.

Section cow_trap.
Context `{Riscv, MemLayout} {P : Type} `{!PageTable (cow (P := P))}.
Context `{!TrapState P}.

Local Abbreviation cow := (cow (P := P)).

(** ** State

    The registers and the process are in the part of the state the allocator
    does not touch. *)

Definition set_rest (r : P) (x : cow) : cow := Cow (freelist x) (count x) r.

#[export] Instance cow_trap_state : TrapState cow.
Proof.
  refine {|
    regs x := regs (rest x);
    set_regs h x := set_rest (set_regs h (rest x)) x;
    p_killed x := p_killed (rest x);
    p_pid x := p_pid (rest x);
    p_trapframe x := p_trapframe (rest x);
    p_pagetable x := p_pagetable (rest x);
    mark_killed x := set_rest (mark_killed (rest x)) x;
  |}; intros; cbn.
  - apply regs_set.
  - apply p_killed_set.
  - apply p_trapframe_set.
  - apply p_pagetable_set.
  - apply p_killed_mark.
Defined.

Context `{!TrapEnv cow, TrapLayout}.

(** ** The handler *)

Definition usertrap : M (kst cow) unit :=
  ss ← reg sstatus;
  (if has_flag ss SSTATUS_SPP then panic "usertrap: not from user mode" else mret tt);;
  w_stvec kernelvec;;
  pc ← reg sepc;
  tf_store TF_EPC pc;;
  sc ← reg scause;
  let scause := s32 sc in
  which_dev ←
    (if scause =? 8 then
       k ← killed;
       (if (k : bool) then exit_with (-1) else mret tt);;
       epc ← tf_load TF_EPC;
       tf_store TF_EPC (epc + 4);;
       intr_on;;
       syscall;;
       mret 0
     else
       which_dev ← devintr;
       if negb (which_dev =? 0) then mret which_dev
       else if (scause =? 12) || (scause =? 13) || (scause =? 15) then
         va ← reg stval;
         sp ← tf_load TF_SP;
         let up := PGROUNDDOWN sp in
         let down := u64 (up - PGSIZE) in
         (if (va <? 0) || (MAXVA <=? va) || ((down <=? va) && (va <=? up)) then setkilled
          else
            pt ← getx p_pagetable;
            r ← cowhandle pt va;
            if negb (r =? 0) then setkilled else mret tt);;
         mret which_dev
       else
         va ← reg stval;
         cause ← reg Trap.scause;
         pid ← getx p_pid;
         printf "usertrap(): unexpected scause 0x%lx pid=%d va=%p\n" [PInt cause; PInt pid; PInt va];;
         pc ← reg sepc;
         va ← reg stval;
         printf "            sepc=0x%lx stval=0x%lx\n" [PInt pc; PInt va];;
         setkilled;;
         mret which_dev);
  k ← killed;
  (if (k : bool) then exit_with (-1) else mret tt);;
  (if which_dev =? 2 then yield else mret tt);;
  usertrapret.


(** ** The invariant and the process's state *)

Lemma cow_inv_ext slots m h c h' c' (x x' : cow) a :
  freelist x' = freelist x → (∀ i, count x' i = count x i) →
  cow_inv slots (KSt m h c x) a → cow_inv slots (KSt m h' c' x') a.
Proof.
  intros Hf Hc []. constructor; try done. destruct ci_rep as [Hch Hbl Hct Hrf Hfr].
  constructor; cbn -[managed] in *; try done; [by rewrite Hf|].
  intros p Hp. rewrite Hc. by apply Hct.
Qed.

(** The trap state is in [rest]. *)
Lemma same_rest (x x' : cow) :
  rest x' = rest x →
  regs x' = regs x ∧ p_killed x' = p_killed x ∧ p_trapframe x' = p_trapframe x ∧
  p_pagetable x' = p_pagetable x.
Proof. intros Hr. cbn. by rewrite Hr. Qed.

Lemma set_regs_inv slots h (s : kst cow) a :
  cow_inv slots s a → cow_inv slots (set_ext (set_regs h (ext s)) s) a.
Proof. destruct s. by apply cow_inv_ext. Qed.

Lemma mark_killed_inv slots (s : kst cow) a :
  cow_inv slots s a → cow_inv slots (set_ext (mark_killed (ext s)) s) a.
Proof. destruct s. by apply cow_inv_ext. Qed.

#[local] Opaque cow_trap_state.

(** The trapframe is a page of the kernel's own. *)
Definition trapframe_ok (slots : list slot) (s : kst cow) (a : alloc_spec) : Prop :=
  let tf := p_trapframe (ext s) in
  tf mod 4096 = 0 ∧ (∀ b, frame b = tf → private_byte slots s a b).

Lemma entered_agree slots (s : kst cow) a :
  trapframe_ok slots s a →
  agree_on (λ b, frame b ≠ p_trapframe (ext s)) (kmem s) (kmem (entered s)).
Proof.
  intros [Hal _] b Hb. destruct TF_EPC_in as (H0' & H8 & _). pose proof TF_SIZE_page.
  unfold entered, tf_addr; cbn. rewrite store64_ne; [done|].
  intros Hr. apply Hb, in_page_frame; [done|]. unfold in_range in *. lia.
Qed.

Lemma entered_inv slots (s : kst cow) a :
  cow_inv slots s a → trapframe_ok slots s a →
  cow_inv slots (entered s) a ∧ mapped_kept slots (kmem s) (kmem (entered s)) ∧
  entries_kept slots (kmem s) (kmem (entered s)) ∧
  reads_kept slots (kmem s) (kmem (entered s)) ∧ trapframe_ok slots (entered s) a.
Proof.
  intros Hinv Htf. pose proof (entered_agree _ _ _ Htf) as Hag. destruct Htf as [Hal Hpriv].
  set (tf := p_trapframe (ext s)) in *. set (m' := kmem (entered s)) in *.
  assert (Hframe : frame tf = tf) by (unfold frame; dlia).
  destruct (Hpriv tf Hframe) as (Hna & Hnt & Hnu). rewrite Hframe in *.
  assert (Htab : ∀ b, table_byte (kmem s) slots b → frame b ≠ tf).
  { intros b Hb Heq. by apply (Hpriv b Heq). }
  assert (Hmk : mapped_kept slots (kmem s) m')
    by (intros τ Hτ; by apply (dw_mapped slots s m' tf)).
  assert (Hpg : ∀ τ, τ ∈ slots → mapped (kmem s) τ = true →
    entry m' τ = entry (kmem s) τ ∧ page_of m' τ = page_of (kmem s) τ)
    by (intros τ Hτ Hm; by apply (dw_page slots s m' tf)).
  split; [|split; [done|split; [|split]]].
  - pose proof (dw_inv slots s a m' tf Hinv Hna Htab Hag) as Hi.
    exact (set_regs_inv slots _ _ a Hi).
  - intros τ Hτ Hm. by apply Hpg.
  - intros τ off Hτ Hm Hoff. unfold uread. rewrite (proj2 (Hpg τ Hτ Hm)). apply Hag.
    destruct (ci_managed _ _ _ Hinv τ Hτ Hm) as (Hpal & _).
    rewrite (proj1 (in_page_frame _ _ Hpal)) by (unfold in_range; lia). by apply Hnu.
  - unfold trapframe_ok. destruct (entered_regs s) as (_ & _ & _ & _ & -> & _). fold tf.
    split; [done|]. intros b Hb. destruct (Hpriv b Hb) as (Hb1 & Hb2 & Hb3).
    split; [done|]. split.
    + intros Ht. by apply Hb2, (dw_table slots s m' tf).
    + intros τ Hτ Hm. fold m' in Hm |- *. rewrite Hmk in Hm by done.
      rewrite (proj2 (Hpg τ Hτ Hm)). by apply Hb3.
Qed.

(** ** Page faults *)

(** Addresses the handler refuses because they are next to the stack
    pointer's page. *)
Definition near_stack (sp va : Z) : Prop :=
  u64 (PGROUNDDOWN sp - PGSIZE) ≤ va ≤ PGROUNDDOWN sp.

Lemma near_stack_dec sp va : near_stack sp va ∨ ¬ near_stack sp va.
Proof. unfold near_stack. lia. Qed.

(** A page fault after the program counter has been saved. *)
Definition fault_path : M (kst cow) unit :=
  va ← reg stval;
  sp ← tf_load TF_SP;
  let up := PGROUNDDOWN sp in
  let down := u64 (up - PGSIZE) in
  (if (va <? 0) || (MAXVA <=? va) || ((down <=? va) && (va <=? up)) then setkilled
   else
     pt ← getx p_pagetable;
     r ← cowhandle pt va;
     if negb (r =? 0) then setkilled else mret tt).

Lemma usertrap_fault (s : kst cow) :
  has_flag (sstatus (regs (ext s))) SSTATUS_SPP = false →
  scause (regs (ext s)) ∈ [12; 13; 15] →
  usertrap s =
  (fault_path;; trap_end 0) (entered s).
Proof.
  intros Hu Hc. unfold usertrap. rewrite enter_run by done.
  pose proof (entered_regs s) as (Hsc & _). set (s1 := entered s) in *. rewrite <-Hsc in Hc. clearbody s1.
  kstep.
  rewrite !elem_of_cons, elem_of_nil in Hc.
  assert (Hs : s32 (scause (regs (ext s1))) = scause (regs (ext s1))) by (apply s32_small; lia).
  rewrite Hs. rewrite (proj2 (Z.eqb_neq _ 8)) by lia.
  rewrite bind_assoc. erewrite bind_Ok.
  2: { apply devintr_exception. unfold is_interrupt. apply Z.leb_gt. lia. }
  cbn [negb Z.eqb].
  replace ((scause (regs (ext s1)) =? 12) || (scause (regs (ext s1)) =? 13) ||
           (scause (regs (ext s1)) =? 15)) with true by lia.
  unfold fault_path. rewrite !bind_assoc. apply bind_ext. intros va s2.
  rewrite !bind_assoc. apply bind_ext. intros sp s3. cbv zeta.
  rewrite bind_assoc. apply bind_ext. intros [] s4. by kstep.
Qed.

(** What [usertrap] needs of the machine when a page fault arrives. *)
Record page_fault (slots : list slot) (s : kst cow) (a : alloc_spec) : Prop := {
  pf_user : has_flag (sstatus (regs (ext s))) SSTATUS_SPP = false;
  pf_cause : scause (regs (ext s)) ∈ [12; 13; 15];
  pf_alive : p_killed (ext s) = 0;
  pf_va : 0 ≤ stval (regs (ext s)) < 2 ^ 64;
  pf_inv : cow_inv slots s a;
  pf_unlocked : unlocked s;
  pf_trapframe : trapframe_ok slots s a;
  pf_slot : stval (regs (ext s)) < MAXVA →
            slot_at (p_pagetable (ext s)) (stval (regs (ext s))) ∈ slots;
}.

(** The refused faults: the process is marked, and nothing else happens. *)
Lemma fault_path_refuses slots (s : kst cow) a :
  let va := stval (regs (ext s)) in
  let σ := slot_at (p_pagetable (ext s)) va in
  cow_inv slots s a → unlocked s → 0 ≤ va < 2 ^ 64 →
  MAXVA ≤ va ∨ near_stack (load64 (kmem s) (tf_addr TF_SP s)) va ∨
    ¬ breakable (kmem s) a σ va →
  fault_path s = Ok tt (set_ext (mark_killed (ext s)) s).
Proof.
  cbn zeta. intros Hinv Hul Hva Hno. unfold fault_path. kstep. unfold tf_load.
  rewrite bind_assoc. do 2 kstep. unfold near_stack, tf_addr in Hno.
  set (va := stval (regs (ext s))) in *. rewrite (proj2 (Z.ltb_ge va 0)) by lia. cbn [orb].
  destruct (MAXVA <=? va) eqn:E1; [apply setkilled_spec|].
  destruct ((u64 _ <=? va) && _) eqn:E2; [apply setkilled_spec|]. cbn. kstep.
  bool_to_Prop. rewrite andb_false_iff, !Z.leb_gt in E2.
  erewrite bind_Ok; [|apply (cowhandle_refused slots s a); [done|done|lia|]].
  - cbn. apply setkilled_spec.
  - destruct Hno as [?|[?|?]]; [lia|lia|done].
Qed.

Lemma fault_path_serves slots (s : kst cow) a :
  let va := stval (regs (ext s)) in
  let σ := slot_at (p_pagetable (ext s)) va in
  cow_inv slots s a → unlocked s → 0 ≤ va < MAXVA → σ ∈ slots →
  ¬ near_stack (load64 (kmem s) (tf_addr TF_SP s)) va → breakable (kmem s) a σ va →
  ∃ s', cowhandle (p_pagetable (ext s)) va s = Ok 0 s' ∧ fault_path s = Ok tt s'.
Proof.
  cbn zeta. intros Hinv Hul Hva Hσ Hns Hb.
  destruct (cowhandle_ok slots s a (p_pagetable (ext s)) (stval (regs (ext s))))
    as (s' & a' & Hrun & _); try done; try apply Hb.
  exists s'. split; [done|]. unfold fault_path. kstep. unfold tf_load.
  rewrite bind_assoc. do 2 kstep. unfold near_stack, tf_addr in Hns.
  set (va := stval (regs (ext s))) in *.
  rewrite (proj2 (Z.ltb_ge va 0)), (proj2 (Z.leb_gt MAXVA va)) by lia. cbn [orb].
  destruct ((u64 _ <=? va) && _) eqn:E2; [bool_to_Prop; lia|]. cbn. kstep.
  by erewrite bind_Ok by exact Hrun.
Qed.

Lemma word_private (s s' : kst cow) slots a a' q :
  private_kept slots s a s' a' → q mod 8 = 0 → (∀ b, frame b = frame q → private_byte slots s a b) →
  load64 (kmem s') q = load64 (kmem s) q.
Proof.
  intros Hp Hq Hb. apply load64_ext. intros b Hr. apply Hp, Hb. by apply word_frame.
Qed.

(** What the saved program counter leaves as it was. *)
Lemma entered_facts slots (s : kst cow) a :
  let va := stval (regs (ext s)) in
  let σ := slot_at (p_pagetable (ext s)) va in
  page_fault slots s a →
  load64 (kmem (entered s)) (tf_addr TF_SP (entered s)) = load64 (kmem s) (tf_addr TF_SP s) ∧
  unlocked (entered s) ∧
  (va < MAXVA → breakable (kmem (entered s)) a σ va ↔ breakable (kmem s) a σ va).
Proof.
  cbn zeta. intros []. pose proof (entered_inv slots s a pf_inv0 pf_trapframe0) as (_ & Hmk1 & Hek1 & _ & _).
  pose proof (entered_regs s) as (_ & _ & _ & _ & Htfp & _).
  destruct TF_SP_in as (_ & _ & Hsp8). destruct TF_EPC_in as (Hep0 & Hep & Hep8).
  destruct TF_distinct as [Hd _]. split; [|split; [done|]].
  - unfold tf_addr at 1. rewrite Htfp. by apply entered_field.
  - intros Hlt. unfold breakable. rewrite Hmk1 by auto.
    split; intros (Hm & HC & ?); (rewrite Hek1 in * by auto); done.
Qed.

(** A fault on a breakable page away from the stack is served. *)
Lemma usertrap_serves slots (s : kst cow) a :
  let va := stval (regs (ext s)) in
  let σ := slot_at (p_pagetable (ext s)) va in
  page_fault slots s a →
  va < MAXVA → ¬ near_stack (load64 (kmem s) (tf_addr TF_SP s)) va → breakable (kmem s) a σ va →
  ∃ s' a', usertrap s = usertrapret s' ∧ cow_inv slots s' a' ∧
     mapped_kept slots (kmem s) (kmem s') ∧ reads_kept slots (kmem s) (kmem s') ∧
     others_kept slots σ (kmem s) (kmem s') ∧
     has_flag (entry (kmem s') σ) PTE_W = true ∧ has_flag (entry (kmem s') σ) PTE_COW = false ∧
     load64 (kmem s') (tf_addr TF_EPC s') = u64 (sepc (regs (ext s))) ∧
     p_killed (ext s') = 0.
Proof.
  cbn zeta. intros Hpf Hlt Hns Hb. destruct (entered_facts slots s a Hpf) as (Hsp & Hul1 & Hbr). destruct Hpf.
  rewrite usertrap_fault by done.
  pose proof (entered_inv slots s a pf_inv0 pf_trapframe0) as (Hinv1 & Hmk1 & Hek1 & Hrd1 & Htf1).
  pose proof (entered_regs s) as (_ & _ & Hva & Hal & Htfp & Hpt).
  destruct TF_EPC_in as (Hep0 & Hep & Hep8). pose proof TF_SIZE_page.
  assert (Htfal : p_trapframe (ext s) mod 4096 = 0) by apply pf_trapframe0.
  set (va := stval (regs (ext s))) in *. set (pt := p_pagetable (ext s)) in *.
  destruct (fault_path_serves slots (entered s) a) as (s' & Hcow & Hrun); rewrite ?Hva, ?Hpt, ?Hsp; try done.
  { lia. } { auto. } { by apply Hbr. }
  rewrite Hva, Hpt in Hcow.
  destruct (cowhandle_ok slots (entered s) a pt va)
    as (s2 & a2 & Hrun2 & Hk & Hinv2 & Hmk2 & Hok2 & Hrd2 & Hpk & _ & Hbits); try done.
  { lia. } { auto. } { rewrite Hmk1 by auto; apply Hb. } { apply Hbr; [done|apply Hb]. } { apply Hb. } { apply Hb. }
  rewrite Hcow in Hrun2. injection Hrun2 as <-. rewrite (bind_Ok _ _ _ _ _ Hrun).
  destruct (same_rest (ext (entered s)) (ext s')) as (_ & Hkl & Htf' & _); [apply Hk|].
  exists s', a2. split; [rewrite trap_end_alive; [done|by rewrite Hkl, Hal]|]. split; [done|].
  split; [intros τ Hτ; by rewrite Hmk2, Hmk1|].
  split; [apply (reads_kept_trans _ _ (kmem (entered s))); [|done..]; intros τ Hτ; by rewrite Hmk1|].
  split; [|split; [|split; [|split; [|by rewrite Hkl, Hal]]]].
  + intros τ Hτ Hne Hm. rewrite Hok2 by (done || by rewrite Hmk1). by apply Hek1.
  + change PTE_W with (2 ^ 2). rewrite has_flag_bit, Hbits by lia. by rewrite orb_true_r.
  + change PTE_COW with (2 ^ 9). rewrite has_flag_bit, Hbits by lia. by rewrite andb_false_r.
  + unfold tf_addr. rewrite Htf', Htfp.
    rewrite (word_private (entered s) s' slots a a2) by first [done|dlia|
      intros b Hb'; apply Htf1; rewrite Htfp, Hb'; unfold frame; dlia].
    apply load64_store64_eq.
Qed.

(** C5: a page fault on a copy-on-write page resumes the process.  When the
    address is below [MAXVA], not next to the stack pointer's page and on a
    breakable page, [usertrap] returns to user space in a state where that
    page is private and writable, the program counter to resume at is saved,
    and every process reads what it read before; any other page fault ends
    the process with status -1, with no memory changed that a process reads. *)
Theorem usertrap_page_fault slots (s : kst cow) a :
  let va := stval (regs (ext s)) in
  let σ := slot_at (p_pagetable (ext s)) va in
  let served := va < MAXVA ∧ ¬ near_stack (load64 (kmem s) (tf_addr TF_SP s)) va ∧
                breakable (kmem s) a σ va in
  page_fault slots s a →
  (served → ∃ s' a', usertrap s = usertrapret s' ∧ cow_inv slots s' a' ∧
     mapped_kept slots (kmem s) (kmem s') ∧ reads_kept slots (kmem s) (kmem s') ∧
     others_kept slots σ (kmem s) (kmem s') ∧
     has_flag (entry (kmem s') σ) PTE_W = true ∧ has_flag (entry (kmem s') σ) PTE_COW = false ∧
     load64 (kmem s') (tf_addr TF_EPC s') = u64 (sepc (regs (ext s))) ∧
     p_killed (ext s') = 0) ∧
  (¬ served → ∃ s', usertrap s = Exited (-1) s' ∧ cow_inv slots s' a ∧
     mapped_kept slots (kmem s) (kmem s') ∧ entries_kept slots (kmem s) (kmem s') ∧
     reads_kept slots (kmem s) (kmem s')).
Proof.
  cbn zeta. intros Hpf. split; [intros (? & ? & ?); by apply (usertrap_serves slots s a)|].
  destruct (entered_facts slots s a Hpf) as (Hsp & Hul1 & Hbr). destruct Hpf. rewrite usertrap_fault by done.
  pose proof (entered_inv slots s a pf_inv0 pf_trapframe0) as (Hinv1 & Hmk1 & Hek1 & Hrd1 & _).
  pose proof (entered_regs s) as (_ & _ & Hva & Hal & Htfp & Hpt).
  set (va := stval (regs (ext s))) in *. set (pt := p_pagetable (ext s)) in *.
  intros Hno. exists (set_ext (mark_killed (ext (entered s))) (entered s)). split.
  { erewrite bind_Ok; [apply trap_end_killed, p_killed_mark|].
    apply (fault_path_refuses slots (entered s) a); rewrite ?Hva, ?Hpt, ?Hsp; try done.
    destruct (decide (MAXVA ≤ va)); [by left|right].
    destruct (near_stack_dec (load64 (kmem s) (tf_addr TF_SP s)) va); [by left|right].
    rewrite Hbr by lia. intros Hb. apply Hno. split; [lia|done]. }
  cbn. split; [by apply mark_killed_inv|done].
Qed.
End cow_trap.
