(* ===== verification/CowExample.v ===== *)
(** * A small copy-on-write machine

    A concrete instance of the interfaces of the copy-on-write development,
    and its theorems but those of [CowFork], which [CowWalkExample] has, applied
    to it: a machine of thirty-two pages, flat page
    tables of one page, two address spaces, and one free page.  It shows that
    the hypotheses of those theorems hold together. *)

From S2P Require Import Prelude Memory Machine FreeList CowAlloc CowVm CowRace Trap CowTrap.

#[local] Existing Instance sv39.
#[local] Existing Instance small_layout.

(** ** Flat page tables: one page of 512 entries *)

Section toy.
Context {P : Type}.
Local Abbreviation cow := (cow (P := P)).

Definition flat_walk0 (m : mem) (pt va : Z) : Z :=
  if va <? 2097152 then pt + 8 * (va / 4096) else 0.

Definition flat_walk (pt va alloc : Z) : M (kst cow) Z := λ s,
  if MAXVA <=? va then Panic "walk" s else Ok (flat_walk0 (kmem s) pt va) s.

Definition flat_mappages (pt va size pa perm : Z) : M (kst cow) Z :=
  pte ← flat_walk pt va 1;
  if pte =? 0 then mret (-1)
  else v ← load pte;
       (if has_flag v PTE_V then panic "mappages: remap" else mret tt);;
       store pte (Z.lor (Z.lor (PA2PTE pa) perm) PTE_V);;
       mret 0.

Fixpoint flat_unmap (pt va : Z) (n : nat) : M (kst cow) unit :=
  match n with
  | O => mret tt
  | S n => λ s, let pte := flat_walk0 (kmem s) pt va in
           (kfree (PTE2PA (load64 (kmem s) pte));; store pte 0;; flat_unmap pt (va + PGSIZE) n) s
  end.

#[export] Instance flat : PageTable cow.
Proof.
  refine {|
    walk := flat_walk;
    mappages := flat_mappages;
    uvmunmap pt va n do_free := flat_unmap pt va (Z.to_nat n);
    walk0 := flat_walk0;
    visits _ _ _ _ := False;
  |}.
  - intros pt va s Hva. unfold flat_walk. by rewrite (proj2 (Z.leb_gt _ _)) by lia.
  - intros pt va alloc s Hva. unfold flat_walk. by rewrite (proj2 (Z.leb_le _ _)).
  - intros m pt va. unfold flat_walk0.
    destruct (va <? 2097152) eqn:E1, (va / 4096 * 4096 <? 2097152) eqn:E2; bool_to_Prop; dlia.
  - done.
  - done.
Defined.

(** ** States *)

Definition toy_mem (ents : list (Z * Z)) : mem :=
  foldr (λ e m, store64 m e.1 e.2) (λ _, 0) ents.
Definition toy (ents : list (Z * Z)) (cnt : Z → Z) (r : P) : kst cow :=
  KSt (toy_mem ents) ∅ [] (Cow 53248 cnt r).
Definition toy_spec (cnt : Z → Z) : alloc_spec := AllocSpec [53248] (λ p, cnt (p / 4096)).

(** What has to be checked of a state, slot by slot. *)
Definition toy_slot_ok (slots : list slot) (s : kst cow) (cnt : Z → Z) (σ : slot) : bool :=
  (σ.1 mod 4096 =? 0) && (0 <? σ.1) && negb (σ.1 =? 53248) &&
  (σ.2 mod 4096 =? 0) && (0 <=? σ.2) && (σ.2 <? 2097152) &&
  (negb (mapped (kmem s) σ) ||
   (let q := page_of (kmem s) σ in
    (0 <=? entry (kmem s) σ) && (entry (kmem s) σ <? 2 ^ 54) &&
    (q mod 4096 =? 0) && (4096 <=? q) && (q + 4096 <=? 33 * 4096) &&
    forallb (λ τ, negb (q =? τ.1)) slots &&
    (cnt (q / 4096) =? mapcount (kmem s) slots q) &&
    ((cnt (q / 4096) <? 2) ||
     has_flag (entry (kmem s) σ) PTE_COW && negb (has_flag (entry (kmem s) σ) PTE_W)))).

Lemma toy_table_byte slots (m : mem) b :
  table_byte m slots b ↔ ∃ σ, σ ∈ slots ∧ pte_of m σ ≠ 0 ∧ in_range (pte_of m σ) 8 b.
Proof. unfold table_byte. cbn. split; intros (σ & Hσ & Hb); exists σ; tauto. Qed.

Record toy_mapped_ok (slots : list slot) (s : kst cow) (cnt : Z → Z) (σ : slot) : Prop := {
  tm_entry : 0 ≤ entry (kmem s) σ < 2 ^ 54;
  tm_managed : managed (page_of (kmem s) σ);
  tm_tables τ : τ ∈ slots → page_of (kmem s) σ ≠ τ.1;
  tm_count : cnt (page_of (kmem s) σ / 4096) = mapcount (kmem s) slots (page_of (kmem s) σ);
  tm_shared : 2 ≤ cnt (page_of (kmem s) σ / 4096) →
    has_flag (entry (kmem s) σ) PTE_COW = true ∧ has_flag (entry (kmem s) σ) PTE_W = false;
}.

Lemma toy_slot_mapped slots s cnt σ :
  toy_slot_ok slots s cnt σ = true → mapped (kmem s) σ = true → toy_mapped_ok slots s cnt σ.
Proof.
  unfold toy_slot_ok. intros H Hm. rewrite Hm in H. cbn [negb orb] in H. cbv zeta in H.
  apply andb_true_iff in H as [_ H]. rewrite !andb_true_iff, forallb_forall in H.
  destruct H as (((((((He1 & He2) & Hq1) & Hq2) & Hq3) & Ht) & Hc) & Hsh). bool_to_Prop.
  constructor.
  - done.
  - exact (conj Hq1 (conj Hq2 Hq3)).
  - intros τ Hτ. apply list_elem_of_In, Ht in Hτ. by bool_to_Prop.
  - done.
  - intros H2. rewrite (proj2 (Z.ltb_ge _ _)) in Hsh by done. cbn in Hsh.
    by rewrite andb_true_iff, negb_true_iff in Hsh.
Qed.

Lemma toy_rep ents cnt r :
  load64 (kmem (toy ents cnt r)) 53248 = 0 →
  (∀ i, 0 ≤ cnt i ≤ 2) → (∀ i, cnt i = 0 ↔ i = 13) → rep (toy ents cnt r) (toy_spec cnt).
Proof.
  intros H0 Hcr Hc0. constructor; cbn -[managed load64 toy_mem].
  - done.
  - split; [apply NoDup_singleton|]. constructor; [|constructor].
    by vm_compute.
  - done.
  - intros p _. specialize (Hcr (p / 4096)). lia.
  - intros p (Hal & _). rewrite elem_of_cons, elem_of_nil, Hc0. dlia.
Qed.

Lemma toy_inv slots ents cnt r :
  let s := toy ents cnt r in
  NoDup slots → forallb (toy_slot_ok slots s cnt) slots = true →
  load64 (kmem s) 53248 = 0 →
  (∀ i, 0 ≤ cnt i ≤ 2) → (∀ i, cnt i = 0 ↔ i = 13) →
  cow_inv slots s (toy_spec cnt).
Proof.
  cbn zeta. set (s := toy ents cnt r). intros Hnd Hok H0 Hcr Hc0.
  assert (Hs : ∀ σ, σ ∈ slots → toy_slot_ok slots s cnt σ = true).
  { intros σ Hσ. rewrite forallb_forall in Hok. apply Hok. by apply list_elem_of_In. }
  assert (Hgeo : ∀ σ, σ ∈ slots →
    (σ.1 mod 4096 = 0 ∧ 0 < σ.1 ∧ σ.1 ≠ 53248 ∧ σ.2 mod 4096 = 0 ∧ 0 ≤ σ.2 < 2097152) ∧
    pte_of (kmem s) σ = σ.1 + 8 * (σ.2 / 4096)).
  { intros σ Hσ. specialize (Hs σ Hσ). unfold toy_slot_ok in Hs. bool_to_Prop.
    split; [lia|]. unfold pte_of; cbn. unfold flat_walk0. by rewrite (proj2 (Z.ltb_lt _ _)) by lia. }
  assert (Hframe : ∀ b, table_byte (kmem s) slots b → ∃ σ, σ ∈ slots ∧ frame b = σ.1).
  { intros b (σ & Hσ & Hz & Hb)%toy_table_byte. exists σ. split; [done|].
    destruct (Hgeo σ Hσ) as [? Hp]. rewrite Hp in Hb. unfold in_range, frame in *. dlia. }
  assert (Hmap : ∀ σ, σ ∈ slots → mapped (kmem s) σ = true → toy_mapped_ok slots s cnt σ).
  { intros σ Hσ Hm. specialize (Hs σ Hσ). by apply toy_slot_mapped. }
  constructor.
  - by apply toy_rep.
  - done.
  - intros σ Hσ. destruct (Hgeo σ Hσ) as [? _]. split; [lia|]. cbn. lia.
  - intros σ Hσ. destruct (Hgeo σ Hσ) as [? ->]. dlia.
  - intros σ Hσ Hm. apply (Hmap σ Hσ Hm).
  - intros σ τ Hσ Hτ _. destruct (Hgeo σ Hσ) as [? ->], (Hgeo τ Hτ) as [? ->]. intros Heq.
    destruct σ, τ; cbn in *. f_equal; dlia.
  - intros σ τ b _ _ Hb. by destruct Hb.
  - intros b Hb. destruct (Hframe b Hb) as (σ & Hσ & ->). cbn. rewrite elem_of_cons, elem_of_nil.
    destruct (Hgeo σ Hσ) as [? _]. lia.
  - intros b σ Hb Hσ Hm. destruct (Hframe b Hb) as (τ & Hτ & ->).
    by apply (Hmap σ Hσ Hm).
  - intros σ Hσ Hm. apply (Hmap σ Hσ Hm).
  - intros σ Hσ Hm. apply (Hmap σ Hσ Hm).
  - intros σ Hσ Hm. apply (Hmap σ Hσ Hm).
Qed.
End toy.

(** ** Two processes sharing a page *)

(** Decide a closed proposition by evaluation. *)
Ltac closed := refine (bool_decide_unpack _ _); vm_compute; exact I.

Definition shared_slots : list slot := [(40960, 4096); (45056, 4096)].
(** Both map the page 49152 copy-on-write, readable and user. *)
Definition shared_ents : list (Z * Z) := [(40968, 12819); (45064, 12819)].
Definition shared_cnt (i : Z) : Z := if i =? 13 then 0 else if i =? 12 then 2 else 1.

Lemma shared_inv {P} (r : P) :
  cow_inv shared_slots (toy shared_ents shared_cnt r) (toy_spec shared_cnt).
Proof.
  apply toy_inv.
  - closed.
  - by vm_compute.
  - by vm_compute.
  - intros i. unfold shared_cnt. destruct (i =? 13), (i =? 12); lia.
  - intros i. unfold shared_cnt. destruct (i =? 13) eqn:E, (i =? 12); bool_to_Prop; lia.
Qed.

Lemma toy_unlocked {P} ents cnt (r : P) : unlocked (toy ents cnt r).
Proof. split; apply not_elem_of_empty. Qed.

Lemma shared_breakable {P} (r : P) pt :
  pt ∈ [40960; 45056] →
  slot_at pt 4096 ∈ shared_slots ∧
  breakable (P := P) (kmem (toy shared_ents shared_cnt r)) (toy_spec shared_cnt) (slot_at pt 4096) 4096.
Proof.
  rewrite !elem_of_cons, elem_of_nil. intros [->|[->|[]]].
  all: split; [closed|]; split; [by vm_compute|];
    split; [by vm_compute|done].
Qed.

Lemma cowhandle_isolates_witness :
  ∃ s' a', cowhandle 40960 4096 (toy shared_ents shared_cnt tt) = Ok 0 s' ∧
    cow_inv shared_slots s' a' ∧
    mapcount (P := unit) (kmem s') shared_slots (page_of (P := unit) (kmem s') (slot_at 40960 4096)) = 1.
Proof.
  destruct (shared_breakable tt 40960) as [Hin Hb]; [by apply elem_of_cons; left|].
  destruct (cowhandle_isolates shared_slots (toy shared_ents shared_cnt tt) (toy_spec shared_cnt)
              40960 4096 (shared_inv tt) (toy_unlocked _ _ tt) ltac:(by vm_compute) Hin) as [_ Hok].
  destruct (Hok Hb) as (s' & a' & H1 & _ & H2 & _ & _ & _ & _ & _ & H3).
  exists s', a'. exact (conj H1 (conj H2 H3)).
Defined.

(** ** The allocator *)

Lemma allocator_refines_contract_witness :
  ∃ s a, (kinit;; run_ops [OpAlloc; OpShare 131072; OpFree 131072; OpFree 131072; OpAlloc])
           (KSt (λ _, 0) ∅ [] (Cow 0 (λ _, 0) tt)) = Ok [131072; 0; 0; 0; 131072] s ∧ rep s a.
Proof.
  edestruct (allocator_refines_contract (P := unit) (λ _, 0) ∅ [] tt
    [OpAlloc; OpShare 131072; OpFree 131072; OpFree 131072; OpAlloc]) as (s & Hrun & Hrep & _).
  - vm_compute. reflexivity.
  - eexists s, _. split; [exact Hrun|exact Hrep].
Defined.

Lemma kfree_guards_witness : kfree 1 (toy shared_ents shared_cnt tt) =
  Panic "kfree" (toy shared_ents shared_cnt tt).
Proof.
  destruct (kfree_guards (toy shared_ents shared_cnt tt) (toy_spec shared_cnt) 1) as [[Hp _]|[_ H]].
  - apply (ci_rep _ _ _ (shared_inv tt)).
  - apply toy_unlocked.
  - intros (Hp & _). discriminate Hp.
  - destruct Hp as (Hp & _). discriminate Hp.
  - exact H.
Defined.

Lemma kfree_race_double_free_witness :
  ∃ s', rtc (step 49152 49152) (Harts Drop Drop (toy shared_ents shared_cnt tt)) (Harts Done Done s') ∧
    freelist (ext s') = 49152.
Proof.
  destruct (kfree_race_double_free (toy_mem shared_ents) ∅ [] (Cow 53248 shared_cnt tt) 49152)
    as (s' & H1 & H2 & _).
  - by vm_compute.
  - apply not_elem_of_empty.
  - apply not_elem_of_empty.
  - reflexivity.
  - exists s'. exact (conj H1 H2).
Defined.

(** A kernel page no one else uses. *)
Lemma toy_private {P} slots ents cnt (r : P) q :
  q mod 4096 = 0 → q ≠ 53248 →
  forallb (λ σ, (σ.1 mod 4096 =? 0) && negb (σ.1 =? q) && (0 <=? σ.2) && (σ.2 <? 2097152) &&
                negb (page_of (P := P) (kmem (toy ents cnt r)) σ =? q)) slots = true →
  ∀ b, frame b = q → private_byte slots (toy ents cnt r) (toy_spec cnt) b.
Proof.
  intros Hq Hne Hok b Hb. rewrite forallb_forall in Hok.
  split; [cbn; rewrite Hb, elem_of_cons, elem_of_nil; tauto|split].
  - intros (σ & Hσ & _ & Hr)%toy_table_byte. apply list_elem_of_In, Hok in Hσ.
    revert Hr. unfold pte_of; cbn. unfold flat_walk0. bool_to_Prop.
    rewrite (proj2 (Z.ltb_lt _ _)) by lia. unfold in_range, frame in *. intros. dlia.
  - intros σ Hσ _. apply list_elem_of_In, Hok in Hσ. bool_to_Prop. congruence.
Qed.

Lemma copyout_isolates_witness :
  ∃ r s' a' k, copyout 40960 4100 57344 8 (toy shared_ents shared_cnt tt) = Ok r s' ∧
    cow_inv shared_slots s' a' ∧ (r = 0 ∧ k = 8 ∨ r = -1 ∧ 0 ≤ k < 8).
Proof.
  destruct (copyout_isolates shared_slots (toy shared_ents shared_cnt tt) (toy_spec shared_cnt)
              40960 4100 57344 8 (shared_inv tt) (toy_unlocked _ _ tt) ltac:(by vm_compute)
              ltac:(by vm_compute)) as (r & s' & a' & k & H1 & _ & H2 & _ & H3 & _).
  - intros va Hva _. unfold slot_at. replace (va / 4096 * 4096) with 4096 by dlia.
    by apply elem_of_cons; left.
  - intros b Hb. apply (toy_private _ _ _ _ 57344); [done|done|by vm_compute|].
    unfold frame. dlia.
  - exists r, s', a', k. exact (conj H1 (conj H2 H3)).
Defined.

(** ** A process trapping *)

Record toy_proc := ToyProc { t_regs : hart; t_killed : Z }.

#[export] Instance toy_state : TrapState toy_proc.
Proof.
  refine {|
    regs := t_regs;
    set_regs h x := ToyProc h (t_killed x);
    p_killed := t_killed;
    p_pid _ := 1;
    p_trapframe _ := 57344;
    p_pagetable _ := 40960;
    mark_killed x := ToyProc (t_regs x) 1;
  |}; done.
Defined.

#[export] Instance toy_layout : TrapLayout.
Proof.
  refine {| TF_EPC := 24; TF_SP := 48; TF_A0 := 112; TF_SIZE := 288;
            SSTATUS_SPP := 256; kernelvec := 4096 |}; by vm_compute.
Defined.

#[export] Instance toy_env : TrapEnv (cow (P := toy_proc)).
Proof.
  refine {|
    killed s := Ok (negb (p_killed (ext s) =? 0)) s;
    setkilled s := Ok tt (set_ext (mark_killed (ext s)) s);
    devintr s := Ok (if is_interrupt (scause (regs (ext s))) then 2 else 0) s;
    intr_on := mret tt;
    syscall := mret tt;
    yield := mret tt;
    usertrapret := mret tt;
  |}; try done. intros s Hs. by rewrite Hs.
Defined.

(** A store to address 4096 of the shared page, with the stack elsewhere. *)
Definition trapping : toy_proc := ToyProc (Hart 0 0 64 15 4096) 0.

Lemma usertrap_page_fault_witness :
  ∃ s' a', usertrap (toy shared_ents shared_cnt trapping) = usertrapret s' ∧
    cow_inv shared_slots s' a' ∧ p_killed (ext s') = 0.
Proof.
  destruct (usertrap_page_fault shared_slots (toy shared_ents shared_cnt trapping)
              (toy_spec shared_cnt)) as [Hok _].
  - constructor.
    + done.
    + closed.
    + done.
    + by vm_compute.
    + apply shared_inv.
    + apply toy_unlocked.
    + split; [done|]. apply toy_private; [done|done|by vm_compute].
    + intros _. closed.
  - destruct Hok as (s' & a' & H1 & H2 & _ & _ & _ & _ & _ & _ & H3).
    + split; [by vm_compute|]. split; [by vm_compute; intros [? ?]|]. 
      apply (proj2 (shared_breakable trapping 40960 ltac:(by apply elem_of_cons; left))).
    + exists s', a'. exact (conj H1 (conj H2 H3)).
Defined.
