(* ===== verification/Printer.v ===== *)
(** * Printing page tables (lab3 "print a page table" and "use superpages":
    kernel/vm.c, vmprint and vmprintkpgtbl)

    The two labs' printers differ in what they print before the dots of a line,
    [prefix]: nothing, or a space. *)

From S2P Require Import Prelude Memory Machine.

Section printer.
Context `{Riscv} {X : Type}.

(** What is printed first on the line of an entry. *)
Variable prefix : list string.

(** [recordvpn | i << PXSHIFT(2-depth)]: the shift is of an [int]. *)
Definition print_vpn (recordvpn : Z) (depth i : Z) : Z :=
  Z.lor recordvpn (u64 (s32 (Z.shiftl i (PXSHIFT (2 - depth))))).

Fixpoint print_strings (l : list string) : M (kst X) unit :=
  match l with [] => mret tt | x :: l => printf x [];; print_strings l end.

Fixpoint print_dots (n : nat) : M (kst X) unit :=
  match n with O => mret tt | S n => printf ".. " [];; print_dots n end.

(** One entry; [print_table] prints the table below it. *)
Definition print_entry (print_table : Z → Z → Z → M (kst X) unit)
    (pagetable depth recordvpn i : Z) : M (kst X) unit :=
  pte ← load (pagetable + 8 * i);
  if has_flag pte PTE_V then
    let pa := PTE2PA pte in
    print_strings prefix;;
    print_dots (Z.to_nat depth);;
    let vpn := print_vpn recordvpn depth i in
    let vpn := if depth =? 0 then Z.lor vpn (Z.land pa 4095) else vpn in
    printf "..%p: pte %p pa %p\n" [PInt vpn; PInt pte; PInt pa];;
    if Z.land pte (Z.lor (Z.lor PTE_R PTE_W) PTE_X) =? 0
    then print_table pa (depth + 1) vpn
    else mret tt
  else mret tt.

(** The recursion on tables has fuel; the loop over entries runs 512 times. *)
Fixpoint vmprintkpgtbl (fuel : nat) (pagetable depth recordvpn : Z) : M (kst X) unit :=
  match fuel with
  | O => λ _, NoFuel
  | S fuel =>
      loop 513 (λ i,
        if negb (i <? 512) then mret (inr tt)
        else print_entry (vmprintkpgtbl fuel) pagetable depth recordvpn i;; mret (inl (i + 1))) 0
  end.

Definition vmprint (fuel : nat) (pagetable : Z) : M (kst X) unit :=
  printf "page table %p\n" [PInt pagetable];;
  vmprintkpgtbl fuel pagetable 0 0.

(** The lines of the printer as a function of memory, one level per [n]. *)
Definition dump_entry (dump : Z → Z → Z → list (string * list parg))
    (m : mem) (pagetable depth recordvpn : Z) (i : nat) : list (string * list parg) :=
  let pte := load64 m (pagetable + 8 * Z.of_nat i) in
  if has_flag pte PTE_V then
    let pa := PTE2PA pte in
    let vpn := print_vpn recordvpn depth (Z.of_nat i) in
    let vpn := if depth =? 0 then Z.lor vpn (Z.land pa 4095) else vpn in
    ((λ x, (x, [])) <$> prefix) ++ replicate (Z.to_nat depth) (".. ", []) ++
    ("..%p: pte %p pa %p\n", [PInt vpn; PInt pte; PInt pa]) ::
    (if Z.land pte (Z.lor (Z.lor PTE_R PTE_W) PTE_X) =? 0 then dump pa (depth + 1) vpn else [])
  else [].

Fixpoint dump (n : nat) (m : mem) (pagetable depth recordvpn : Z) : list (string * list parg) :=
  match n with
  | O => []
  | S n => concat (map (dump_entry (dump n m) m pagetable depth recordvpn) (seq 0 512))
  end.

(** A tree of at most [n] levels: no table below the last one. *)
Fixpoint shallow (n : nat) (m : mem) (pagetable : Z) : Prop :=
  match n with
  | O => False
  | S n => ∀ i : nat, (i < 512)%nat →
      let pte := load64 m (pagetable + 8 * Z.of_nat i) in
      has_flag pte PTE_V = true → Z.land pte (Z.lor (Z.lor PTE_R PTE_W) PTE_X) = 0 →
      shallow n m (PTE2PA pte)
  end.

Definition log (l : list (string * list parg)) (s : kst X) : kst X :=
  KSt (kmem s) (held s) (console s ++ l) (ext s).

Lemma log_log l1 l2 s : log l2 (log l1 s) = log (l1 ++ l2) s.
Proof. unfold log. cbn. by rewrite app_assoc. Qed.

Lemma log_nil s : log [] s = s.
Proof. destruct s. unfold log. cbn. by rewrite app_nil_r. Qed.

Lemma printf_log fmt args (s : kst X) : printf fmt args s = Ok tt (log [(fmt, args)] s).
Proof. done. Qed.

Lemma print_strings_log l s : print_strings l s = Ok tt (log ((λ x, (x, [])) <$> l) s).
Proof.
  revert s. induction l as [|x l IH]; intros s; cbn [print_strings fmap list_fmap]; [by rewrite log_nil|].
  rewrite (bind_Ok _ _ _ _ _ (printf_log x [] s)), IH. by rewrite log_log.
Qed.

Lemma print_dots_log n s : print_dots n s = Ok tt (log (replicate n (".. ", [])) s).
Proof.
  revert s. induction n as [|n IH]; intros s; cbn [print_dots replicate]; [by rewrite log_nil|].
  rewrite (bind_Ok _ _ _ _ _ (printf_log ".. " [] s)), IH. by rewrite log_log.
Qed.

Lemma entries_loop (f : Z → M (kst X) unit) (lines : nat → list (string * list parg)) m :
  (∀ j s, kmem s = m → (j < 512)%nat → f (Z.of_nat j) s = Ok tt (log (lines j) s)) →
  ∀ k j s, (j + k = 512)%nat → kmem s = m →
  loop (S k) (λ i, if negb (i <? 512) then mret (inr tt) else f i;; mret (inl (i + 1))) (Z.of_nat j) s =
  Ok tt (log (concat (map lines (seq j k))) s).
Proof.
  intros Hf k. induction k as [|k IH]; intros j s Hj Hm.
  - rewrite loop_S. rewrite (proj2 (Z.ltb_ge (Z.of_nat j) 512)) by lia. cbn. by rewrite log_nil.
  - rewrite loop_S. rewrite (proj2 (Z.ltb_lt (Z.of_nat j) 512)) by lia. cbn [negb].
    rewrite bind_assoc, (bind_Ok _ _ _ _ _ (Hf j s Hm ltac:(lia))).
    erewrite bind_Ok by reflexivity. cbv beta iota.
    replace (Z.of_nat j + 1) with (Z.of_nat (S j)) by lia.
    rewrite IH by (done || lia). cbn [seq map concat]. by rewrite log_log.
Qed.

Lemma print_table fuel : ∀ n pt depth vpn (s : kst X),
  (n ≤ fuel)%nat → shallow n (kmem s) pt →
  vmprintkpgtbl fuel pt depth vpn s = Ok tt (log (dump n (kmem s) pt depth vpn) s).
Proof.
  induction fuel as [|fuel IH]; intros [|n] pt depth vpn s Hn Hsh; try done; [lia|].
  cbn [vmprintkpgtbl dump].
  refine (entries_loop _ _ (kmem s) _ 512%nat 0%nat s _ _); [|done|done].
  intros j s' Hm Hj. unfold print_entry, dump_entry. kstep. rewrite Hm. cbv zeta.
  destruct (has_flag _ PTE_V) eqn:HV; [|by rewrite log_nil].
  rewrite (bind_Ok _ _ _ _ _ (print_strings_log _ _)), (bind_Ok _ _ _ _ _ (print_dots_log _ _)),
    (bind_Ok _ _ _ _ _ (printf_log _ _ _)), !log_log.
  destruct (Z.land _ _ =? 0) eqn:El; bool_to_Prop.
  - rewrite (IH n); [|lia|cbn [kmem log]; rewrite Hm]. 2: { exact (Hsh j Hj HV El). }
    cbn [kmem log]. rewrite log_log, Hm. f_equal. rewrite <-!app_assoc. done.
  - rewrite <-?app_assoc; cbn [app]; done.
Qed.

(** C26: [vmprint] prints the tree.  On a tree of at most [n] levels, with
    fuel for [n] levels, it returns, prints the header and then one line per
    valid entry in depth-first order, indented by depth ([dump]), and changes
    nothing else. *)
Theorem vmprint_dumps n fuel pt (s : kst X) :
  (n ≤ fuel)%nat → shallow n (kmem s) pt →
  vmprint fuel pt s =
  Ok tt (log (("page table %p\n", [PInt pt]) :: dump n (kmem s) pt 0 0) s).
Proof.
  intros Hn Hsh. unfold vmprint. rewrite (bind_Ok _ _ _ _ _ (printf_log _ _ _)).
  rewrite (print_table fuel n) by done. by rewrite log_log.
Qed.

(** C27: the address printed for a root entry is wrong from entry 2 on.  The
    index is shifted as a 32-bit [int], so only the first two gigabytes are
    printed at the addresses the entries translate. *)
Theorem vmprint_root_addresses i :
  0 ≤ i < 512 → print_vpn 0 0 i = i * 2 ^ 30 ↔ i < 2.
Proof.
  intros Hi. unfold print_vpn. rewrite Z.lor_0_l, PXSHIFT_spec by lia.
  change (12 + 9 * (2 - 0)) with 30. rewrite Z.shiftl_mul_pow2 by lia. change (2 ^ 30) with 1073741824.
  unfold u64, s32. change (2 ^ 64) with 18446744073709551616. change (2 ^ 32) with 4294967296.
  change (2 ^ 31) with 2147483648. dlia.
Qed.
End printer.

(** ** The two labs *)

Section printers.
Context `{Riscv} {X : Type}.

(** lab3 "print a page table". *)
Definition table_vmprintkpgtbl : nat → Z → Z → Z → M (kst X) unit := vmprintkpgtbl [].
Definition table_vmprint : nat → Z → M (kst X) unit := vmprint [].

(** lab3 "use superpages". *)
Definition super_vmprintkpgtbl : nat → Z → Z → Z → M (kst X) unit := vmprintkpgtbl [" "%string].
Definition super_vmprint : nat → Z → M (kst X) unit := vmprint [" "%string].
End printers.
