(* ===== verification/SuperAlloc.v ===== *)
(** * Page and superpage allocator (lab3 "use superpages", kernel/kalloc.c)

    State: the heads of two free lists threaded through the free memory, one
    of 4096-byte pages and one of 2-megabyte superpages.  [freerange] gives
    the last 52 superpages of memory to the second list. *)

From S2P Require Import Prelude Memory Machine FreeList.

Section super_alloc.
Context `{Riscv, MemLayout} {P : Type}.

(** ** State and operations *)

Record sup := Sup { freelist : Z; superfreelist : Z; srest : P }.

Definition kmem_lock : lock := ("kmem", 0).
Definition superkmem_lock : lock := ("superkmem", 0).

Definition set_freelist (r : Z) (x : sup) : sup := Sup r (superfreelist x) (srest x).
Definition set_superfreelist (r : Z) (x : sup) : sup := Sup (freelist x) r (srest x).

Definition kfree (pa : Z) : M (kst sup) unit :=
  (if negb (pa mod PGSIZE =? 0) || (pa <? KERNEND) || (PHYSTOP <=? pa)
   then panic "kfree" else mret tt);;
  memsetM pa 1 PGSIZE;;
  acquire kmem_lock;;
  next ← getx freelist;
  store pa next;;
  modx (set_freelist pa);;
  release kmem_lock.

Definition superkfree (pa : Z) : M (kst sup) unit :=
  (if negb (pa mod SUPERPGSIZE =? 0) then panic "superkfree invalid page alignment" else mret tt);;
  (if pa <? KERNEND then panic "superkfree address below kernel end" else mret tt);;
  (if PHYSTOP <=? pa then panic "superkfree address beyond physical memory" else mret tt);;
  memsetM pa 1 SUPERPGSIZE;;
  acquire superkmem_lock;;
  next ← getx superfreelist;
  store pa next;;
  modx (set_superfreelist pa);;
  release superkmem_lock.

Definition kalloc : M (kst sup) Z :=
  acquire kmem_lock;;
  r ← getx freelist;
  (if negb (r =? 0) then next ← load r; modx (set_freelist next) else mret tt);;
  release kmem_lock;;
  (if negb (r =? 0) then memsetM r 5 PGSIZE else mret tt);;
  mret r.

Definition superkalloc : M (kst sup) Z :=
  acquire superkmem_lock;;
  r ← getx superfreelist;
  (if negb (r =? 0) then next ← load r; modx (set_superfreelist next) else mret tt);;
  release superkmem_lock;;
  (if negb (r =? 0) then memsetM r 7 SUPERPGSIZE else mret tt);;
  mret r.

(** "sbrkmuch needs 100 megabytes, so set aside more than 50 superpages." *)
Definition nsuper : Z := 52.

(** The first loop frees single pages up to the reserved part, the second one
    superpages; each runs once per block and once more to leave. *)
Definition freerange (pa_start pa_end : Z) : M (kst sup) unit :=
  let p := PGROUNDUP pa_start in
  p ← loop (S (S (Z.to_nat ((pa_end - p) / PGSIZE))))
        (λ p, if p + PGSIZE <=? pa_end - nsuper * SUPERPGSIZE
              then kfree p;; mret (inl (p + PGSIZE))
              else mret (inr p)) p;
  let p := PGROUNDUP p in
  loop (S (S (Z.to_nat ((pa_end - p) / SUPERPGSIZE))))
    (λ p, if p <=? pa_end - SUPERPGSIZE
          then superkfree p;; mret (inl (p + SUPERPGSIZE))
          else mret (inr tt)) p.

Definition kinit : M (kst sup) unit :=
  initlock kmem_lock;;
  initlock superkmem_lock;;
  freerange KERNEND PHYSTOP.

(** ** The contract *)

Record super_spec := SuperSpec { small : list Z; super : list Z }.

Definition super_managed (p : Z) : Prop :=
  p mod SUPERPGSIZE = 0 ∧ KERNEND ≤ p ∧ p + SUPERPGSIZE ≤ PHYSTOP.
Definition page_managed (p : Z) : Prop := p mod 4096 = 0 ∧ KERNEND ≤ p ∧ p + 4096 ≤ PHYSTOP.

(** A page outside a superpage. *)
Definition apart (p q : Z) : Prop := p + 4096 ≤ q ∨ q + SUPERPGSIZE ≤ p.

Record srep (s : kst sup) (a : super_spec) : Prop := {
  sr_small : flist (kmem s) (freelist (ext s)) (small a);
  sr_super : flist (kmem s) (superfreelist (ext s)) (super a);
  sr_small_blocks : blocks KERNEND PHYSTOP 4096 (small a);
  sr_super_blocks : blocks KERNEND PHYSTOP SUPERPGSIZE (super a);
  sr_apart p q : p ∈ small a → q ∈ super a → apart p q;
}.

Definition sunlocked (s : kst sup) : Prop := (kmem_lock ∉ held s) ∧ (superkmem_lock ∉ held s).

Definition skeeps (s s' : kst sup) : Prop :=
  held s' = held s ∧ console s' = console s ∧ srest (ext s') = srest (ext s).

#[export] Instance skeeps_refl : Reflexive skeeps.
Proof. done. Qed.

Lemma skeeps_trans s1 s2 s3 : skeeps s1 s2 → skeeps s2 s3 → skeeps s1 s3.
Proof. unfold skeeps. intuition congruence. Qed.

Lemma skeeps_unlocked s s' : skeeps s s' → sunlocked s → sunlocked s'.
Proof. intros [Hh _]. unfold sunlocked. by rewrite Hh. Qed.

(** ** Both allocators push and pop blocks *)

Section stack.
Context (lk : lock) (get : sup → Z) (set : Z → sup → sup) (size fill : Z).

Definition push_block (p : Z) : M (kst sup) unit :=
  memsetM p 1 size;;
  acquire lk;;
  next ← getx get;
  store p next;;
  modx (set p);;
  release lk.

Definition pop_block : M (kst sup) Z :=
  acquire lk;;
  r ← getx get;
  (if negb (r =? 0) then next ← load r; modx (set next) else mret tt);;
  release lk;;
  (if negb (r =? 0) then memsetM r fill size else mret tt);;
  mret r.

Lemma push_run p m h c x :
  lk ∉ h →
  push_block p (KSt m h c x) = Ok tt (KSt (store64 (memset m p 1 size) p (get x)) h c (set p x)).
Proof.
  intros Hl. unfold push_block. do 5 kstep. unfold set_mem, set_held, set_ext; cbn.
  by apply release_ok.
Qed.

Lemma pop_empty m h c x :
  lk ∉ h → get x = 0 → pop_block (KSt m h c x) = Ok 0 (KSt m h c x).
Proof. intros Hl Hg. unfold pop_block. do 2 kstep. rewrite Hg. by do 3 kstep. Qed.

Lemma pop_run m h c x :
  lk ∉ h → get x ≠ 0 →
  pop_block (KSt m h c x) =
  Ok (get x) (KSt (memset m (get x) fill size) h c (set (load64 m (get x)) x)).
Proof.
  intros Hl Hg. unfold pop_block. do 2 kstep. rewrite (proj2 (Z.eqb_neq _ _) Hg). cbn.
  rewrite bind_assoc. do 3 kstep. by kstep.
Qed.
End stack.

Lemma kfree_push p (s : kst sup) :
  page_managed p → kfree p s = push_block kmem_lock freelist set_freelist 4096 p s.
Proof.
  intros (Hal & Hlo & Hhi). unfold kfree, PGSIZE.
  assert (negb (p mod 4096 =? 0) || (p <? KERNEND) || (PHYSTOP <=? p) = false) as -> by lia.
  by kstep.
Qed.

Lemma superkfree_push p (s : kst sup) :
  super_managed p →
  superkfree p s = push_block superkmem_lock superfreelist set_superfreelist SUPERPGSIZE p s.
Proof.
  intros (Hal & Hlo & Hhi). unfold superkfree. rewrite Hal. pose proof (eq_refl : SUPERPGSIZE = 2097152).
  rewrite (proj2 (Z.ltb_ge _ _)) by lia. rewrite (proj2 (Z.leb_gt _ _)) by lia. by do 3 kstep.
Qed.

Lemma kalloc_pop : kalloc = pop_block kmem_lock freelist set_freelist 4096 5.
Proof. done. Qed.

Lemma superkalloc_pop :
  superkalloc = pop_block superkmem_lock superfreelist set_superfreelist SUPERPGSIZE 7.
Proof. done. Qed.

Lemma push_agree m p size v :
  8 ≤ size → agree_on (λ b, ¬ in_range p size b) m (store64 (memset m p 1 size) p v).
Proof.
  intros Hs b Hb. rewrite store64_ne, memset_ne; [done|done|]. unfold in_range in *. lia.
Qed.

Lemma page_managed_nonzero p : page_managed p → 0 < p < 2 ^ 43.
Proof. intros (? & ? & ?). pose proof KERNEND_pos. pose proof PHYSTOP_bound. lia. Qed.

Lemma super_managed_nonzero p : super_managed p → 0 < p < 2 ^ 43.
Proof.
  intros (? & ? & ?). pose proof KERNEND_pos. pose proof PHYSTOP_bound.
  pose proof (eq_refl : SUPERPGSIZE = 2097152). lia.
Qed.

(** ** Refinement *)

Definition spec_kalloc (a : super_spec) : Z * super_spec :=
  match small a with [] => (0, a) | p :: l => (p, SuperSpec l (super a)) end.
Definition spec_superkalloc (a : super_spec) : Z * super_spec :=
  match super a with [] => (0, a) | p :: l => (p, SuperSpec (small a) l) end.
Definition spec_kfree (p : Z) (a : super_spec) : super_spec := SuperSpec (p :: small a) (super a).
Definition spec_superkfree (p : Z) (a : super_spec) : super_spec := SuperSpec (small a) (p :: super a).

(** What may be freed: a block that is not free, nor part of a free one. *)
Definition page_in_use (a : super_spec) (p : Z) : Prop :=
  page_managed p ∧ (p ∉ small a) ∧ ∀ q, q ∈ super a → apart p q.
Definition super_in_use (a : super_spec) (p : Z) : Prop :=
  super_managed p ∧ (p ∉ super a) ∧ ∀ q, q ∈ small a → apart q p.

Lemma apart_word_page p q b : apart p q → in_range q 8 b → ¬ in_range p 4096 b.
Proof. unfold apart, in_range. pose proof (eq_refl : SUPERPGSIZE = 2097152). lia. Qed.

Lemma apart_word_super p q b : apart p q → in_range p 8 b → ¬ in_range q SUPERPGSIZE b.
Proof. unfold apart, in_range. pose proof (eq_refl : SUPERPGSIZE = 2097152). lia. Qed.

(** Writes inside a page keep the list of superpages, and conversely. *)
Lemma super_links m m' (a : super_spec) p :
  (∀ q, q ∈ super a → apart p q) → agree_on (λ b, ¬ in_range p 4096 b) m m' →
  ∀ q, q ∈ super a → load64 m' q = load64 m q.
Proof.
  intros Hap Hag q Hq. apply load64_ext. intros b Hb. apply Hag.
  eapply apart_word_page; [by apply Hap|done].
Qed.

Lemma small_links m m' (a : super_spec) p :
  (∀ q, q ∈ small a → apart q p) → agree_on (λ b, ¬ in_range p SUPERPGSIZE b) m m' →
  ∀ q, q ∈ small a → load64 m' q = load64 m q.
Proof.
  intros Hap Hag q Hq. apply load64_ext. intros b Hb. apply Hag.
  eapply apart_word_super; [by apply Hap|done].
Qed.

Lemma flist_pop m head p l :
  flist m head (p :: l) → head = p ∧ p ≠ 0 ∧ flist m (load64 m p) l.
Proof. done. Qed.

Lemma srep_head_bound head m l size :
  flist m head l → blocks KERNEND PHYSTOP size l → 0 ≤ size → u64 head = head.
Proof.
  intros Hf Hb Hs. pose proof KERNEND_pos. pose proof PHYSTOP_bound.
  by eapply flist_head_u64; [| | |exact Hf|exact Hb]; lia.
Qed.

Lemma kalloc_refines s a :
  srep s a → sunlocked s →
  ∃ s', kalloc s = Ok (spec_kalloc a).1 s' ∧ srep s' (spec_kalloc a).2 ∧ skeeps s s' ∧
    (small a = [] → s' = s) ∧
    (∀ p, p ∈ small a → (spec_kalloc a).1 = p → page_in_use (spec_kalloc a).2 p) ∧
    agree_on (λ b, ¬ in_range (spec_kalloc a).1 4096 b) (kmem s) (kmem s').
Proof.
  intros [Hf1 Hf2 Hb1 Hb2 Hap] [Hl Hl']. rewrite kalloc_pop. unfold spec_kalloc.
  destruct s as [m h c x], a as [[|p l] su]; cbn [kmem ext held small super] in *.
  - exists (KSt m h c x). split; [by apply pop_empty|]. split; [done|].
    split; [done|]. split; [done|]. split; [intros p; by rewrite elem_of_nil|done].
  - apply flist_pop in Hf1 as (Hh & Hp & Hf1).
    apply blocks_cons in Hb1 as [(Hnin & Hal & Hlo & Hhi) Hb1].
    assert (Happ : ∀ q, q ∈ su → apart p q) by (intros q; apply Hap; by apply elem_of_cons; left).
    eexists. split; [rewrite <-Hh; apply pop_run; [done|congruence]|]. rewrite Hh. cbn.
    assert (Hag : agree_on (λ b, ¬ in_range p 4096 b) m (memset m p 5 4096))
      by (intros b Hb; by apply memset_ne).
    split; [|split; [done|split; [done|split; [|done]]]].
    + constructor; cbn.
      * eapply flist_frame, Hf1. by apply (blocks_links KERNEND PHYSTOP 4096 ltac:(lia) m _ l p).
      * eapply flist_frame, Hf2. by apply (super_links _ _ (SuperSpec l su) p).
      * done.
      * done.
      * intros q1 q2 Hq1. apply Hap. by apply elem_of_cons; right.
    + intros q _ <-. split; [done|]. by split.
Qed.

Lemma superkalloc_refines s a :
  srep s a → sunlocked s →
  ∃ s', superkalloc s = Ok (spec_superkalloc a).1 s' ∧ srep s' (spec_superkalloc a).2 ∧
    skeeps s s' ∧ (super a = [] → s' = s) ∧
    (∀ p, p ∈ super a → (spec_superkalloc a).1 = p → super_in_use (spec_superkalloc a).2 p) ∧
    agree_on (λ b, ¬ in_range (spec_superkalloc a).1 SUPERPGSIZE b) (kmem s) (kmem s').
Proof.
  intros [Hf1 Hf2 Hb1 Hb2 Hap] [Hl Hl']. rewrite superkalloc_pop. unfold spec_superkalloc.
  destruct s as [m h c x], a as [sm [|p l]]; cbn [kmem ext held small super] in *.
  - exists (KSt m h c x). split; [by apply pop_empty|]. split; [done|].
    split; [done|]. split; [done|]. split; [intros p; by rewrite elem_of_nil|done].
  - apply flist_pop in Hf2 as (Hh & Hp & Hf2).
    apply blocks_cons in Hb2 as [(Hnin & Hal & Hlo & Hhi) Hb2].
    assert (Happ : ∀ q, q ∈ sm → apart q p) by (intros q Hq; apply Hap; [done|by apply elem_of_cons; left]).
    eexists. split; [rewrite <-Hh; apply pop_run; [done|congruence]|]. rewrite Hh. cbn.
    assert (Hag : agree_on (λ b, ¬ in_range p SUPERPGSIZE b) m (memset m p 7 SUPERPGSIZE))
      by (intros b Hb; by apply memset_ne).
    split; [|split; [done|split; [done|split; [|done]]]].
    + constructor; cbn.
      * eapply flist_frame, Hf1. by apply (small_links _ _ (SuperSpec sm l) p).
      * eapply flist_frame, Hf2. by apply (blocks_links KERNEND PHYSTOP SUPERPGSIZE ltac:(done) m _ l p).
      * done.
      * done.
      * intros q1 q2 Hq1 Hq2. apply Hap; [done|]. by apply elem_of_cons; right.
    + intros q _ <-. split; [done|]. by split.
Qed.

Lemma kfree_refines s a p :
  srep s a → sunlocked s → page_in_use a p →
  ∃ s', kfree p s = Ok tt s' ∧ srep s' (spec_kfree p a) ∧ skeeps s s' ∧
    agree_on (λ b, ¬ in_range p 4096 b) (kmem s) (kmem s').
Proof.
  intros [Hf1 Hf2 Hb1 Hb2 Hap] [Hl Hl'] (Hp & Hnin & Happ). destruct s as [m h c x].
  cbn [kmem ext held] in *. pose proof (page_managed_nonzero p Hp).
  eexists. split; [rewrite kfree_push by done; by apply push_run|]. cbn.
  assert (Hag := push_agree m p 4096 (freelist x) ltac:(lia)).
  split; [|done]. destruct (Hp) as (Hal & Hlo & Hhi). constructor; cbn -[flist].
  - eapply flist_push; [done| |rewrite load64_store64_eq; by apply (srep_head_bound _ m (small a) 4096)|lia].
    by apply (blocks_links KERNEND PHYSTOP 4096 ltac:(lia) m _ _ p).
  - eapply flist_frame, Hf2. by apply (super_links _ _ _ p).
  - by apply blocks_cons.
  - done.
  - intros q1 q2 [->|Hq1]%elem_of_cons Hq2; auto.
Qed.

Lemma superkfree_refines s a p :
  srep s a → sunlocked s → super_in_use a p →
  ∃ s', superkfree p s = Ok tt s' ∧ srep s' (spec_superkfree p a) ∧ skeeps s s' ∧
    agree_on (λ b, ¬ in_range p SUPERPGSIZE b) (kmem s) (kmem s').
Proof.
  intros [Hf1 Hf2 Hb1 Hb2 Hap] [Hl Hl'] (Hp & Hnin & Happ). destruct s as [m h c x].
  cbn [kmem ext held] in *. pose proof (super_managed_nonzero p Hp).
  eexists. split; [rewrite superkfree_push by done; by apply push_run|]. cbn.
  assert (Hag := push_agree m p SUPERPGSIZE (superfreelist x) ltac:(done)).
  split; [|done]. destruct (Hp) as (Hal & Hlo & Hhi). constructor; cbn -[flist].
  - eapply flist_frame, Hf1. by apply (small_links _ _ _ p).
  - eapply flist_push; [done| |rewrite load64_store64_eq;
      by apply (srep_head_bound _ m (super a) SUPERPGSIZE)|lia].
    by apply (blocks_links KERNEND PHYSTOP SUPERPGSIZE ltac:(done) m _ _ p).
  - done.
  - by apply blocks_cons.
  - intros q1 q2 Hq1 [->|Hq2]%elem_of_cons; auto.
Qed.

(** ** Initialisation *)

Definition first_page : Z := PGROUNDUP KERNEND.
(** Where the superpages start. *)
Definition split : Z := PHYSTOP - nsuper * SUPERPGSIZE.
Definition nsmall : nat := Z.to_nat ((split - first_page) / 4096).

Definition spec_init : super_spec :=
  SuperSpec (rev (run first_page 4096 nsmall)) (rev (run split SUPERPGSIZE 52)).

Lemma SUPERPGSIZE_eq : SUPERPGSIZE = 2097152.
Proof. done. Qed.

Section init.
Context (Hal : PHYSTOP mod SUPERPGSIZE = 0) (Hroom : first_page ≤ split).

Lemma split_facts :
  first_page mod 4096 = 0 ∧ KERNEND ≤ first_page ∧ first_page + Z.of_nat nsmall * 4096 = split ∧
  split mod SUPERPGSIZE = 0 ∧ split + 52 * SUPERPGSIZE = PHYSTOP.
Proof.
  pose proof KERNEND_pos. pose proof PHYSTOP_bound. pose proof KERNEND_PHYSTOP.
  assert (Hfa : first_page mod 4096 = 0 ∧ KERNEND ≤ first_page).
  { unfold first_page. rewrite PGROUNDUP_spec by lia. dlia. }
  assert (Hsp : split mod SUPERPGSIZE = 0 ∧ split mod 4096 = 0 ∧ split + 52 * SUPERPGSIZE = PHYSTOP).
  { unfold split, nsuper. rewrite SUPERPGSIZE_eq in *. dlia. }
  unfold nsmall. rewrite Z2Nat.id by dlia. dlia.
Qed.

Lemma small_managed k : (k < nsmall)%nat → page_managed (first_page + Z.of_nat k * 4096).
Proof.
  intros Hk. destruct split_facts as (? & ? & ? & ? & ?). rewrite SUPERPGSIZE_eq in *.
  split; [by apply aligned_add|]. lia.
Qed.

Lemma big_managed k : (k < 52)%nat → super_managed (split + Z.of_nat k * SUPERPGSIZE).
Proof.
  intros Hk. destruct split_facts as (? & ? & ? & ? & ?).
  split; [by apply aligned_add|]. rewrite SUPERPGSIZE_eq in *. lia.
Qed.

Lemma small_loop fuel : ∀ k s,
  srep s (SuperSpec (rev (run first_page 4096 k)) []) → sunlocked s → (k ≤ nsmall)%nat →
  (nsmall - k < fuel)%nat →
  returns (loop fuel (λ p, if p + PGSIZE <=? split then kfree p;; mret (inl (p + PGSIZE))
                           else mret (inr p)) (first_page + Z.of_nat k * 4096)) s
    (λ p s', p = split ∧ srep s' (SuperSpec (rev (run first_page 4096 nsmall)) []) ∧ skeeps s s').
Proof.
  destruct split_facts as (Hf & Hlo & Hn & _). unfold PGSIZE.
  induction fuel as [|fuel IH]; intros k s Hrep Hul Hk Hfuel; [lia|]. rewrite loop_S. case_bool.
  - bool_to_Prop. assert (Hlt : (k < nsmall)%nat) by lia.
    destruct (kfree_refines s _ (first_page + Z.of_nat k * 4096) Hrep Hul) as (s1 & Hrun & Hrep1 & Hk1 & _).
    { split; [by apply small_managed|]. cbn [small super]. split; [|intros q; by rewrite elem_of_nil].
      rewrite <-Permutation_rev, elem_of_run by lia. intros (i & Heq & Hi). lia. }
    apply returns_bind, (returns_intro _ _ (inl (first_page + Z.of_nat (S k) * 4096)) s1).
    { rewrite (bind_Ok _ _ _ _ _ Hrun).
      by replace (first_page + Z.of_nat (S k) * 4096) with (first_page + Z.of_nat k * 4096 + 4096) by lia. }
    eapply returns_mono; [apply IH; [|by eapply skeeps_unlocked|lia|lia]|].
    + unfold spec_kfree in Hrep1. cbn [small super] in Hrep1.
      rewrite run_S, rev_app_distr by lia. done.
    + intros p s2 (-> & Hr & Hk2). do 2 (split; [done|]). by eapply skeeps_trans.
  - bool_to_Prop. assert (k = nsmall) by lia. subst k.
    apply returns_bind, (returns_intro _ _ (inr (first_page + Z.of_nat nsmall * 4096)) s); [done|].
    apply returns_ret. split; [lia|done].
Qed.

Lemma super_loop fuel : ∀ k s,
  srep s (SuperSpec (rev (run first_page 4096 nsmall)) (rev (run split SUPERPGSIZE k))) →
  sunlocked s → (k ≤ 52)%nat → (52 - k < fuel)%nat →
  returns (loop fuel (λ p, if p <=? PHYSTOP - SUPERPGSIZE
                           then superkfree p;; mret (inl (p + SUPERPGSIZE))
                           else mret (inr tt)) (split + Z.of_nat k * SUPERPGSIZE)) s
    (λ _ s', srep s' spec_init ∧ skeeps s s').
Proof.
  destruct split_facts as (Hf & Hlo & Hn & Hs & Ht). pose proof SUPERPGSIZE_eq.
  induction fuel as [|fuel IH]; intros k s Hrep Hul Hk Hfuel; [lia|]. rewrite loop_S. case_bool.
  - bool_to_Prop. assert (Hlt : (k < 52)%nat) by lia.
    destruct (superkfree_refines s _ (split + Z.of_nat k * SUPERPGSIZE) Hrep Hul) as (s1 & Hrun & Hrep1 & Hk1 & _).
    { split; [by apply big_managed|]. cbn [small super].
      split; [rewrite <-Permutation_rev, elem_of_run by done; intros (i & Heq & Hi); lia|].
      intros q. rewrite <-Permutation_rev, elem_of_run by lia. intros (i & -> & Hi). left. lia. }
    apply returns_bind, (returns_intro _ _ (inl (split + Z.of_nat (S k) * SUPERPGSIZE)) s1).
    { rewrite (bind_Ok _ _ _ _ _ Hrun).
      by replace (split + Z.of_nat (S k) * SUPERPGSIZE) with (split + Z.of_nat k * SUPERPGSIZE + SUPERPGSIZE) by lia. }
    eapply returns_mono; [apply IH; [|by eapply skeeps_unlocked|lia|lia]|].
    + unfold spec_superkfree in Hrep1. cbn [small super] in Hrep1.
      rewrite run_S, rev_app_distr by done. done.
    + intros p s2 (Hr & Hk2). split; [done|]. by eapply skeeps_trans.
  - bool_to_Prop. assert (k = 52%nat) by lia. subst k.
    apply returns_bind, (returns_intro _ _ (inr tt) s); [done|]. by apply returns_ret.
Qed.

Lemma kinit_run m h c r :
  returns kinit (KSt m h c (Sup 0 0 r)) (λ _ s', srep s' spec_init ∧ sunlocked s' ∧
    console s' = c ∧ srest (ext s') = r).
Proof.
  destruct split_facts as (Hf & Hlo & Hn & Hs & Ht). pose proof SUPERPGSIZE_eq.
  pose proof PHYSTOP_bound. pose proof KERNEND_pos.
  unfold kinit. apply returns_bind. eapply returns_intro; [done|].
  apply returns_bind. eapply returns_intro; [done|]. cbn beta.
  set (s0 := set_held _ _).
  assert (Hul0 : sunlocked s0).
  { unfold sunlocked, s0; cbn. rewrite !elem_of_difference, !elem_of_singleton. tauto. }
  assert (Hrep0 : srep s0 (SuperSpec (rev (run first_page 4096 0)) [])).
  { constructor; cbn; try done; try apply blocks_nil. intros p q. by rewrite elem_of_nil. }
  unfold freerange. fold first_page. fold split. cbv zeta.
  eapply returns_bind_mono.
  { replace first_page with (first_page + Z.of_nat 0 * 4096) at 2 by lia.
    apply (small_loop _ 0 s0 Hrep0 Hul0); [lia|]. unfold PGSIZE. dlia. }
  intros p s1 (-> & Hrep1 & Hk1).
  assert (Hup : PGROUNDUP split = split) by (rewrite PGROUNDUP_spec by lia; dlia).
  rewrite Hup. replace split with (split + Z.of_nat 0 * SUPERPGSIZE) at 2 by lia.
  eapply returns_mono.
  - apply (super_loop _ 0 s1); [done|by eapply skeeps_unlocked|lia|].
    assert ((PHYSTOP - split) / SUPERPGSIZE = 52) by (rewrite SUPERPGSIZE_eq in *; dlia). lia.
  - intros _ s2 [Hrep2 Hk2]. split; [done|].
    assert (Hk02 : skeeps s0 s2) by (by eapply skeeps_trans).
    split; [by eapply skeeps_unlocked|]. by destruct Hk02 as (_ & -> & ->).
Qed.
End init.

(** ** Histories *)

Inductive sop := SAlloc | SSuperAlloc | SFree (p : Z) | SSuperFree (p : Z).

Definition apartb (p q : Z) : bool := (p + 4096 <=? q) || (q + SUPERPGSIZE <=? p).
Definition page_in_useb (a : super_spec) (p : Z) : bool :=
  (p mod 4096 =? 0) && (KERNEND <=? p) && (p + 4096 <=? PHYSTOP) &&
  forallb (λ q, negb (q =? p)) (small a) && forallb (apartb p) (super a).
Definition super_in_useb (a : super_spec) (p : Z) : bool :=
  (p mod SUPERPGSIZE =? 0) && (KERNEND <=? p) && (p + SUPERPGSIZE <=? PHYSTOP) &&
  forallb (λ q, negb (q =? p)) (super a) && forallb (λ q, apartb q p) (small a).

Definition spec_sop (o : sop) (a : super_spec) : option (Z * super_spec) :=
  match o with
  | SAlloc => Some (spec_kalloc a)
  | SSuperAlloc => Some (spec_superkalloc a)
  | SFree p => if page_in_useb a p then Some (0, spec_kfree p a) else None
  | SSuperFree p => if super_in_useb a p then Some (0, spec_superkfree p a) else None
  end.

Fixpoint spec_srun (os : list sop) (a : super_spec) : option (list Z * super_spec) :=
  match os with
  | [] => Some ([], a)
  | o :: os => '(r, a) ← spec_sop o a; '(rs, a) ← spec_srun os a; Some (r :: rs, a)
  end.

Definition run_sop (o : sop) : M (kst sup) Z :=
  match o with
  | SAlloc => kalloc
  | SSuperAlloc => superkalloc
  | SFree p => kfree p;; mret 0
  | SSuperFree p => superkfree p;; mret 0
  end.

Fixpoint run_sops (os : list sop) : M (kst sup) (list Z) :=
  match os with
  | [] => mret []
  | o :: os => r ← run_sop o; rs ← run_sops os; mret (r :: rs)
  end.

Lemma forallb_elem {A} (f : A → bool) l x : forallb f l = true → x ∈ l → f x = true.
Proof. rewrite forallb_forall. intros H' Hx. by apply H', list_elem_of_In. Qed.

Lemma apartb_spec p q : apartb p q = true ↔ apart p q.
Proof. unfold apartb, apart. lia. Qed.

Lemma page_in_useb_spec a p : page_in_useb a p = true → page_in_use a p.
Proof.
  unfold page_in_useb. rewrite !andb_true_iff. intros ((((? & ?) & ?) & Hs) & Hb).
  bool_to_Prop. split; [done|]. split.
  - intros Hin. pose proof (forallb_elem _ _ _ Hs Hin) as Hn. cbn in Hn. bool_to_Prop. done.
  - intros q Hq. apply apartb_spec. by apply (forallb_elem _ _ _ Hb).
Qed.

Lemma super_in_useb_spec a p : super_in_useb a p = true → super_in_use a p.
Proof.
  unfold super_in_useb. rewrite !andb_true_iff. intros ((((? & ?) & ?) & Hs) & Hb).
  bool_to_Prop. split; [done|]. split.
  - intros Hin. pose proof (forallb_elem _ _ _ Hs Hin) as Hn. cbn in Hn. bool_to_Prop. done.
  - intros q Hq. apply apartb_spec. by apply (forallb_elem _ _ _ Hb).
Qed.

Lemma run_sop_refines o s a r a' :
  srep s a → sunlocked s → spec_sop o a = Some (r, a') →
  ∃ s', run_sop o s = Ok r s' ∧ srep s' a' ∧ sunlocked s'.
Proof.
  intros Hrep Hul. destruct o as [| |p|p]; cbn [spec_sop run_sop]; intros Heq.
  - destruct (kalloc_refines s a Hrep Hul) as (s' & Hrun & Hrep' & Hk & _).
    injection Heq as Heq. rewrite Heq in Hrun, Hrep'. eauto using skeeps_unlocked.
  - destruct (superkalloc_refines s a Hrep Hul) as (s' & Hrun & Hrep' & Hk & _).
    injection Heq as Heq. rewrite Heq in Hrun, Hrep'. eauto using skeeps_unlocked.
  - destruct (page_in_useb a p) eqn:Hg; [|done]. injection Heq as <- <-.
    destruct (kfree_refines s a p Hrep Hul (page_in_useb_spec _ _ Hg)) as (s' & Hrun & Hrep' & Hk & _).
    exists s'. rewrite (bind_Ok _ _ _ _ _ Hrun). eauto using skeeps_unlocked.
  - destruct (super_in_useb a p) eqn:Hg; [|done]. injection Heq as <- <-.
    destruct (superkfree_refines s a p Hrep Hul (super_in_useb_spec _ _ Hg)) as (s' & Hrun & Hrep' & Hk & _).
    exists s'. rewrite (bind_Ok _ _ _ _ _ Hrun). eauto using skeeps_unlocked.
Qed.

Lemma run_sops_refines os : ∀ s a rs a',
  srep s a → sunlocked s → spec_srun os a = Some (rs, a') →
  ∃ s', run_sops os s = Ok rs s' ∧ srep s' a' ∧ sunlocked s'.
Proof.
  induction os as [|o os IH]; intros s a rs a' Hrep Hul Heq.
  - injection Heq as <- <-. by exists s.
  - cbn in Heq. destruct (spec_sop o a) as [[r a1]|] eqn:E1; [|done]. cbn in Heq.
    destruct (spec_srun os a1) as [[rs1 a2]|] eqn:E2; [|done]. cbn in Heq. injection Heq as <- <-.
    destruct (run_sop_refines o s a r a1 Hrep Hul E1) as (s1 & Hrun1 & Hrep1 & Hul1).
    destruct (IH s1 a1 rs1 a2 Hrep1 Hul1 E2) as (s2 & Hrun2 & Hrep2 & Hul2).
    exists s2. cbn. by rewrite (bind_Ok _ _ _ _ _ Hrun1), (bind_Ok _ _ _ _ _ Hrun2).
Qed.

(** ** Main theorems *)

(** C23: [kinit] partitions the memory above the kernel: it never panics, and
    when it returns the small list holds exactly the pages below the last 104
    megabytes and the other list exactly the 52 superpages of those. *)
Theorem kinit_partitions m h c r :
  PHYSTOP mod SUPERPGSIZE = 0 → first_page ≤ split →
  ∃ s a, kinit (KSt m h c (Sup 0 0 r)) = Ok tt s ∧ srep s a ∧ sunlocked s ∧
    (∀ p, p ∈ small a ↔ p mod 4096 = 0 ∧ KERNEND ≤ p ∧ p + 4096 ≤ split) ∧
    (∀ q, q ∈ super a ↔ q mod SUPERPGSIZE = 0 ∧ split ≤ q ∧ q + SUPERPGSIZE ≤ PHYSTOP) ∧
    length (super a) = 52%nat.
Proof.
  intros Hal Hroom. destruct (kinit_run Hal Hroom m h c r) as ([] & s & Hrun & Hrep & Hul & _).
  destruct (split_facts Hal Hroom) as (Hf & Hlo & Hn & Hs & Ht). pose proof SUPERPGSIZE_eq.
  exists s, spec_init. do 3 (split; [done|]). cbn [spec_init small super]. split; [|split].
  - intros p. rewrite <-Permutation_rev. split.
    + rewrite elem_of_run by lia. intros (i & -> & Hi). split; [by apply aligned_add|]. lia.
    + intros (Hp & Hlo' & Hhi). apply run_complete; try lia.
      unfold first_page in *. pose proof KERNEND_pos. pose proof PHYSTOP_bound.
      rewrite PGROUNDUP_spec in * by lia. dlia.
  - intros q. rewrite <-Permutation_rev. split.
    + rewrite elem_of_run by done. intros (i & -> & Hi). split; [by apply aligned_add|]. lia.
    + intros (Hq & Hlo' & Hhi). apply run_complete; try lia.
  - by rewrite length_rev.
Qed.

(** C8: both allocators implement their contract through any legal history of
    allocations and frees of pages and superpages after [kinit]: every call
    returns the block the contract returns (null when the list is empty), the
    lists in memory stay the contract's, and no free page overlaps a free
    superpage. *)
Theorem super_allocator_refines m h c r os rs a :
  PHYSTOP mod SUPERPGSIZE = 0 → first_page ≤ split →
  spec_srun os spec_init = Some (rs, a) →
  ∃ s, (kinit;; run_sops os) (KSt m h c (Sup 0 0 r)) = Ok rs s ∧
    flist (kmem s) (freelist (ext s)) (small a) ∧
    flist (kmem s) (superfreelist (ext s)) (super a) ∧
    blocks KERNEND PHYSTOP 4096 (small a) ∧ blocks KERNEND PHYSTOP SUPERPGSIZE (super a) ∧
    (∀ p q, p ∈ small a → q ∈ super a → p + 4096 ≤ q ∨ q + SUPERPGSIZE ≤ p).
Proof.
  intros Hal Hroom Hspec. destruct (kinit_run Hal Hroom m h c r) as ([] & s0 & Hinit & Hrep & Hul & _).
  destruct (run_sops_refines os s0 _ _ _ Hrep Hul Hspec) as (s & Hrun & [] & _).
  exists s. by rewrite (bind_Ok _ _ _ _ _ Hinit).
Qed.

(** The guards of [superkfree]: a misaligned address, one below the
    kernel's end and one beyond memory each stop the machine with their own
    message, checked in that order. *)
Theorem superkfree_guards (s : kst sup) p :
  ¬ super_managed p → PHYSTOP mod SUPERPGSIZE = 0 →
  superkfree p s =
  Panic (if negb (p mod SUPERPGSIZE =? 0) then "superkfree invalid page alignment"
         else if p <? KERNEND then "superkfree address below kernel end"
         else "superkfree address beyond physical memory") s.
Proof.
  intros Hp Hal. unfold superkfree, super_managed in *. pose proof SUPERPGSIZE_eq as HS.
  destruct (p mod SUPERPGSIZE =? 0) eqn:E1; cbn; [kstep|by erewrite bind_Panic].
  destruct (p <? KERNEND) eqn:E2; [by erewrite bind_Panic|kstep].
  destruct (PHYSTOP <=? p) eqn:E3; [by erewrite bind_Panic|]. exfalso. bool_to_Prop.
  apply Hp. rewrite HS in *. dlia.
Qed.
End super_alloc.
