(* ===== verification/Walk.v ===== *)
(** * Walking a page table (lab3 "use superpages", [walk] of kernel/vm.c)

    The three-level Sv39 page table in memory, with superpages: [walk] stops
    at a valid entry that is a leaf or marked [PTE_S].  It is written against
    the interface [KAlloc] of a page allocator, which both allocators of the
    development implement, and its lookups implement the interface
    [PageTable] of the copy-on-write development. *)

From S2P Require Import Prelude Memory Machine FreeList CowAlloc SuperAlloc CowVm.

(** kernel/riscv.h under [LAB_PGTBL]. *)
Class RiscvLeaf := {
  PTE_LEAF : Z → bool;
  PTE_LEAF_spec v : PTE_LEAF v = has_flag v PTE_R || has_flag v PTE_W || has_flag v PTE_X;
}.

(** ** What [walk] needs of an allocator *)

Class KAlloc (X A : Type) := {
  page_alloc : M (kst X) Z;
  arep : kst X → A → Prop;
  aunlocked : kst X → Prop;
  free_list : A → list Z;
  taken : A → A;
  owns : A → Z → Prop;
  page_alloc_none s a :
    arep s a → aunlocked s → free_list a = [] → page_alloc s = Ok 0 s;
  page_alloc_some s a p l :
    arep s a → aunlocked s → free_list a = p :: l →
    p mod 4096 = 0 ∧ 0 < p < 2 ^ 43 ∧ (∀ b, in_range p 4096 b → owns a b) ∧
    (∀ b, owns (taken a) b ↔ owns a b ∧ ¬ in_range p 4096 b) ∧ free_list (taken a) = l ∧
    ∃ s', page_alloc s = Ok p s' ∧ arep s' (taken a) ∧ aunlocked s' ∧
      held s' = held s ∧ console s' = console s ∧
      agree_on (λ b, ¬ in_range p 4096 b) (kmem s) (kmem s');
  arep_write s a m' :
    arep s a → agree_on (owns a) (kmem s) m' → arep (set_mem m' s) a;
  aunlocked_held s s' : held s' = held s → aunlocked s → aunlocked s';
}.

Section cow_kalloc.
Context `{Riscv, MemLayout} {P : Type}.

#[export] Program Instance cow_kalloc : KAlloc (CowAlloc.cow (P := P)) alloc_spec := {|
  page_alloc := CowAlloc.kalloc;
  arep := rep;
  aunlocked := unlocked;
  free_list := avail;
  taken a := (CowAlloc.spec_kalloc a).2;
  owns a b := frame b ∈ avail a;
|}.
Next Obligation.
  intros s a Hrep [Hl _] Ha. pose proof (rep_chain _ _ Hrep) as Hch. rewrite Ha in Hch.
  destruct s. by apply kalloc_empty.
Qed.
Next Obligation.
  intros s a p l Hrep Hul Ha. destruct (rep_head _ _ _ _ Hrep Ha) as (_ & Hp & _).
  pose proof (managed_nonzero _ Hp). destruct (Hp) as (Hal & _).
  pose proof (rep_blocks _ _ Hrep) as Hbl. rewrite Ha in Hbl. apply blocks_cons in Hbl as [[Hnin _] _].
  destruct (CowAlloc.kalloc_refines_spec s a Hrep Hul) as (s' & Hrun & Hrep' & (Hh & Hc & _) & Hag & _).
  unfold CowAlloc.spec_kalloc in *. rewrite Ha in *. cbn [fst snd avail] in *.
  split; [done|]. split; [done|]. split; [|split; [|split; [done|]]].
  - intros b Hb%in_page_frame; [|done]. rewrite Hb. by apply elem_of_cons; left.
  - intros b. rewrite in_page_frame, elem_of_cons by done. split; [|tauto].
    intros Hb. split; [by right|]. intros Hf. by rewrite Hf in Hb.
  - exists s'. do 2 (split; [done|]). split; [unfold unlocked; by rewrite Hh|].
    do 2 (split; [done|]). intros b Hb. apply Hag. by left.
Qed.
Next Obligation. intros s a m'. apply rep_set_mem. Qed.
Next Obligation. intros s s' Hh. unfold unlocked. by rewrite Hh. Qed.
End cow_kalloc.

Section sup_kalloc.
Context `{Riscv, MemLayout} {P : Type}.

Definition sup_owns (a : super_spec) (b : Z) : Prop :=
  (∃ p, p ∈ small a ∧ in_range p 4096 b) ∨ (∃ q, q ∈ super a ∧ in_range q SUPERPGSIZE b).

#[export] Program Instance sup_kalloc : KAlloc (sup (P := P)) super_spec := {|
  page_alloc := SuperAlloc.kalloc;
  arep := srep;
  aunlocked := sunlocked;
  free_list := small;
  taken a := (SuperAlloc.spec_kalloc a).2;
  owns := sup_owns;
|}.
Next Obligation.
  intros s a Hrep Hul Ha. destruct (SuperAlloc.kalloc_refines s a Hrep Hul) as (s' & Hrun & _ & _ & Hs & _).
  unfold SuperAlloc.spec_kalloc in Hrun. rewrite Ha in *. rewrite Hrun. by rewrite Hs.
Qed.
Next Obligation.
  intros s a p l Hrep Hul Ha.
  destruct (SuperAlloc.kalloc_refines s a Hrep Hul) as (s' & Hrun & Hrep' & Hk & _ & Huse & Hag).
  unfold SuperAlloc.spec_kalloc in *. rewrite Ha in *. cbn [fst snd] in *.
  destruct (Huse p) as (Hp & Hnin & Hap); [by apply elem_of_cons; left|done|].
  cbn [small super] in *. pose proof (page_managed_nonzero _ Hp). destruct (Hp) as (Hal & _).
  split; [done|]. split; [done|]. split; [|split; [|split; [done|]]].
  - intros b Hb. left. exists p. rewrite Ha. split; [by apply elem_of_cons; left|done].
  - intros b. unfold sup_owns. cbn [small super]. rewrite Ha. split.
    + intros [(q & Hq & Hb)|(q & Hq & Hb)].
      * split; [left; exists q; split; [by apply elem_of_cons; right|done]|].
        assert (Hqal : q mod 4096 = 0).
        { pose proof (sr_small_blocks _ _ Hrep') as Hbl. cbn in Hbl. by apply (blocks_elem KERNEND PHYSTOP 4096 q l). }
        assert (q ≠ p) by congruence.
        pose proof (aligned_disjoint 4096 p q ltac:(lia) Hal Hqal ltac:(done)). unfold in_range in *. lia.
      * split; [right; by exists q|]. specialize (Hap q Hq). unfold apart, in_range in *. lia.
    + intros [[(q & Hq & Hb)|Hq] Hnb]; [|by right]. apply elem_of_cons in Hq as [->|Hq]; [done|].
      left. by exists q.
  - exists s'. do 2 (split; [done|]). split; [by eapply skeeps_unlocked|]. by destruct Hk as (? & ? & _).
Qed.
Next Obligation.
  intros s a m' Hrep Hag. destruct s as [m h c x]. pose proof SUPERPGSIZE_eq.
  destruct Hrep as [Hf1 Hf2 Hb1 Hb2 Hap]; cbn in *. constructor; cbn; try done.
  - eapply flist_frame, Hf1. intros p Hp. apply load64_ext. intros b Hb. apply Hag. left.
    exists p. split; [done|]. unfold in_range in *. lia.
  - eapply flist_frame, Hf2. intros p Hp. apply load64_ext. intros b Hb. apply Hag. right.
    exists p. split; [done|]. unfold in_range in *. lia.
Qed.
Next Obligation. intros s s' Hh. unfold sunlocked. by rewrite Hh. Qed.
End sup_kalloc.

Section walk.
Context `{Riscv, MemLayout, RiscvLeaf} {X A : Type} `{!KAlloc X A}.

(** ** The walk *)

Definition walk_body (va alloc : Z) (v : Z * Z) : M (kst X) (Z * Z + Z) :=
  let '(level, pagetable) := v in
  if negb (0 <? level) then mret (inr (pagetable + 8 * PX 0 va))
  else
    let pte := pagetable + 8 * PX level va in
    e ← load pte;
    if has_flag e PTE_V then
      e ← load pte;
      let pagetable := PTE2PA e in
      e ← load pte;
      if has_flag e PTE_S then mret (inr pte)
      else
        e ← load pte;
        if PTE_LEAF e then mret (inr pte)
        else mret (inl (level - 1, pagetable))
    else if alloc =? 0 then mret (inr 0)
    else
      pagetable ← page_alloc;
      if pagetable =? 0 then mret (inr 0)
      else
        memsetM pagetable 0 PGSIZE;;
        store pte (Z.lor (PA2PTE pagetable) PTE_V);;
        mret (inl (level - 1, pagetable)).

Definition walk (pagetable va alloc : Z) : M (kst X) Z :=
  if MAXVA <=? va then panic "walk"
  else loop 3 (walk_body va alloc) (2, pagetable).

(** ** Lookups as a function of memory *)

(** A valid entry the walk stops at. *)
Definition stops (e : Z) : bool := has_flag e PTE_S || PTE_LEAF e.

(** The entry reached from a table at level [n], null if a table is missing. *)
Fixpoint find (n : nat) (m : mem) (pagetable va : Z) : Z :=
  match n with
  | O => pagetable + 8 * PX 0 va
  | S n' =>
      let pte := pagetable + 8 * PX (Z.of_nat n) va in
      let e := load64 m pte in
      if negb (has_flag e PTE_V) then 0
      else if stops e then pte
      else find n' m (PTE2PA e) va
  end.

(** The bytes that lookup reads. *)
Fixpoint reads (n : nat) (m : mem) (pagetable va b : Z) : Prop :=
  match n with
  | O => False
  | S n' =>
      let pte := pagetable + 8 * PX (Z.of_nat n) va in
      let e := load64 m pte in
      in_range pte 8 b ∨
      has_flag e PTE_V = true ∧ stops e = false ∧ reads n' m (PTE2PA e) va b
  end.

(** One round at a valid entry. *)
Lemma walk_valid n va alloc pt (s : kst X) fuel :
  let pte := pt + 8 * PX (Z.of_nat (S n)) va in
  let e := load64 (kmem s) pte in
  has_flag e PTE_V = true →
  loop (S fuel) (walk_body va alloc) (Z.of_nat (S n), pt) s =
  (if stops e then Ok pte s
   else loop fuel (walk_body va alloc) (Z.of_nat n, PTE2PA e) s).
Proof.
  cbv zeta. intros HV. rewrite loop_S. unfold walk_body at 2. cbv beta iota zeta.
  rewrite (proj2 (Z.ltb_lt _ _)) by lia. cbn [negb].
  rewrite bind_assoc. kstep. rewrite HV. rewrite bind_assoc. kstep.
  rewrite bind_assoc. kstep. unfold stops.
  destruct (has_flag _ PTE_S); [by kstep|]. rewrite bind_assoc. kstep.
  destruct (PTE_LEAF _); [by kstep|]. kstep. by replace (Z.of_nat (S n) - 1) with (Z.of_nat n) by lia.
Qed.

Lemma walk_bottom va alloc pt (s : kst X) fuel :
  loop (S fuel) (walk_body va alloc) (0, pt) s = Ok (pt + 8 * PX 0 va) s.
Proof. done. Qed.

(** At a missing table a lookup gives up. *)
Lemma walk_missing n va pt (s : kst X) fuel :
  has_flag (load64 (kmem s) (pt + 8 * PX (Z.of_nat (S n)) va)) PTE_V = false →
  loop (S fuel) (walk_body va 0) (Z.of_nat (S n), pt) s = Ok 0 s.
Proof.
  intros HV. rewrite loop_S. unfold walk_body at 2. cbv beta iota zeta.
  rewrite (proj2 (Z.ltb_lt _ _)) by lia. cbn [negb].
  rewrite bind_assoc. kstep. rewrite HV. by kstep.
Qed.

Lemma walk_find n va (s : kst X) fuel : ∀ pt,
  (n < fuel)%nat →
  loop fuel (walk_body va 0) (Z.of_nat n, pt) s = Ok (find n (kmem s) pt va) s.
Proof.
  revert fuel. induction n as [|n IH]; intros [|fuel] pt Hf; try lia; [done|].
  cbn [find]. cbv zeta. destruct (has_flag _ PTE_V) eqn:HV; cbn [negb].
  - rewrite walk_valid by done. destruct (stops _); [done|]. apply IH. lia.
  - by apply walk_missing.
Qed.

Lemma find_local n m m' va : ∀ pt,
  agree_on (reads n m pt va) m m' → find n m' pt va = find n m pt va.
Proof.
  induction n as [|n IH]; intros pt Hag; [done|]. cbn [find reads] in *. cbv zeta in *.
  assert (He : load64 m' (pt + 8 * PX (Z.of_nat (S n)) va) = load64 m (pt + 8 * PX (Z.of_nat (S n)) va)).
  { apply load64_ext. intros b Hb. apply Hag. by left. }
  rewrite He. destruct (has_flag _ PTE_V) eqn:HV; [|done]. cbn [negb].
  destruct (stops _) eqn:Hs; [done|]. apply IH. intros b Hb. apply Hag. right. auto.
Qed.

Lemma reads_local n m m' va b : ∀ pt,
  agree_on (reads n m pt va) m m' → reads n m' pt va b → reads n m pt va b.
Proof.
  induction n as [|n IH]; intros pt Hag; [done|]. cbn [reads] in *. cbv zeta in *.
  assert (He : load64 m' (pt + 8 * PX (Z.of_nat (S n)) va) = load64 m (pt + 8 * PX (Z.of_nat (S n)) va)).
  { apply load64_ext. intros b' Hb. apply Hag. by left. }
  rewrite He. intros [Hb|(HV & Hs & Hb)]; [by left|right].
  split; [done|]. split; [done|]. eapply IH, Hb. intros b' Hb'. apply Hag. right. auto.
Qed.

Lemma find_page n m pt va :
  0 ≤ va < MAXVA → (n ≤ 2)%nat → find n m pt va = find n m pt (va / 4096 * 4096).
Proof.
  intros Hva. assert (HPX : ∀ l, 0 ≤ l ≤ 2 → PX l va = PX l (va / 4096 * 4096)).
  { intros l Hl. pose proof MAXVA_bound. rewrite !PX_spec by (done || dlia).
    rewrite !Z.pow_add_r by lia. change (2 ^ 12) with 4096.
    rewrite <-!Z.div_div by (try (apply Z.pow_pos_nonneg; lia); lia).
    by rewrite (Z.div_mul (va / 4096)) by lia. }
  revert pt. induction n as [|n IH]; intros pt Hn; cbn [find]; cbv zeta.
  - by rewrite (HPX 0) by lia.
  - rewrite <-(HPX (Z.of_nat (S n))) by lia. destruct (has_flag _ PTE_V); [|done].
    destruct (stops _); [done|]. apply IH. lia.
Qed.
End walk.

(** ** Walking with allocation *)

Section walk_alloc.
Context `{Riscv, MemLayout, RiscvLeaf} {X A : Type} `{!KAlloc X A}.

(** The tables a lookup visits. *)
Fixpoint tables (n : nat) (m : mem) (pagetable va : Z) : list Z :=
  pagetable ::
  match n with
  | O => []
  | S n' =>
      let e := load64 m (pagetable + 8 * PX (Z.of_nat n) va) in
      if has_flag e PTE_V && negb (stops e) then tables n' m (PTE2PA e) va else []
  end.

(** The entry where a table is missing, null if none is. *)
Fixpoint gap (n : nat) (m : mem) (pagetable va : Z) : Z :=
  match n with
  | O => 0
  | S n' =>
      let pte := pagetable + 8 * PX (Z.of_nat n) va in
      let e := load64 m pte in
      if negb (has_flag e PTE_V) then pte
      else if stops e then 0 else gap n' m (PTE2PA e) va
  end.

(** The tables of a path are distinct pages, none of them free. *)
Definition path_ok (n : nat) (m : mem) (a : A) (pt va : Z) : Prop :=
  NoDup (tables n m pt va) ∧
  ∀ q, q ∈ tables n m pt va →
    q mod 4096 = 0 ∧ 0 < q < 2 ^ 56 ∧ ∀ b, in_range q 4096 b → ¬ owns a b.

(** The entry of [va] in the table [pt] of level [n]. *)
Lemma entry_in n pt va b :
  (n ≤ 2)%nat → 0 ≤ va < MAXVA →
  in_range (pt + 8 * PX (Z.of_nat n) va) 8 b → in_range pt 4096 b.
Proof.
  intros Hn Hva. pose proof MAXVA_bound. rewrite PX_spec by lia.
  pose proof (Z.mod_pos_bound (va / 2 ^ (12 + 9 * Z.of_nat n)) 512). unfold in_range. lia.
Qed.

(** The entries a lookup reads. *)
Fixpoint ptes (n : nat) (m : mem) (pagetable va : Z) : list Z :=
  match n with
  | O => []
  | S n' =>
      let pte := pagetable + 8 * PX (Z.of_nat n) va in
      let e := load64 m pte in
      pte :: if has_flag e PTE_V && negb (stops e) then ptes n' m (PTE2PA e) va else []
  end.

Lemma reads_ptes n m va b : ∀ pt,
  reads n m pt va b → ∃ q, q ∈ ptes n m pt va ∧ in_range q 8 b.
Proof.
  induction n as [|n IH]; intros pt; [done|]. cbn [reads ptes]. cbv zeta.
  intros [Hb|(HV & Hs & Hb)].
  - eexists. split; [by apply elem_of_cons; left|done].
  - rewrite HV, Hs. cbn [negb andb]. destruct (IH _ Hb) as (q & Hq & Hqb).
    exists q. split; [by apply elem_of_cons; right|done].
Qed.

Lemma tables_head n m pt va : pt ∈ tables n m pt va.
Proof. destruct n; by apply elem_of_cons; left. Qed.

(** The missing entry lies in one of the tables. *)
Lemma gap_in n m va b : ∀ pt,
  (n ≤ 2)%nat → 0 ≤ va < MAXVA → gap n m pt va ≠ 0 → in_range (gap n m pt va) 8 b →
  ∃ q, q ∈ tables n m pt va ∧ in_range q 4096 b.
Proof.
  induction n as [|n IH]; intros pt Hn Hva; [done|]. cbn [gap tables]. cbv zeta.
  destruct (has_flag _ PTE_V) eqn:HV; cbn [negb andb].
  - destruct (stops _) eqn:Hs; [done|]. cbn [negb]. intros Hg Hb.
    destruct (IH _ ltac:(lia) Hva Hg Hb) as (q & Hq & Hb'). exists q. split; [|done].
    by apply elem_of_cons; right.
  - intros _ Hb. exists pt. split; [by apply elem_of_cons; left|]. eapply entry_in, Hb; lia.
Qed.

(** The entry that links a new table in. *)
Lemma table_entry p :
  p mod 4096 = 0 → 0 < p < 2 ^ 43 →
  let e := Z.lor (PA2PTE p) PTE_V in
  u64 e = e ∧ PTE2PA e = p ∧ has_flag e PTE_V = true ∧ stops e = false.
Proof.
  intros Hal Hp. cbv zeta. destruct (PA2PTE_flags p PTE_V Hal ltac:(lia) ltac:(done)) as (He & Hpa & Hfl).
  assert (Hr : 0 ≤ Z.lor (PA2PTE p) PTE_V < 2 ^ 64) by (rewrite He; change PTE_V with 1; dlia).
  rewrite PTE_FLAGS_spec in Hfl by done.
  assert (Hbit : ∀ i, 0 ≤ i < 10 → has_flag (Z.lor (PA2PTE p) PTE_V) (2 ^ i) = (i =? 0)).
  { intros i Hi. rewrite has_flag_bit by lia.
    rewrite <-(Z.mod_pow2_bits_low _ 10 i), Hfl by lia. change PTE_V with (2 ^ 0).
    by rewrite Z.pow2_bits_eqb, Z.eqb_sym by lia. }
  split; [by apply u64_small|]. split; [done|]. unfold stops. rewrite PTE_LEAF_spec.
  change PTE_V with (2 ^ 0) at 2. change PTE_S with (2 ^ 8). change PTE_R with (2 ^ 1).
  change PTE_W with (2 ^ 2). change PTE_X with (2 ^ 3). by rewrite !Hbit by lia.
Qed.

(** A freshly zeroed table, linked at [pte]. *)
Definition link_table (m : mem) (pte p : Z) : mem :=
  store64 (memset m p 0 4096) pte (Z.lor (PA2PTE p) PTE_V).

Lemma walk_takes n va pt (s : kst X) a p l fuel :
  let pte := pt + 8 * PX (Z.of_nat (S n)) va in
  has_flag (load64 (kmem s) pte) PTE_V = false →
  arep s a → aunlocked s → free_list a = p :: l →
  ∃ s1, page_alloc s = Ok p s1 ∧
    loop (S fuel) (walk_body va 1) (Z.of_nat (S n), pt) s =
    loop fuel (walk_body va 1) (Z.of_nat n, p) (set_mem (link_table (kmem s1) pte p) s1).
Proof.
  cbv zeta. intros HV Hrep Hul Hl.
  destruct (page_alloc_some s a p l Hrep Hul Hl) as (_ & Hp & _ & _ & _ & s1 & Hrun & _).
  exists s1. split; [done|]. rewrite loop_S. unfold walk_body at 2. cbv beta iota zeta.
  rewrite (proj2 (Z.ltb_lt _ _)) by lia. cbn [negb].
  rewrite bind_assoc. kstep. rewrite HV. rewrite bind_assoc, (bind_Ok _ _ _ _ _ Hrun).
  rewrite (proj2 (Z.eqb_neq p 0)) by lia. rewrite bind_assoc. kstep. rewrite bind_assoc. do 2 kstep.
  by replace (Z.of_nat (S n) - 1) with (Z.of_nat n) by lia.
Qed.

Lemma walk_out_of_memory n va pt (s : kst X) a fuel :
  has_flag (load64 (kmem s) (pt + 8 * PX (Z.of_nat (S n)) va)) PTE_V = false →
  arep s a → aunlocked s → free_list a = [] →
  loop (S fuel) (walk_body va 1) (Z.of_nat (S n), pt) s = Ok 0 s.
Proof.
  intros HV Hrep Hul Hl. rewrite loop_S. unfold walk_body at 2. cbv beta iota zeta.
  rewrite (proj2 (Z.ltb_lt _ _)) by lia. cbn [negb].
  rewrite bind_assoc. kstep. rewrite HV.
  rewrite bind_assoc, (bind_Ok _ _ _ _ _ (page_alloc_none s a Hrep Hul Hl)). by kstep.
Qed.

(** What a walk with allocation leaves behind. *)
Record walked (n : nat) (pt va : Z) (s : kst X) (a : A) (r : Z) (s' : kst X) (a' : A) : Prop := {
  wa_rep : arep s' a';
  wa_unlocked : aunlocked s';
  wa_held : held s' = held s;
  wa_console : console s' = console s;
  wa_owns b : owns a' b → owns a b;
  wa_found : r ≠ 0 → r = find n (kmem s') pt va;
  wa_enough : (n ≤ length (free_list a))%nat → r ≠ 0;
  wa_fresh : find n (kmem s) pt va = 0 → r ≠ 0 → load64 (kmem s') r = 0;
  wa_path : path_ok n (kmem s') a' pt va;
  wa_tables q : q ∈ tables n (kmem s') pt va → q ∈ tables n (kmem s) pt va ∨ owns a q;
  wa_frame b : ¬ owns a b → (gap n (kmem s) pt va = 0 ∨ ¬ in_range (gap n (kmem s) pt va) 8 b) →
    kmem s' b = kmem s b;
  wa_found_kept : find n (kmem s) pt va ≠ 0 → r = find n (kmem s) pt va ∧ s' = s ∧ a' = a;
}.

(** The table linked in by [walk_takes]: empty, allocated, and the only thing
    that changes besides the page it lies in. *)
Section linked.
Context (n : nat) (pt va p : Z) (l : list Z) (s s1 : kst X) (a : A).
Context (Hn : (S n ≤ 2)%nat) (Hva : 0 ≤ va < MAXVA).
Let pte := pt + 8 * PX (Z.of_nat (S n)) va.
Context (Hpath : path_ok (S n) (kmem s) a pt va) (Hrep : arep s a) (Hul : aunlocked s).
Context (HV : has_flag (load64 (kmem s) pte) PTE_V = false) (Hl : free_list a = p :: l).
Context (Hrun : page_alloc s = Ok p s1).
Let m2 := link_table (kmem s1) pte p.

Lemma linked_page : p mod 4096 = 0 ∧ 0 < p < 2 ^ 43 ∧ p ≠ pt ∧ pt mod 4096 = 0 ∧ 0 < pt < 2 ^ 56.
Proof.
  destruct (page_alloc_some s a p l Hrep Hul Hl) as (Hal & Hp & Hown & _).
  destruct Hpath as [_ Hq]. destruct (Hq pt (tables_head _ _ _ _)) as (Hal' & Hp' & Hno).
  do 2 (split; [done|]). split; [|done]. intros ->. apply (Hno pt); [unfold in_range; lia|].
  apply Hown. unfold in_range. lia.
Qed.

Lemma linked_pte b : in_range pte 8 b → in_range pt 4096 b ∧ ¬ in_range p 4096 b.
Proof.
  intros Hb. assert (Hb' : in_range pt 4096 b) by (eapply entry_in, Hb; lia).
  split; [done|]. destruct linked_page as (Hal & _ & Hne & Hal' & _).
  pose proof (aligned_disjoint 4096 p pt ltac:(lia) Hal Hal' Hne). unfold in_range in *. lia.
Qed.

Lemma linked_zero x : 0 ≤ x → x + 8 ≤ 4096 → load64 m2 (p + x) = 0.
Proof.
  intros Hx Hx8. unfold m2, link_table.
  rewrite (load64_ext (memset (kmem s1) p 0 4096) _).
  - apply load64_memset_0; lia.
  - intros b Hb. apply store64_ne. intros Hb'. apply linked_pte in Hb' as [_ Hb'].
    apply Hb'. unfold in_range in *. lia.
Qed.

Lemma linked_entry k : (k ≤ 2)%nat → load64 m2 (p + 8 * PX (Z.of_nat k) va) = 0.
Proof.
  intros Hk. pose proof MAXVA_bound. rewrite PX_spec by lia.
  pose proof (Z.mod_pos_bound (va / 2 ^ (12 + 9 * Z.of_nat k)) 512). apply linked_zero; lia.
Qed.

Lemma linked_frame b : ¬ in_range p 4096 b → ¬ in_range pte 8 b → m2 b = kmem s b.
Proof.
  intros Hb Hb'. unfold m2, link_table. rewrite store64_ne, memset_ne by done.
  destruct (page_alloc_some s a p l Hrep Hul Hl) as (_ & _ & _ & _ & _ & s1' & Hrun' & _ & _ & _ & _ & Hag).
  rewrite Hrun in Hrun'. injection Hrun' as <-. by apply Hag.
Qed.

Lemma linked_state :
  let s2 := set_mem m2 s1 in
  arep s2 (taken a) ∧ aunlocked s2 ∧ held s2 = held s ∧ console s2 = console s ∧
  free_list (taken a) = l ∧ (∀ b, owns (taken a) b → owns a b ∧ ¬ in_range p 4096 b).
Proof.
  destruct (page_alloc_some s a p l Hrep Hul Hl)
    as (_ & _ & Hown & Howns & Hfl & s1' & Hrun' & Hrep1 & Hul1 & Hh & Hc & Hag).
  rewrite Hrun in Hrun'. injection Hrun' as <-. cbv zeta.
  assert (Ho : ∀ b, owns (taken a) b → owns a b ∧ ¬ in_range p 4096 b) by (intros b; apply Howns).
  split; [|split; [by apply (aunlocked_held s1)|done]].
  apply arep_write; [done|]. intros b Hb. destruct (Ho b Hb) as [Hb1 Hb2].
  unfold m2, link_table. rewrite store64_ne, memset_ne; [done|done|].
  intros Hr. apply linked_pte in Hr as [Hr _]. destruct Hpath as [_ Hq].
  by destruct (Hq pt (tables_head _ _ _ _)) as (_ & _ & Hno); eapply Hno.
Qed.

Lemma linked_empty k : (k ≤ n)%nat →
  tables k m2 p va = [p] ∧ (k ≠ O → find k m2 p va = 0) ∧ (k ≠ O → gap k m2 p va = p + 8 * PX (Z.of_nat k) va).
Proof.
  intros Hk. destruct k as [|k]; [done|]. cbn [tables find gap]. cbv zeta.
  rewrite (linked_entry (S k)) by lia. done.
Qed.

Lemma linked_path : path_ok n m2 (taken a) p va.
Proof.
  destruct (linked_empty n ltac:(lia)) as [Ht _]. unfold path_ok. rewrite Ht.
  split; [apply NoDup_singleton|]. intros q ->%list_elem_of_singleton.
  destruct linked_page as (Hal & Hp & _). split; [done|]. split; [lia|].
  intros b Hb Ho. by apply linked_state in Ho as [_ Ho].
Qed.

Lemma linked_link : load64 m2 pte = Z.lor (PA2PTE p) PTE_V.
Proof.
  destruct linked_page as (Hal & Hp & _). unfold m2, link_table.
  rewrite load64_store64_eq. by apply table_entry.
Qed.
End linked.

Lemma pages_disjoint p q b :
  p mod 4096 = 0 → q mod 4096 = 0 → p ≠ q → in_range p 4096 b → ¬ in_range q 4096 b.
Proof.
  intros Hp Hq Hne. pose proof (aligned_disjoint 4096 p q ltac:(lia) Hp Hq Hne).
  unfold in_range. lia.
Qed.

(** A path through a valid entry. *)
Lemma walked_valid n pt va (s : kst X) a r s' a' :
  let e := load64 (kmem s) (pt + 8 * PX (Z.of_nat (S n)) va) in
  (S n ≤ 2)%nat → 0 ≤ va < MAXVA → path_ok (S n) (kmem s) a pt va →
  has_flag e PTE_V = true → stops e = false →
  walked n (PTE2PA e) va s a r s' a' → walked (S n) pt va s a r s' a'.
Proof.
  cbv zeta. set (pte := pt + 8 * PX (Z.of_nat (S n)) va). set (e := load64 (kmem s) pte).
  intros Hn Hva [Hnd Hq] HV Hs Hw.
  assert (Htab : tables (S n) (kmem s) pt va = pt :: tables n (kmem s) (PTE2PA e) va)
    by (cbn [tables]; cbv zeta; fold pte e; by rewrite HV, Hs).
  rewrite Htab in Hnd, Hq. apply NoDup_cons in Hnd as [Hnin Hnd].
  destruct (Hq pt ltac:(by apply elem_of_cons; left)) as (Hal & Hpt & Hno).
  assert (He : load64 (kmem s') pte = e).
  { apply load64_ext. intros b Hb.
    assert (Hbp : in_range pt 4096 b) by (eapply entry_in, Hb; lia).
    apply (wa_frame _ _ _ _ _ _ _ _ Hw); [by apply Hno|].
    destruct (decide (gap n (kmem s) (PTE2PA e) va = 0)) as [|Hg]; [by left|right].
    intros Hbg. destruct (gap_in n (kmem s) va b _ ltac:(lia) Hva Hg Hbg) as (q & Hqt & Hbq).
    destruct (Hq q ltac:(by apply elem_of_cons; right)) as (Hqal & _).
    apply (pages_disjoint pt q b Hal Hqal); [congruence|done|done]. }
  assert (Hfind : find (S n) (kmem s') pt va = find n (kmem s') (PTE2PA e) va)
    by (cbn [find]; cbv zeta; fold pte; by rewrite He, HV, Hs).
  assert (Hfind0 : find (S n) (kmem s) pt va = find n (kmem s) (PTE2PA e) va)
    by (cbn [find]; cbv zeta; fold pte e; by rewrite HV, Hs).
  assert (Hgap : gap (S n) (kmem s) pt va = gap n (kmem s) (PTE2PA e) va)
    by (cbn [gap]; cbv zeta; fold pte e; by rewrite HV, Hs).
  assert (Htab' : tables (S n) (kmem s') pt va = pt :: tables n (kmem s') (PTE2PA e) va)
    by (cbn [tables]; cbv zeta; fold pte; by rewrite He, HV, Hs).
  destruct Hw. constructor; rewrite ?Hfind, ?Hfind0, ?Hgap, ?Htab, ?Htab'; try done.
  - intros Hl. apply wa_enough0. lia.
  - destruct wa_path0 as [Hnd' Hq']. unfold path_ok. rewrite Htab'. split.
    + apply NoDup_cons. split; [|done]. intros Hin. apply wa_tables0 in Hin as [Hin|Hin]; [done|].
      apply (Hno pt); [unfold in_range; lia|done].
    + intros q [->|Hqt]%elem_of_cons; [|by apply Hq']. split; [done|]. split; [done|].
      intros b Hb Ho. by apply (Hno b Hb), wa_owns0.
  - intros q [->|Hqt]%elem_of_cons; [left; by apply elem_of_cons; left|].
    apply wa_tables0 in Hqt as [Hqt|Hqt]; [left; by apply elem_of_cons; right|by right].
Qed.

(** A path through a table that [walk] allocates. *)
Lemma walked_linked n pt va p l (s s1 : kst X) a r s' a' :
  let pte := pt + 8 * PX (Z.of_nat (S n)) va in
  let s2 := set_mem (link_table (kmem s1) pte p) s1 in
  (S n ≤ 2)%nat → 0 ≤ va < MAXVA → path_ok (S n) (kmem s) a pt va →
  arep s a → aunlocked s → has_flag (load64 (kmem s) pte) PTE_V = false →
  free_list a = p :: l → page_alloc s = Ok p s1 →
  walked n p va s2 (taken a) r s' a' → walked (S n) pt va s a r s' a'.
Proof.
  cbv zeta. set (pte := pt + 8 * PX (Z.of_nat (S n)) va).
  set (s2 := set_mem (link_table (kmem s1) pte p) s1).
  intros Hn Hva Hpath Hrep Hul HV Hl Hrun Hw.
  destruct (linked_state n pt va p l s s1 a Hn Hva Hpath Hrep Hul Hl Hrun) as (_ & _ & Hh & Hc & Hfl & Hown).
  fold pte in Hh, Hc, Hown. fold s2 in Hh, Hc.
  destruct (linked_page n pt va p l s s1 a Hn Hpath Hrep Hul Hl Hrun) as (Hal & Hp & Hne & Hptal & Hpt).
  destruct Hpath as [Hnd Hq]. destruct (Hq pt (tables_head _ _ _ _)) as (_ & _ & Hno).
  destruct (linked_empty n pt va p l s s1 a Hn Hva (conj Hnd Hq) Hrep Hul Hl Hrun n ltac:(lia)) as (Htab2 & Hf2 & Hg2).
  fold pte in Htab2, Hf2, Hg2. change (link_table (kmem s1) pte p) with (kmem s2) in Htab2, Hf2, Hg2.
  assert (Hgp : ∀ b, gap n (kmem s2) p va ≠ 0 → in_range (gap n (kmem s2) p va) 8 b → in_range p 4096 b).
  { intros b Hg Hb. destruct (gap_in n (kmem s2) va b p ltac:(lia) Hva Hg Hb) as (q & Hqt & Hbq).
    rewrite Htab2 in Hqt. apply list_elem_of_singleton in Hqt. by subst q. }
  assert (Hpown : ∀ b, in_range p 4096 b → owns a b) by
    (destruct (page_alloc_some s a p l Hrep Hul Hl) as (_ & _ & Ho & _); exact Ho).
  assert (He : load64 (kmem s') pte = Z.lor (PA2PTE p) PTE_V).
  { rewrite <-(linked_link n pt va p l s s1 a); try done. apply load64_ext. intros b Hb.
    destruct (linked_pte n pt va p l s s1 a Hn Hva (conj Hnd Hq) Hrep Hul Hl Hrun b Hb) as [Hb1 Hb2].
    apply (wa_frame _ _ _ _ _ _ _ _ Hw).
    - intros Ho. by apply (Hno b Hb1), Hown.
    - destruct (decide (gap n (kmem s2) p va = 0)); [by left|right]. intros Hb'. by apply Hb2, Hgp. }
  destruct (table_entry p Hal Hp) as (_ & HPA & HVe & Hse).
  assert (Hfind : find (S n) (kmem s') pt va = find n (kmem s') p va)
    by (cbn [find]; cbv zeta; fold pte; by rewrite He, HVe, Hse, HPA).
  assert (Hfind0 : find (S n) (kmem s) pt va = 0) by (cbn [find]; cbv zeta; fold pte; by rewrite HV).
  assert (Hgap : gap (S n) (kmem s) pt va = pte) by (cbn [gap]; cbv zeta; fold pte; by rewrite HV).
  assert (Htab : tables (S n) (kmem s) pt va = [pt]) by (cbn [tables]; cbv zeta; fold pte; by rewrite HV).
  assert (Htab' : tables (S n) (kmem s') pt va = pt :: tables n (kmem s') p va)
    by (cbn [tables]; cbv zeta; fold pte; by rewrite He, HVe, Hse, HPA).
  assert (Hnew : ∀ q, q ∈ tables n (kmem s') p va → owns a q).
  { intros q Hqt. apply (wa_tables _ _ _ _ _ _ _ _ Hw) in Hqt as [Hqt|Ho]; [|by apply Hown].
    rewrite Htab2 in Hqt. apply list_elem_of_singleton in Hqt. subst q. apply Hpown. unfold in_range. lia. }
  destruct Hw. constructor; rewrite ?Hfind, ?Hfind0, ?Hgap, ?Htab, ?Htab', ?Hl; try done; try congruence.
  - intros b Hb. by apply Hown, wa_owns0.
  - intros Hlen. apply wa_enough0. rewrite Hfl. cbn in Hlen. lia.
  - intros _ Hr. destruct (decide (n = O)) as [->|Hn0]; [|by apply wa_fresh0, Hr; apply Hf2].
    destruct wa_found_kept0 as (-> & -> & _).
    + cbn. pose proof MAXVA_bound. rewrite PX_spec by lia.
      pose proof (Z.mod_pos_bound (va / 2 ^ (12 + 9 * 0)) 512). lia.
    + apply (linked_entry 0 pt va p l s s1 a Hn Hva (conj Hnd Hq) Hrep Hul Hl Hrun 0). lia.
  - destruct wa_path0 as [Hnd' Hq']. unfold path_ok. rewrite Htab'. split.
    + apply NoDup_cons. split; [|done]. intros Hin%Hnew. apply (Hno pt); [unfold in_range; lia|done].
    + intros q [->|Hqt]%elem_of_cons; [|by apply Hq']. do 2 (split; [done|]).
      intros b Hb Ho. by apply (Hno b Hb), Hown, wa_owns0.
  - intros q [->|Hqt]%elem_of_cons; [left; by apply list_elem_of_singleton|right; by apply Hnew].
  - intros b Hb Hg. destruct Hg as [Hg|Hg]; [unfold pte in Hg; exfalso; revert Hg|].
    { pose proof MAXVA_bound. rewrite PX_spec by lia.
      pose proof (Z.mod_pos_bound (va / 2 ^ (12 + 9 * Z.of_nat (S n))) 512). lia. }
    assert (Hbp : ¬ in_range p 4096 b) by (intros Hb'; by apply Hb, Hpown).
    rewrite wa_frame0.
    + by apply (linked_frame n pt va p l s s1 a).
    + intros Ho. by apply Hb, Hown.
    + destruct (decide (gap n (kmem s2) p va = 0)); [by left|right]. intros Hb'. by apply Hbp, Hgp.
Qed.

Lemma walk_alloc_ok n va : ∀ pt (s : kst X) a fuel,
  (n ≤ 2)%nat → (n < fuel)%nat → 0 ≤ va < MAXVA → path_ok n (kmem s) a pt va →
  arep s a → aunlocked s →
  ∃ r s' a', loop fuel (walk_body va 1) (Z.of_nat n, pt) s = Ok r s' ∧ walked n pt va s a r s' a'.
Proof.
  induction n as [|n IH]; intros pt s a [|fuel] Hn Hfuel Hva Hpath Hrep Hul; try lia.
  { exists (pt + 8 * PX 0 va), s, a. split; [done|]. destruct (Hpath) as [Hnd Hq].
    destruct (Hq pt (tables_head 0 _ _ _)) as (_ & Hpt & _).
    assert (Hnz : pt + 8 * PX 0 va ≠ 0).
    { pose proof MAXVA_bound. rewrite PX_spec by lia.
      pose proof (Z.mod_pos_bound (va / 2 ^ (12 + 9 * 0)) 512). lia. }
    constructor; try done; by left. }
  set (pte := pt + 8 * PX (Z.of_nat (S n)) va).
  assert (Hpz : pte ≠ 0).
  { destruct Hpath as [_ Hq]. destruct (Hq pt (tables_head _ _ _ _)) as (_ & Hpt & _).
    unfold pte. pose proof MAXVA_bound. rewrite PX_spec by lia.
    pose proof (Z.mod_pos_bound (va / 2 ^ (12 + 9 * Z.of_nat (S n))) 512). lia. }
  destruct (has_flag (load64 (kmem s) pte) PTE_V) eqn:HV.
  - rewrite walk_valid by done. fold pte. destruct (stops (load64 (kmem s) pte)) eqn:Hs.
    + exists pte, s, a. split; [done|].
      assert (Hf : find (S n) (kmem s) pt va = pte) by (cbn [find]; fold pte; by rewrite HV, Hs).
      constructor; try done; try congruence; by left.
    + destruct (IH (PTE2PA (load64 (kmem s) pte)) s a fuel) as (r & s' & a' & Hrun & Hw); try done; try lia.
      { destruct Hpath as [Hnd Hq]. cbn [tables] in Hnd, Hq. cbv zeta in Hnd, Hq. fold pte in Hnd, Hq.
        rewrite HV, Hs in Hnd, Hq. apply NoDup_cons in Hnd as [_ Hnd]. split; [done|].
        intros q Hqt. apply Hq. by apply elem_of_cons; right. }
      exists r, s', a'. split; [done|]. by apply walked_valid.
  - destruct (free_list a) as [|p l] eqn:Hl.
    + exists 0, s, a. split; [by apply (walk_out_of_memory n va pt s a)|].
      assert (Hf : find (S n) (kmem s) pt va = 0) by (cbn [find]; fold pte; by rewrite HV).
      constructor; try done; try congruence; [rewrite Hl; cbn; lia|by left].
    + destruct (walk_takes n va pt s a p l fuel HV Hrep Hul Hl) as (s1 & Hrun & Hloop).
      fold pte in Hloop. rewrite Hloop.
      destruct (linked_state n pt va p l s s1 a ltac:(lia) Hva Hpath Hrep Hul Hl Hrun) as (Hr2 & Hu2 & _).
      destruct (IH p (set_mem (link_table (kmem s1) pte p) s1) (taken a) fuel) as (r & s' & a' & Hrun' & Hw); try done; try lia.
      { by apply (linked_path n pt va p l s s1 a). }
      exists r, s', a'. split; [done|]. by apply (walked_linked n pt va p l s s1 a r s' a').
Qed.

(** ** Main theorems *)

(** C12: [walk] finds what it makes.  With [alloc] set, on a path of distinct
    pages that are not free, it returns either null, only when pages ran out,
    or the entry that every later lookup of the address returns; an entry
    that already existed is returned without changing anything, a new one is
    empty; the allocator stays consistent, the path stays well formed, and no
    byte outside the free pages changes except the one entry where a table
    was missing.  Addresses from [MAXVA] on are a panic. *)
Theorem walk_alloc_roundtrip pt va (s : kst X) a :
  0 ≤ va → path_ok 2 (kmem s) a pt va → arep s a → aunlocked s →
  (MAXVA ≤ va ∧ ∀ alloc, walk pt va alloc s = Panic "walk" s) ∨
  (va < MAXVA ∧ ∃ r s' a', walk pt va 1 s = Ok r s' ∧
     arep s' a' ∧ aunlocked s' ∧ path_ok 2 (kmem s') a' pt va ∧
     ((2 ≤ length (free_list a))%nat → r ≠ 0) ∧
     (r ≠ 0 → walk pt va 0 s' = Ok r s') ∧
     (find 2 (kmem s) pt va ≠ 0 → walk pt va 0 s = Ok r s ∧ s' = s) ∧
     (find 2 (kmem s) pt va = 0 → r ≠ 0 → load64 (kmem s') r = 0) ∧
     (∀ b, ¬ owns a b → (gap 2 (kmem s) pt va = 0 ∨ ¬ in_range (gap 2 (kmem s) pt va) 8 b) →
        kmem s' b = kmem s b)).
Proof.
  intros Hva Hpath Hrep Hul. unfold walk. destruct (MAXVA <=? va) eqn:E; bool_to_Prop; [by left|right].
  split; [done|]. assert (Hva' : 0 ≤ va < MAXVA) by lia.
  destruct (walk_alloc_ok 2 va pt s a 3 ltac:(lia) ltac:(lia) Hva' Hpath Hrep Hul) as (r & s' & a' & Hrun & []).
  exists r, s', a'. change 2 with (Z.of_nat 2) at 1. do 5 (split; [done|]).
  split; [|split; [|split; [done|done]]].
  - intros Hr. change 2 with (Z.of_nat 2). rewrite walk_find by lia. f_equal. symmetry. by apply wa_found0.
  - intros Hf. destruct (wa_found_kept0 Hf) as (-> & -> & _). split; [|done].
    change 2 with (Z.of_nat 2) at 1. by apply walk_find; lia.
Qed.
End walk_alloc.

(** ** The page tables of the copy-on-write kernel

    The radix tree implements the interface [PageTable], whatever [mappages]
    and [uvmunmap] do. *)

Section radix_table.
Context `{Riscv, MemLayout, RiscvLeaf} {X A : Type} `{!KAlloc X A}.
Context (mappages : Z → Z → Z → Z → Z → M (kst X) Z) (uvmunmap : Z → Z → Z → Z → M (kst X) unit).

Definition user_va (va : Z) : bool := (0 <=? va) && (va <? MAXVA).

Definition radix_find (m : mem) (pt va : Z) : Z := if user_va va then find 2 m pt va else 0.
Definition radix_reads (m : mem) (pt va b : Z) : Prop := user_va va = true ∧ reads 2 m pt va b.

Lemma user_va_page va : user_va (va / 4096 * 4096) = user_va va.
Proof.
  pose proof TRAMPOLINE_top. pose proof TRAPFRAME_below. pose proof USYSCALL_below.
  pose proof USYSCALL_aligned. unfold user_va.
  apply eq_true_iff_eq. rewrite !andb_true_iff, !Z.leb_le, !Z.ltb_lt. dlia.
Qed.

Definition radix_table : PageTable X.
Proof.
  refine {|
    CowVm.walk := walk;
    CowVm.mappages := mappages;
    CowVm.uvmunmap := uvmunmap;
    CowVm.walk0 := radix_find;
    CowVm.visits := radix_reads;
  |}.
  - intros pt va s Hva. unfold walk, radix_find, user_va.
    rewrite (proj2 (Z.leb_gt _ _)), (proj2 (Z.leb_le _ _)), (proj2 (Z.ltb_lt _ _)) by lia.
    change 2 with (Z.of_nat 2) at 1. by rewrite walk_find by lia.
  - intros pt va alloc s Hva. unfold walk. by rewrite (proj2 (Z.leb_le _ _)).
  - intros m pt va. unfold radix_find. rewrite user_va_page.
    destruct (user_va va) eqn:E; [|done]. unfold user_va in E. apply find_page; lia.
  - intros m m' pt va Hag. unfold radix_find. destruct (user_va va) eqn:E; [|done].
    apply find_local. intros b Hb. by apply Hag.
  - intros m m' pt va b Hag [Hu Hb]. split; [done|]. eapply reads_local, Hb.
    intros b' Hb'. by apply Hag.
Defined.
End radix_table.
