(* ===== verification/CowWalk.v ===== *)
(** * Forking over three-level page tables (lab6 over [Walk])

    The laws [CowFork] asks of [walk] hold of the three-level walk of [Walk]
    run over the reference-counted allocator of [CowAlloc]: it takes free
    pages for the tables it needs, and the slots' page tables stay trees apart
    from each other. *)

From S2P Require Import Prelude Memory Machine FreeList CowAlloc SuperAlloc CowVm CowFork Walk.

(** ** Addresses and the tables on their way *)

(** What addresses below the same entry of level [n + 1] have in common. *)
Definition prefix (n : nat) (va : Z) : Z := va / 2 ^ (12 + 9 * Z.of_nat (S n)).

Section radix_fork.
Context `{Riscv, MemLayout, RiscvLeaf} {P : Type}.
Context (mappages : Z → Z → Z → Z → Z → M (kst (CowAlloc.cow (P := P))) Z)
        (uvmunmap : Z → Z → Z → Z → M (kst (CowAlloc.cow (P := P))) unit).

Local Abbreviation cow := (CowAlloc.cow (P := P)).

#[local] Instance radix : PageTable cow := radix_table mappages uvmunmap.

Lemma PX_range n va : (n ≤ 2)%nat → 0 ≤ va < MAXVA → 0 ≤ PX (Z.of_nat n) va < 512.
Proof. intros Hn Hva. pose proof MAXVA_bound. rewrite PX_spec by lia. by apply Z.mod_pos_bound. Qed.

Lemma prefix_S n va : prefix (S n) va = prefix n va / 512.
Proof.
  unfold prefix. rewrite !Nat2Z.inj_succ.
  replace (12 + 9 * Z.succ (Z.succ (Z.of_nat n))) with (12 + 9 * Z.succ (Z.of_nat n) + 9) by lia.
  rewrite Z.pow_add_r, <-Z.div_div by (try apply Z.pow_nonzero; try apply Z.pow_pos_nonneg; lia). done.
Qed.

Lemma PX_prefix n va :
  (S n ≤ 2)%nat → 0 ≤ va < MAXVA → PX (Z.of_nat (S n)) va = prefix n va mod 512.
Proof. intros Hn Hva. pose proof MAXVA_bound. by rewrite PX_spec by lia. Qed.

Lemma prefix_split n va :
  (S n ≤ 2)%nat → 0 ≤ va < MAXVA →
  prefix n va = prefix (S n) va * 512 + PX (Z.of_nat (S n)) va.
Proof. intros. rewrite prefix_S, PX_prefix by done. dlia. Qed.

Lemma va_split va : 0 ≤ va < MAXVA → va / 4096 = prefix 0 va * 512 + PX 0 va.
Proof.
  intros Hva. pose proof MAXVA_bound. rewrite PX_spec by lia. unfold prefix.
  change (2 ^ (12 + 9 * Z.of_nat 1)) with (4096 * 512). change (2 ^ (12 + 9 * 0)) with 4096.
  rewrite <-Z.div_div by lia. dlia.
Qed.

Lemma prefix_top va : 0 ≤ va < MAXVA → prefix 2 va = 0.
Proof.
  intros Hva. pose proof MAXVA_bound. unfold prefix. change (12 + 9 * Z.of_nat 3) with 39.
  by apply Z.div_small; lia.
Qed.

(** The address of the entry a lookup reads in a table of level [n]. *)
Definition word (n : nat) (p : Z) (σ : slot) : Z := p + 8 * PX (Z.of_nat n) σ.2.

(** The table [p] of level [n] lies on the way of the slot's lookup. *)
Inductive reach (m : mem) (σ : slot) : nat → Z → Prop :=
  | reach_root : reach m σ 2 σ.1
  | reach_next n p :
      reach m σ (S n) p → has_flag (load64 m (word (S n) p σ)) PTE_V = true →
      stops (load64 m (word (S n) p σ)) = false →
      reach m σ n (PTE2PA (load64 m (word (S n) p σ))).

Lemma reach_level m σ n p : reach m σ n p → (n ≤ 2)%nat.
Proof. induction 1; lia. Qed.

(** A level has at most one table on the way. *)
Lemma reach_det m σ n p q : reach m σ n p → reach m σ n q → p = q.
Proof.
  intros Hp. revert q. induction Hp as [|n p Hp IH HV Hs]; intros q Hq.
  - inversion Hq as [|? ? Hr]; [done|]. by apply reach_level in Hr; lia.
  - inversion Hq as [|? p' Hr]; subst; [by apply reach_level in Hp; lia|]. by rewrite (IH _ Hr).
Qed.

(** Slots of one page table whose addresses agree above a table share it. *)
Lemma reach_share m σ τ n p :
  0 ≤ σ.2 < MAXVA → 0 ≤ τ.2 < MAXVA → τ.1 = σ.1 → prefix n τ.2 = prefix n σ.2 →
  reach m σ n p → reach m τ n p.
Proof.
  intros Hσ Hτ Hroot Hpre Hr. revert Hpre. induction Hr as [|n p Hr IH HV Hs]; intros Hpre.
  - rewrite <-Hroot. constructor.
  - pose proof (reach_level _ _ _ _ Hr).
    assert (Hw : word (S n) p σ = word (S n) p τ)
      by (unfold word; by rewrite !PX_prefix, Hpre by done).
    rewrite Hw in *. constructor; [|done..]. apply IH. by rewrite !prefix_S, Hpre.
Qed.

(** ** Lookups in terms of the tables on the way *)

Lemma find_reach m σ n p :
  reach m σ n p → find 2 m σ.1 σ.2 = find n m p σ.2.
Proof.
  induction 1 as [|n p Hr IH HV Hs]; [done|]. rewrite IH. cbn [find]. cbv zeta.
  fold (word (S n) p σ). by rewrite HV, Hs.
Qed.

Lemma reads_reach m σ n p b :
  reach m σ n p → reads n m p σ.2 b → reads 2 m σ.1 σ.2 b.
Proof.
  induction 1 as [|n p Hr IH HV Hs]; [done|]. intros Hb. apply IH. cbn [reads]. cbv zeta.
  right. by fold (word (S n) p σ).
Qed.

Lemma reads_inv m σ b n p :
  reach m σ n p → reads n m p σ.2 b →
  ∃ k q, reach m σ (S k) q ∧ in_range (word (S k) q σ) 8 b.
Proof.
  revert p. induction n as [|n IH]; intros p Hr; [done|]. cbn [reads]. cbv zeta.
  fold (word (S n) p σ). intros [Hb|(HV & Hs & Hb)]; [by exists n, p|].
  eapply IH, Hb. by constructor.
Qed.

(** Either the entry is there, or the lookup stops at an invalid one. *)
Lemma find_inv m σ n p :
  reach m σ n p → (∀ k q, reach m σ (S k) q → has_flag (load64 m (word (S k) q σ)) PTE_V = true →
                    stops (load64 m (word (S k) q σ)) = false) →
  (∃ q, reach m σ 0 q ∧ find n m p σ.2 = word 0 q σ) ∨
  (find n m p σ.2 = 0 ∧ (∀ q, ¬ reach m σ 0 q)).
Proof.
  intros Hr Hleaf. revert p Hr. induction n as [|n IH]; intros p Hr; [left; by exists p|].
  cbn [find]. cbv zeta. fold (word (S n) p σ).
  destruct (has_flag (load64 m (word (S n) p σ)) PTE_V) eqn:HV; cbn [negb].
  - rewrite Hleaf by done. apply IH. constructor; auto.
  - right. split; [done|]. intros q Hq.
    assert (Hlow : ∀ k q', reach m σ k q' → (n < k)%nat ∨ ∃ q'', reach m σ (S n) q'' ∧
                     has_flag (load64 m (word (S n) q'' σ)) PTE_V = true).
    { induction 1 as [|k q' Hq' IHq HV' Hs'].
      - left. apply reach_level in Hr. lia.
      - destruct IHq as [Hlt|?]; [|by right]. destruct (decide (k = n)) as [->|]; [|left; lia].
        right. by exists q'. }
    destruct (Hlow 0%nat q Hq) as [?|(q'' & Hq'' & HV')]; [lia|].
    rewrite (reach_det _ _ _ _ _ Hq'' Hr) in HV'. congruence.
Qed.

(** ** Trees *)

(** Every table on the way of a slot is a page; a table belongs to one page
    table, one level and one prefix; no superpages. *)
Record sv39_trees (slots : list slot) (m : mem) : Prop := {
  tr_page σ n p : σ ∈ slots → reach m σ n p → p mod 4096 = 0 ∧ 0 < p < 2 ^ 56;
  tr_leaf σ n p : σ ∈ slots → reach m σ (S n) p →
    has_flag (load64 m (word (S n) p σ)) PTE_V = true →
    stops (load64 m (word (S n) p σ)) = false;
  tr_apart σ τ n k p : σ ∈ slots → τ ∈ slots → reach m σ n p → reach m τ k p →
    n = k ∧ σ.1 = τ.1 ∧ prefix n σ.2 = prefix n τ.2;
}.

Section tree_facts.
Context (slots : list slot) (m : mem).
Context (Hal : ∀ τ, τ ∈ slots → τ.2 mod 4096 = 0 ∧ 0 ≤ τ.2 < MAXVA).
Context (Htr : sv39_trees slots m).

Lemma slot_va σ : σ ∈ slots → 0 ≤ σ.2 < MAXVA.
Proof. intros Hσ. by apply Hal. Qed.

Lemma pte_of_find σ : σ ∈ slots → pte_of m σ = find 2 m σ.1 σ.2.
Proof.
  intros Hσ. pose proof (slot_va σ Hσ). unfold pte_of. cbn. unfold radix_find, user_va.
  by rewrite (proj2 (Z.leb_le _ _)), (proj2 (Z.ltb_lt _ _)) by lia.
Qed.

Lemma visits_reach σ b :
  σ ∈ slots → visits m σ.1 σ.2 b ↔ ∃ k q, reach m σ (S k) q ∧ in_range (word (S k) q σ) 8 b.
Proof.
  intros Hσ. pose proof (slot_va σ Hσ). cbn. unfold radix_reads, user_va.
  rewrite (proj2 (Z.leb_le _ _)), (proj2 (Z.ltb_lt _ _)) by lia. split.
  - intros [_ Hb]. eapply reads_inv, Hb. constructor.
  - intros (k & q & Hq & Hb). split; [done|]. eapply reads_reach; [done|]. left. exact Hb.
Qed.

(** A slot's entry is there exactly when its last table is. *)
Lemma pte_of_cases σ :
  σ ∈ slots →
  (∃ q, reach m σ 0 q ∧ pte_of m σ = word 0 q σ ∧ pte_of m σ ≠ 0) ∨
  (pte_of m σ = 0 ∧ ∀ q, ¬ reach m σ 0 q).
Proof.
  intros Hσ. rewrite pte_of_find by done.
  destruct (find_inv m σ 2 σ.1) as [(q & Hq & Hf)|Hz]; [constructor|by intros; apply (tr_leaf _ _ Htr)| |by right].
  left. exists q. split; [done|]. split; [done|]. rewrite Hf. unfold word.
  pose proof (PX_range 0 σ.2 ltac:(lia) (slot_va σ Hσ)).
  destruct (tr_page _ _ Htr σ 0 q) as [_ ?]; [done..|]. change (Z.of_nat 0) with 0 in *. lia.
Qed.

Lemma pte_of_reach σ q : σ ∈ slots → reach m σ 0 q → pte_of m σ = word 0 q σ ∧ pte_of m σ ≠ 0.
Proof.
  intros Hσ Hq. destruct (pte_of_cases σ Hσ) as [(q' & Hq' & Hp)|[_ Hno]]; [|by destruct (Hno q)].
  by rewrite (reach_det _ _ _ _ _ Hq Hq').
Qed.

(** An entry lies in its table. *)
Lemma word_page σ n p b :
  σ ∈ slots → reach m σ n p → in_range (word n p σ) 8 b → in_range p 4096 b.
Proof.
  intros Hσ Hr. pose proof (PX_range n σ.2 (reach_level _ _ _ _ Hr) (slot_va σ Hσ)).
  unfold word, in_range. lia.
Qed.

(** Two entries that meet are the same entry of the same table, and the
    addresses agree down to its level. *)
Lemma word_meet σ τ n k p q b :
  σ ∈ slots → τ ∈ slots → reach m σ n p → reach m τ k q →
  in_range (word n p σ) 8 b → in_range (word k q τ) 8 b →
  n = k ∧ p = q ∧ word n p σ = word k q τ ∧ σ.1 = τ.1 ∧ prefix n σ.2 = prefix n τ.2 ∧
  PX (Z.of_nat n) σ.2 = PX (Z.of_nat n) τ.2.
Proof.
  intros Hσ Hτ Hp Hq Hb Hb'.
  destruct (tr_page _ _ Htr σ n p Hσ Hp) as [Hpal _]. destruct (tr_page _ _ Htr τ k q Hτ Hq) as [Hqal _].
  pose proof (word_page σ n p b Hσ Hp Hb) as Hpb. pose proof (word_page τ k q b Hτ Hq Hb') as Hqb.
  assert (p = q) as <-.
  { destruct (decide (p = q)) as [|Hne]; [done|]. by destruct (pages_disjoint p q b Hpal Hqal Hne Hpb). }
  destruct (tr_apart _ _ Htr σ τ n k p Hσ Hτ Hp Hq) as (<- & Hroot & Hpre).
  assert (HPX : PX (Z.of_nat n) σ.2 = PX (Z.of_nat n) τ.2) by (unfold word, in_range in *; lia).
  do 2 (split; [done|]). split; [|done]. unfold word. by rewrite HPX.
Qed.

(** The bytes of the tables are the bytes of the entries on the way. *)
Lemma table_byte_reach b :
  table_byte m slots b →
  ∃ σ n p, σ ∈ slots ∧ reach m σ n p ∧ in_range (word n p σ) 8 b ∧ frame b = p.
Proof.
  intros (σ & Hσ & Hb).
  assert (Hr : ∃ n p, reach m σ n p ∧ in_range (word n p σ) 8 b).
  { destruct Hb as [(k & q & Hq & Hb)%visits_reach|[Hz Hb]]; [by exists (S k), q|done|].
    destruct (pte_of_cases σ Hσ) as [(q & Hq & E & _)|[? _]]; [|done]. exists 0%nat, q. by rewrite <-E. }
  destruct Hr as (n & p & Hr & Hw). exists σ, n, p. do 3 (split; [done|]).
  destruct (tr_page _ _ Htr σ n p Hσ Hr) as [Hpal _]. apply (in_page_frame p b Hpal).
  by apply (word_page σ n).
Qed.

(** The structure of the tables gives what [CowFork] asks of them. *)
Lemma trees_ok av :
  (∀ σ n p, σ ∈ slots → reach m σ n p → p ∉ av) → tables_ok slots m av.
Proof.
  intros Hav. constructor.
  - intros σ Hσ. destruct (pte_of_cases σ Hσ) as [(q & Hq & -> & _)|[-> _]]; [|done].
    destruct (tr_page _ _ Htr σ 0 q Hσ Hq) as [? _]. unfold word. dlia.
  - intros σ τ Hσ Hτ Hz Heq.
    destruct (pte_of_cases σ Hσ) as [(p & Hp & Ep & _)|[? _]]; [|done].
    destruct (pte_of_cases τ Hτ) as [(q & Hq & Eq & _)|[? _]]; [|congruence].
    destruct (word_meet σ τ 0 0 p q (word 0 p σ)) as (_ & _ & _ & Hroot & Hpre & HPX); try done.
    { unfold in_range. lia. } { rewrite <-Eq, <-Heq, Ep. unfold in_range. lia. }
    destruct (Hal σ Hσ) as [Hσ4 Hσv]. destruct (Hal τ Hτ) as [Hτ4 Hτv].
    pose proof (va_split σ.2 Hσv). pose proof (va_split τ.2 Hτv). change (Z.of_nat 0) with 0 in HPX.
    destruct σ as [σ1 σ2], τ as [τ1 τ2]. cbn [fst snd] in *. f_equal; [done|]. dlia.
  - intros σ τ b Hσ Hτ (k & q & Hq & Hb)%visits_reach Hz Hb'; [|done].
    destruct (pte_of_cases τ Hτ) as [(p & Hp & Ep & _)|[? _]]; [|done]. rewrite Ep in Hb'.
    by destruct (word_meet σ τ (S k) 0 q p b) as [? _].
  - intros b (σ & n & p & Hσ & Hr & _ & ->)%table_byte_reach. by eapply Hav.
Qed.

(** A byte of an entry a lookup uses is a byte of the tables. *)
Lemma reach_table σ n p b :
  σ ∈ slots → reach m σ n p → in_range (word n p σ) 8 b → table_byte m slots b.
Proof.
  intros Hσ Hr Hb. exists σ. split; [done|]. destruct n as [|n].
  - right. by destruct (pte_of_reach σ p Hσ Hr) as [-> ?].
  - left. apply visits_reach; [done|]. by exists n, p.
Qed.

Lemma reach_allocated av σ n p : tables_ok slots m av → σ ∈ slots → reach m σ n p → p ∉ av.
Proof.
  intros Hto Hσ Hr. destruct (tr_page _ _ Htr σ n p Hσ Hr) as [Hpal _].
  rewrite <-(proj1 (in_page_frame p (word n p σ) Hpal)).
  - apply (to_alloc _ _ _ Hto). eapply reach_table; [done..|]. unfold in_range. lia.
  - eapply word_page; [done..|]. unfold in_range. lia.
Qed.
End tree_facts.

(** ** Linking one new table *)

Section link_table.
Context (slots : list slot) (m m' : mem) (av : list Z) (σ : slot) (n : nat) (p q : Z).
Context (Hal : ∀ τ, τ ∈ slots → τ.2 mod 4096 = 0 ∧ 0 ≤ τ.2 < MAXVA).
Context (Htr : sv39_trees slots m) (Hto : tables_ok slots m av) (Hσ : σ ∈ slots).
Context (Hr : reach m σ (S n) p).
Let w := word (S n) p σ.
Context (HV : has_flag (load64 m w) PTE_V = false).
Context (Hq : q ∈ av) (Hqal : q mod 4096 = 0) (Hqr : 0 < q < 2 ^ 43).
Context (Hfr : agree_on (λ b, ¬ in_range q 4096 b ∧ ¬ in_range w 8 b) m m').
Context (Hlink : load64 m' w = Z.lor (PA2PTE q) PTE_V).
Context (Hzero : ∀ x, 0 ≤ x → x + 8 ≤ 4096 → load64 m' (q + x) = 0).

Lemma new_word τ k : (k ≤ 2)%nat → τ ∈ slots → load64 m' (word k q τ) = 0.
Proof.
  intros Hk Hτ. pose proof (PX_range k τ.2 Hk (slot_va slots Hal τ Hτ)). apply Hzero; lia.
Qed.

(** Every other entry on the way of a slot is what it was. *)
Lemma old_word τ k t :
  τ ∈ slots → reach m τ k t → word k t τ ≠ w → load64 m' (word k t τ) = load64 m (word k t τ).
Proof.
  intros Hτ Ht Hne. apply load64_ext. intros b Hb. apply Hfr. split; intros Hb'.
  - pose proof (reach_allocated slots m Hal Htr av τ k t Hto Hτ Ht) as Hnav.
    destruct (tr_page _ _ Htr τ k t Hτ Ht) as [Htal _].
    apply (pages_disjoint t q b Htal Hqal); [congruence|by eapply (word_page slots m)|done].
  - by destruct (word_meet slots m Hal Htr τ σ k (S n) t p b) as (_ & _ & ? & _).
Qed.

(** The tables on the way of the slots: those that were there, and the new one
    for the slots below the entry it is linked at. *)
Lemma link_reach τ k t :
  τ ∈ slots → reach m' τ k t →
  reach m τ k t ∨ (t = q ∧ k = n ∧ τ.1 = σ.1 ∧ prefix n τ.2 = prefix n σ.2).
Proof.
  intros Hτ. induction 1 as [|k t Ht IH HV' Hs']; [left; constructor|].
  pose proof (reach_level _ _ _ _ Ht) as Hk.
  destruct IH as [IH|(-> & _)].
  - destruct (decide (word (S k) t τ = w)) as [Hw|Hw].
    + right. destruct (word_meet slots m Hal Htr τ σ (S k) (S n) t p w)
        as (Hk' & -> & _ & Hroot & Hpre & HPX); try done.
      { rewrite Hw. unfold in_range. lia. } { fold w. unfold in_range. lia. }
      injection Hk' as ->. rewrite Hw, Hlink.
      destruct (table_entry q Hqal Hqr) as (_ & -> & _). do 3 (split; [done|]).
      rewrite (prefix_split n τ.2), (prefix_split n σ.2), Hpre, HPX by (lia || by apply (slot_va slots Hal)).
      done.
    + left. rewrite (old_word τ (S k) t) in * by done. by constructor.
  - rewrite new_word in HV' by done. done.
Qed.

Lemma link_reach_kept τ k t : τ ∈ slots → reach m τ k t → reach m' τ k t.
Proof.
  intros Hτ. induction 1 as [|k t Ht IH HV' Hs']; [constructor|].
  assert (Hw : word (S k) t τ ≠ w) by (intros Hw; rewrite Hw in HV'; congruence).
  rewrite <-(old_word τ (S k) t) in * by done. by constructor.
Qed.

Lemma link_reach_new : reach m' σ n q.
Proof.
  destruct (table_entry q Hqal Hqr) as (_ & HPA & HVe & Hse). rewrite <-HPA, <-Hlink.
  constructor; [by apply link_reach_kept|fold w; by rewrite Hlink..].
Qed.

Lemma link_trees : sv39_trees slots m'.
Proof.
  assert (Hq' : ∀ τ k, τ ∈ slots → ¬ reach m τ k q).
  { intros τ k Hτ Ht. by apply (reach_allocated slots m Hal Htr av τ k q). }
  constructor.
  - intros τ k t Hτ [Ht|(-> & _)]%link_reach; [by apply (tr_page _ _ Htr τ k)|by split; lia|done].
  - intros τ k t Hτ Ht. pose proof (reach_level _ _ _ _ Ht).
    apply link_reach in Ht as [Ht|(-> & _)]; [|by rewrite new_word|done].
    destruct (decide (word (S k) t τ = w)) as [->|Hw].
    + rewrite Hlink. by destruct (table_entry q Hqal Hqr) as (_ & _ & _ & ?).
    + rewrite old_word by done. by apply (tr_leaf _ _ Htr).
  - intros τ υ k j t Hτ Hυ [Ht|(-> & -> & Hτr & Hτp)]%link_reach [Hu|(Eu & -> & Hυr & Hυp)]%link_reach;
      try done.
    + by apply (tr_apart _ _ Htr τ υ k j t).
    + subst t. by destruct (Hq' τ k).
    + by destruct (Hq' υ j).
    + by rewrite Hτr, Hυr, Hτp, Hυp.
Qed.

Lemma link_tables av' :
  (∀ x, x ∈ av' → x ∈ av ∧ x ≠ q) → tables_ok slots m' av'.
Proof.
  intros Hav. apply trees_ok; [done|apply link_trees|].
  intros τ k t Hτ [Ht|(-> & _)]%link_reach Hin; [|by apply Hav in Hin as [_ ?]|done].
  apply Hav in Hin as [Hin _]. by apply (reach_allocated slots m Hal Htr av τ k t).
Qed.

(** Entries stay where they are; a new entry is empty. *)
Lemma link_pte τ :
  τ ∈ slots →
  if decide (pte_of m τ = 0) then pte_of m' τ = 0 ∨ entry m' τ = 0
  else pte_of m' τ = pte_of m τ ∧ entry m' τ = entry m τ.
Proof.
  intros Hτ. pose proof link_trees as Htr'.
  destruct (pte_of_cases slots m Hal Htr τ Hτ) as [(t & Ht & Ep & Hz)|[Hz Hno]]; case_decide; try done.
  - destruct (pte_of_reach slots m' Hal Htr' τ t Hτ) as [Ep' _]; [by apply link_reach_kept|].
    split; [congruence|]. unfold entry. rewrite Ep', Ep. apply old_word; [done..|].
    intros Hw. destruct (word_meet slots m Hal Htr τ σ 0 (S n) t p w) as [? _]; try done.
    { rewrite Hw. unfold in_range. lia. } { fold w. unfold in_range. lia. }
  - destruct (pte_of_cases slots m' Hal Htr' τ Hτ) as [(t & Ht & Ep & _)|[? _]]; [|by left].
    right. unfold entry. rewrite Ep. apply link_reach in Ht as [Ht|(-> & _)]; [by destruct (Hno t)| |done].
    apply new_word; [lia|done].
Qed.

Lemma link_bytes b : table_byte m' slots b → table_byte m slots b ∨ frame b ∈ av.
Proof.
  intros (τ & k & t & Hτ & Ht & Hb & ->)%(table_byte_reach slots m' Hal link_trees).
  apply link_reach in Ht as [Ht|(-> & _)]; [left|by right|done].
  by eapply (reach_table slots m Hal Htr).
Qed.

Lemma link_unused b :
  frame b ∉ av → (∀ b', frame b' = frame b → ¬ table_byte m slots b') → m' b = m b.
Proof.
  intros Hnav Hnt. apply Hfr. split; intros Hb.
  - apply Hnav. by rewrite (proj1 (in_page_frame q b Hqal)).
  - apply (Hnt b); [done|]. by eapply (reach_table slots m Hal Htr).
Qed.
End link_table.

(** ** The walk *)

(** What extending the tables leaves behind. *)
Record extended (slots : list slot) (s : kst cow) (a : alloc_spec) (s' : kst cow) (a' : alloc_spec)
    : Prop := {
  ex_keeps : keeps s s';
  ex_rep : rep s' a';
  ex_tables : tables_ok slots (kmem s') (avail a');
  ex_trees : sv39_trees slots (kmem s');
  ex_avail q : q ∈ avail a' → q ∈ avail a;
  ex_refs q : q ∉ avail a → refs a' q = refs a q;
  ex_bytes b : table_byte (kmem s') slots b → table_byte (kmem s) slots b ∨ frame b ∈ avail a;
  ex_entries τ : τ ∈ slots →
    if decide (pte_of (kmem s) τ = 0)
    then pte_of (kmem s') τ = 0 ∨ entry (kmem s') τ = 0
    else pte_of (kmem s') τ = pte_of (kmem s) τ ∧ entry (kmem s') τ = entry (kmem s) τ;
  ex_unused b : frame b ∉ avail a →
    (∀ b', frame b' = frame b → ¬ table_byte (kmem s) slots b') → kmem s' b = kmem s b;
}.

Lemma extended_refl slots s a :
  rep s a → tables_ok slots (kmem s) (avail a) → sv39_trees slots (kmem s) → extended slots s a s a.
Proof. intros. constructor; auto; [done|]. intros τ _. case_decide; auto. Qed.

Lemma extended_trans slots s a s1 a1 s2 a2 :
  extended slots s a s1 a1 → extended slots s1 a1 s2 a2 → extended slots s a s2 a2.
Proof.
  intros E1 E2. constructor.
  - eapply keeps_trans; [apply E1|apply E2].
  - apply E2.
  - apply E2.
  - apply E2.
  - intros q Hq. by apply E1, E2.
  - intros q Hq. rewrite (ex_refs _ _ _ _ _ E2); [by apply E1|]. intros Hq1. by apply Hq, E1.
  - intros b [Hb|Hb]%E2; [by apply E1|]. right. by apply E1.
  - intros τ Hτ. pose proof (ex_entries _ _ _ _ _ E1 τ Hτ) as Q1.
    pose proof (ex_entries _ _ _ _ _ E2 τ Hτ) as Q2.
    destruct (decide (pte_of (kmem s) τ = 0)) as [Hz|Hz], (decide (pte_of (kmem s1) τ = 0)) as [Hz1|Hz1];
      [done| |by destruct Q1; congruence|by destruct Q1, Q2; split; congruence].
    destruct Q1 as [?|Q1]; [done|]. destruct Q2 as [-> ->]. by right.
  - intros b Hb Ht. rewrite (ex_unused _ _ _ _ _ E2); [by apply E1| |].
    + intros Hb1. by apply Hb, E1.
    + intros b' Hf [Hb'|Hb']%E1; [by apply (Ht b')|]. apply Hb. by rewrite <-Hf.
Qed.

(** One missing table: [kalloc] gives a page, which is cleared and linked. *)
Lemma link_extended slots (s : kst cow) a σ n p q l :
  (∀ τ, τ ∈ slots → τ.2 mod 4096 = 0 ∧ 0 ≤ τ.2 < MAXVA) →
  rep s a → unlocked s → tables_ok slots (kmem s) (avail a) → sv39_trees slots (kmem s) →
  σ ∈ slots → reach (kmem s) σ (S n) p → has_flag (load64 (kmem s) (word (S n) p σ)) PTE_V = false →
  avail a = q :: l →
  ∃ s1, CowAlloc.kalloc s = Ok q s1 ∧
    let s2 := set_mem (link_table (kmem s1) (word (S n) p σ) q) s1 in
    extended slots s a s2 (CowAlloc.spec_kalloc a).2 ∧ reach (kmem s2) σ n q.
Proof.
  intros Hal Hrep Hul Hto Htr Hσ Hr HV Hav.
  destruct (rep_head _ _ _ _ Hrep Hav) as (_ & Hq & _).
  pose proof (managed_nonzero _ Hq) as Hqr. destruct (Hq) as (Hqal & _).
  assert (Hin : q ∈ avail a) by (rewrite Hav; by apply elem_of_cons; left).
  pose proof (rep_blocks _ _ Hrep) as Hbl. rewrite Hav in Hbl. apply blocks_cons in Hbl as [[Hnin _] _].
  destruct (CowAlloc.kalloc_refines_spec s a Hrep Hul) as (s1 & Hrun & Hrep1 & Hk1 & Hag & _).
  pose proof (reach_allocated slots (kmem s) Hal Htr (avail a) σ (S n) p Hto Hσ Hr) as Hpav.
  destruct (tr_page _ _ Htr σ (S n) p Hσ Hr) as [Hpal _].
  unfold CowAlloc.spec_kalloc in *. rewrite Hav in *. cbn [fst snd avail] in *.
  exists s1. split; [done|]. cbv zeta. set (w := word (S n) p σ) in *.
  set (m' := link_table (kmem s1) w q).
  assert (Hwq : ∀ b, in_range w 8 b → ¬ in_range q 4096 b).
  { intros b Hb. apply (pages_disjoint p q b Hpal Hqal); [by intros ->|].
    by apply (word_page slots (kmem s) Hal σ (S n)). }
  assert (Hfr : agree_on (λ b, ¬ in_range q 4096 b ∧ ¬ in_range w 8 b) (kmem s) m').
  { intros b [Hb1 Hb2]. unfold m', link_table. rewrite store64_ne, memset_ne by done.
    apply Hag. by left. }
  assert (Hlink : load64 m' w = Z.lor (PA2PTE q) PTE_V).
  { unfold m', link_table. rewrite load64_store64_eq. by apply table_entry. }
  assert (Hzero : ∀ x, 0 ≤ x → x + 8 ≤ 4096 → load64 m' (q + x) = 0).
  { intros x Hx Hx8. unfold m', link_table.
    rewrite (load64_ext (memset (kmem s1) q 0 4096)); [apply load64_memset_0; lia|].
    intros b Hb. apply store64_ne. intros Hb'. apply (Hwq b Hb'). unfold in_range in *. lia. }
  rewrite <-Hav in Hto, Hin. split; [|by apply (link_reach_new slots (kmem s) m' (avail a) σ n p q)].
  constructor; cbn [kmem set_mem avail refs].
  - by destruct s1.
  - apply rep_set_mem; [done|]. intros b Hb. cbn [avail] in Hb. unfold m', link_table.
    assert (Hbq : ¬ in_range q 4096 b).
    { rewrite in_page_frame by done. intros Hf. by rewrite Hf in Hb. }
    rewrite store64_ne, memset_ne; [done|done|]. intros Hbw.
    apply Hpav. rewrite <-(proj1 (in_page_frame p b Hpal)); [by apply elem_of_cons; right|].
    by apply (word_page slots (kmem s) Hal σ (S n)).
  - apply (link_tables slots (kmem s) m' (avail a) σ n p q); try done. intros x Hx.
    rewrite Hav. split; [by apply elem_of_cons; right|congruence].
  - by apply (link_trees slots (kmem s) m' (avail a) σ n p q).
  - intros x Hx. rewrite Hav. by apply elem_of_cons; right.
  - intros x Hx. rewrite Hav in Hx. apply not_elem_of_cons in Hx as [Hx _]. by apply upd_ne.
  - intros b. by apply (link_bytes slots (kmem s) m' (avail a) σ n p q).
  - intros τ. by apply (link_pte slots (kmem s) m' (avail a) σ n p q).
  - intros b. by apply (link_unused slots (kmem s) m' (avail a) σ n p q).
Qed.

Lemma walk_extends slots σ n :
  (∀ τ, τ ∈ slots → τ.2 mod 4096 = 0 ∧ 0 ≤ τ.2 < MAXVA) → σ ∈ slots →
  ∀ p (s : kst cow) a fuel, (n < fuel)%nat →
  rep s a → unlocked s → tables_ok slots (kmem s) (avail a) → sv39_trees slots (kmem s) →
  reach (kmem s) σ n p →
  ∃ r s' a', loop fuel (walk_body σ.2 1) (Z.of_nat n, p) s = Ok r s' ∧ extended slots s a s' a' ∧
    (r = 0 ∨ r = pte_of (kmem s') σ).
Proof.
  intros Hal Hσ. induction n as [|n IH]; intros p s a [|fuel] Hf Hrep Hul Hto Htr Hr; try lia.
  { exists (word 0 p σ), s, a. split; [done|]. split; [by apply extended_refl|]. right.
    by destruct (pte_of_reach slots (kmem s) Hal Htr σ p). }
  destruct (has_flag (load64 (kmem s) (word (S n) p σ)) PTE_V) eqn:HV.
  - rewrite walk_valid by done. pose proof (tr_leaf _ _ Htr σ n p Hσ Hr HV) as Hs.
    fold (word (S n) p σ). rewrite Hs. apply IH; try done; [lia|]. by constructor.
  - destruct (avail a) as [|q l] eqn:Hav.
    + exists 0, s, a. split; [by apply (walk_out_of_memory n σ.2 p s a)|].
      split; [|by left]. apply extended_refl; [done|by rewrite Hav|done].
    + rewrite <-Hav in Hto.
      destruct (link_extended slots s a σ n p q l) as (s1 & Hrun & Hex & Hr'); try done.
      destruct (@walk_takes _ _ _ _ cow_kalloc n σ.2 p s a q l fuel HV Hrep Hul Hav) as (s1' & Hrun' & Hloop).
      cbn in Hrun'. rewrite Hrun in Hrun'. injection Hrun' as <-.
      rewrite Hloop. fold (word (S n) p σ).
      destruct (IH q _ _ fuel ltac:(lia) (ex_rep _ _ _ _ _ Hex)) as (r & s' & a' & Hw & Hex' & Hres); try apply Hex; try done.
      { destruct (ex_keeps _ _ _ _ _ Hex) as [Hh _]. unfold unlocked. by rewrite Hh. }
      exists r, s', a'. split; [exact Hw|]. split; [by eapply extended_trans|done].
Qed.

Lemma radix_walk_alloc slots (s : kst cow) a σ :
  rep s a → unlocked s → (∀ τ, τ ∈ slots → τ.2 mod 4096 = 0 ∧ 0 ≤ τ.2 < MAXVA) →
  tables_ok slots (kmem s) (avail a) → sv39_trees slots (kmem s) → σ ∈ slots →
  ∃ pte s' a', CowVm.walk σ.1 σ.2 1 s = Ok pte s' ∧ extended slots s a s' a' ∧
    (pte = 0 ∨ pte = pte_of (kmem s') σ).
Proof.
  intros Hrep Hul Hal Hto Htr Hσ.
  destruct (walk_extends slots σ 2 Hal Hσ σ.1 s a 3 ltac:(lia) Hrep Hul Hto Htr (reach_root _ _))
    as (r & s' & a' & Hrun & Hex & Hres).
  exists r, s', a'. split; [|done]. pose proof (slot_va slots Hal σ Hσ).
  cbn. unfold walk. rewrite (proj2 (Z.leb_gt _ _)) by lia. exact Hrun.
Qed.

(** The trees are read off the bytes above the entries. *)
Lemma sv39_trees_local slots m m' :
  (∀ τ, τ ∈ slots → τ.2 mod 4096 = 0 ∧ 0 ≤ τ.2 < MAXVA) →
  agree_on (visited slots m) m m' → sv39_trees slots m → sv39_trees slots m'.
Proof.
  intros Hal Hag Htr.
  assert (Hload : ∀ τ k t, τ ∈ slots → reach m τ (S k) t →
    load64 m' (word (S k) t τ) = load64 m (word (S k) t τ)).
  { intros τ k t Hτ Ht. apply load64_ext. intros b Hb. apply Hag. exists τ. split; [done|].
    apply (visits_reach slots m Hal τ b Hτ). by exists k, t. }
  assert (Hr : ∀ τ k t, τ ∈ slots → reach m' τ k t → reach m τ k t).
  { intros τ k t Hτ. induction 1 as [|k t Ht IH HV Hs]; [constructor|].
    rewrite Hload in * by done. by constructor. }
  constructor.
  - intros τ k t Hτ Ht. by apply (tr_page _ _ Htr τ k), Hr.
  - intros τ k t Hτ Ht. rewrite Hload by auto. by apply (tr_leaf _ _ Htr), Hr.
  - intros τ υ k j t Hτ Hυ Ht Hu. apply (tr_apart _ _ Htr τ υ k j t); auto.
Qed.
End radix_fork.

(** ** The laws of fork *)

Section sv39_fork.
Context `{Riscv, MemLayout, RiscvLeaf} {P : Type}.

Local Abbreviation cow := (CowAlloc.cow (P := P)).

(** One page in and pages out, over the walk: enough of [mappages] and
    [uvmunmap] for the laws. *)
Definition map_page (pt va size pa perm : Z) : M (kst cow) Z :=
  pte ← walk pt va 1;
  if pte =? 0 then mret (-1)
  else v ← load pte;
       (if has_flag v PTE_V then panic "mappages: remap" else mret tt);;
       store pte (Z.lor (Z.lor (PA2PTE pa) perm) PTE_V);;
       mret 0.

Fixpoint unmap_pages (pt va : Z) (n : nat) : M (kst cow) unit :=
  match n with
  | O => mret tt
  | S n =>
      pte ← walk pt va 0;
      v ← load pte;
      CowAlloc.kfree (PTE2PA v);;
      store pte 0;;
      unmap_pages pt (va + PGSIZE) n
  end.

Definition sv39_table : PageTable cow :=
  radix_table map_page (λ pt va n _, unmap_pages pt va (Z.to_nat n)).

Definition sv39_laws : @ForkLaws _ _ P sv39_table.
Proof.
  refine {| trees slots m :=
    (∀ τ, τ ∈ slots → τ.2 mod 4096 = 0 ∧ 0 ≤ τ.2 < MAXVA) ∧ sv39_trees slots m |}.
  - done.
  - done.
  - intros pt va n s Hal Hva Hn Hm Hfl. cbn. rewrite Z.add_1_r, Z2Nat.inj_succ by done. cbn.
    pose proof (walk_lookup (PageTable := sv39_table) pt va s Hva) as Hw. cbn in Hw.
    rewrite (bind_Ok _ _ _ _ _ Hw). by kstep.
  - intros slots m m' Hag [Hal Htr]. split; [done|]. by eapply sv39_trees_local.
  - intros slots s a σ Hrep Hul Hal Hto [_ Htr] Hσ.
    destruct (radix_walk_alloc map_page (λ pt va n _, unmap_pages pt va (Z.to_nat n))
                slots s a σ Hrep Hul Hal Hto Htr Hσ) as (r & s' & a' & Hrun & Hex & Hres).
    exists r, s', a'. destruct Hex. do 6 (split; [done|]). done.
Defined.
End sv39_fork.
