(* ===== verification/CowWalkExample.v ===== *)
(** * A fork over three-level page tables

    The theorems of [CowFork] applied to a machine whose page tables are the
    three-level trees of [CowWalk]: a parent with a page of data and a page of
    text, a child that has only its root table, and three free pages, two of
    which the fork takes for the child's tables. *)

From S2P Require Import Prelude Memory Machine FreeList CowAlloc SuperAlloc CowVm CowFork Walk CowWalk.

#[local] Existing Instance sv39.
#[local] Existing Instance small_layout.

#[export] Instance leaf_flags : RiscvLeaf :=
  {| PTE_LEAF v := has_flag v PTE_R || has_flag v PTE_W || has_flag v PTE_X;
     PTE_LEAF_spec v := eq_refl |}.

Local Abbreviation cow := (CowAlloc.cow (P := unit)).

#[local] Instance tree_table : PageTable cow := sv39_table.
#[local] Instance tree_laws : ForkLaws (P := unit) := sv39_laws.

(** ** The tables on the way, computed *)

Fixpoint way_from (n : nat) (m : mem) (σ : slot) (p : Z) : list (nat * Z) :=
  (n, p) ::
  match n with
  | O => []
  | S n' =>
      let e := load64 m (word n p σ) in
      if has_flag e PTE_V && negb (stops e) then way_from n' m σ (PTE2PA e) else []
  end.
Definition way (m : mem) (σ : slot) : list (nat * Z) := way_from 2 m σ σ.1.

Lemma way_reach m σ n p : reach m σ n p → (n, p) ∈ way m σ.
Proof.
  intros Hr. assert (Hsub : ∀ x, x ∈ way_from n m σ p → x ∈ way m σ).
  { induction Hr as [|n p Hr IH HV Hs]; [done|]. intros x Hx. apply IH. cbn [way_from]. cbv zeta.
    rewrite HV, Hs. by apply elem_of_cons; right. }
  apply Hsub. by destruct n; apply elem_of_cons; left.
Qed.

Definition way_ok (m : mem) (av : list Z) (σ : slot) : bool :=
  forallb (λ x : nat * Z, let '(n, p) := x in
    (p mod 4096 =? 0) && (0 <? p) && (p <? 2 ^ 56) && forallb (λ q, negb (p =? q)) av &&
    ((n =? 0)%nat || negb (has_flag (load64 m (word n p σ)) PTE_V) ||
     negb (stops (load64 m (word n p σ))))) (way m σ).

Definition ways_apart (m : mem) (σ τ : slot) : bool :=
  forallb (λ x : nat * Z, forallb (λ y : nat * Z,
    negb (x.2 =? y.2) ||
    ((x.1 =? y.1)%nat && (σ.1 =? τ.1) && (prefix x.1 σ.2 =? prefix x.1 τ.2))) (way m τ)) (way m σ).

(** What has to be checked of a mapped slot. *)
Definition leaf_ok (slots : list slot) (m : mem) (cnt : Z → Z) (σ : slot) : bool :=
  negb (mapped m σ) ||
  (let q := page_of m σ in
   (0 <=? entry m σ) && (entry m σ <? 2 ^ 54) &&
   (q mod 4096 =? 0) && (4096 <=? q) && (q + 4096 <=? 33 * 4096) &&
   forallb (λ τ, forallb (λ x : nat * Z, negb (q =? x.2)) (way m τ)) slots &&
   (cnt (q / 4096) =? mapcount m slots q) && (cnt (q / 4096) <? 2)).

Definition tree_ok (slots : list slot) (m : mem) (av : list Z) (cnt : Z → Z) : bool :=
  forallb (λ σ : slot, (σ.2 mod 4096 =? 0) && (0 <=? σ.2) && (σ.2 <? 2 ^ 38) &&
    way_ok m av σ && forallb (ways_apart m σ) slots && leaf_ok slots m cnt σ) slots.

Section tree_inv.
Context (slots : list slot) (s : kst cow) (av : list Z) (cnt : Z → Z).
Context (Hok : tree_ok slots (kmem s) av cnt = true).

Lemma tree_slot σ : σ ∈ slots →
  (σ.2 mod 4096 = 0 ∧ 0 ≤ σ.2 < MAXVA) ∧ way_ok (kmem s) av σ = true ∧
  (∀ τ, τ ∈ slots → ways_apart (kmem s) σ τ = true) ∧ leaf_ok slots (kmem s) cnt σ = true.
Proof.
  intros Hσ. unfold tree_ok in Hok. rewrite forallb_forall in Hok.
  apply list_elem_of_In, Hok in Hσ. rewrite !andb_true_iff, forallb_forall in Hσ.
  destruct Hσ as (((((Hb1 & Hb2) & Hb3) & Hw) & Hap) & Hl). bool_to_Prop.
  do 2 (split; [done|]). split; [|done]. intros τ Hτ. by apply Hap, list_elem_of_In.
Qed.

Lemma tree_aligned σ : σ ∈ slots → σ.2 mod 4096 = 0 ∧ 0 ≤ σ.2 < MAXVA.
Proof. intros Hσ. by apply tree_slot. Qed.

Lemma tree_table_ok σ n p : σ ∈ slots → reach (kmem s) σ n p →
  p mod 4096 = 0 ∧ 0 < p < 2 ^ 56 ∧ p ∉ av ∧
  (n ≠ 0%nat → has_flag (load64 (kmem s) (word n p σ)) PTE_V = true →
   stops (load64 (kmem s) (word n p σ)) = false).
Proof.
  intros Hσ Hr%way_reach. destruct (tree_slot σ Hσ) as (_ & Hw & _).
  unfold way_ok in Hw. rewrite forallb_forall in Hw. apply list_elem_of_In, Hw in Hr. cbn beta iota in Hr.
  rewrite !andb_true_iff, forallb_forall, !orb_true_iff in Hr.
  destruct Hr as ((((Hp1 & Hp2) & Hp3) & Hav) & Hs). bool_to_Prop.
  do 2 (split; [done|]). split.
  - intros Hin%list_elem_of_In%Hav. by bool_to_Prop.
  - intros Hn HV. destruct Hs as [[Hs|Hs]|Hs].
    + by apply Nat.eqb_eq in Hs.
    + by rewrite HV in Hs.
    + by apply negb_true_iff.
Qed.

Lemma tree_trees : sv39_trees slots (kmem s).
Proof.
  constructor.
  - intros σ n p Hσ Hr. by destruct (tree_table_ok σ n p Hσ Hr) as (? & ? & _).
  - intros σ n p Hσ Hr. by apply (tree_table_ok σ (S n) p Hσ Hr).
  - intros σ τ n k p Hσ Hτ Hp%way_reach Hq%way_reach.
    destruct (tree_slot σ Hσ) as (_ & _ & Hap & _). specialize (Hap τ Hτ).
    unfold ways_apart in Hap. rewrite forallb_forall in Hap. apply list_elem_of_In, Hap in Hp.
    rewrite forallb_forall in Hp. apply list_elem_of_In, Hp in Hq. cbn [fst snd] in Hq.
    rewrite Z.eqb_refl in Hq. cbn in Hq. rewrite !andb_true_iff, Nat.eqb_eq, !Z.eqb_eq in Hq. tauto.
Qed.

Lemma tree_leaf σ : σ ∈ slots → mapped (kmem s) σ = true →
  let q := page_of (kmem s) σ in
  0 ≤ entry (kmem s) σ < 2 ^ 54 ∧ managed q ∧
  (∀ τ n p, τ ∈ slots → reach (kmem s) τ n p → q ≠ p) ∧
  cnt (q / 4096) = mapcount (kmem s) slots q ∧ cnt (q / 4096) < 2.
Proof.
  intros Hσ Hm. destruct (tree_slot σ Hσ) as (_ & _ & _ & Hl). unfold leaf_ok in Hl. rewrite Hm in Hl.
  cbn [negb orb] in Hl. cbv zeta in Hl. rewrite !andb_true_iff, forallb_forall in Hl.
  destruct Hl as (((((((He1 & He2) & Hq1) & Hq2) & Hq3) & Ht) & Hc) & H2). bool_to_Prop.
  cbv zeta. split; [done|]. split; [exact (conj Hq1 (conj Hq2 Hq3))|]. split; [|done].
  intros τ n p Hτ Hr%way_reach. apply list_elem_of_In, Ht in Hτ. rewrite forallb_forall in Hτ.
  apply list_elem_of_In, Hτ in Hr. cbn in Hr. by bool_to_Prop.
Qed.

Lemma tree_cow_inv a :
  rep s a → avail a = av → (∀ p, refs a p = cnt (p / 4096)) → NoDup slots → cow_inv slots s a.
Proof.
  intros Hrep Hav Hrefs Hnd. apply cow_inv_split. do 2 (split; [done|]).
  split; [exact tree_aligned|]. split.
  - apply trees_ok; [exact tree_aligned|exact tree_trees|]. rewrite Hav.
    intros σ n p Hσ Hr. by apply (tree_table_ok σ n p).
  - intros σ Hσ Hm. destruct (tree_leaf σ Hσ Hm) as (He & Hp & Ht & Hc & H2).
    constructor; try done.
    + intros b (τ & n & p & Hτ & Hr & _ & ->)%(table_byte_reach map_page (λ pt va n _, unmap_pages pt va (Z.to_nat n)) slots (kmem s) tree_aligned tree_trees).
      by apply (Ht τ n).
    + by rewrite Hrefs.
    + intros H2'. rewrite Hrefs in H2'. lia.
Qed.
End tree_inv.

(** ** The machine *)

(** Page [i] starts at [4096 * i].  The parent's tables are the pages 10, 11
    and 12; it maps the page 13 readable and writable and the page 14, its
    text, readable and executable.  The child's root is the page 15; the pages
    16, 17 and 18 are free. *)
Definition tree_mem : mem :=
  foldr (λ e m, store64 m e.1 e.2) (λ _, 0)
    [(40960, 11265); (45056, 12289); (49152, 13335); (49160, 14363); (65536, 69632); (69632, 73728)].
Definition tree_cnt (i : Z) : Z := if (i =? 16) || (i =? 17) || (i =? 18) then 0 else 1.
Definition tree_state : kst cow := KSt tree_mem ∅ [] (CowAlloc.Cow 65536 tree_cnt tt).
Definition tree_spec : alloc_spec := AllocSpec [65536; 69632; 73728] (λ p, tree_cnt (p / 4096)).
Definition tree_slots : list slot := [(40960, 0); (40960, 4096); (61440, 0); (61440, 4096)].

Lemma tree_rep : rep tree_state tree_spec.
Proof.
  constructor; cbn -[managed load64 tree_mem].
  - split; [done|]. split; [done|]. split; [by vm_compute|]. split; [done|].
    split; [by vm_compute|]. split; [done|]. by vm_compute.
  - split; [by apply (bool_decide_unpack _); vm_compute|].
    repeat (constructor; [by vm_compute|]). constructor.
  - done.
  - intros p _. unfold tree_cnt. destruct (_ || _ || _); lia.
  - intros p (Hal & _). rewrite !elem_of_cons, elem_of_nil. unfold tree_cnt.
    destruct (_ || _ || _) eqn:E.
    + rewrite !orb_true_iff, !Z.eqb_eq in E. split; [done|]. intros _. dlia.
    + rewrite !orb_false_iff, !Z.eqb_neq in E. dlia.
Qed.

Lemma tree_inv : cow_inv tree_slots tree_state tree_spec.
Proof.
  apply (tree_cow_inv tree_slots tree_state [65536; 69632; 73728] tree_cnt); [by vm_compute|apply tree_rep|done|done|].
  by apply (bool_decide_unpack _); vm_compute.
Qed.

Lemma tree_unlocked : unlocked tree_state.
Proof. split; apply not_elem_of_empty. Qed.

Lemma tree_ready : trees tree_slots (kmem tree_state).
Proof.
  assert (Hok : tree_ok tree_slots (kmem tree_state) [65536; 69632; 73728] tree_cnt = true) by (by vm_compute).
  split; [by eapply tree_aligned|by eapply tree_trees].
Qed.

Lemma tree_forkable : forkable tree_slots 40960 61440 2 (kmem tree_state).
Proof.
  constructor; intros j Hj; assert (j = 0 ∨ j = 1) as [-> | ->] by lia;
    try (split; apply (bool_decide_unpack _); vm_compute); by vm_compute.
Qed.

(** The fork succeeds and leaves one page on the free list. *)
Lemma tree_fork z s' :
  uvmcopy 40960 61440 8000 tree_state = Ok z s' →
  z = 0 ∧ CowAlloc.freelist (ext s') = 73728.
Proof.
  intros Hrun.
  assert (Hc : match uvmcopy 40960 61440 8000 tree_state with
               | Ok z s => (z, CowAlloc.freelist (ext s)) | _ => (1, 0) end = (0, 73728)) by (by vm_compute).
  rewrite Hrun in Hc. exact (conj (f_equal fst Hc) (f_equal snd Hc)).
Qed.

Lemma uvmcopy_shares_witness :
  ∃ s' a', uvmcopy 40960 61440 8000 tree_state = Ok 0 s' ∧ cow_inv tree_slots s' a' ∧
    CowAlloc.freelist (ext s') = 73728 ∧
    entry (P := unit) (kmem s') (61440, 4096) = entry (P := unit) (kmem s') (40960, 4096).
Proof.
  destruct (uvmcopy_shares tree_slots tree_state tree_spec 40960 61440 8000 tree_inv tree_unlocked
              tree_ready ltac:(by vm_compute) ltac:(by vm_compute) tree_forkable)
    as (z & s' & a' & Hrun & Hinv & _ & _ & _ & Hcase).
  destruct (tree_fork z s' Hrun) as [-> Hfree]. exists s', a'. split; [exact Hrun|]. split; [exact Hinv|]. split; [exact Hfree|].
  destruct Hcase as [(_ & Hpages & _)|[? _]]; [|discriminate].
  assert (H1 : 0 ≤ 1 < 2) by lia. exact (proj1 (proj2 (Hpages 1 H1))).
Defined.

Lemma fork_makes_text_writable_witness :
  has_flag (entry (P := unit) (kmem tree_state) (40960, 4096)) PTE_W = false ∧
  ∃ s1 s2, uvmcopy 40960 61440 8000 tree_state = Ok 0 s1 ∧ cowhandle 61440 4096 s1 = Ok 0 s2 ∧
    has_flag (entry (P := unit) (kmem s2) (61440, 4096)) PTE_W = true.
Proof.
  split; [by vm_compute|].
  destruct (fork_makes_text_writable tree_slots tree_state tree_spec 40960 61440 8000 1 tree_inv
              tree_unlocked tree_ready ltac:(by vm_compute) ltac:(by vm_compute) tree_forkable
              ltac:(by vm_compute) ltac:(by vm_compute)) as (z & s1 & a1 & Hrun & Hinv & Hwrite).
  destruct (tree_fork z s1 Hrun) as [-> Hfree].
  destruct Hwrite as (s2 & Hcow & HW); [reflexivity| |].
  - intros Hav. pose proof (rep_chain _ _ (ci_rep _ _ _ Hinv)) as Hch.
    rewrite Hav, Hfree in Hch. discriminate Hch.
  - exists s1, s2. exact (conj Hrun (conj Hcow HW)).
Defined.
