(* ===== verification/SuperVm.v ===== *)
(** * Virtual memory with superpages (lab3 "use superpages", kernel/vm.c)

    Mapping, unmapping, growing and copying user memory made of 4096-byte
    pages and 2-megabyte superpages.  [mappages] and [uvmdealloc] are the stock
    kernel's; the page-table printer of this file of the lab is in Printer. *)

From S2P Require Import Prelude Memory Machine FreeList CowVm SuperAlloc Walk.

(** The stock functions of vm.c. *)
Class StockVm (X : Type) := {
  mappages : Z → Z → Z → Z → Z → M (kst X) Z;
  uvmdealloc : Z → Z → Z → M (kst X) Z;
}.

Section super_vm.
Context `{Riscv, MemLayout, RiscvLeaf} {P : Type} `{!StockVm (sup (P := P))}.

Local Abbreviation sup := (sup (P := P)).

(** ** Operations *)

Definition superwalk (pagetable va alloc : Z) : M (kst sup) Z :=
  if MAXVA <=? va then panic "walk"
  else
    let pte := pagetable + 8 * PX 2 va in
    e ← load pte;
    if has_flag e PTE_V then
      e ← load pte;
      mret (PTE2PA e + 8 * PX 1 va)
    else
      p ← (if alloc =? 0 then mret 0 else superkalloc);
      if p =? 0 then printf "superwalk: superkalloc fail\n" [];; mret 0
      else
        memsetM p 0 SUPERPGSIZE;;
        store pte (Z.lor (Z.lor (PA2PTE p) PTE_V) PTE_S);;
        mret (p + 8 * PX 1 va).

(** One round of the mapping loop, over [a] and [pa]. *)
Definition supermappages_body (pagetable last perm : Z) (v : Z * Z) : M (kst sup) (Z * Z + Z) :=
  let '(a, pa) := v in
  pte ← superwalk pagetable a 1;
  if pte =? 0 then mret (inr (-1))
  else
    e ← load pte;
    (if has_flag e PTE_V then panic "mappages: remap" else mret tt);;
    store pte (Z.lor (Z.lor (Z.lor (PA2PTE pa) perm) PTE_V) PTE_S);;
    if a =? last then mret (inr 0)
    else mret (inl (a + SUPERPGSIZE, pa + SUPERPGSIZE)).

Definition supermappages (pagetable va size pa perm : Z) : M (kst sup) Z :=
  (if negb (va mod SUPERPGSIZE =? 0) then panic "super mappages: va not aligned" else mret tt);;
  (if negb (size mod SUPERPGSIZE =? 0) then panic "super mappages: size not aligned" else mret tt);;
  (if size =? 0 then panic "super mappages: size" else mret tt);;
  let last := u64 (va + size - SUPERPGSIZE) in
  loop (Z.to_nat (size / SUPERPGSIZE)) (supermappages_body pagetable last perm) (va, pa).

Definition uvmunmap_body (pagetable limit do_free a : Z) : M (kst sup) (Z + unit) :=
  if negb (a <? limit) then mret (inr tt)
  else
    pte ← walk pagetable a 0;
    (if pte =? 0 then panic "uvmunmap: walk" else mret tt);;
    e ← load pte;
    (if negb (has_flag e PTE_V)
     then printf "va=%ld pte=%p\n" [PInt a; PInt pte];; panic "uvmunmap: not mapped"
     else mret tt);;
    e ← load pte;
    (if PTE_FLAGS e =? PTE_V then panic "uvmunmap: not a leaf" else mret tt);;
    (if negb (do_free =? 0) then
       e ← load pte;
       let pa := PTE2PA e in
       e ← load pte;
       if has_flag e PTE_S then superkfree pa else kfree pa
     else mret tt);;
    e ← load pte;
    let sz := if has_flag e PTE_S then SUPERPGSIZE else PGSIZE in
    store pte 0;;
    mret (inl (a + sz)).

Definition uvmunmap (pagetable va npages do_free : Z) : M (kst sup) unit :=
  (if negb (va mod PGSIZE =? 0) then panic "uvmunmap: not aligned" else mret tt);;
  let limit := u64 (va + npages * PGSIZE) in
  loop (S (Z.to_nat npages)) (uvmunmap_body pagetable limit do_free) va.

(** The size and kind of the next block of a growing region. *)
Definition super_step (a newsz : Z) : bool :=
  (a mod SUPERPGSIZE =? 0) && (SUPERPGSIZE <=? u64 (newsz - a)).

Definition uvmalloc_body (pagetable oldsz newsz xperm a : Z) : M (kst sup) (Z + Z) :=
  if negb (a <? newsz) then mret (inr newsz)
  else
    let super := super_step a newsz in
    let sz := if super then SUPERPGSIZE else PGSIZE in
    mem ← (if super then superkalloc else kalloc);
    if mem =? 0 then
      uvmdealloc pagetable a oldsz;;
      mret (inr 0)
    else
      memsetM mem 0 sz;;
      if sz =? SUPERPGSIZE then
        r ← supermappages pagetable a sz mem (Z.lor (Z.lor PTE_R PTE_U) xperm);
        if negb (r =? 0) then
          superkfree mem;;
          uvmdealloc pagetable a oldsz;;
          mret (inr 0)
        else mret (inl (a + sz))
      else
        r ← mappages pagetable a sz mem (Z.lor (Z.lor PTE_R PTE_U) xperm);
        if negb (r =? 0) then
          kfree mem;;
          uvmdealloc pagetable a oldsz;;
          mret (inr 0)
        else mret (inl (a + sz)).

(** Every round of the growing loops advances by a page at least. *)
Definition grow_fuel (oldsz newsz : Z) : nat := S (Z.to_nat ((newsz - oldsz + 4095) / 4096)).

Definition uvmalloc (pagetable oldsz newsz xperm : Z) : M (kst sup) Z :=
  if newsz <? oldsz then mret oldsz
  else
    let oldsz := PGROUNDUP oldsz in
    loop (grow_fuel oldsz newsz) (uvmalloc_body pagetable oldsz newsz xperm) oldsz.

(** struct sbrkhelp of proc.h; all its fields are [int]. *)
Record sbrkhelp := SbrkHelp {
  h_sz : Z; h_state : Z; h_startpages : Z; h_superpages : Z; h_endpages : Z;
}.

Definition set_hsz (v : Z) (h : sbrkhelp) : sbrkhelp :=
  SbrkHelp (s32 v) (h_state h) (h_startpages h) (h_superpages h) (h_endpages h).
Definition set_hstate (v : Z) (h : sbrkhelp) : sbrkhelp :=
  SbrkHelp (h_sz h) v (h_startpages h) (h_superpages h) (h_endpages h).

(** Counting the block about to be allocated. *)
Definition count_block (super : bool) (h : sbrkhelp) : sbrkhelp :=
  let '(SbrkHelp sz st start sups ends) := h in
  if super then SbrkHelp sz st start (s32 (sups + 1)) ends
  else if sups =? 0 then SbrkHelp sz st (s32 (start + 1)) sups ends
  else SbrkHelp sz st start sups (s32 (ends + 1)).

Definition sbrk_body (pagetable oldsz newsz xperm : Z) (v : Z * sbrkhelp) :
    M (kst sup) (Z * sbrkhelp + sbrkhelp) :=
  let '(a, help) := v in
  if negb (a <? newsz) then mret (inr (set_hstate 1 (set_hsz newsz help)))
  else
    let super := super_step a newsz in
    let sz := if super then SUPERPGSIZE else PGSIZE in
    mem ← (if super then superkalloc else kalloc);
    let help := count_block super help in
    if mem =? 0 then
      uvmdealloc pagetable a oldsz;;
      mret (inr (set_hstate 0 help))
    else
      memsetM mem 0 sz;;
      if sz =? SUPERPGSIZE then
        r ← supermappages pagetable a sz mem (Z.lor (Z.lor PTE_R PTE_U) xperm);
        if negb (r =? 0) then
          superkfree mem;;
          uvmdealloc pagetable a oldsz;;
          mret (inr (set_hstate 0 help))
        else mret (inl (a + sz, help))
      else
        r ← mappages pagetable a sz mem (Z.lor (Z.lor PTE_R PTE_U) xperm);
        if negb (r =? 0) then
          kfree mem;;
          uvmdealloc pagetable a oldsz;;
          mret (inr (set_hstate 0 help))
        else mret (inl (a + sz, help)).

Definition sbrksuperuvmalloc (pagetable oldsz newsz xperm : Z) : M (kst sup) sbrkhelp :=
  let help := SbrkHelp 0 0 0 0 0 in
  if newsz <? oldsz then mret (set_hsz oldsz help)
  else
    let oldsz := PGROUNDUP oldsz in
    loop (grow_fuel oldsz newsz) (sbrk_body pagetable oldsz newsz xperm) (oldsz, help).

Definition uvmcopy_body (old new sz i : Z) : M (kst sup) (Z + Z) :=
  if negb (i <? sz) then mret (inr 0)
  else
    let fail szinc := uvmunmap new 0 (u64 (i + szinc - 1) / PGSIZE) 1;; mret (inr (-1)) in
    pte ← walk old i 0;
    (if pte =? 0 then panic "uvmcopy: pte should exist" else mret tt);;
    e ← load pte;
    (if negb (has_flag e PTE_V) then panic "uvmcopy: page not present" else mret tt);;
    e ← load pte;
    let pa := PTE2PA e in
    e ← load pte;
    let flags := u32 (PTE_FLAGS e) in
    e ← load pte;
    if has_flag e PTE_S then
      mem ← superkalloc;
      if mem =? 0 then printf "fork super page mem\n" [];; fail SUPERPGSIZE
      else
        memmoveM mem pa SUPERPGSIZE;;
        r ← supermappages new i SUPERPGSIZE mem flags;
        if negb (r =? 0) then
          printf "fork super page superkfree\n" [];;
          superkfree mem;;
          fail SUPERPGSIZE
        else mret (inl (i + SUPERPGSIZE))
    else
      mem ← kalloc;
      if mem =? 0 then fail PGSIZE
      else
        memmoveM mem pa PGSIZE;;
        r ← mappages new i PGSIZE mem flags;
        if negb (r =? 0) then kfree mem;; fail PGSIZE
        else mret (inl (i + PGSIZE)).

Definition uvmcopy (old new sz : Z) : M (kst sup) Z :=
  loop (S (Z.to_nat ((sz + 4095) / 4096))) (uvmcopy_body old new sz) 0.

(** ** Growing: two versions of one loop *)

(** What [sbrk_body] adds to a round of [uvmalloc_body]. *)
Definition sbrk_note (newsz a : Z) (help : sbrkhelp) (r : Z + Z) : Z * sbrkhelp + sbrkhelp :=
  match r with
  | inl a' => inl (a', count_block (super_step a newsz) help)
  | inr _ => inr (if a <? newsz then set_hstate 0 (count_block (super_step a newsz) help)
                  else set_hstate 1 (set_hsz newsz help))
  end.

Lemma sbrk_round pagetable oldsz newsz xperm a help s :
  sbrk_body pagetable oldsz newsz xperm (a, help) s =
  (r ← uvmalloc_body pagetable oldsz newsz xperm a; mret (sbrk_note newsz a help r)) s.
Proof.
  unfold sbrk_body, uvmalloc_body, sbrk_note. destruct (a <? newsz) eqn:E; cbn [negb]; [|done].
  cbv zeta. rewrite bind_assoc. apply bind_ext. intros mem s1.
  destruct (mem =? 0); [rewrite bind_assoc; by apply bind_ext|].
  rewrite bind_assoc. apply bind_ext. intros [] s2.
  destruct (_ =? SUPERPGSIZE); rewrite bind_assoc; apply bind_ext; intros r s3.
  all: destruct (negb (r =? 0)); [|done].
  all: rewrite bind_assoc; apply bind_ext; intros [] s4; rewrite bind_assoc; by apply bind_ext.
Qed.

(** A round that goes on advances by one block; one that fails returns 0. *)
Lemma grow_round_next pagetable oldsz newsz xperm a s :
  match uvmalloc_body pagetable oldsz newsz xperm a s with
  | Ok (inl a') _ => a < newsz ∧ a' = a + (if super_step a newsz then SUPERPGSIZE else PGSIZE)
  | Ok (inr z) _ => z = if a <? newsz then 0 else newsz
  | _ => True
  end.
Proof.
  unfold uvmalloc_body. destruct (a <? newsz) eqn:E; cbn [negb]; [|done]. bool_to_Prop. cbv zeta.
  set (sz := if super_step a newsz then SUPERPGSIZE else PGSIZE).
  unfold mbind, M_bind. destruct ((if super_step a newsz then superkalloc else kalloc) s) as [mem s1| | | |]; try done.
  destruct (mem =? 0); [by destruct (uvmdealloc _ _ _ s1)|].
  destruct (memsetM mem 0 sz s1) as [[] s2| | | |]; try done.
  destruct (sz =? SUPERPGSIZE).
  - destruct (supermappages _ _ _ _ _ s2) as [r s3| | | |]; try done.
    destruct (negb (r =? 0)); [|done]. destruct (superkfree mem s3) as [[] s4| | | |]; try done.
    by destruct (uvmdealloc _ _ _ s4).
  - destruct (mappages _ _ _ _ _ s2) as [r s3| | | |]; try done.
    destruct (negb (r =? 0)); [|done]. destruct (kfree mem s3) as [[] s4| | | |]; try done.
    by destruct (uvmdealloc _ _ _ s4).
Qed.

(** What a finished count says of the region grown from [a0] to [newsz]. *)
Definition counted (a0 a : Z) (h : sbrkhelp) : Prop :=
  4096 * (h_startpages h + 512 * h_superpages h + h_endpages h) = a - a0 ∧
  0 ≤ h_startpages h ∧ 0 ≤ h_superpages h ∧ 0 ≤ h_endpages h ∧
  (h_superpages h = 0 → h_endpages h = 0).

Lemma count_step a0 a newsz h :
  0 ≤ a0 → counted a0 a h → a < newsz → newsz < 2 ^ 42 →
  counted a0 (a + (if super_step a newsz then SUPERPGSIZE else PGSIZE))
    (count_block (super_step a newsz) h).
Proof.
  destruct h as [sz st start sups ends]. unfold counted. cbn. intros H0' (Hs & ? & ? & ? & He) Ha Hn.
  pose proof SUPERPGSIZE_eq as HS. unfold PGSIZE. destruct (super_step a newsz); cbn.
  - rewrite s32_small by lia. rewrite HS. lia.
  - destruct (sups =? 0) eqn:E; bool_to_Prop; cbn; rewrite s32_small by lia; lia.
Qed.

Definition same_run (newsz a0 : Z) (o1 : outcome (kst sup) Z) (o2 : outcome (kst sup) sbrkhelp) : Prop :=
  match o1, o2 with
  | Ok r s1, Ok h s2 =>
      s2 = s1 ∧
      (h_state h = 1 ∧ r = newsz ∧ h_sz h = s32 newsz ∧ (∃ a, newsz ≤ a < newsz + 4096 ∧
         (a0 ≤ newsz ∨ a = a0) ∧ a mod 4096 = 0 ∧ counted a0 a h) ∨
       h_state h = 0 ∧ r = 0)
  | Panic m s1, Panic m' s2 => m' = m ∧ s2 = s1
  | Exited z s1, Exited z' s2 => z' = z ∧ s2 = s1
  | Undef w, Undef w' => w' = w
  | NoFuel, NoFuel => True
  | _, _ => False
  end.

Lemma super_step_room a newsz :
  0 ≤ a < newsz → newsz < 2 ^ 42 → super_step a newsz = true → a + SUPERPGSIZE ≤ newsz.
Proof. unfold super_step. intros Ha Hn. rewrite u64_small by lia. lia. Qed.

Lemma grow_loops pagetable oldsz newsz xperm a0 fuel : ∀ a h s,
  0 ≤ a0 → a0 mod 4096 = 0 → a0 < newsz + 4096 → newsz < 2 ^ 42 → a0 ≤ a → a mod 4096 = 0 →
  a < newsz + 4096 → (a0 ≤ newsz ∨ a = a0) → counted a0 a h →
  same_run newsz a0 (loop fuel (uvmalloc_body pagetable oldsz newsz xperm) a s)
                 (loop fuel (sbrk_body pagetable oldsz newsz xperm) (a, h) s).
Proof.
  induction fuel as [|fuel IH]; intros a h s Hz H0al H0n Hn Ha Hal Han Hor Hc; [done|].
  rewrite !loop_S. unfold mbind at 1 2, M_bind at 1 2.
  pose proof (sbrk_round pagetable oldsz newsz xperm a h s) as Hr.
  pose proof (grow_round_next pagetable oldsz newsz xperm a s) as Hg.
  unfold mbind, M_bind, mret, M_ret in Hr. rewrite Hr.
  destruct (uvmalloc_body pagetable oldsz newsz xperm a s) as [[a'|z] s'| | | |]; cbn; try done.
  - destruct Hg as [Hlt ->]. pose proof SUPERPGSIZE_eq as HS.
    assert (Hstep : (a + (if super_step a newsz then SUPERPGSIZE else PGSIZE)) mod 4096 = 0 ∧
                    a + (if super_step a newsz then SUPERPGSIZE else PGSIZE) < newsz + 4096).
    { destruct (super_step a newsz) eqn:E.
      - pose proof (super_step_room a newsz ltac:(lia) Hn E). rewrite HS in *. dlia.
      - unfold PGSIZE. dlia. }
    apply IH; try done; try lia.
    + destruct (super_step a newsz); unfold PGSIZE; lia.
    + by apply count_step.
  - split; [done|]. destruct (a <? newsz) eqn:E; bool_to_Prop; subst z.
    + right. by destruct h.
    + left. destruct h. cbn. do 3 (split; [done|]). exists a. split; [lia|done].
Qed.

(** C11: [sbrksuperuvmalloc] is [uvmalloc] with a count.  When memory does not
    shrink, the two leave the same state, panic alike and succeed alike:
    [state] is 1 exactly when [uvmalloc] returns the new size, which is also
    in [sz], and then the counts of leading pages, superpages and trailing
    pages add up to the page-rounded growth, trailing pages being counted
    only after a superpage.  When it shrinks, [uvmalloc] returns the old size
    while [state] is 0, the caller's failure. *)
Theorem sbrk_counts_uvmalloc pagetable oldsz newsz xperm s :
  0 ≤ oldsz < 2 ^ 42 → newsz < 2 ^ 42 →
  let o1 := uvmalloc pagetable oldsz newsz xperm s in
  let o2 := sbrksuperuvmalloc pagetable oldsz newsz xperm s in
  (newsz < oldsz → o1 = Ok oldsz s ∧ o2 = Ok (SbrkHelp (s32 oldsz) 0 0 0 0) s) ∧
  (oldsz ≤ newsz →
   match o1, o2 with
   | Ok r s1, Ok h s2 =>
       s2 = s1 ∧
       (h_state h = 1 ∧ r = newsz ∧ h_sz h = s32 newsz ∧
        4096 * (h_startpages h + 512 * h_superpages h + h_endpages h) =
          PGROUNDUP newsz - PGROUNDUP oldsz ∧
        0 ≤ h_startpages h ∧ 0 ≤ h_superpages h ∧ 0 ≤ h_endpages h ∧
        (h_superpages h = 0 → h_endpages h = 0) ∨
        h_state h = 0 ∧ r = 0)
   | Panic m s1, Panic m' s2 => m' = m ∧ s2 = s1
   | Exited z s1, Exited z' s2 => z' = z ∧ s2 = s1
   | Undef w, Undef w' => w' = w
   | NoFuel, NoFuel => True
   | _, _ => False
   end).
Proof.
  intros Ho Hn. cbv zeta. unfold uvmalloc, sbrksuperuvmalloc. split; intros Hle.
  - by rewrite (proj2 (Z.ltb_lt _ _)).
  - rewrite (proj2 (Z.ltb_ge _ _)) by done. rewrite !PGROUNDUP_spec by lia.
    set (a0 := (oldsz + 4095) / 4096 * 4096).
    assert (Ha0 : 0 ≤ a0 ∧ a0 mod 4096 = 0 ∧ a0 < newsz + 4096) by (unfold a0; dlia).
    destruct Ha0 as (Ha1 & Ha2 & Ha3).
    pose proof (grow_loops pagetable a0 newsz xperm a0 (grow_fuel a0 newsz) a0 (SbrkHelp 0 0 0 0 0) s
      Ha1 Ha2 Ha3 Hn ltac:(lia) Ha2 Ha3 (or_intror eq_refl)) as Hrun.
    unfold same_run in Hrun.
    destruct (loop _ (uvmalloc_body _ _ _ _) _ _), (loop _ (sbrk_body _ _ _ _) _ _); try apply Hrun; try (unfold counted; cbn; lia).
    destruct Hrun as [-> [(Hst & Hr & Hsz & b & Hb & _ & Hal & Hc & Hrest)|Hf]]; [unfold counted; cbn; lia| |].
    + split; [done|left]. do 3 (split; [done|]). split; [|done]. rewrite Hc.
      assert (b = (newsz + 4095) / 4096 * 4096) by dlia. lia.
    + split; [done|by right].
Qed.

(** ** Mapping a superpage *)

Definition super_flags (perm : Z) : Z := Z.lor (Z.lor perm PTE_V) PTE_S.

Lemma super_flags_range perm : 0 ≤ perm < 2 ^ 10 → 0 ≤ super_flags perm < 2 ^ 10.
Proof.
  intros Hp. apply bits_small; [lia|]. intros i Hi. unfold super_flags.
  rewrite !Z.lor_spec, (testbit_above perm 10), (testbit_above PTE_V 10), (testbit_above PTE_S 10);
    try done; lia.
Qed.

Lemma super_entry pa perm :
  pa mod 4096 = 0 → 0 ≤ pa < 2 ^ 56 → 0 ≤ perm < 2 ^ 10 →
  let e := Z.lor (Z.lor (Z.lor (PA2PTE pa) perm) PTE_V) PTE_S in
  u64 e = e ∧ PTE2PA e = pa ∧
  (∀ i, 0 ≤ i < 10 → has_flag e (2 ^ i) = Z.testbit perm i || (i =? 0) || (i =? 8)).
Proof.
  intros Hal Hpa Hperm. cbv zeta. rewrite <-!Z.lor_assoc, (Z.lor_assoc perm). fold (super_flags perm).
  pose proof (super_flags_range perm Hperm) as Hf.
  destruct (PA2PTE_flags pa (super_flags perm) Hal Hpa Hf) as (He & Hp & Hfl).
  assert (Hr : 0 ≤ Z.lor (PA2PTE pa) (super_flags perm) < 2 ^ 64) by (rewrite He; change (2 ^ 10) with 1024 in *; dlia).
  split; [by apply u64_small|]. split; [done|]. intros i Hi. rewrite has_flag_bit by lia.
  rewrite PTE_FLAGS_spec in Hfl by done.
  rewrite <-(Z.mod_pow2_bits_low _ 10 i), Hfl by lia. unfold super_flags.
  change PTE_V with (2 ^ 0). change PTE_S with (2 ^ 8).
  by rewrite !Z.lor_spec, !Z.pow2_bits_eqb, (Z.eqb_sym 0), (Z.eqb_sym 8) by lia.
Qed.

(** The addresses of a superpage share the indices of levels 2 and 1. *)
Lemma super_indices va va' :
  va mod SUPERPGSIZE = 0 → 0 ≤ va → va ≤ va' < va + SUPERPGSIZE → va' < MAXVA →
  PX 2 va' = PX 2 va ∧ PX 1 va' = PX 1 va.
Proof.
  rewrite SUPERPGSIZE_eq. intros Hal Hva Hin Hm. pose proof MAXVA_bound.
  rewrite !PX_spec by lia. change (2 ^ (12 + 9 * 2)) with (2097152 * 512).
  change (2 ^ (12 + 9 * 1)) with 2097152. rewrite <-!Z.div_div by lia.
  replace (va' / 2097152) with (va / 2097152) by dlia. done.
Qed.

Lemma PX_bound l va : 0 ≤ l ≤ 2 → 0 ≤ va < MAXVA → 0 ≤ PX l va < 512.
Proof. intros Hl Hva. pose proof MAXVA_bound. rewrite PX_spec by lia. apply Z.mod_pos_bound. lia. Qed.

(** The level-1 entry of an address, when its table exists. *)
Section mapping.
Context (pt va pa perm : Z) (s : kst sup).
Context (Hva : 0 ≤ va < MAXVA) (Hal : va mod SUPERPGSIZE = 0).
Context (Hpa : pa mod 4096 = 0 ∧ 0 ≤ pa < 2 ^ 56) (Hperm : 0 ≤ perm < 2 ^ 10).
Let pte2 := pt + 8 * PX 2 va.
Let entry := Z.lor (Z.lor (Z.lor (PA2PTE pa) perm) PTE_V) PTE_S.

(** The loop of [supermappages] runs once on one superpage. *)
Lemma supermappages_one (s' : kst sup) pte :
  superwalk pt va 1 s = Ok pte s' → pte ≠ 0 → has_flag (load64 (kmem s') pte) PTE_V = false →
  supermappages pt va SUPERPGSIZE pa perm s = Ok 0 (set_mem (store64 (kmem s') pte entry) s').
Proof.
  intros Hrun Hz HV. unfold supermappages. rewrite Hal. do 2 kstep. cbv zeta.
  replace (va + SUPERPGSIZE - SUPERPGSIZE) with va by lia.
  rewrite u64_small by (pose proof MAXVA_bound; lia). rewrite Z.div_same by done.
  change (Z.to_nat 1) with 1%nat. kstep. rewrite bind_assoc, (bind_Ok _ _ _ _ _ Hrun).
  rewrite (proj2 (Z.eqb_neq pte 0)) by done. rewrite bind_assoc. kstep. rewrite HV.
  rewrite bind_assoc. kstep. rewrite bind_assoc. kstep. rewrite Z.eqb_refl. by kstep.
Qed.

Lemma superwalk_table :
  has_flag (load64 (kmem s) pte2) PTE_V = true →
  superwalk pt va 1 s = Ok (PTE2PA (load64 (kmem s) pte2) + 8 * PX 1 va) s.
Proof.
  intros HV. unfold superwalk. rewrite (proj2 (Z.leb_gt _ _)) by lia. cbv zeta. fold pte2.
  kstep. rewrite HV. by kstep.
Qed.

Lemma superwalk_fresh p l a :
  has_flag (load64 (kmem s) pte2) PTE_V = false → srep s a → sunlocked s → super a = p :: l →
  ∃ s1, superkalloc s = Ok p s1 ∧ superwalk pt va 1 s =
    Ok (p + 8 * PX 1 va)
       (set_mem (store64 (memset (kmem s1) p 0 SUPERPGSIZE) pte2
                   (Z.lor (Z.lor (PA2PTE p) PTE_V) PTE_S)) s1).
Proof.
  intros HV Hrep Hul Hl. destruct (superkalloc_refines s a Hrep Hul) as (s1 & Hrun & Hrep1 & _ & _ & Huse & _).
  unfold spec_superkalloc in *. rewrite Hl in *. cbn [fst] in *.
  destruct (Huse p) as (Hp & _); [by apply elem_of_cons; left|done|].
  pose proof (super_managed_nonzero p Hp).
  exists s1. split; [done|]. unfold superwalk. rewrite (proj2 (Z.leb_gt _ _)) by lia. cbv zeta. fold pte2.
  kstep. rewrite HV. cbn. rewrite (bind_Ok _ _ _ _ _ Hrun). rewrite (proj2 (Z.eqb_neq p 0)) by lia.
  by do 2 kstep.
Qed.
End mapping.

(** C10: mapping a superpage maps all of it.  Where the level-1 table exists
    and the slot is free, [supermappages] of one superpage returns 0, changes
    only that table's entry, and from then on [walk] finds, for every address
    of the two megabytes, an entry that names [pa], is valid and marked as a
    superpage, and carries the permissions given. *)
Theorem supermappages_maps pt va pa perm (s : kst sup) :
  let pte2 := pt + 8 * PX 2 va in
  let table := PTE2PA (load64 (kmem s) pte2) in
  let pte1 := table + 8 * PX 1 va in
  0 ≤ va → va + SUPERPGSIZE ≤ MAXVA → va mod SUPERPGSIZE = 0 →
  pa mod 4096 = 0 → 0 ≤ pa < 2 ^ 56 → 0 ≤ perm < 2 ^ 10 →
  has_flag (load64 (kmem s) pte2) PTE_V = true → stops (load64 (kmem s) pte2) = false →
  pt mod 4096 = 0 → table mod 4096 = 0 → table ≠ pt → 0 < table →
  has_flag (load64 (kmem s) pte1) PTE_V = false →
  ∃ s', supermappages pt va SUPERPGSIZE pa perm s = Ok 0 s' ∧
    agree_on (λ b, ¬ in_range pte1 8 b) (kmem s) (kmem s') ∧
    (∀ va', va ≤ va' < va + SUPERPGSIZE → walk pt va' 0 s' = Ok pte1 s') ∧
    PTE2PA (load64 (kmem s') pte1) = pa ∧
    (∀ i, 0 ≤ i < 10 →
       has_flag (load64 (kmem s') pte1) (2 ^ i) = Z.testbit perm i || (i =? 0) || (i =? 8)).
Proof.
  cbv zeta. set (pte2 := pt + 8 * PX 2 va). set (table := PTE2PA (load64 (kmem s) pte2)).
  set (pte1 := table + 8 * PX 1 va). intros Hva Hhi Hal Hpal Hpa Hperm HV2 Hs2 Hpt Htal Hne Htz HV1.
  pose proof SUPERPGSIZE_eq as HS.
  assert (Hva' : 0 ≤ va < MAXVA) by lia.
  destruct (super_entry pa perm Hpal Hpa Hperm) as (Hu & HPA & Hfl).
  pose proof (PX_bound 1 va ltac:(lia) Hva') as Hx1. pose proof (PX_bound 2 va ltac:(lia) Hva') as Hx2.
  assert (Hsw : superwalk pt va 1 s = Ok pte1 s) by by eapply superwalk_table.
  assert (Hrun : supermappages pt va SUPERPGSIZE pa perm s = Ok 0 (set_mem (store64 (kmem s) pte1
    (Z.lor (Z.lor (Z.lor (PA2PTE pa) perm) PTE_V) PTE_S)) s)).
  { apply (supermappages_one pt va pa perm s); try done. unfold pte1. lia. }
  eexists. split; [exact Hrun|]. cbn [kmem set_mem].
  assert (He1 : load64 (store64 (kmem s) pte1 (Z.lor (Z.lor (Z.lor (PA2PTE pa) perm) PTE_V) PTE_S)) pte1 =
                Z.lor (Z.lor (Z.lor (PA2PTE pa) perm) PTE_V) PTE_S) by by rewrite load64_store64_eq.
  split; [intros b Hb; by apply store64_ne|]. rewrite He1. split; [|done].
  intros va' Hin. destruct (super_indices va va' Hal Hva Hin ltac:(lia)) as [E2 E1].
  unfold walk. rewrite (proj2 (Z.leb_gt _ _)) by lia.
  change 2 with (Z.of_nat 2). rewrite walk_find by lia. f_equal. cbn [kmem set_mem].
  assert (Hd : load64 (store64 (kmem s) pte1 (Z.lor (Z.lor (Z.lor (PA2PTE pa) perm) PTE_V) PTE_S)) pte2 =
               load64 (kmem s) pte2).
  { apply load64_store64_ne. pose proof (aligned_disjoint 4096 table pt ltac:(lia) Htal Hpt Hne).
    unfold pte1, pte2. lia. }
  cbn [find]. cbv zeta. change (Z.of_nat 2) with 2. change (Z.of_nat 1) with 1. rewrite E2, E1. fold pte2.
  rewrite Hd, HV2, Hs2. cbn [negb]. fold table. fold pte1. rewrite He1.
  pose proof (Hfl 0 ltac:(lia)) as Hf0. pose proof (Hfl 8 ltac:(lia)) as Hf8.
  change (2 ^ 0) with PTE_V in Hf0. change (2 ^ 8) with PTE_S in Hf8. unfold stops.
  rewrite Hf0, Hf8. by destruct (Z.testbit perm 0), (Z.testbit perm 8).
Qed.

(** C25: in a region without a level-1 table the mapping is lost.  There
    [superwalk] allocates a superpage as the table and marks its level-2 entry
    [PTE_S], so after [supermappages] has returned 0 the lookup of the mapped
    address stops at that level-2 entry, which names the table and not the
    page that was mapped. *)
Theorem supermappages_fresh_region pt va pa perm (s : kst sup) a p l :
  let pte2 := pt + 8 * PX 2 va in
  0 ≤ va < MAXVA → va mod SUPERPGSIZE = 0 → pa mod 4096 = 0 → 0 ≤ pa < 2 ^ 56 → 0 ≤ perm < 2 ^ 10 →
  srep s a → sunlocked s → super a = p :: l → has_flag (load64 (kmem s) pte2) PTE_V = false →
  pt mod 4096 = 0 → (∀ q, q ∈ super a → apart pt q) →
  ∃ s', supermappages pt va SUPERPGSIZE pa perm s = Ok 0 s' ∧ walk pt va 0 s' = Ok pte2 s' ∧
    PTE2PA (load64 (kmem s') pte2) = p ∧ PTE2PA (load64 (kmem s') (p + 8 * PX 1 va)) = pa.
Proof.
  cbv zeta. set (pte2 := pt + 8 * PX 2 va). intros Hva Hal Hpal Hpa Hperm Hrep Hul Hl HV Hpt Hap.
  pose proof SUPERPGSIZE_eq as HS.
  assert (Hpin : p ∈ super a) by (rewrite Hl; by apply elem_of_cons; left).
  pose proof (blocks_elem KERNEND PHYSTOP SUPERPGSIZE p (super a) (sr_super_blocks _ _ Hrep) Hpin) as Hp.
  pose proof (super_managed_nonzero p Hp) as Hpz. destruct Hp as (Hsal & _).
  assert (Hpp : p mod 4096 = 0) by (rewrite HS in *; dlia).
  destruct (super_entry p 0 Hpp ltac:(lia) ltac:(done)) as (Hu2 & HPA2 & Hfl2).
  destruct (super_entry pa perm Hpal Hpa Hperm) as (Hu & HPA & Hfl).
  rewrite (Z.lor_0_r (PA2PTE p)) in Hu2, HPA2, Hfl2.
  pose proof (PX_bound 1 va ltac:(lia) Hva) as Hx1. pose proof (PX_bound 2 va ltac:(lia) Hva) as Hx2.
  specialize (Hap p Hpin). unfold apart in Hap.
  assert (Hsw : ∃ s1, superkalloc s = Ok p s1 ∧ superwalk pt va 1 s = Ok (p + 8 * PX 1 va)
    (set_mem (store64 (memset (kmem s1) p 0 SUPERPGSIZE) pte2 (Z.lor (Z.lor (PA2PTE p) PTE_V) PTE_S)) s1))
    by by eapply superwalk_fresh.
  destruct Hsw as (s1 & _ & Hrun).
  set (m1 := store64 (memset (kmem s1) p 0 SUPERPGSIZE) pte2 _) in Hrun.
  assert (Hm1 : load64 m1 (p + 8 * PX 1 va) = 0).
  { unfold m1. rewrite load64_store64_ne by (unfold pte2; lia). apply load64_memset_0; lia. }
  assert (Hz1 : has_flag (load64 (kmem (set_mem m1 s1)) (p + 8 * PX 1 va)) PTE_V = false)
    by (cbn [kmem set_mem]; by rewrite Hm1).
  eexists. split; [apply (supermappages_one pt va pa perm s) with (s' := set_mem m1 s1) (pte := p + 8 * PX 1 va); try done; lia|]. cbn [kmem set_mem].
  assert (He2 : load64 (store64 m1 (p + 8 * PX 1 va) (Z.lor (Z.lor (Z.lor (PA2PTE pa) perm) PTE_V) PTE_S)) pte2 =
                Z.lor (Z.lor (PA2PTE p) PTE_V) PTE_S).
  { rewrite load64_store64_ne by (unfold pte2; lia). unfold m1. by rewrite load64_store64_eq. }
  rewrite He2, load64_store64_eq, Hu. split; [|done].
  unfold walk. rewrite (proj2 (Z.leb_gt _ _)) by lia. change 2 with (Z.of_nat 2) at 1.
  rewrite walk_find by lia. f_equal. cbn [find kmem set_mem]. cbv zeta. change (Z.of_nat 2) with 2. fold pte2.
  rewrite He2. pose proof (Hfl2 0 ltac:(lia)) as Hf0. pose proof (Hfl2 8 ltac:(lia)) as Hf8.
  change (2 ^ 0) with PTE_V in Hf0. change (2 ^ 8) with PTE_S in Hf8. unfold stops.
  by rewrite Hf0, Hf8.
Qed.

(** ** Unmapping a region of pages and superpages *)

(** A mapped block: its address and kind, its entry and its memory. *)
Record item := Item { it_va : Z; it_super : bool; it_pte : Z; it_pa : Z }.

Definition it_size (it : item) : Z := if it_super it then SUPERPGSIZE else PGSIZE.

Section unmap.
Context (pt do_free : Z).

(** The bytes of the page table that the lookup of the block depends on. *)
Definition touches (m : mem) (it : item) (b : Z) : Prop :=
  reads 2 m pt (it_va it) b ∨ in_range (it_pte it) 8 b.
Definition holds (it : item) (b : Z) : Prop := in_range (it_pa it) (it_size it) b.

Definition in_use (a : super_spec) (it : item) : Prop :=
  if it_super it then super_in_use a (it_pa it) else page_in_use a (it_pa it).

Record item_ok (m : mem) (a : super_spec) (it : item) : Prop := {
  io_va : 0 ≤ it_va it < MAXVA;
  io_find : find 2 m pt (it_va it) = it_pte it;
  io_pte : it_pte it ≠ 0;
  io_valid : has_flag (load64 m (it_pte it)) PTE_V = true;
  io_leaf : PTE_FLAGS (load64 m (it_pte it)) ≠ PTE_V;
  io_super : has_flag (load64 m (it_pte it)) PTE_S = it_super it;
  io_pa : PTE2PA (load64 m (it_pte it)) = it_pa it;
  io_use : in_use a it;
  io_self b : touches m it b → ¬ holds it b;
  io_table b : touches m it b → ¬ sup_owns a b;
}.

(** Unmapping one block does not disturb the other. *)
Record separate (m : mem) (it1 it2 : item) : Prop := {
  se_pte b : touches m it2 b → ¬ in_range (it_pte it1) 8 b;
  se_block b : touches m it2 b → ¬ holds it1 b;
  se_holds b : holds it1 b → ¬ holds it2 b;
}.

Definition free_item (it : item) (a : super_spec) : super_spec :=
  if do_free =? 0 then a
  else if it_super it then spec_superkfree (it_pa it) a else spec_kfree (it_pa it) a.

Lemma in_use_pa a it : in_use a it → holds it (it_pa it).
Proof.
  unfold in_use, holds, it_size, in_range, PGSIZE. intros _. pose proof SUPERPGSIZE_eq.
  destruct (it_super it); lia.
Qed.

Lemma disjoint_apart p q :
  (∀ b, in_range p 4096 b → ¬ in_range q SUPERPGSIZE b) → apart p q.
Proof.
  pose proof SUPERPGSIZE_eq. intros Hd. unfold apart, in_range in *.
  destruct (decide (p ≤ q)); [specialize (Hd q)|specialize (Hd p)]; lia.
Qed.

(** A block in use stays so when another one is freed. *)
Lemma in_use_free m a it1 it2 :
  separate m it1 it2 → in_use a it1 → in_use a it2 → in_use (free_item it1 a) it2.
Proof.
  intros [_ _ Hd] Hx1 Hx2. pose proof (in_use_pa _ _ Hx1) as Hp1. pose proof (in_use_pa _ _ Hx2) as Hp2.
  unfold free_item. destruct (do_free =? 0); [done|].
  assert (Hne : it_pa it1 ≠ it_pa it2).
  { intros Heq. apply (Hd (it_pa it1) Hp1). by rewrite Heq. }
  unfold in_use, holds, it_size in *. destruct (it_super it1) eqn:E1, (it_super it2) eqn:E2;
    destruct Hx2 as (Hm & Hnin & Hap); (split; [done|split]);
    unfold spec_superkfree, spec_kfree; cbn [small super]; try done.
  - intros [?|?]%elem_of_cons; [congruence|done].
  - intros q [->|Hq]%elem_of_cons; [|by apply Hap]. apply disjoint_apart. intros b Hb Hb'. by apply (Hd b).
  - intros q [->|Hq]%elem_of_cons; [|by apply Hap]. apply disjoint_apart. intros b Hb Hb'. by apply (Hd b).
  - intros [?|?]%elem_of_cons; [congruence|done].
Qed.

(** Freeing the block of an entry. *)
Definition free_block (it : item) : M (kst sup) unit :=
  if do_free =? 0 then mret tt
  else if it_super it then superkfree (it_pa it) else kfree (it_pa it).

Lemma free_block_ok (s : kst sup) a it :
  srep s a → sunlocked s → in_use a it →
  ∃ s', free_block it s = Ok tt s' ∧ srep s' (free_item it a) ∧ skeeps s s' ∧
    agree_on (λ b, ¬ holds it b) (kmem s) (kmem s').
Proof.
  intros Hrep Hul Hu. unfold free_block, free_item, in_use, holds, it_size, PGSIZE in *.
  destruct (do_free =? 0); [by exists s|]. destruct (it_super it).
  - by apply superkfree_refines.
  - by apply kfree_refines.
Qed.

(** What is free afterwards was free before or is the block. *)
Lemma owns_free_item a it b : sup_owns (free_item it a) b → sup_owns a b ∨ holds it b.
Proof.
  unfold free_item, holds, it_size, sup_owns. destruct (do_free =? 0); [by left|].
  destruct (it_super it); cbn [small super spec_superkfree spec_kfree].
  - intros [Hs|(q & [->|Hq]%elem_of_cons & Hb)]; [left; by left|by right|left; right; by exists q].
  - intros [(q & [->|Hq]%elem_of_cons & Hb)|Hs]; [by right|left; left; by exists q|left; by right].
Qed.

(** One round over a mapped block. *)
Lemma unmap_round limit (s : kst sup) a it :
  item_ok (kmem s) a it → srep s a → sunlocked s → it_va it < limit →
  ∃ s', uvmunmap_body pt limit do_free (it_va it) s = Ok (inl (it_va it + it_size it)) s' ∧
    sunlocked s' ∧ skeeps s s' ∧ load64 (kmem s') (it_pte it) = 0 ∧
    srep s' (free_item it a) ∧
    agree_on (λ b, ¬ holds it b ∧ ¬ in_range (it_pte it) 8 b) (kmem s) (kmem s').
Proof.
  intros [Hva Hf Hz HV HL HS HP Hu Hself Htab] Hrep Hul Hlt.
  destruct (free_block_ok s a it Hrep Hul Hu) as (s1 & Hrun & Hrep1 & Hk1 & Hag1).
  assert (He : load64 (kmem s1) (it_pte it) = load64 (kmem s) (it_pte it)).
  { apply load64_ext. intros b Hb. apply Hag1, Hself. by right. }
  exists (set_mem (store64 (kmem s1) (it_pte it) 0) s1). split.
  - unfold uvmunmap_body. rewrite (proj2 (Z.ltb_lt _ _)) by done. cbn [negb].
    assert (Hw : walk pt (it_va it) 0 s = Ok (it_pte it) s).
    { unfold walk. rewrite (proj2 (Z.leb_gt _ _)) by lia. change 2 with (Z.of_nat 2).
      rewrite walk_find by lia. by rewrite Hf. }
    rewrite (bind_Ok _ _ _ _ _ Hw), (proj2 (Z.eqb_neq (it_pte it) 0)) by done. do 2 kstep. rewrite HV. do 2 kstep.
    rewrite (proj2 (Z.eqb_neq (PTE_FLAGS (load64 (kmem s) (it_pte it))) PTE_V)) by done. kstep.
    assert (Hfb : (if negb (do_free =? 0)
              then e ← load (it_pte it); let pa := PTE2PA e in e0 ← load (it_pte it);
                   (if has_flag e0 PTE_S then superkfree pa else kfree pa)
              else mret tt) s = Ok tt s1).
    { rewrite <-Hrun. unfold free_block. destruct (do_free =? 0); [done|]. cbn. do 2 kstep.
      by rewrite HS, HP. }
    rewrite (bind_Ok _ _ _ _ _ Hfb). kstep. rewrite He, HS. by kstep.
  - cbn [kmem set_mem]. split; [|split; [by destruct s1|split; [by rewrite load64_store64_eq|split]]].
    + apply (skeeps_unlocked s); [by destruct s1|done].
    + apply (arep_write (KAlloc := sup_kalloc) s1 _ _ Hrep1). intros b Hb. apply store64_ne.
      intros Hb'. apply owns_free_item in Hb as [Hb|Hb];
        [apply (Htab b); [by right|done]|apply (Hself b); [by right|done]].
    + intros b [Hb1 Hb2]. rewrite store64_ne by done. by apply Hag1.
Qed.

Lemma touches_local m m' it b :
  agree_on (touches m it) m m' → touches m' it b → touches m it b.
Proof.
  intros Hag [Hb|Hb]; [left|by right]. eapply reads_local, Hb. intros b' Hb'. apply Hag. by left.
Qed.

(** The blocks still to unmap are unaffected. *)
Lemma item_ok_step m m' a it1 it2 :
  agree_on (λ b, ¬ holds it1 b ∧ ¬ in_range (it_pte it1) 8 b) m m' →
  item_ok m a it1 → item_ok m a it2 → separate m it1 it2 → item_ok m' (free_item it1 a) it2.
Proof.
  intros Hag Hx1 [Hva Hf Hz HV HL HS HP Hu Hself Htab] Hsep.
  assert (Ht : agree_on (touches m it2) m m').
  { intros b Hb. apply Hag. split; [by apply Hsep|by apply Hsep]. }
  assert (He : load64 m' (it_pte it2) = load64 m (it_pte it2)).
  { apply load64_ext. intros b Hb. apply Ht. by right. }
  constructor; rewrite ?He; try done.
  - rewrite <-Hf. apply find_local. intros b Hb. apply Ht. by left.
  - apply (in_use_free m _ it1); [done|apply Hx1|done].
  - intros b Hb. apply Hself. by apply (touches_local m m').
  - intros b Hb Ho. apply (touches_local m m') in Hb; [|done].
    apply owns_free_item in Ho as [Ho|Ho]; [by apply (Htab b)|by apply (se_block _ _ _ Hsep b)].
Qed.

Lemma separate_step m m' it1 it2 :
  agree_on (touches m it2) m m' → separate m it1 it2 → separate m' it1 it2.
Proof.
  intros Hag [Hx1 Hx2 Hx3]. constructor; try done.
  - intros b Hb. apply Hx1. by apply (touches_local m m').
  - intros b Hb. apply Hx2. by apply (touches_local m m').
Qed.

(** The blocks of a region, in address order. *)
Fixpoint contiguous (va : Z) (its : list item) : Prop :=
  match its with
  | [] => True
  | it :: its => it_va it = va ∧ contiguous (va + it_size it) its
  end.
Fixpoint region_end (va : Z) (its : list item) : Z :=
  match its with [] => va | it :: its => region_end (va + it_size it) its end.

(** Any two blocks of the region are separate, in both directions. *)
Fixpoint all_separate (m : mem) (its : list item) : Prop :=
  match its with
  | [] => True
  | it :: its => (∀ it', it' ∈ its → separate m it it' ∧ separate m it' it) ∧ all_separate m its
  end.

Record region_ok (m : mem) (a : super_spec) (va : Z) (its : list item) : Prop := {
  ro_contiguous : contiguous va its;
  ro_items it : it ∈ its → item_ok m a it;
  ro_separate : all_separate m its;
}.

Definition free_items (its : list item) (a : super_spec) : super_spec :=
  fold_left (λ a it, free_item it a) its a.

Lemma it_size_pos it : 0 < it_size it.
Proof. unfold it_size, PGSIZE. pose proof SUPERPGSIZE_eq. destruct (it_super it); lia. Qed.

Lemma region_end_ge its : ∀ va, va ≤ region_end va its.
Proof.
  induction its as [|it its IH]; intros va; cbn; [lia|].
  pose proof (IH (va + it_size it)). pose proof (it_size_pos it). lia.
Qed.

(** Unmapping the first of several separate blocks leaves the others as they
    were, and separate. *)
Lemma blocks_step m m' a it its :
  agree_on (λ b, ¬ holds it b ∧ ¬ in_range (it_pte it) 8 b) m m' →
  (∀ it2, it2 ∈ it :: its → item_ok m a it2) → all_separate m (it :: its) →
  (∀ it2, it2 ∈ its → item_ok m' (free_item it a) it2) ∧ all_separate m' its.
Proof.
  intros Hag Hi [Hs Hss]. split.
  - intros it2 Hit2. apply (item_ok_step m m' a it it2); [done|apply Hi; by apply elem_of_cons; left| |by apply Hs].
    apply Hi. by apply elem_of_cons; right.
  - assert (Ht : ∀ it2, it2 ∈ its → agree_on (touches m it2) m m').
    { intros it2 Hit2 b Hb. apply Hag. destruct (Hs it2 Hit2) as [[? ? ?] _]. auto. }
    clear Hs Hi. revert Hss Ht. induction its as [|it2 its IH]; cbn; [done|].
    intros [Hs2 Hss] Ht. split.
    + intros it3 Hit3. destruct (Hs2 it3 Hit3) as [Ha Hb]. split.
      * apply (separate_step m m' it2 it3); [apply Ht; by apply elem_of_cons; right|done].
      * apply (separate_step m m' it3 it2); [apply Ht; by apply elem_of_cons; left|done].
    + apply IH; [done|]. intros it3 Hit3. apply Ht. by apply elem_of_cons; right.
Qed.

(** The entry of the first block survives the unmapping of the others. *)
Lemma entry_kept m m1 m2 it its :
  all_separate m (it :: its) →
  agree_on (λ b, ∀ it2, it2 ∈ its → ¬ holds it2 b ∧ ¬ in_range (it_pte it2) 8 b) m1 m2 →
  load64 m2 (it_pte it) = load64 m1 (it_pte it).
Proof.
  intros [Hs _] Hag. apply load64_ext. intros b Hb. apply Hag. intros it2 Hit2.
  destruct (Hs it2 Hit2) as [_ [Hx1 Hx2 _]]. split; [apply Hx2; by right|apply Hx1; by right].
Qed.

Lemma region_step m m' a va it its :
  agree_on (λ b, ¬ holds it b ∧ ¬ in_range (it_pte it) 8 b) m m' →
  region_ok m a va (it :: its) → region_ok m' (free_item it a) (va + it_size it) its.
Proof.
  intros Hag [[_ Hc] Hi Hs]. destruct (blocks_step m m' a it its Hag Hi Hs). by constructor.
Qed.

(** The loop over a mapped region: every entry is cleared and every block
    freed, and the loop goes on at the end of the region. *)
Lemma unmap_region limit fuel its : ∀ va (s : kst sup) a,
  region_ok (kmem s) a va its → srep s a → sunlocked s → region_end va its ≤ limit →
  ∃ s', loop (length its + fuel) (uvmunmap_body pt limit do_free) va s =
        loop fuel (uvmunmap_body pt limit do_free) (region_end va its) s' ∧
    sunlocked s' ∧ skeeps s s' ∧ srep s' (free_items its a) ∧
    (∀ it, it ∈ its → load64 (kmem s') (it_pte it) = 0) ∧
    agree_on (λ b, ∀ it, it ∈ its → ¬ holds it b ∧ ¬ in_range (it_pte it) 8 b) (kmem s) (kmem s').
Proof.
  induction its as [|it its IH]; intros va s a Hro Hrep Hul Hlim.
  { exists s. split; [done|]. do 3 (split; [done|]). split; [intros it; by rewrite elem_of_nil|done]. }
  assert (Hit : item_ok (kmem s) a it) by (apply Hro; by apply elem_of_cons; left).
  pose proof (ro_contiguous _ _ _ _ Hro) as [Hva _]. cbn [region_end] in Hlim.
  pose proof (region_end_ge its (va + it_size it)). pose proof (it_size_pos it).
  destruct (unmap_round limit s a it Hit Hrep Hul ltac:(lia)) as (s1 & Hrun & Hul1 & Hk1 & Hz1 & Hrep1 & Hag1).
  destruct (IH (va + it_size it) s1 (free_item it a)) as (s2 & Hrun2 & Hul2 & Hk2 & Hrep2 & Hz2 & Hag2);
    [by eapply region_step|done..|].
  exists s2. split.
  { cbn [length plus region_end]. rewrite loop_S. rewrite Hva in Hrun. by rewrite (bind_Ok _ _ _ _ _ Hrun). }
  split; [done|]. split; [by eapply skeeps_trans|]. split; [done|]. split.
  - intros it2 [->|Hit2]%elem_of_cons; [|by apply Hz2]. rewrite <-Hz1.
    by apply (entry_kept (kmem s) _ _ it its); [apply Hro|].
  - intros b Hb. rewrite Hag2; [apply Hag1, Hb; by apply elem_of_cons; left|].
    intros it2 Hit2. apply Hb. by apply elem_of_cons; right.
Qed.
End unmap.

(** C9: [uvmunmap] of a region made of pages and superpages removes exactly
    it.  When [npages] pages from [va] are covered by mapped blocks whose page
    tables and memory do not overlap, it terminates without a panic, skipping
    a superpage in one step; every entry of the region is cleared, each block
    is given back to its own free list when [do_free] is set, and no other
    byte of memory changes. *)
Theorem uvmunmap_region pt va npages do_free (s : kst sup) a its :
  va mod 4096 = 0 → 0 ≤ va → va + npages * 4096 < 2 ^ 64 →
  region_ok pt (kmem s) a va its → region_end va its = va + npages * 4096 →
  srep s a → sunlocked s →
  ∃ s', uvmunmap pt va npages do_free s = Ok tt s' ∧
    srep s' (free_items do_free its a) ∧ sunlocked s' ∧
    (∀ it, it ∈ its → load64 (kmem s') (it_pte it) = 0) ∧
    agree_on (λ b, ∀ it, it ∈ its → ¬ holds it b ∧ ¬ in_range (it_pte it) 8 b) (kmem s) (kmem s').
Proof.
  intros Hal Hva Hb Hro Hend Hrep Hul. unfold uvmunmap, PGSIZE.
  rewrite Hal. pose proof (region_end_ge its va).
  assert (Hlen : ∀ its va, va + 4096 * Z.of_nat (length its) ≤ region_end va its).
  { clear. pose proof SUPERPGSIZE_eq. induction its as [|it its IH]; intros va; cbn [length region_end]; [lia|].
    specialize (IH (va + it_size it)). unfold it_size, PGSIZE in *. destruct (it_super it); lia. }
  specialize (Hlen its va). set (k := (S (Z.to_nat npages) - length its)%nat).
  assert (Hk : S (Z.to_nat npages) = (length its + S (pred k))%nat) by lia.
  destruct (unmap_region pt do_free (va + npages * 4096) (S (pred k)) its va s a Hro Hrep Hul ltac:(lia))
    as (s' & Hrun & Hul' & _ & Hrep' & Hz & Hag).
  exists s'. split; [|done]. erewrite bind_Ok by reflexivity. cbv beta zeta. rewrite u64_small by lia. rewrite Hk, Hrun, Hend, loop_S.
  unfold uvmunmap_body at 2. by rewrite Z.ltb_irrefl.
Qed.

(** C24: a fork that runs out of superpages panics.  When [uvmcopy] reaches a
    superpage of the parent and none is left, its error path unmaps
    [(i + szinc - 1) / PGSIZE] pages of the child, 511 more than it has
    mapped, so after freeing the blocks already copied it looks up the block
    it failed to copy and stops the machine instead of returning -1. *)
Theorem uvmcopy_superpage_failure_panics old new sz i (s : kst sup) a its :
  0 ≤ i < sz → i < MAXVA → i mod SUPERPGSIZE = 0 →
  let pte := find 2 (kmem s) old i in
  pte ≠ 0 → has_flag (load64 (kmem s) pte) PTE_V = true → has_flag (load64 (kmem s) pte) PTE_S = true →
  srep s a → sunlocked s → super a = [] →
  region_ok new (kmem s) a 0 its → region_end 0 its = i →
  find 2 (kmem s) new i = 0 →
  (∀ b, reads 2 (kmem s) new i b → ∀ it, it ∈ its → ¬ holds it b ∧ ¬ in_range (it_pte it) 8 b) →
  ∃ s', uvmcopy_body old new sz i s = Panic "uvmunmap: walk" s'.
Proof.
  cbv zeta. set (pte := find 2 (kmem s) old i). intros Hi Hm Hal Hz HV HS Hrep Hul Hsup Hro Hend Hf Hrd.
  pose proof SUPERPGSIZE_eq as HSZ. pose proof MAXVA_bound.
  set (s1 := KSt (kmem s) (held s) (console s ++ [("fork super page mem\n", [])]) (ext s)).
  set (np := u64 (i + SUPERPGSIZE - 1) / PGSIZE).
  assert (Hnp : np * 4096 = i + SUPERPGSIZE - 4096).
  { unfold np, PGSIZE. rewrite u64_small by lia. rewrite HSZ in *. dlia. }
  assert (Hlen : ∀ its va, va + 4096 * Z.of_nat (length its) ≤ region_end va its).
  { clear. pose proof SUPERPGSIZE_eq. induction its as [|it its IH]; intros va; cbn [length region_end]; [lia|].
    specialize (IH (va + it_size it)). unfold it_size, PGSIZE in *. destruct (it_super it); lia. }
  specialize (Hlen its 0).
  destruct (unmap_region new 1 (u64 (0 + np * PGSIZE)) (S (Z.to_nat np) - length its) its 0 s1 a)
    as (s2 & Hrun & Hul2 & Hk2 & Hrep2 & Hz2 & Hag2); try done.
  { by destruct Hrep. }
  { unfold PGSIZE. rewrite u64_small by lia. lia. }
  exists s2. unfold uvmcopy_body. rewrite (proj2 (Z.ltb_lt i sz)) by lia. cbn [negb]. cbv zeta.
  assert (Hw : walk old i 0 s = Ok pte s).
  { unfold walk. rewrite (proj2 (Z.leb_gt _ _)) by lia. change 2 with (Z.of_nat 2) at 1. by rewrite walk_find by lia. }
  clearbody pte. rewrite (bind_Ok _ _ _ _ _ Hw), (proj2 (Z.eqb_neq pte 0)) by done. do 2 kstep.
  rewrite HV. do 4 kstep. rewrite HS.
  destruct (superkalloc_refines s a Hrep Hul) as (s' & Hsk & _ & _ & Hs' & _).
  unfold spec_superkalloc in Hsk. rewrite Hsup in Hsk. cbn [fst] in Hsk. rewrite (Hs' Hsup) in Hsk.
  rewrite (bind_Ok _ _ _ _ _ Hsk). cbn [Z.eqb]. erewrite bind_Ok by reflexivity. fold s1. fold np.
  assert (Hun : uvmunmap new 0 np 1 s1 = Panic "uvmunmap: walk" s2).
  { unfold uvmunmap. erewrite bind_Ok by reflexivity. cbv beta zeta.
    replace (S (Z.to_nat np)) with (length its + (S (Z.to_nat np) - length its))%nat by lia.
    rewrite Hrun, Hend. destruct (S (Z.to_nat np) - length its)%nat as [|k] eqn:Ek; [lia|].
    rewrite loop_S. unfold uvmunmap_body at 2. unfold PGSIZE. rewrite u64_small by lia.
    rewrite (proj2 (Z.ltb_lt i _)) by lia. cbn [negb]. rewrite bind_assoc.
    assert (Hw2 : walk new i 0 s2 = Ok 0 s2).
    { unfold walk. rewrite (proj2 (Z.leb_gt _ _)) by lia. change 2 with (Z.of_nat 2).
      rewrite walk_find by lia. rewrite (find_local 2 (kmem s) (kmem s2)); [by rewrite Hf|].
      intros b Hb. apply Hag2. intros it Hit. by apply (Hrd b). }
    rewrite (bind_Ok _ _ _ _ _ Hw2). cbn [Z.eqb]. rewrite bind_assoc. by erewrite bind_Panic by reflexivity. }
  by rewrite (bind_Panic _ _ _ _ _ Hun).
Qed.
End super_vm.
