(* ===== verification/SuperProc.v ===== *)
(** * Growing and shrinking a process (lab3 "use superpages", kernel/proc.c)

    [growproc] keeps a record of the blocks it gave to the process, one
    character per block, so that it knows when shrinking whether the last
    block is a page ('0') or a superpage ('1'). *)

From S2P Require Import Prelude Memory Machine SuperAlloc Walk SuperVm.

(** The fields of struct proc that [growproc] uses; [p_record] is
    [char record[10000]]. *)
Record gproc := GProc { p_sz : Z; p_pagetable : Z; p_record : Z → Z; p_next : Z }.

Section super_proc.
Context `{Riscv, MemLayout, RiscvLeaf} `{!StockVm (sup (P := gproc))}.

Local Abbreviation sup := (sup (P := gproc)).

(** ** The current process *)

Definition on_proc (f : gproc → gproc) (x : sup) : sup :=
  Sup (freelist x) (superfreelist x) (f (srest x)).

Definition get_p {A} (f : gproc → A) : M (kst sup) A := getx (λ x, f (srest x)).
Definition mod_p (f : gproc → gproc) : M (kst sup) unit := modx (on_proc f).

Definition with_sz (v : Z) (p : gproc) : gproc := GProc v (p_pagetable p) (p_record p) (p_next p).
Definition with_next (v : Z) (p : gproc) : gproc := GProc (p_sz p) (p_pagetable p) (p_record p) v.
Definition with_record (i v : Z) (p : gproc) : gproc :=
  GProc (p_sz p) (p_pagetable p) (λ j, if j =? i then v else p_record p j) (p_next p).

(** Accesses outside [record] are undefined. *)
Definition record_get (i : Z) : M (kst sup) Z :=
  if (0 <=? i) && (i <? 10000) then get_p (λ p, p_record p i) else undefined "p->record".
Definition record_set (i v : Z) : M (kst sup) unit :=
  if (0 <=? i) && (i <? 10000) then mod_p (with_record i v) else undefined "p->record".

(** The characters of the record. *)
Definition chr_page : Z := 48.
Definition chr_super : Z := 49.

(** ** Operations *)

(** [for (i = 0; i < count; i++) p->record[p->next++] = c]. *)
Definition append_body (c count i : Z) : M (kst sup) (Z + unit) :=
  if negb (i <? count) then mret (inr tt)
  else
    next ← get_p p_next;
    record_set next c;;
    next ← get_p p_next;
    mod_p (with_next (s32 (next + 1)));;
    mret (inl (i + 1)).

Definition append (c count : Z) : M (kst sup) unit :=
  loop (S (Z.to_nat count)) (append_body c count) 0.

(** One round of the shrinking loop, over [i], [n] and [sz]. *)
Definition shrink_body (v : Z * Z * Z) : M (kst sup) (Z * Z * Z + Z) :=
  let '(i, n, sz) := v in
  if negb (0 <=? i) then mret (inr sz)
  else
    let continue n sz :=
      if n =? 0 then mod_p (with_next i);; mret (inr sz)
      else mret (inl (i - 1, n, sz)) in
    pt ← get_p p_pagetable;
    r ← record_get i;
    if r =? chr_super then
      if 0 <? s32 (n + SUPERPGSIZE) then
        sz ← uvmdealloc pt sz (u64 (sz - SUPERPGSIZE));
        sz ← uvmalloc pt sz (u64 (sz + SUPERPGSIZE + n)) PTE_W;
        record_set i chr_page;;
        next ← get_p p_next;
        mod_p (with_next (s32 (next - 1)));;
        let count := Z.quot (s32 (n + SUPERPGSIZE)) PGSIZE in
        next ← get_p p_next;
        mod_p (with_next (s32 (next + count)));;
        mret (inr sz)
      else
        sz ← uvmdealloc pt sz (u64 (sz - SUPERPGSIZE));
        continue (s32 (n + SUPERPGSIZE)) sz
    else
      sz ← uvmdealloc pt sz (u64 (sz - PGSIZE));
      let n := s32 (n + PGSIZE) in
      if 0 <? n then
        mod_p (with_next (i - 1));;
        mret (inr sz)
      else continue n sz.

Definition growproc (n : Z) : M (kst sup) Z :=
  sz ← get_p p_sz;
  if 0 <? n then
    pt ← get_p p_pagetable;
    help ← sbrksuperuvmalloc pt sz (u64 (sz + n)) PTE_W;
    let sz := u64 (h_sz help) in
    if h_state help =? 0 then mret (-1)
    else
      append chr_page (h_startpages help);;
      append chr_super (h_superpages help);;
      append chr_page (h_endpages help);;
      mod_p (with_sz sz);;
      mret 0
  else
    sz ← (if n <? 0 then
            next ← get_p p_next;
            loop (S (Z.to_nat next)) shrink_body (next - 1, n, sz)
          else mret sz);
    mod_p (with_sz sz);;
    mret 0.

(** ** The record *)

Definition set_proc (p : gproc) (s : kst sup) : kst sup := set_ext (on_proc (λ _, p) (ext s)) s.
Definition proc_of (s : kst sup) : gproc := srest (ext s).

Lemma set_proc_same s : set_proc (proc_of s) s = s.
Proof. by destruct s as [m h c []]. Qed.

Lemma set_set_proc p q s : set_proc p (set_proc q s) = set_proc p s.
Proof. done. Qed.

Lemma mod_p_run f (s : kst sup) : mod_p f s = Ok tt (set_proc (f (proc_of s)) s).
Proof. done. Qed.

(** Adding [k] characters at the end of the record. *)
Definition extend (c : Z) (k : Z) (p : gproc) : gproc :=
  GProc (p_sz p) (p_pagetable p)
    (λ j, if (p_next p <=? j) && (j <? p_next p + k) then c else p_record p j) (p_next p + k).

(** Processes up to what their record holds at each index. *)
Definition same_proc (p q : gproc) : Prop :=
  p_sz p = p_sz q ∧ p_pagetable p = p_pagetable q ∧ p_next p = p_next q ∧
  ∀ j, p_record p j = p_record q j.

#[export] Instance same_proc_equiv : Equivalence same_proc.
Proof.
  split.
  - by intros p.
  - intros p q (? & ? & ? & Hr). do 3 (split; [done|]). intros j. by rewrite Hr.
  - intros p q r (? & ? & ? & Hr) (? & ? & ? & Hr'). do 3 (split; [congruence|]).
    intros j. by rewrite Hr, Hr'.
Qed.

#[export] Instance extend_proper : Proper ((=) ==> (=) ==> same_proc ==> same_proc) extend.
Proof.
  intros c ? <- k ? <- p q (Hs & Ht & Hn & Hr). unfold extend, same_proc; cbn.
  rewrite Hn. do 3 (split; [done|]). intros j. by rewrite Hr.
Qed.

Lemma append_loop c count fuel : ∀ i (s : kst sup),
  0 ≤ i ≤ count → (Z.to_nat (count - i) < fuel)%nat → 0 ≤ p_next (proc_of s) →
  p_next (proc_of s) + (count - i) ≤ 10000 →
  ∃ p, loop fuel (append_body c count) i s = Ok tt (set_proc p s) ∧
       same_proc p (extend c (count - i) (proc_of s)).
Proof.
  induction fuel as [|fuel IH]; intros i s Hi Hf Hn Hb; [lia|]. rewrite loop_S.
  unfold append_body at 2. destruct (i <? count) eqn:E; cbn [negb]; bool_to_Prop.
  - rewrite bind_assoc. kstep. change (p_next (srest (ext s))) with (p_next (proc_of s)).
    unfold record_set. rewrite (proj2 (Z.leb_le 0 _)), (proj2 (Z.ltb_lt _ 10000)) by lia. cbn [andb].
    rewrite bind_assoc, (bind_Ok _ _ _ _ _ (mod_p_run _ _)). rewrite bind_assoc. kstep.
    rewrite bind_assoc, (bind_Ok _ _ _ _ _ (mod_p_run _ _)).
    rewrite s32_small by lia.
    set (p1 := with_next (p_next (proc_of s) + 1) (with_record (p_next (proc_of s)) c (proc_of s))).
    change (set_proc (with_next _ _) _) with (set_proc p1 s).
    destruct (IH (i + 1) (set_proc p1 s)) as (p & Hrun & Hp); [lia|lia|cbn; lia|cbn; lia|].
    exists p. split; [exact Hrun|]. rewrite Hp.
    unfold same_proc, extend; cbn. do 2 (split; [done|]). split; [lia|]. intros j.
    destruct ((p_next (proc_of s) + 1 <=? j) && _) eqn:Ea, (j =? p_next (proc_of s)) eqn:Eb,
      ((p_next (proc_of s) <=? j) && _) eqn:Ec; try done; exfalso; lia.
  - exists (proc_of s). rewrite set_proc_same. split; [done|]. unfold same_proc, extend; cbn.
    do 2 (split; [done|]). split; [lia|]. intros j.
    destruct ((p_next (proc_of s) <=? j) && (j <? p_next (proc_of s) + (count - i))) eqn:Ej; [lia|done].
Qed.

Lemma append_ok c count (s : kst sup) :
  0 ≤ count → 0 ≤ p_next (proc_of s) → p_next (proc_of s) + count ≤ 10000 →
  ∃ p, append c count s = Ok tt (set_proc p s) ∧ same_proc p (extend c count (proc_of s)).
Proof.
  intros Hc Hn Hb. destruct (append_loop c count (S (Z.to_nat count)) 0 s) as (p & Hrun & Hp); try lia.
  exists p. split; [done|]. by replace (count - 0) with count in Hp by lia.
Qed.
(** ** Shrinking by whole blocks *)

(** The stock [uvmdealloc] "deallocates user pages to bring the process size
    from oldsz to newsz": it unmaps and frees the pages between the two sizes,
    both rounded up, and returns the new size.  The [uvmunmap] it calls is the
    repository's. *)
Class DeallocLaw : Prop := {
  uvmdealloc_unmaps pt oldsz newsz s :
    0 ≤ newsz < oldsz → oldsz + 4095 < 2 ^ 64 → oldsz - newsz < 2 ^ 31 →
    uvmdealloc pt oldsz newsz s =
    (if PGROUNDUP newsz <? PGROUNDUP oldsz
     then uvmunmap pt (PGROUNDUP newsz) ((PGROUNDUP oldsz - PGROUNDUP newsz) / PGSIZE) 1;; mret newsz
     else mret newsz) s;
}.

(** The size of some blocks, and what the record says of them. *)
Definition total (its : list item) : Z := foldr (λ it t, it_size it + t) 0 its.
Definition block_chr (it : item) : Z := if it_super it then chr_super else chr_page.

(** The blocks are the last ones of the record, the highest first. *)
Fixpoint recorded (p : gproc) (i : Z) (its : list item) : Prop :=
  match its with
  | [] => True
  | it :: its => 0 ≤ i < 10000 ∧ p_record p i = block_chr it ∧ recorded p (i - 1) its
  end.

(** They lie one below the other, down from [top]. *)
Fixpoint below (top : Z) (its : list item) : Prop :=
  match its with
  | [] => True
  | it :: its => it_va it + it_size it = top ∧ below (it_va it) its
  end.

(** The user memory of [pt] up to [top] ends with the mapped blocks [its], the
    highest first; they are in use, and neither their memory nor the page
    tables overlap. *)
Record top_blocks (pt : Z) (m : mem) (a : super_spec) (top : Z) (its : list item) : Prop := {
  tb_below : below top its;
  tb_items it : it ∈ its → item_ok pt m a it;
  tb_separate : all_separate pt m its;
}.

Lemma it_size_page it : it_size it mod 4096 = 0 ∧ 4096 ≤ it_size it ≤ 2 ^ 21.
Proof. unfold it_size. by destruct (it_super it). Qed.

Lemma total_cons it its : total (it :: its) = it_size it + total its.
Proof. done. Qed.

Lemma total_nonneg its : 0 ≤ total its.
Proof.
  induction its as [|it its IH]; [done|]. rewrite total_cons. pose proof (it_size_page it). lia.
Qed.

Lemma PGROUNDUP_block sz b :
  b mod 4096 = 0 → 0 ≤ b ≤ sz → sz + 4095 < 2 ^ 64 → PGROUNDUP (sz - b) = PGROUNDUP sz - b.
Proof. intros. rewrite !PGROUNDUP_spec by lia. dlia. Qed.

Lemma srep_set_proc p (s : kst sup) a : srep s a → srep (set_proc p s) a.
Proof. destruct s as [m h c []]. by intros [? ? ? ? ?]. Qed.

Section shrink.
Context `{!DeallocLaw}.

(** What giving back a list of blocks leaves behind. *)
Record given_back (its : list item) (s : kst sup) (a : super_spec) (s' : kst sup) : Prop := {
  gb_rep : srep s' (free_items 1 its a);
  gb_held : held s' = held s;
  gb_console : console s' = console s;
  gb_entries it : it ∈ its → load64 (kmem s') (it_pte it) = 0;
  gb_others : agree_on (λ b, ∀ it, it ∈ its → ¬ holds it b ∧ ¬ in_range (it_pte it) 8 b)
                (kmem s) (kmem s');
}.

Lemma given_back_cons pt it its (s s1 s2 : kst sup) a :
  all_separate pt (kmem s) (it :: its) →
  given_back [it] s a s1 → given_back its s1 (free_item 1 it a) s2 → given_back (it :: its) s a s2.
Proof.
  intros Hsep [Hr1 Hh1 Hc1 He1 Ho1] [Hr2 Hh2 Hc2 He2 Ho2]. constructor; try done; try congruence.
  - intros it2 [->|Hit2]%elem_of_cons; [|by apply He2].
    rewrite (entry_kept pt (kmem s) (kmem s1) (kmem s2) it its Hsep Ho2).
    apply He1. by apply list_elem_of_singleton.
  - intros b Hb. rewrite Ho2 by (intros it2 Hit2; apply Hb; by apply elem_of_cons; right).
    apply Ho1. intros it2 ->%list_elem_of_singleton. apply Hb. by apply elem_of_cons; left.
Qed.

Lemma given_back_set_proc p its (s s' : kst sup) a :
  given_back its s a s' → given_back its s a (set_proc p s').
Proof. intros []. constructor; try done. by apply srep_set_proc. Qed.

(** One block. *)
Lemma dealloc_block pt sz it (s : kst sup) a :
  item_ok pt (kmem s) a it → it_va it + it_size it = PGROUNDUP sz →
  srep s a → sunlocked s → it_size it ≤ sz → sz + 4095 < 2 ^ 64 →
  ∃ s', uvmdealloc pt sz (sz - it_size it) s = Ok (sz - it_size it) s' ∧ proc_of s' = proc_of s ∧
    given_back [it] s a s'.
Proof.
  intros Hit Hva Hrep Hul Hle Hb. destruct (it_size_page it) as [Hal Hsz].
  rewrite uvmdealloc_unmaps, PGROUNDUP_block by lia.
  rewrite (proj2 (Z.ltb_lt _ _)) by lia. cbn iota.
  replace (PGROUNDUP sz - it_size it) with (it_va it) by lia.
  replace (PGROUNDUP sz - it_va it) with (it_size it) by lia.
  pose proof (io_va _ _ _ _ Hit). pose proof MAXVA_bound.
  destruct (unmap_round pt 1 (it_va it + it_size it) s a it Hit Hrep Hul ltac:(lia))
    as (s1 & Hrun & Hul1 & (Hh & Hc & Hx) & Hz & Hrep1 & Hag).
  exists s1. split; [|split; [exact Hx|]].
  - unfold uvmunmap, PGSIZE. assert (Hva4 : it_va it mod 4096 = 0).
    { pose proof (PGROUNDUP_spec sz ltac:(lia) Hb). dlia. }
    rewrite Hva4. cbn [Z.eqb negb]. rewrite bind_assoc. erewrite bind_Ok by reflexivity. cbv beta zeta.
    rewrite u64_small by dlia. replace (it_va it + it_size it / 4096 * 4096) with (it_va it + it_size it) by dlia.
    rewrite loop_S. unfold mbind at 1, M_bind at 1. unfold mbind at 1, M_bind at 1. rewrite Hrun.
    replace (Z.to_nat (it_size it / 4096)) with (S (pred (Z.to_nat (it_size it / 4096)))) by dlia.
    rewrite loop_S. unfold uvmunmap_body at 2. by rewrite Z.ltb_irrefl.
  - constructor; try done.
    + by intros it2 ->%list_elem_of_singleton.
    + intros b Hb'. apply Hag, Hb'. by apply list_elem_of_singleton.
Qed.

(** A block as large as what remains to be freed, or smaller, is freed. *)
Lemma shrink_block it n sz i (s : kst sup) a :
  item_ok (p_pagetable (proc_of s)) (kmem s) a it → it_va it + it_size it = PGROUNDUP sz →
  srep s a → sunlocked s →
  recorded (proc_of s) i [it] → - 2 ^ 31 ≤ n → n + it_size it ≤ 0 →
  it_size it ≤ sz < 2 ^ 63 →
  ∃ s', shrink_body (i, n, sz) s =
    (if n + it_size it =? 0 then mod_p (with_next i);; mret (inr (sz - it_size it))
     else mret (inl (i - 1, n + it_size it, sz - it_size it))) s' ∧ proc_of s' = proc_of s ∧
    given_back [it] s a s'.
Proof.
  intros Hit Hva Hrep Hul (Hi & Hr & _) Hn Hle Hsz. destruct (it_size_page it) as [_ Hb].
  destruct (dealloc_block (p_pagetable (proc_of s)) sz it s a Hit Hva Hrep Hul ltac:(lia) ltac:(lia))
    as (s' & Hrun & Hp & Hgb).
  exists s'. split; [|done]. unfold shrink_body. rewrite (proj2 (Z.leb_le 0 i)) by lia. cbn [negb]. cbv zeta.
  kstep. unfold record_get. rewrite (proj2 (Z.leb_le 0 i)), (proj2 (Z.ltb_lt i _)) by lia. cbn [andb].
  kstep. change (srest (ext s)) with (proc_of s). rewrite Hr. unfold block_chr, it_size in *.
  destruct (it_super it).
  - rewrite Z.eqb_refl, s32_small by lia. rewrite (proj2 (Z.ltb_ge 0 _)) by lia.
    rewrite (u64_small (sz - SUPERPGSIZE)) by lia. by rewrite (bind_Ok _ _ _ _ _ Hrun).
  - cbn [Z.eqb Pos.eqb chr_page chr_super]. rewrite (u64_small (sz - PGSIZE)) by lia.
    rewrite (bind_Ok _ _ _ _ _ Hrun), s32_small by lia. by rewrite (proj2 (Z.ltb_ge 0 _)) by lia.
Qed.

Lemma shrink_blocks fuel : ∀ its i sz (s : kst sup) a,
  its ≠ [] → top_blocks (p_pagetable (proc_of s)) (kmem s) a (PGROUNDUP sz) its →
  srep s a → sunlocked s →
  recorded (proc_of s) i its → total its < 2 ^ 31 → total its ≤ sz < 2 ^ 63 →
  (length its ≤ fuel)%nat →
  ∃ s', loop fuel shrink_body (i, - total its, sz) s = Ok (sz - total its) s' ∧
    proc_of s' = with_next (i - Z.of_nat (length its) + 1) (proc_of s) ∧ given_back its s a s'.
Proof.
  induction fuel as [|fuel IH]; intros [|it its] i sz s a Hne Htb Hrep Hul Hrec Ht Hsz Hf;
    try done; [cbn in Hf; lia|].
  destruct Htb as [[Hva Hbel] Hits Hsep]. destruct Hrec as (Hi & Hr & Hrec).
  rewrite total_cons in *. pose proof (total_nonneg its). destruct (it_size_page it) as [Hal Hb].
  destruct (shrink_block it (- (it_size it + total its)) sz i s a) as (s1 & Hrun & Hp & Hgb);
    [apply Hits; by apply elem_of_cons; left|done..|lia|lia|lia|].
  destruct (blocks_step (p_pagetable (proc_of s)) 1 (kmem s) (kmem s1) a it its) as [Hits1 Hsep1]; [|done..|].
  { intros b Hb'. apply (gb_others _ _ _ _ Hgb). by intros it2 ->%list_elem_of_singleton. }
  rewrite loop_S. unfold mbind at 1, M_bind at 1. rewrite Hrun.
  replace (- (it_size it + total its) + it_size it) with (- total its) by lia.
  destruct its as [|it' its].
  - change (- total []) with 0. change (total []) with 0. cbn [Z.eqb]. eexists.
    split; [erewrite bind_Ok by apply mod_p_run; unfold mret, M_ret; f_equal; lia|].
    split; [|by apply given_back_set_proc].
    cbn [proc_of set_proc set_ext ext on_proc srest length]. change (srest (ext s1)) with (proc_of s1).
    rewrite Hp. f_equal. by replace (i - Z.of_nat 1 + 1) with i by lia.
  - pose proof (total_nonneg its). rewrite (total_cons it' its) in *. destruct (it_size_page it') as [_ Hb'].
    rewrite (proj2 (Z.eqb_neq _ 0)) by lia. cbn beta iota.
    destruct (IH (it' :: its) (i - 1) (sz - it_size it) s1 (free_item 1 it a)) as (s2 & Hrun2 & Hp2 & Hgb2);
      rewrite ?Hp, ?total_cons; try done; try lia.
    { rewrite PGROUNDUP_block by lia. replace (PGROUNDUP sz - it_size it) with (it_va it) by lia. done. }
    { apply Hgb. }
    { unfold sunlocked. by rewrite (gb_held _ _ _ _ Hgb). }
    { cbn [length] in *. lia. }
    exists s2. split; [|split; [|by eapply given_back_cons]].
    + unfold mret, M_ret. rewrite total_cons in Hrun2. rewrite Hrun2. f_equal. lia.
    + rewrite Hp2, Hp. f_equal. cbn [length]. lia.
Qed.
End shrink.

(** ** Main theorems *)

(** C17: growing appends to the record what was allocated.  When
    [sbrksuperuvmalloc] fails, [growproc] returns -1 and the process keeps its
    size and record; when it succeeds and the record has room, it returns 0,
    the size is the one reported, and the record continues with a '0' per
    leading page, a '1' per superpage and a '0' per trailing page. *)
Theorem growproc_grows n (s s1 : kst sup) h :
  0 < n →
  sbrksuperuvmalloc (p_pagetable (proc_of s)) (p_sz (proc_of s)) (u64 (p_sz (proc_of s) + n)) PTE_W s
    = Ok h s1 →
  (h_state h = 0 → growproc n s = Ok (-1) s1) ∧
  (h_state h ≠ 0 → 0 ≤ h_startpages h → 0 ≤ h_superpages h → 0 ≤ h_endpages h →
   let p1 := proc_of s1 in
   let a := p_next p1 in
   let b := a + h_startpages h in
   let c := b + h_superpages h in
   let d := c + h_endpages h in
   0 ≤ a → d ≤ 10000 →
   ∃ p, growproc n s = Ok 0 (set_proc p s1) ∧ p_sz p = u64 (h_sz h) ∧ p_next p = d ∧
     (∀ j, a ≤ j < b → p_record p j = chr_page) ∧ (∀ j, b ≤ j < c → p_record p j = chr_super) ∧
     (∀ j, c ≤ j < d → p_record p j = chr_page) ∧ (∀ j, j < a → p_record p j = p_record p1 j)).
Proof.
  intros Hn Hrun. unfold growproc. rewrite (proj2 (Z.ltb_lt 0 n)) by done. split.
  - intros Hst. do 2 kstep. change (srest (ext s)) with (proc_of s).
    rewrite (bind_Ok _ _ _ _ _ Hrun). by rewrite Hst.
  - cbv zeta. intros Hst Hs Hp He Ha Hd.
    destruct (append_ok chr_page (h_startpages h) s1) as (q1 & Hr1 & Hq1); [lia..|].
    assert (Hn1 : p_next q1 = p_next (proc_of s1) + h_startpages h) by apply Hq1.
    destruct (append_ok chr_super (h_superpages h) (set_proc q1 s1)) as (q2 & Hr2 & Hq2); [cbn; lia..|].
    assert (Hn2 : p_next q2 = p_next q1 + h_superpages h) by apply Hq2.
    destruct (append_ok chr_page (h_endpages h) (set_proc q2 (set_proc q1 s1))) as (q3 & Hr3 & Hq3); [cbn; lia..|].
    assert (Hn3 : p_next q3 = p_next q2 + h_endpages h) by apply Hq3.
    exists (with_sz (u64 (h_sz h)) q3). split.
    + do 2 kstep. change (srest (ext s)) with (proc_of s). rewrite (bind_Ok _ _ _ _ _ Hrun).
      rewrite (proj2 (Z.eqb_neq _ 0)) by done.
      by rewrite (bind_Ok _ _ _ _ _ Hr1), (bind_Ok _ _ _ _ _ Hr2), (bind_Ok _ _ _ _ _ Hr3).
    + assert (Hrec : ∀ j, p_record q3 j =
        if (p_next q2 <=? j) && (j <? p_next q2 + h_endpages h) then chr_page
        else if (p_next q1 <=? j) && (j <? p_next q1 + h_superpages h) then chr_super
        else if (p_next (proc_of s1) <=? j) && (j <? p_next (proc_of s1) + h_startpages h) then chr_page
        else p_record (proc_of s1) j).
      { intros j. destruct Hq1 as (_ & _ & _ & R1), Hq2 as (_ & _ & _ & R2), Hq3 as (_ & _ & _ & R3).
        rewrite R3. cbn [extend p_record proc_of set_proc set_ext ext on_proc srest p_next]. rewrite R2.
        cbn [extend p_record proc_of set_proc set_ext ext on_proc srest p_next]. by rewrite R1. }
      cbn [with_sz p_sz p_next p_record]. split; [done|]. split; [lia|].
      repeat split; intros j Hj; rewrite Hrec; repeat case_bool; done || lia.
Qed.

(** The shrinking branch of [growproc]. *)
Lemma growproc_shrink_run n (s s' : kst sup) sz :
  n < 0 →
  loop (S (Z.to_nat (p_next (proc_of s)))) shrink_body (p_next (proc_of s) - 1, n, p_sz (proc_of s)) s = Ok sz s' →
  growproc n s = Ok 0 (set_proc (with_sz sz (proc_of s')) s').
Proof.
  intros Hn Hrun. unfold growproc. rewrite (proj2 (Z.ltb_ge 0 _)), (proj2 (Z.ltb_lt _ 0)) by lia.
  erewrite bind_Ok by reflexivity. cbv beta. rewrite bind_assoc. erewrite bind_Ok by reflexivity. cbv beta.
  change (srest (ext s)) with (proc_of s). change (getx _ s) with (Ok (p_sz (proc_of s)) s).
  by rewrite (bind_Ok _ _ _ _ _ Hrun), (bind_Ok _ _ _ _ _ (mod_p_run _ _)).
Qed.

(** C16: shrinking by whole blocks is exact.  If the end of the record
    describes the mapped blocks at the top of the process, pages and
    superpages, and they add up to the request, [growproc] gives back exactly
    those: it returns 0; the entry of every block is cleared and its memory
    goes to its own free list; no byte outside those blocks and entries
    changes; the size is smaller by the request, and the record is shorter by
    the number of blocks and otherwise unchanged. *)
Theorem growproc_shrinks_blocks `{!DeallocLaw} its (s : kst sup) a :
  let p := proc_of s in
  its ≠ [] → top_blocks (p_pagetable p) (kmem s) a (PGROUNDUP (p_sz p)) its →
  srep s a → sunlocked s → total its < 2 ^ 31 → total its ≤ p_sz p < 2 ^ 63 →
  recorded p (p_next p - 1) its → Z.of_nat (length its) ≤ p_next p →
  ∃ s', growproc (- total its) s = Ok 0 s' ∧
    proc_of s' = with_sz (p_sz p - total its) (with_next (p_next p - Z.of_nat (length its)) p) ∧
    srep s' (free_items 1 its a) ∧ held s' = held s ∧ console s' = console s ∧
    (∀ it, it ∈ its → load64 (kmem s') (it_pte it) = 0) ∧
    agree_on (λ b, ∀ it, it ∈ its → ¬ holds it b ∧ ¬ in_range (it_pte it) 8 b) (kmem s) (kmem s').
Proof.
  cbv zeta. intros Hne Htb Hrep Hul Ht Hsz Hrec Hlen.
  assert (Hpos : 0 < total its).
  { destruct its as [|it its]; [done|]. rewrite total_cons.
    pose proof (total_nonneg its). destruct (it_size_page it). lia. }
  destruct (shrink_blocks (S (Z.to_nat (p_next (proc_of s)))) its (p_next (proc_of s) - 1)
    (p_sz (proc_of s)) s a Hne Htb Hrep Hul Hrec Ht Hsz) as (s' & Hrun & Hp & Hgb); [lia|].
  exists (set_proc (with_sz (p_sz (proc_of s) - total its) (proc_of s')) s').
  split; [by apply growproc_shrink_run; [lia|]|]. split.
  { cbn [proc_of set_proc set_ext ext on_proc srest]. rewrite Hp. f_equal.
    by replace (p_next (proc_of s) - 1 - Z.of_nat (length its) + 1)
      with (p_next (proc_of s) - Z.of_nat (length its)) by lia. }
  by destruct (given_back_set_proc (with_sz (p_sz (proc_of s) - total its) (proc_of s')) its s s' a Hgb).
Qed.

(** C18: asking for less than a page back costs a page and a record entry too
    many.  With a page as the last block, [growproc] of any -4096 < n < 0
    returns 0, frees the whole page, and drops two entries of the record, the
    page's and the one below it; when the page was the only block, [next]
    becomes -1 and the next successful growth with a leading page writes
    outside the record. *)
Theorem growproc_shrink_part_page `{!DeallocLaw} n (s : kst sup) a it :
  it_super it = false → item_ok (p_pagetable (proc_of s)) (kmem s) a it →
  it_va it + it_size it = PGROUNDUP (p_sz (proc_of s)) → srep s a → sunlocked s →
  -4096 < n < 0 → 1 ≤ p_next (proc_of s) ≤ 10000 →
  p_record (proc_of s) (p_next (proc_of s) - 1) = chr_page → 4096 ≤ p_sz (proc_of s) < 2 ^ 63 →
  ∃ s', growproc n s = Ok 0 s' ∧ p_sz (proc_of s') = p_sz (proc_of s) - 4096 ∧
    srep s' (spec_kfree (it_pa it) a) ∧ load64 (kmem s') (it_pte it) = 0 ∧
    p_next (proc_of s') = p_next (proc_of s) - 2 ∧
    (p_next (proc_of s) = 1 → ∀ m h s1, 0 < m →
       sbrksuperuvmalloc (p_pagetable (proc_of s')) (p_sz (proc_of s'))
         (u64 (p_sz (proc_of s') + m)) PTE_W s' = Ok h s1 →
       proc_of s1 = proc_of s' → h_state h ≠ 0 → 0 < h_startpages h →
       growproc m s' = Undef "p->record").
Proof.
  intros Hpage Hit Hva Hrep Hul Hn Hk Hr Hsz.
  assert (Hblk : it_size it = PGSIZE) by (unfold it_size; by rewrite Hpage).
  destruct (dealloc_block (p_pagetable (proc_of s)) (p_sz (proc_of s)) it s a) as (s1 & Hrun & Hp & Hgb);
    [done..|rewrite Hblk; unfold PGSIZE; lia|lia|]. rewrite Hblk in Hrun.
  set (i := p_next (proc_of s) - 1) in *.
  assert (Hloop : loop (S (Z.to_nat (p_next (proc_of s)))) shrink_body (i, n, p_sz (proc_of s)) s =
                  Ok (p_sz (proc_of s) - PGSIZE) (set_proc (with_next (i - 1) (proc_of s1)) s1)).
  { rewrite loop_S. unfold shrink_body at 2. rewrite (proj2 (Z.leb_le 0 i)) by (unfold i; lia). cbn [negb]. cbv zeta.
    rewrite bind_assoc. erewrite bind_Ok by reflexivity. cbv beta. unfold record_get.
    rewrite (proj2 (Z.leb_le 0 i)), (proj2 (Z.ltb_lt i _)) by (unfold i; lia). cbn [andb].
    rewrite bind_assoc. erewrite bind_Ok by reflexivity. cbv beta. change (srest (ext s)) with (proc_of s). rewrite Hr.
    change (chr_page =? chr_super) with false. cbn iota.
    rewrite (u64_small (_ - PGSIZE)) by (unfold PGSIZE; lia).
    rewrite bind_assoc, (bind_Ok _ _ _ _ _ Hrun), s32_small by (unfold PGSIZE; lia).
    rewrite (proj2 (Z.ltb_lt 0 _)) by (unfold PGSIZE; lia).
    by rewrite bind_assoc, (bind_Ok _ _ _ _ _ (mod_p_run _ _)). }
  eexists. split; [exact (growproc_shrink_run n s _ _ ltac:(lia) Hloop)|]. cbn -[Z.sub load64].
  split; [done|]. split.
  { pose proof (gb_rep _ _ _ _ Hgb) as Hr1. unfold free_items, free_item in Hr1. cbn [fold_left Z.eqb] in Hr1.
    rewrite Hpage in Hr1. by apply srep_set_proc, srep_set_proc. }
  split; [apply (gb_entries _ _ _ _ Hgb); by apply list_elem_of_singleton|]. split; [unfold i; lia|]. intros H1' m h s2 Hm Hsb Hp2 Hst Hstart.
  set (s' := set_proc _ _) in *. unfold growproc. rewrite (proj2 (Z.ltb_lt 0 m)) by done.
  erewrite bind_Ok by reflexivity. cbv beta. erewrite bind_Ok by reflexivity. cbv beta.
  change (srest (ext s')) with (proc_of s'). rewrite (bind_Ok _ _ _ _ _ Hsb). cbv zeta.
  rewrite (proj2 (Z.eqb_neq (h_state h) 0)) by done. unfold append. unfold mbind at 1, M_bind at 1.
  rewrite loop_S. unfold append_body at 2. rewrite (proj2 (Z.ltb_lt 0 _)) by done. cbn [negb].
  rewrite bind_assoc. erewrite bind_Ok by reflexivity. cbv beta. change (srest (ext s2)) with (proc_of s2).
  rewrite Hp2. unfold record_set, s'. cbn -[Z.sub Z.leb].
  by rewrite (proj2 (Z.leb_gt 0 (i - 1))) by (unfold i; lia).
Qed.

(** Memory that is not in the record cannot be given back.  With an empty
    record (a process that has only what [exec] gave it) [growproc] of any
    negative size changes nothing and still returns 0. *)
Theorem growproc_shrink_unrecorded n (s : kst sup) :
  n < 0 → p_next (proc_of s) ≤ 0 → growproc n s = Ok 0 s.
Proof.
  intros Hn Hk. rewrite (growproc_shrink_run n s s (p_sz (proc_of s)) Hn).
  - f_equal. transitivity (set_proc (proc_of s) s); [|apply set_proc_same].
    f_equal. unfold with_sz. by destruct (proc_of s).
  - rewrite loop_S. unfold shrink_body at 2.
    by rewrite (proj2 (Z.leb_gt 0 _)) by lia.
Qed.
End super_proc.
