(* ===== verification/SuperTrap.v ===== *)
(** * Traps of the superpage kernel (lab3 "use superpages", kernel/trap.c)

    [usertrap] of this lab adds to the stock handler two cases for load and
    store page faults, which end the process without a message. *)

From S2P Require Import Prelude Memory Machine Trap.

Section super_trap.
Context `{Riscv, MemLayout} {X : Type} `{TrapEnv X, TrapLayout}.

Definition usertrap : M (kst X) unit :=
  ss ← reg sstatus;
  (if has_flag ss SSTATUS_SPP then panic "usertrap: not from user mode" else mret tt);;
  w_stvec kernelvec;;
  pc ← reg sepc;
  tf_store TF_EPC pc;;
  scause ← reg scause;
  which_dev ←
    (if scause =? 8 then
       k ← killed;
       (if (k : bool) then exit_with (-1) else mret tt);;
       epc ← tf_load TF_EPC;
       tf_store TF_EPC (epc + 4);;
       intr_on;;
       syscall;;
       mret 0
     else
       which_dev ← devintr;
       if negb (which_dev =? 0) then mret which_dev
       else if scause =? 13 then
         va ← reg stval;
         (if KERNBASE <=? va then exit_with (-1) else setkilled);;
         mret which_dev
       else if scause =? 15 then
         va ← reg stval;
         (if MAXVA <=? va then exit_with (-1) else setkilled);;
         mret which_dev
       else
         cause ← reg Trap.scause;
         pid ← getx p_pid;
         printf "usertrap(): unexpected scause 0x%lx pid=%d\n" [PInt cause; PInt pid];;
         pc ← reg sepc;
         va ← reg stval;
         printf "            sepc=0x%lx stval=0x%lx\n" [PInt pc; PInt va];;
         setkilled;;
         mret which_dev);
  k ← killed;
  (if (k : bool) then exit_with (-1) else mret tt);;
  (if which_dev =? 2 then yield else mret tt);;
  usertrapret.

(** The two lines printed about an exception no case handles. *)
Definition complaint (s : kst X) : list (string * list parg) :=
  let h := regs (ext s) in
  [("usertrap(): unexpected scause 0x%lx pid=%d\n", [PInt (scause h); PInt (p_pid (ext s))]);
   ("            sepc=0x%lx stval=0x%lx\n", [PInt (sepc h); PInt (stval h)])].

(** C19: what each kind of trap from user mode does.  A system call of a live
    process runs [syscall] with the program counter after the [ecall]; one of a
    killed process ends it without the call.  Every exception ends the process
    with status -1, no memory but the saved program counter changed, with two
    lines on the console unless it is a load or a store page fault.  After an
    interrupt a live process gives up the hart exactly when it was the timer's. *)
Theorem usertrap_dispatch (s : kst X) :
  has_flag (sstatus (regs (ext s))) SSTATUS_SPP = false →
  let cause := scause (regs (ext s)) in
  (cause = 8 → p_killed (ext s) ≠ 0 → usertrap s = Exited (-1) (entered s)) ∧
  (cause = 8 → p_killed (ext s) = 0 →
   usertrap s = (intr_on;; syscall;; trap_end 0) (advanced s) ∧
   load64 (kmem (advanced s)) (tf_addr TF_EPC s) = u64 (sepc (regs (ext s)) + 4)) ∧
  (cause ≠ 8 → is_interrupt cause = false →
   ∃ s', usertrap s = Exited (-1) s' ∧ kmem s' = kmem (entered s) ∧
     console s' = console s ++ (if (cause =? 13) || (cause =? 15) then [] else complaint (entered s))) ∧
  (cause ≠ 8 → ∀ w s', devintr (entered s) = Ok w s' → w ≠ 0 →
   usertrap s = if p_killed (ext s') =? 0 then ((if w =? 2 then yield else mret tt);; usertrapret) s'
                else Exited (-1) s').
Proof.
  intros Hu. cbv zeta. unfold usertrap. rewrite enter_run by done. destruct (entered_regs s) as (Hc & _ & _ & Hk & _).
  split; [|split; [|split]].
  - intros H8 Hkl. erewrite bind_Ok by reflexivity. rewrite Hc, H8. by apply ecall_killed.
  - intros H8 Hkl. erewrite bind_Ok by reflexivity. rewrite Hc, H8. split; [|apply advanced_epc].
    by apply ecall_runs.
  - intros H8 Hint. erewrite bind_Ok by reflexivity. rewrite Hc, (proj2 (Z.eqb_neq (scause _) 8)) by done.
    rewrite bind_assoc. erewrite bind_Ok by (apply devintr_exception; by rewrite Hc). cbn [negb Z.eqb].
    set (s1 := entered s) in *. change (console s) with (console s1).
    destruct (scause (regs (ext s)) =? 13) eqn:E13; [|destruct (scause (regs (ext s)) =? 15) eqn:E15]; cbn [orb].
    1, 2: rewrite bind_assoc; erewrite bind_Ok by reflexivity; cbv beta; case_bool;
      [exists s1; by rewrite app_nil_r|].
    1, 2: rewrite bind_assoc, (bind_Ok _ _ _ _ _ (setkilled_spec _)); eexists;
      split; [by apply trap_end_killed, p_killed_mark|]; by rewrite app_nil_r.
    set (s2 := KSt (kmem s1) (held s1) (console s1 ++ complaint s1) (ext s1)).
    exists (set_ext (mark_killed (ext s2)) s2). split; [|done].
    rewrite <-(trap_end_killed _ 0) by apply p_killed_mark.
    transitivity (((setkilled;; mret 0) ≫= trap_end) s2).
    + unfold s2, complaint. change (?l ++ [?a; ?b]) with (l ++ [a] ++ [b]). rewrite app_assoc. reflexivity.
    + by rewrite bind_assoc, (bind_Ok _ _ _ _ _ (setkilled_spec _)).
  - intros H8 w s' Hdev Hw. erewrite bind_Ok by reflexivity. rewrite Hc, (proj2 (Z.eqb_neq (scause _) 8)) by done.
    rewrite bind_assoc, (bind_Ok _ _ _ _ _ Hdev), (proj2 (Z.eqb_neq w 0)) by done. cbn [negb].
    change ((mret w ≫= trap_end) s' = if p_killed (ext s') =? 0 then ((if w =? 2 then yield else mret tt);; usertrapret) s'
      else Exited (-1) s').
    change ((mret w ≫= trap_end) s') with (trap_end w s').
    destruct (p_killed (ext s') =? 0) eqn:Ek; bool_to_Prop;
      [by apply trap_end_alive|by apply trap_end_killed].
Qed.
End super_trap.
