(* ===== verification/Alarm.v ===== *)
(** * Periodic alarms (lab4 "alarm": kernel/trap.c, kernel/sysproc.c)

    A process asks with [sigalarm] for its handler to be called every [ticks]
    timer interrupts; [usertrap] saves the trapframe in a page of its own and
    diverts the program counter; [sigreturn] puts the trapframe back. *)

From S2P Require Import Prelude Memory Machine Trap.

(** The fields this lab adds to struct proc, the global [ticks], and the rest
    of the state. *)
Record aproc {P : Type} := AProc {
  p_ticks : Z; p_tickcount : Z; p_handler : Z; p_originaltrapframe : Z; p_run : Z;
  g_ticks : Z;
  arest : P;
}.
Arguments aproc P : clear implicits.

Section alarm.
Context {P : Type} `{!TrapState P}.

Local Abbreviation aproc := (aproc P).

Definition set_alarm (ticks handler : Z) (x : aproc) : aproc :=
  AProc _ ticks (p_tickcount x) handler (p_originaltrapframe x) (p_run x) (g_ticks x) (arest x).
Definition set_tickcount (v : Z) (x : aproc) : aproc :=
  AProc _ (p_ticks x) v (p_handler x) (p_originaltrapframe x) (p_run x) (g_ticks x) (arest x).
Definition set_run (v : Z) (x : aproc) : aproc :=
  AProc _ (p_ticks x) (p_tickcount x) (p_handler x) (p_originaltrapframe x) v (g_ticks x) (arest x).
Definition set_arest (r : P) (x : aproc) : aproc :=
  AProc _ (p_ticks x) (p_tickcount x) (p_handler x) (p_originaltrapframe x) (p_run x) (g_ticks x) r.

#[export] Instance alarm_trap_state : TrapState aproc.
Proof.
  refine {|
    regs x := regs (arest x);
    set_regs h x := set_arest (set_regs h (arest x)) x;
    p_killed x := p_killed (arest x);
    p_pid x := p_pid (arest x);
    p_trapframe x := p_trapframe (arest x);
    p_pagetable x := p_pagetable (arest x);
    mark_killed x := set_arest (mark_killed (arest x)) x;
  |}; intros; cbn.
  - apply regs_set.
  - apply p_killed_set.
  - apply p_trapframe_set.
  - apply p_pagetable_set.
  - apply p_killed_mark.
Defined.

(** The stock [argint] and [argaddr] fetch an argument of the system call
    from the trapframe, as an [int] and as a [uint64]. *)
Class SyscallArgs := {
  argraw : Z → kst aproc → Z;
  argint : Z → M (kst aproc) Z;
  argaddr : Z → M (kst aproc) Z;
  argint_spec n s : argint n s = Ok (s32 (argraw n s)) s;
  argaddr_spec n s : argaddr n s = Ok (u64 (argraw n s)) s;
}.

Context `{!TrapEnv aproc, TrapLayout, !SyscallArgs}.

(** ** Operations *)

(** [p->tickcount += 1] and what follows, at a timer interrupt. *)
Definition alarm_tick : M (kst aproc) unit :=
  ticks ← getx p_ticks;
  run ← getx p_run;
  if (0 <? ticks) && (run =? 0) then
    count ← getx p_tickcount;
    modx (set_tickcount (s32 (count + 1)));;
    count ← getx p_tickcount;
    ticks ← getx p_ticks;
    if count =? ticks then
      modx (set_run 1);;
      modx (set_tickcount 0);;
      saved ← getx p_originaltrapframe;
      tf ← getx p_trapframe;
      memmoveM saved tf TF_SIZE;;
      h ← getx p_handler;
      tf_store TF_EPC h
    else mret tt
  else mret tt.

Definition usertrap : M (kst aproc) unit :=
  ss ← reg sstatus;
  (if has_flag ss SSTATUS_SPP then panic "usertrap: not from user mode" else mret tt);;
  w_stvec kernelvec;;
  pc ← reg sepc;
  tf_store TF_EPC pc;;
  scause ← reg scause;
  which_dev ←
    (if scause =? 8 then
       k ← killed;
       (if (k : bool) then exit_with (-1) else mret tt);;
       epc ← tf_load TF_EPC;
       tf_store TF_EPC (epc + 4);;
       intr_on;;
       syscall;;
       mret 0
     else
       which_dev ← devintr;
       if negb (which_dev =? 0) then mret which_dev
       else
         cause ← reg Trap.scause;
         pid ← getx p_pid;
         printf "usertrap(): unexpected scause 0x%lx pid=%d\n" [PInt cause; PInt pid];;
         pc ← reg sepc;
         va ← reg stval;
         printf "            sepc=0x%lx stval=0x%lx\n" [PInt pc; PInt va];;
         setkilled;;
         mret which_dev);
  k ← killed;
  (if (k : bool) then exit_with (-1) else mret tt);;
  (if which_dev =? 2 then alarm_tick;; yield else mret tt);;
  usertrapret.

Definition tickslock : lock := ("time", 0).

Definition sys_uptime : M (kst aproc) Z :=
  acquire tickslock;;
  xticks ← getx g_ticks;
  release tickslock;;
  mret (u64 (u32 xticks)).

(** [sys_sigalarm] once its arguments are fetched; [fnaddr] is unsigned. *)
Definition sigalarm (ticks fnaddr : Z) : M (kst aproc) Z :=
  if (ticks <? 0) || (fnaddr <? 0) then mret (u64 (-1))
  else
    modx (set_alarm ticks fnaddr);;
    mret 0.

Definition sys_sigalarm : M (kst aproc) Z :=
  ticks ← argint 0;
  fnaddr ← argaddr 1;
  sigalarm ticks fnaddr.

Definition sys_sigreturn : M (kst aproc) Z :=
  tf ← getx p_trapframe;
  saved ← getx p_originaltrapframe;
  memmoveM tf saved TF_SIZE;;
  modx (set_run 0);;
  tf_load TF_A0.

(** ** What a tick does *)

Definition fired (s : kst aproc) : kst aproc :=
  let x := ext s in
  set_ext (set_tickcount 0 (set_run 1 x))
    (set_mem (store64 (memmove (kmem s) (p_originaltrapframe x) (p_trapframe x) TF_SIZE)
                (tf_addr TF_EPC s) (p_handler x)) s).

Definition counted (s : kst aproc) : kst aproc :=
  set_ext (set_tickcount (s32 (p_tickcount (ext s) + 1)) (ext s)) s.

Definition armed (s : kst aproc) : bool := (0 <? p_ticks (ext s)) && (p_run (ext s) =? 0).
Definition due (s : kst aproc) : bool := s32 (p_tickcount (ext s) + 1) =? p_ticks (ext s).

Lemma alarm_tick_run s :
  alarm_tick s = Ok tt (if armed s then if due s then fired s else counted s else s).
Proof.
  unfold alarm_tick, armed, due. do 2 kstep.
  destruct ((0 <? p_ticks (ext s)) && (p_run (ext s) =? 0)); [|done].
  do 4 kstep. by destruct (_ =? p_ticks (ext s)).
Qed.

(** The saved page is apart from the trapframe. *)
Definition pages_apart (s : kst aproc) : Prop :=
  let tf := p_trapframe (ext s) in let o := p_originaltrapframe (ext s) in
  tf + TF_SIZE ≤ o ∨ o + TF_SIZE ≤ tf.

Lemma fired_saves s off :
  pages_apart s → 0 ≤ off < TF_SIZE →
  kmem (fired s) (p_originaltrapframe (ext s) + off) = kmem s (p_trapframe (ext s) + off).
Proof.
  intros Hap Hoff. unfold fired, pages_apart, tf_addr in *; cbn in *. pose proof TF_EPC_in.
  rewrite store64_ne by (unfold in_range; lia). rewrite memmove_in by (unfold in_range; lia).
  f_equal. lia.
Qed.

Lemma fired_epc s : load64 (kmem (fired s)) (tf_addr TF_EPC s) = u64 (p_handler (ext s)).
Proof. apply load64_store64_eq. Qed.

Lemma fired_others s :
  pages_apart s →
  agree_on (λ b, ¬ in_range (tf_addr TF_EPC s) 8 b ∧
                 ¬ in_range (p_originaltrapframe (ext s)) TF_SIZE b) (kmem s) (kmem (fired s)).
Proof.
  intros Hap b [Hb1 Hb2]. unfold fired; cbn. by rewrite store64_ne, memmove_ne.
Qed.

(** ** Sequences of ticks and returns *)

(** What happens to the alarm of a process: a timer interrupt arrives while it
    runs, its handler returns, or the process runs and memory becomes [m]. *)
Inductive event := Tick | Return | Run (m : mem).

(** Every tick is observed: the state it found and the state it left. *)
Definition run_event (e : event) : M (kst aproc) (list (kst aproc * kst aproc)) :=
  match e with
  | Tick =>
      before ← gets (λ s, s);
      alarm_tick;;
      after ← gets (λ s, s);
      mret [(before, after)]
  | Return => sys_sigreturn;; mret []
  | Run m => modify (set_mem m);; mret []
  end.

Fixpoint run_events (es : list event) : M (kst aproc) (list (kst aproc * kst aproc)) :=
  match es with
  | [] => mret []
  | e :: es => o ← run_event e; os ← run_events es; mret (o ++ os)
  end.

(** The bytes of a trapframe kept at [p]. *)
Definition frame_at (s : kst aproc) (p : Z) : list Z := load_bytes (kmem s) p (Z.to_nat TF_SIZE).

(** A tick found the handler not running. *)
Definition idle (o : kst aproc * kst aproc) : bool := p_run (ext o.1) =? 0.

(** A tick called the handler: it was not running and is now, the program
    counter of the trapframe is the handler, and the saved page holds the
    trapframe the tick found. *)
Definition called (o : kst aproc * kst aproc) : bool :=
  let '(s, s') := o in
  (p_run (ext s) =? 0) && negb (p_run (ext s') =? 0) &&
  (load64 (kmem s') (tf_addr TF_EPC s') =? u64 (p_handler (ext s))) &&
  bool_decide (frame_at s' (p_originaltrapframe (ext s)) = frame_at s (p_trapframe (ext s))).

Definition idle_ticks : list (kst aproc * kst aproc) → Z := countb idle.
Definition calls : list (kst aproc * kst aproc) → Z := countb called.

(** A tick that does not call the handler leaves the program counter, the
    saved trapframe and the rest of memory alone; one that finds the handler
    running changes nothing at all. *)
Definition quiet (o : kst aproc * kst aproc) : Prop :=
  let '(s, s') := o in
  (called o = false → kmem s' = kmem s) ∧ (p_run (ext s) ≠ 0 → s' = s).

Record periodic (n : Z) (s : kst aproc) : Prop := {
  pe_ticks : p_ticks (ext s) = n;
  pe_count : 0 ≤ p_tickcount (ext s) < n;
  pe_apart : pages_apart s;
}.

Lemma sigreturn_run s :
  ∃ v s', sys_sigreturn s = Ok v s' ∧
    kmem s' = memmove (kmem s) (p_trapframe (ext s)) (p_originaltrapframe (ext s)) TF_SIZE ∧
    ext s' = set_run 0 (ext s) ∧ v = load64 (kmem s') (tf_addr TF_A0 s).
Proof. unfold sys_sigreturn. do 2 eexists. split; [by do 4 kstep|done]. Qed.

Lemma fired_called s : pages_apart s → p_run (ext s) = 0 → called (s, fired s) = true.
Proof.
  intros Hap Hr. unfold called. rewrite Hr. cbn [Z.eqb andb].
  change (p_run (ext (fired s))) with 1. change (tf_addr TF_EPC (fired s)) with (tf_addr TF_EPC s).
  rewrite fired_epc, Z.eqb_refl. cbn [Z.eqb negb andb]. apply bool_decide_eq_true.
  apply list_eq. intros k. unfold frame_at. destruct (decide (k < Z.to_nat TF_SIZE)%nat) as [Hk|Hk].
  - rewrite !load_bytes_lookup by done. f_equal. apply fired_saves; [done|lia].
  - rewrite !lookup_ge_None_2 by (rewrite load_bytes_length; lia). done.
Qed.

Lemma tick_not_called s s' : p_run (ext s') = 0 ∨ p_run (ext s) ≠ 0 → called (s, s') = false.
Proof.
  intros [Hr|Hr]; unfold called; [rewrite Hr; by rewrite andb_false_r|].
  by rewrite (proj2 (Z.eqb_neq _ 0) Hr).
Qed.

(** One event: the count goes up by one per idle tick, down by [n] per call. *)
Lemma run_event_periodic n e (s : kst aproc) :
  0 < n < 2 ^ 31 → periodic n s →
  ∃ o s', run_event e s = Ok o s' ∧ periodic n s' ∧
    p_tickcount (ext s') = p_tickcount (ext s) + idle_ticks o - n * calls o ∧
    Forall quiet o.
Proof.
  intros Hn [Ht Hc Hap]. destruct e as [| |m]; cbn [run_event].
  - erewrite bind_Ok by reflexivity. cbv beta. rewrite (bind_Ok _ _ _ _ _ (alarm_tick_run s)).
    set (s' := if armed s then if due s then fired s else counted s else s).
    exists [(s, s')], s'. split; [done|]. unfold idle_ticks, calls, idle. cbn [countb fst].
    subst s'. unfold armed, due. rewrite Ht, (proj2 (Z.ltb_lt 0 n)), s32_small by lia. cbn [andb].
    destruct (p_run (ext s) =? 0) eqn:Er; [destruct (_ =? n) eqn:Ed|]; bool_to_Prop.
    + rewrite fired_called by done. split; [constructor; [done|cbn; lia|done]|].
      split; [cbn; lia|]. constructor; [|constructor]. split; [|by intros ?].
      by rewrite fired_called.
    + rewrite tick_not_called by (by left). unfold counted. cbn [ext set_ext set_tickcount p_tickcount].
      rewrite s32_small by lia.
      split; [constructor; [done|cbn; lia|done]|]. split; [cbn; lia|].
      constructor; [|constructor]. by split; [|intros ?].
    + rewrite tick_not_called by (by right). split; [done|]. split; [lia|].
      constructor; [|constructor]. by split.
  - destruct (sigreturn_run s) as (v & s' & Hrun & _ & Hx & _). exists [], s'.
    rewrite (bind_Ok _ _ _ _ _ Hrun). split; [done|].
    split; [constructor; unfold pages_apart; by rewrite Hx|]. rewrite Hx. cbn. split; [lia|constructor].
  - exists [], (set_mem m s). split; [done|]. split; [done|]. split; [cbn; lia|constructor].
Qed.

Lemma run_events_periodic n es : ∀ (s : kst aproc),
  0 < n < 2 ^ 31 → periodic n s →
  ∃ os s', run_events es s = Ok os s' ∧ periodic n s' ∧
    p_tickcount (ext s') = p_tickcount (ext s) + idle_ticks os - n * calls os ∧
    Forall quiet os.
Proof.
  induction es as [|e es IH]; intros s Hn Hp.
  { exists [], s. split; [done|]. split; [done|]. split; [cbn; lia|constructor]. }
  destruct (run_event_periodic n e s Hn Hp) as (o & s1 & Hrun1 & Hp1 & Hc1 & Hb1).
  destruct (IH s1 Hn Hp1) as (os & s2 & Hrun2 & Hp2 & Hc2 & Hb2).
  exists (o ++ os), s2. cbn [run_events].
  rewrite (bind_Ok _ _ _ _ _ Hrun1), (bind_Ok _ _ _ _ _ Hrun2). split; [done|]. split; [done|].
  unfold idle_ticks, calls in *. rewrite !countb_app. split; [lia|]. by apply Forall_app.
Qed.

(** ** The end of the trap with an alarm *)

Definition trap_end_alarm (w : Z) : M (kst aproc) unit :=
  k ← killed;
  (if (k : bool) then exit_with (-1) else mret tt);;
  (if w =? 2 then alarm_tick;; yield else mret tt);;
  usertrapret.

(** A timer interrupt of a live process: [s1] is the state after [devintr],
    which leaves the trapframe alone. *)
Record timer_trap (s s1 : kst aproc) : Prop := {
  tt_user : has_flag (sstatus (regs (ext s))) SSTATUS_SPP = false;
  tt_cause : scause (regs (ext s)) ≠ 8;
  tt_dev : devintr (entered s) = Ok 2 s1;
  tt_alive : p_killed (ext s1) = 0;
  tt_trapframe : p_trapframe (ext s1) = p_trapframe (ext s);
  tt_frame : agree_on (in_range (p_trapframe (ext s)) TF_SIZE) (kmem (entered s)) (kmem s1);
}.

Lemma usertrap_timer s s1 :
  timer_trap s s1 →
  usertrap s =
  (yield;; usertrapret) (if armed s1 then if due s1 then fired s1 else counted s1 else s1).
Proof.
  intros []. unfold usertrap. rewrite enter_run by done. destruct (entered_regs s) as (Hc & _).
  erewrite bind_Ok by reflexivity. rewrite Hc, (proj2 (Z.eqb_neq (scause _) 8)) by done.
  rewrite bind_assoc, (bind_Ok _ _ _ _ _ tt_dev0). cbn [negb Z.eqb].
  change ((mret 2 ≫= trap_end_alarm) s1 =
    (yield;; usertrapret) (if armed s1 then if due s1 then fired s1 else counted s1 else s1)).
  change ((mret 2 ≫= trap_end_alarm) s1) with (trap_end_alarm 2 s1). unfold trap_end_alarm.
  rewrite (bind_Ok _ _ _ _ _ (killed_spec _)), tt_alive0. cbn [negb Z.eqb Pos.eqb].
  erewrite bind_Ok by reflexivity. cbv beta. rewrite bind_assoc.
  by rewrite (bind_Ok _ _ _ _ _ (alarm_tick_run s1)).
Qed.

(** ** Main theorems *)

(** C13: an interrupted computation resumes as if the handler had not run.  At
    the tick that is due, [usertrap] returns to user space with the program
    counter at the handler; whatever the handler then does, as long as the
    kernel's saved page is untouched, [sys_sigreturn] puts back every byte of
    the trapframe, the interrupted program counter included, returns the
    interrupted [a0], so that the system call's own result register is
    unchanged too, and lets the alarm fire again. *)
Theorem sigreturn_resumes (s s1 : kst aproc) :
  timer_trap s s1 → armed s1 = true → due s1 = true → pages_apart s1 →
  let tf := p_trapframe (ext s) in
  let saved := p_originaltrapframe (ext s1) in
  ∃ s2, usertrap s = (yield;; usertrapret) s2 ∧
    load64 (kmem s2) (tf + TF_EPC) = u64 (p_handler (ext s1)) ∧ p_run (ext s2) = 1 ∧
    ∀ s3, p_trapframe (ext s3) = tf → p_originaltrapframe (ext s3) = saved →
      agree_on (in_range saved TF_SIZE) (kmem s2) (kmem s3) →
      ∃ s4, sys_sigreturn s3 = Ok (load64 (kmem (entered s)) (tf + TF_A0)) s4 ∧
        (∀ off, 0 ≤ off < TF_SIZE → kmem s4 (tf + off) = kmem (entered s) (tf + off)) ∧
        load64 (kmem s4) (tf + TF_EPC) = u64 (sepc (regs (ext s))) ∧
        agree_on (λ b, ¬ in_range tf TF_SIZE b) (kmem s3) (kmem s4) ∧ p_run (ext s4) = 0.
Proof.
  intros Htt Har Hdue Hap tf saved. exists (fired s1). split; [|split; [|split; [done|]]].
  { by rewrite (usertrap_timer s s1 Htt), Har, Hdue. }
  { pose proof (fired_epc s1) as He. unfold tf_addr in He. by rewrite (tt_trapframe s s1 Htt) in He. }
  intros s3 Htf3 Hsv3 Hag. destruct (sigreturn_run s3) as (v & s4 & Hrun & Hm & Hx & Hv).
  rewrite Htf3, Hsv3 in Hm. unfold tf_addr in Hv. rewrite Htf3 in Hv.
  assert (Hbytes : ∀ off, 0 ≤ off < TF_SIZE → kmem s4 (tf + off) = kmem (entered s) (tf + off)).
  { intros off Hoff. rewrite Hm, memmove_in by (unfold in_range; lia).
    replace (tf + off - tf) with off by lia. rewrite (Hag (saved + off)) by (unfold in_range; lia).
    unfold saved. rewrite fired_saves by done. rewrite (tt_trapframe s s1 Htt).
    rewrite (tt_frame s s1 Htt); [done|]. unfold in_range. fold tf. lia. }
  assert (Hword : ∀ f, 0 ≤ f → f + 8 ≤ TF_SIZE → load64 (kmem s4) (tf + f) = load64 (kmem (entered s)) (tf + f)).
  { intros f Hf0 Hf. apply load64_ext. intros b Hb. unfold in_range in Hb.
    replace b with (tf + (b - tf)) by lia. apply Hbytes. lia. }
  exists s4. split; [rewrite Hrun, Hv, Hword by apply TF_A0_in; done|]. split; [done|]. split; [|split].
  - rewrite Hword by apply TF_EPC_in. apply load64_store64_eq.
  - intros b Hb. rewrite Hm. by apply memmove_ne.
  - by rewrite Hx.
Qed.

(** Ticks that are not due only count.  A timer interrupt that finds no
    alarm set, or the handler still running, changes nothing; one that is not
    the last of the period adds one to the count; in neither case is the
    trapframe touched, so the handler is never re-entered. *)
Theorem usertrap_tick_not_due (s s1 : kst aproc) :
  timer_trap s s1 → armed s1 && due s1 = false →
  ∃ s2, usertrap s = (yield;; usertrapret) s2 ∧ kmem s2 = kmem s1 ∧
    (p_ticks (ext s1) ≤ 0 ∨ p_run (ext s1) ≠ 0 → s2 = s1) ∧
    (0 < p_ticks (ext s1) → p_run (ext s1) = 0 →
     ext s2 = set_tickcount (s32 (p_tickcount (ext s1) + 1)) (ext s1)).
Proof.
  intros Htt Hno. rewrite (usertrap_timer s s1 Htt).
  exists (if armed s1 then if due s1 then fired s1 else counted s1 else s1). split; [done|].
  destruct (armed s1) eqn:Ea; [cbn [andb] in Hno; rewrite Hno|].
  - split; [done|]. unfold armed in Ea. bool_to_Prop. split; [intros [?|?]; lia|done].
  - split; [done|]. split; [done|]. unfold armed in Ea. intros H1 H2.
    rewrite (proj2 (Z.ltb_lt 0 _)), H2 in Ea by done. discriminate Ea.
Qed.

(** C14: the handler is called once every [n] ticks.  From an alarm of period
    [n] with its count at zero, through any sequence of timer interrupts,
    returns of the handler and changes of memory in between, the number of
    calls, ticks that divert the trapframe's program counter to the handler
    and save the trapframe as it was, is the number of interrupts that found
    the handler not running divided by [n], and the remainder is the count.
    Every other tick leaves memory, the program counter and the saved frame
    included, as it was, and one that finds the handler running changes
    nothing. *)
Theorem alarm_every_n_ticks n es (s : kst aproc) :
  0 < n < 2 ^ 31 → p_ticks (ext s) = n → p_tickcount (ext s) = 0 → pages_apart s →
  ∃ os s', run_events es s = Ok os s' ∧
    calls os = idle_ticks os / n ∧ p_tickcount (ext s') = idle_ticks os mod n ∧
    ∀ t t', (t, t') ∈ os →
      (called (t, t') = false → kmem t' = kmem t) ∧ (p_run (ext t) ≠ 0 → t' = t).
Proof.
  intros Hn Ht Hc Hap. destruct (run_events_periodic n es s Hn) as (os & s' & Hrun & [_ Hp _] & Hcnt & Hb).
  { constructor; [done|lia|done]. }
  exists os, s'. split; [done|]. rewrite Hc in Hcnt.
  split; [|split].
  - apply Z.div_unique with (p_tickcount (ext s')); lia.
  - apply Z.mod_unique with (calls os); lia.
  - intros t t' Hin. rewrite Forall_forall in Hb. exact (Hb _ Hin).
Qed.

(** [sys_sigalarm] accepts any handler.  It returns -1 and changes nothing
    exactly when the interval is negative (the second test compares an unsigned
    address with zero); otherwise it sets the interval and the handler, returns
    0, and keeps the count of the ticks so far. *)
Theorem sys_sigalarm_sets (s : kst aproc) :
  let n := s32 (argraw 0 s) in
  let fnaddr := u64 (argraw 1 s) in
  (n < 0 → sys_sigalarm s = Ok (2 ^ 64 - 1) s) ∧
  (0 ≤ n → ∃ s', sys_sigalarm s = Ok 0 s' ∧ kmem s' = kmem s ∧ ext s' = set_alarm n fnaddr (ext s) ∧
     p_tickcount (ext s') = p_tickcount (ext s)).
Proof.
  cbv zeta. unfold sys_sigalarm.
  rewrite (bind_Ok _ _ _ _ _ (argint_spec 0 s)), (bind_Ok _ _ _ _ _ (argaddr_spec 1 s)). unfold sigalarm.
  split; intros Hn.
  - by rewrite (proj2 (Z.ltb_lt _ 0)).
  - pose proof (u64_range (argraw 1 s)). rewrite !(proj2 (Z.ltb_ge _ 0)) by lia. cbn [orb].
    eexists. split; [reflexivity|]. done.
Qed.

(** C15: a shorter alarm set late never rings.  If [sigalarm] sets an interval
    no larger than the number of ticks already counted, the count has passed
    the interval, and none of the following ticks calls the handler, until the
    count overflows. *)
Theorem sigalarm_shortened_misses n fnaddr (s : kst aproc) k :
  0 < n ≤ p_tickcount (ext s) → 0 ≤ fnaddr → p_run (ext s) = 0 →
  p_tickcount (ext s) + Z.of_nat k < 2 ^ 31 →
  ∃ os s', (sigalarm n fnaddr;; run_events (replicate k Tick)) s = Ok os s' ∧
    length os = k ∧ calls os = 0 ∧
    kmem s' = kmem s ∧ p_tickcount (ext s') = p_tickcount (ext s) + Z.of_nat k.
Proof.
  intros Hn Hf Hr Hk. unfold sigalarm. rewrite !(proj2 (Z.ltb_ge _ 0)) by lia. cbn [orb].
  rewrite bind_assoc. erewrite bind_Ok by reflexivity. erewrite bind_Ok by reflexivity.
  set (s0 := set_ext (set_alarm n fnaddr (ext s)) s).
  change (kmem s) with (kmem s0). change (p_tickcount (ext s)) with (p_tickcount (ext s0)) in *.
  change (p_run (ext s)) with (p_run (ext s0)) in Hr. assert (Ht : p_ticks (ext s0) = n) by done.
  change (p_tickcount (ext s)) with (p_tickcount (ext s0)). clearbody s0. revert s0 Hn Hr Hk Ht.
  induction k as [|k IH]; intros s0 Hn Hr Hk Ht.
  { exists [], s0. cbn [replicate Z.of_nat]. do 4 (split; [done|]). lia. }
  assert (Htick : run_event Tick s0 = Ok [(s0, counted s0)] (counted s0)).
  { cbn [run_event]. erewrite bind_Ok by reflexivity. cbv beta.
    rewrite (bind_Ok _ _ _ _ _ (alarm_tick_run s0)). unfold armed, due.
    by rewrite Ht, Hr, (proj2 (Z.ltb_lt 0 n)), s32_small, (proj2 (Z.eqb_neq _ n)) by lia. }
  assert (Hc : p_tickcount (ext (counted s0)) = p_tickcount (ext s0) + 1)
    by (unfold counted; cbn; by rewrite s32_small by lia).
  destruct (IH (counted s0)) as (os & s' & Hrun & Hl & Hcalls & Hm & Hc'); [lia|done|lia|done|].
  exists ((s0, counted s0) :: os), s'. cbn [replicate run_events].
  rewrite (bind_Ok _ _ _ _ _ Htick), (bind_Ok _ _ _ _ _ Hrun). split; [done|].
  split; [cbn; by rewrite Hl|]. split; [|split; [done|lia]].
  unfold calls in *. cbn [countb]. by rewrite tick_not_called, Hcalls by (by left).
Qed.
End alarm.
