(* ===== verification/TrapExample.v ===== *)
(** * Traps on a concrete hart

    The trap handlers of the superpage and the alarm kernels applied to one
    process: its theorems' hypotheses hold together. *)

From S2P Require Import Prelude Memory Machine Trap CowExample SuperTrap Alarm.

#[local] Existing Instance small_layout.

(** ** Superpage kernel *)

#[export] Instance plain_env : TrapEnv toy_proc.
Proof.
  refine {|
    killed s := Ok (negb (p_killed (ext s) =? 0)) s;
    setkilled s := Ok tt (set_ext (mark_killed (ext s)) s);
    devintr s := Ok (if is_interrupt (scause (regs (ext s))) then 2 else 0) s;
    intr_on := mret tt;
    syscall := mret tt;
    yield := mret tt;
    usertrapret := mret tt;
  |}; try done. intros s Hs. by rewrite Hs.
Defined.

Definition plain (cause va : Z) : kst toy_proc :=
  KSt (λ _, 0) ∅ [] (ToyProc (Hart 0 0 64 cause va) 0).

(** A load fault and an illegal instruction: one line of difference. *)
Lemma usertrap_dispatch_witness :
  (∃ s', SuperTrap.usertrap (plain 13 8192) = Exited (-1) s' ∧ console s' = []) ∧
  (∃ s', SuperTrap.usertrap (plain 2 8192) = Exited (-1) s' ∧ length (console s') = 2%nat) ∧
  load64 (kmem (advanced (plain 8 0))) (tf_addr TF_EPC (plain 8 0)) = 68.
Proof.
  split; [|split].
  - destruct (usertrap_dispatch (plain 13 8192) ltac:(done)) as (_ & _ & Hex & _).
    destruct (Hex ltac:(done) ltac:(done)) as (s' & H1 & _ & H2). exists s'. exact (conj H1 H2).
  - destruct (usertrap_dispatch (plain 2 8192) ltac:(done)) as (_ & _ & Hex & _).
    destruct (Hex ltac:(done) ltac:(done)) as (s' & H1 & _ & H2). exists s'. split; [exact H1|by rewrite H2].
  - destruct (usertrap_dispatch (plain 8 0) ltac:(done)) as (_ & Hec & _). by apply Hec.
Defined.

(** ** Alarm kernel *)

#[export] Instance alarm_env : TrapEnv (aproc toy_proc).
Proof.
  refine {|
    killed s := Ok (negb (p_killed (ext s) =? 0)) s;
    setkilled s := Ok tt (set_ext (mark_killed (ext s)) s);
    devintr s := Ok (if is_interrupt (scause (regs (ext s))) then 2 else 0) s;
    intr_on := mret tt;
    syscall := mret tt;
    yield := mret tt;
    usertrapret := mret tt;
  |}; try done. intros s Hs. by rewrite Hs.
Defined.

(** A system call with arguments 3 and 4096. *)
#[export] Instance alarm_args : SyscallArgs (P := toy_proc).
Proof.
  refine {|
    argraw n _ := if n =? 0 then 3 else 4096;
    argint n := mret (s32 (if n =? 0 then 3 else 4096));
    argaddr n := mret (u64 (if n =? 0 then 3 else 4096));
  |}; done.
Defined.

(** The timer interrupts a process at 64 whose alarm has period [n] and has
    counted [c] ticks; its handler is at 4096. *)
Definition ringing (n c run : Z) : kst (aproc toy_proc) :=
  KSt (λ _, 0) ∅ [] (AProc _ n c 4096 61440 run 0 (ToyProc (Hart 0 0 64 (2 ^ 63 + 5) 0) 0)).

Lemma ringing_timer n c run : timer_trap (ringing n c run) (entered (ringing n c run)).
Proof. constructor; done. Qed.

Lemma sigreturn_resumes_witness :
  ∃ s2, Alarm.usertrap (ringing 2 1 0) = (yield;; usertrapret) s2 ∧
    load64 (kmem s2) (57344 + 24) = 4096 ∧
    ∃ v s4, sys_sigreturn s2 = Ok v s4 ∧ load64 (kmem s4) (57344 + 24) = 64.
Proof.
  destruct (sigreturn_resumes (ringing 2 1 0) (entered (ringing 2 1 0)) (ringing_timer 2 1 0))
    as (s2 & H1 & H2 & _ & Hret); [done|done|by left|].
  exists s2. split; [exact H1|]. split; [exact H2|].
  assert (Hs2 : ext s2 = ext (fired (entered (ringing 2 1 0)))).
  { symmetry in H1.
    change (Ok tt s2 = Ok tt (fired (entered (ringing 2 1 0)))) in H1. by injection H1 as ->. }
  destruct (Hret s2) as (s4 & H3 & _ & H4 & _); [by rewrite Hs2|by rewrite Hs2|reflexivity|].
  eexists _, s4. split; [exact H3|exact H4].
Defined.

Lemma usertrap_tick_not_due_witness :
  ∃ s2, Alarm.usertrap (ringing 2 1 1) = (yield;; usertrapret) s2 ∧ s2 = entered (ringing 2 1 1).
Proof.
  destruct (usertrap_tick_not_due (ringing 2 1 1) (entered (ringing 2 1 1)) (ringing_timer 2 1 1))
    as (s2 & H1 & _ & H2 & _); [done|].
  exists s2. split; [exact H1|]. apply H2. by right.
Defined.

Lemma alarm_every_n_ticks_witness :
  ∃ os s', run_events [Tick; Tick; Run (λ _, 7); Tick; Return; Tick] (ringing 2 0 0) = Ok os s' ∧
    idle_ticks os = 3 ∧ calls os = 1 ∧ p_tickcount (ext s') = 1.
Proof.
  destruct (alarm_every_n_ticks 2 [Tick; Tick; Run (λ _, 7); Tick; Return; Tick] (ringing 2 0 0))
    as (os & s' & H1 & H2 & H3 & _); [done|done|done|by left|].
  assert (Hidle : idle_ticks os = 3).
  { apply (f_equal (λ r, match r with Ok os _ => idle_ticks os | _ => 0 end)) in H1.
    rewrite <-H1. vm_compute. reflexivity. }
  rewrite Hidle in H2, H3. exists os, s'. exact (conj H1 (conj Hidle (conj H2 H3))).
Defined.

Lemma sigalarm_shortened_misses_witness :
  ∃ os s', (sigalarm 3 4096;; run_events (replicate 4 Tick)) (ringing 10 5 0) = Ok os s' ∧
    calls os = 0 ∧ p_tickcount (ext s') = 9.
Proof.
  destruct (sigalarm_shortened_misses 3 4096 (ringing 10 5 0) 4) as (os & s' & H1 & _ & H2 & _ & H3);
    [done|done|done|done|].
  exists os, s'. exact (conj H1 (conj H2 H3)).
Defined.

Lemma sys_sigalarm_sets_witness :
  ∃ s', sys_sigalarm (ringing 10 5 0) = Ok 0 s' ∧ p_ticks (ext s') = 3 ∧ p_tickcount (ext s') = 5.
Proof.
  destruct (sys_sigalarm_sets (ringing 10 5 0)) as [_ Hset].
  destruct (Hset ltac:(done)) as (s' & H1 & _ & H2 & H3).
  exists s'. split; [exact H1|]. split; [by rewrite H2|exact H3].
Defined.
