(* ===== verification/SuperExample.v ===== *)
(** * A small superpage machine

    A concrete instance of the interfaces of the superpage development, and
    its theorems applied to it: two pages below fifty-two superpages, and
    Sv39 page tables written out as words of memory.  It shows that the
    hypotheses of those theorems hold together. *)

From S2P Require Import Prelude Memory Machine FreeList SuperAlloc Walk Printer SuperVm SuperProc.

#[local] Existing Instance sv39.

#[export] Instance super_layout : MemLayout.
Proof.
  refine {|
    KERNEND := 2097152 - 8192;
    PHYSTOP := 53 * 2097152;
    KERNBASE := 0;
    MAXVA := 2 ^ 38;
    TRAMPOLINE := 2 ^ 38 - 4096;
    TRAPFRAME := 2 ^ 38 - 2 * 4096;
    USYSCALL := 2 ^ 38 - 3 * 4096;
  |}; done.
Defined.

#[export] Instance toy_leaf : RiscvLeaf.
Proof.
  refine {| PTE_LEAF v := has_flag v PTE_R || has_flag v PTE_W || has_flag v PTE_X |}. done.
Defined.

(** Enough of the stock functions: [mappages] succeeds, [uvmdealloc] unmaps
    and frees the pages between the two sizes. *)
#[export] Instance toy_stock : StockVm (sup (P := gproc)).
Proof.
  refine {|
    mappages _ _ _ _ _ := mret 0;
    uvmdealloc pt oldsz newsz :=
      if PGROUNDUP newsz <? PGROUNDUP oldsz
      then uvmunmap pt (PGROUNDUP newsz) ((PGROUNDUP oldsz - PGROUNDUP newsz) / PGSIZE) 1;; mret newsz
      else mret newsz
  |}.
Defined.

#[export] Instance toy_dealloc : DeallocLaw.
Proof. by constructor. Qed.

Definition words (ents : list (Z * Z)) : mem := foldr (λ e m, store64 m e.1 e.2) (λ _, 0) ents.

Definition machine (ents : list (Z * Z)) (small super : Z) (p : gproc) : kst (sup (P := gproc)) :=
  KSt (words ents) ∅ [] (Sup small super p).

Definition init_proc : gproc := GProc 8192 4096 (λ _, 48) 1.

Lemma machine_unlocked ents f1 f2 p : sunlocked (machine ents f1 f2 p).
Proof. split; apply not_elem_of_empty. Qed.

(** Nothing free. *)
Lemma machine_full ents p : srep (machine ents 0 0 p) (SuperSpec [] []).
Proof.
  constructor; try done.
  - split; constructor.
  - split; constructor.
  - intros ? q Hp. by apply not_elem_of_nil in Hp.
Qed.

(** ** The allocators *)

Lemma kinit_partitions_witness :
  ∃ s a, kinit (KSt (λ _, 0) ∅ [] (Sup 0 0 init_proc)) = Ok tt s ∧ srep s a ∧
    length (super a) = 52%nat.
Proof.
  destruct (kinit_partitions (λ _, 0) ∅ [] init_proc) as (s & a & H1 & H2 & _ & _ & _ & H3).
  - reflexivity.
  - by vm_compute.
  - exists s, a. exact (conj H1 (conj H2 H3)).
Defined.

Definition some_ops : list sop := [SAlloc; SSuperAlloc; SFree 2093056; SSuperFree 109051904; SAlloc].

Lemma super_allocator_refines_witness :
  ∃ s, (kinit;; run_sops some_ops) (KSt (λ _, 0) ∅ [] (Sup 0 0 init_proc)) =
    Ok [2093056; 109051904; 0; 0; 2093056] s.
Proof.
  edestruct (super_allocator_refines (λ _, 0) ∅ [] init_proc some_ops) as (s & Hrun & _).
  - reflexivity.
  - by vm_compute.
  - vm_compute. reflexivity.
  - exists s. exact Hrun.
Defined.

Lemma superkfree_guards_witness :
  superkfree 1 (machine [] 0 0 init_proc) =
  Panic "superkfree invalid page alignment" (machine [] 0 0 init_proc).
Proof. apply (superkfree_guards (machine [] 0 0 init_proc) 1); [by intros [? _]|reflexivity]. Defined.

(** ** Page tables *)

(** Two free pages and an empty root table. *)
Definition two_pages : kst (sup (P := gproc)) := machine [(2088960, 2093056)] 2088960 0 init_proc.

Lemma two_pages_rep : srep two_pages (SuperSpec [2088960; 2093056] []).
Proof.
  constructor.
  - by vm_compute.
  - done.
  - split; [by apply (bool_decide_unpack _); vm_compute|].
    repeat constructor; by vm_compute.
  - split; constructor.
  - intros p q _ Hq. by apply not_elem_of_nil in Hq.
Qed.

Lemma walk_alloc_roundtrip_witness :
  ∃ r s' a', walk 4096 0 1 two_pages = Ok r s' ∧ r ≠ 0 ∧ walk 4096 0 0 s' = Ok r s' ∧ srep s' a'.
Proof.
  destruct (walk_alloc_roundtrip 4096 0 two_pages (SuperSpec [2088960; 2093056] [])) as [[Hm _]|Hok].
  - done.
  - split.
    + change (tables 2 (kmem two_pages) 4096 0) with [4096]. apply NoDup_singleton.
    + change (tables 2 (kmem two_pages) 4096 0) with [4096]. intros q Hq.
      apply list_elem_of_singleton in Hq as ->. split; [done|]. split; [done|].
      intros b Hb [(p & Hp & Hpb)|(p & Hp & _)]; [|by apply not_elem_of_nil in Hp].
      unfold in_range in *. cbn in Hp. rewrite !elem_of_cons, elem_of_nil in Hp. lia.
  - apply two_pages_rep.
  - apply machine_unlocked.
  - by vm_compute in Hm.
  - destruct Hok as (_ & r & s' & a' & H1 & H2 & _ & _ & H3 & H4 & _).
    assert (Hr : r ≠ 0) by (apply H3; by vm_compute).
    exists r, s', a'. exact (conj H1 (conj Hr (conj (H4 Hr) H2))).
Defined.

(** A root table at 4096 whose first entry names a table at 8192. *)
Definition with_table : kst (sup (P := gproc)) := machine [(4096, 2049)] 0 0 init_proc.

Lemma supermappages_maps_witness :
  ∃ s', supermappages 4096 0 SUPERPGSIZE 2097152 22 with_table = Ok 0 s' ∧
    walk 4096 4097 0 s' = Ok 8192 s' ∧ PTE2PA (load64 (kmem s') 8192) = 2097152.
Proof.
  destruct (supermappages_maps 4096 0 2097152 22 with_table) as (s' & H1 & _ & H2 & H3 & _);
    [by vm_compute..|].
  exists s'. split; [exact H1|]. split; [|exact H3]. apply (H2 4097). by vm_compute.
Defined.

(** One free superpage, and an empty root table. *)
Definition one_super : kst (sup (P := gproc)) := machine [] 0 2097152 init_proc.

Lemma supermappages_fresh_region_witness :
  ∃ s', supermappages 4096 0 SUPERPGSIZE 4194304 22 one_super = Ok 0 s' ∧
    walk 4096 0 0 s' = Ok 4096 s' ∧ PTE2PA (load64 (kmem s') 4096) = 2097152.
Proof.
  destruct (supermappages_fresh_region 4096 0 4194304 22 one_super (SuperSpec [] [2097152]) 2097152 [])
    as (s' & H1 & H2 & H3 & _); [by vm_compute|done..| | |done|done|done| |].
  - constructor; try done.
    + split; constructor.
    + split; [apply NoDup_singleton|]. repeat constructor; by vm_compute.
    + intros p q Hp. by apply not_elem_of_nil in Hp.
  - apply machine_unlocked.
  - cbn. intros q Hq. apply list_elem_of_singleton in Hq as ->. left. by vm_compute.
  - exists s'. exact (conj H1 (conj H2 H3)).
Defined.

(** A superpage at address 0 and a page right after it, nothing free. *)
Definition mapped_region : kst (sup (P := gproc)) :=
  machine [(4096, 2049); (8192, 524567); (8200, 3073); (12288, 522263)] 0 0 init_proc.
Definition region : list item :=
  [Item 0 true 8192 2097152; Item 2097152 false 12288 2088960].

Lemma region_touches it b :
  it ∈ region → touches 4096 (kmem mapped_region) it b →
  in_range 4096 8 b ∨ in_range (if it_super it then 8192 else 8200) 8 b ∨ in_range (it_pte it) 8 b.
Proof.
  unfold region. rewrite !elem_of_cons, elem_of_nil. intros [->|[->|[]]] [Hr|Hr]; [|by auto| |by auto].
  all: destruct (reads_ptes 2 (kmem mapped_region) _ b _ Hr) as (q & Hq & Hb); revert Hq.
  1: replace (ptes 2 _ _ _) with [4096; 8192] by (by vm_compute).
  2: replace (ptes 2 _ _ _) with [4096; 8200] by (by vm_compute).
  all: rewrite !elem_of_cons, elem_of_nil; intros [->|[->|[]]]; auto.
Qed.

Ltac region_bytes :=
  unfold holds, it_size, in_range, SUPERPGSIZE, PGSIZE in *; cbn [it_pa it_super it_pte] in *; lia.

Lemma mapped_region_ok : region_ok 4096 (kmem mapped_region) (SuperSpec [] []) 0 region.
Proof.
  assert (Hown : ∀ b, ¬ sup_owns (SuperSpec [] []) b)
    by (intros b [(p & Hp & _)|(p & Hp & _)]; by apply not_elem_of_nil in Hp).
  assert (H1 : Item 0 true 8192 2097152 ∈ region) by (by apply elem_of_cons; left).
  assert (H2 : Item 2097152 false 12288 2088960 ∈ region)
    by (apply elem_of_cons; right; by apply elem_of_cons; left).
  constructor.
  - by vm_compute.
  - intros it Hit. pose proof (λ b, region_touches it b Hit) as Ht. unfold region in Hit.
    rewrite !elem_of_cons, elem_of_nil in Hit. destruct Hit as [->|[->|[]]]; constructor;
      lazymatch goal with
      | |- _ = _ => by vm_compute
      | |- _ ≠ _ => by vm_compute
      | |- in_use _ _ => split; [done|]; split; [by apply not_elem_of_nil|
                           intros q Hq; by apply not_elem_of_nil in Hq]
      | |- 0 ≤ _ < _ => done
      | |- _ => intros b Hb; first [by apply Hown | specialize (Ht b Hb); region_bytes]
      end.
  - split; [|split; [|done]].
    + intros it' Hit'. apply list_elem_of_singleton in Hit' as ->.
      split; constructor; intros b Hb; try (apply region_touches in Hb; [|done]); region_bytes.
    + intros it' Hit'. by apply not_elem_of_nil in Hit'.
Qed.

Lemma uvmunmap_region_witness :
  ∃ s', uvmunmap 4096 0 513 1 mapped_region = Ok tt s' ∧
    srep s' (SuperSpec [2088960] [2097152]) ∧ load64 (kmem s') 8192 = 0.
Proof.
  destruct (uvmunmap_region 4096 0 513 1 mapped_region (SuperSpec [] []) region)
    as (s' & H1 & H2 & _ & H3 & _); [done|done|done| |done| | |].
  - apply mapped_region_ok.
  - apply machine_full.
  - apply machine_unlocked.
  - exists s'. split; [exact H1|]. split; [exact H2|].
    apply (H3 (Item 0 true 8192 2097152)). by apply elem_of_cons; left.
Defined.

(** The child of [mapped_region]'s process has an empty table at 16384. *)
Lemma uvmcopy_superpage_failure_panics_witness :
  ∃ s', uvmcopy_body 4096 16384 4096 0 mapped_region = Panic "uvmunmap: walk" s'.
Proof.
  apply (uvmcopy_superpage_failure_panics 4096 16384 4096 0 mapped_region (SuperSpec [] []) []);
    [done|done|done|by vm_compute|by vm_compute|by vm_compute| | |done| |done|by vm_compute|].
  - apply machine_full.
  - apply machine_unlocked.
  - constructor; try done. intros it Hit. by apply not_elem_of_nil in Hit.
  - intros b _ it Hit. by apply not_elem_of_nil in Hit.
Defined.

(** ** Growing *)

Definition ok_of {S A} (o : outcome S A) (Q : A → bool) : bool :=
  match o with Ok a _ => Q a | _ => false end.

Lemma sbrk_counts_uvmalloc_witness :
  ∃ h s, sbrksuperuvmalloc 4096 0 8192 PTE_W two_pages = Ok h s ∧ h_state h = 1 ∧
    4096 * (h_startpages h + 512 * h_superpages h + h_endpages h) = 8192.
Proof.
  pose proof (proj2 (sbrk_counts_uvmalloc 4096 0 8192 PTE_W two_pages ltac:(done) ltac:(done)) ltac:(done)) as H.
  assert (Hst : ok_of (sbrksuperuvmalloc 4096 0 8192 PTE_W two_pages) (λ h, h_state h =? 1) = true)
    by (by vm_compute).
  destruct (sbrksuperuvmalloc 4096 0 8192 PTE_W two_pages) as [h s| | | |]; try discriminate Hst.
  destruct (uvmalloc 4096 0 8192 PTE_W two_pages) as [r s1| | | |]; try contradiction.
  apply Z.eqb_eq in Hst. exists h, s. split; [reflexivity|]. split; [exact Hst|].
  destruct H as [_ [(_ & _ & _ & Hc & _)|[Hz _]]]; [exact Hc|]. rewrite Hst in Hz. discriminate Hz.
Defined.

Lemma growproc_grows_witness :
  ∃ p s, growproc 8192 two_pages = Ok 0 (set_proc p s) ∧ p_next p = 3 ∧ p_record p 2 = chr_page.
Proof.
  assert (Hst : ok_of (sbrksuperuvmalloc 4096 8192 (u64 (8192 + 8192)) PTE_W two_pages)
    (λ h, negb (h_state h =? 0) && (h_startpages h =? 2) && (h_superpages h =? 0) && (h_endpages h =? 0)) = true)
    by (by vm_compute).
  assert (Hnext : match sbrksuperuvmalloc 4096 8192 (u64 (8192 + 8192)) PTE_W two_pages with
                  | Ok _ s1 => p_next (proc_of s1) = 1 | _ => False end) by (by vm_compute).
  pose proof (growproc_grows 8192 two_pages) as H. cbn [proc_of two_pages machine ext srest init_proc p_sz p_pagetable] in H.
  destruct (sbrksuperuvmalloc 4096 8192 (u64 (8192 + 8192)) PTE_W two_pages) as [h s1| | | |]; try discriminate Hst.
  cbn [ok_of] in Hst. bool_to_Prop.
  destruct (proj2 (H s1 h ltac:(done) ltac:(reflexivity)) ltac:(assumption))
    as (p & Hp & _ & Hnx & Hrec & _); [lia..|].
  exists p, s1. split; [exact Hp|]. split; [lia|]. apply Hrec. lia.
Defined.

(** A process with a superpage and a page above it, both recorded, over the
    tables of [mapped_region]. *)
Definition two_blocks : kst (sup (P := gproc)) :=
  machine [(4096, 2049); (8192, 524567); (8200, 3073); (12288, 522263)] 0 0
    (GProc 2101248 4096 (λ i, if i =? 0 then 49 else 48) 2).
Definition page_item : item := Item 2097152 false 12288 2088960.
Definition super_item : item := Item 0 true 8192 2097152.

Lemma two_blocks_top :
  top_blocks 4096 (kmem two_blocks) (SuperSpec [] []) (PGROUNDUP 2101248) [page_item; super_item].
Proof.
  pose proof mapped_region_ok as [_ Hi (Hs & _)]. constructor.
  - by vm_compute.
  - intros it Hit. apply Hi. revert Hit. unfold region. rewrite !elem_of_cons. tauto.
  - split; [|split; [|done]].
    + intros it ->%list_elem_of_singleton. split; apply (Hs page_item); by apply list_elem_of_singleton.
    + intros it Hit. by apply not_elem_of_nil in Hit.
Qed.

Lemma growproc_shrinks_blocks_witness :
  ∃ s', growproc (-2101248) two_blocks = Ok 0 s' ∧ p_sz (proc_of s') = 0 ∧ p_next (proc_of s') = 0 ∧
    srep s' (SuperSpec [2088960] [2097152]) ∧ load64 (kmem s') 8192 = 0 ∧ load64 (kmem s') 12288 = 0.
Proof.
  destruct (growproc_shrinks_blocks [page_item; super_item] two_blocks (SuperSpec [] []))
    as (s' & H1 & H2 & H3 & _ & _ & H4 & _);
    [done|apply two_blocks_top|apply machine_full|apply machine_unlocked|by vm_compute|by vm_compute|
     by vm_compute|by vm_compute|].
  exists s'. split; [exact H1|]. split; [by rewrite H2|]. split; [by rewrite H2|]. split; [exact H3|].
  split; [apply (H4 super_item)|apply (H4 page_item)]; rewrite !elem_of_cons; tauto.
Defined.

Lemma growproc_shrink_part_page_witness :
  ∃ s', growproc (-1) two_blocks = Ok 0 s' ∧ p_sz (proc_of s') = 2097152 ∧ p_next (proc_of s') = 0.
Proof.
  destruct (growproc_shrink_part_page (-1) two_blocks (SuperSpec [] []) page_item)
    as (s' & H1 & H2 & _ & _ & H3 & _);
    [done|apply two_blocks_top; by apply elem_of_cons; left|done|apply machine_full|apply machine_unlocked|
     done|done|done|done|].
  exists s'. exact (conj H1 (conj H2 H3)).
Defined.

Lemma growproc_shrink_unrecorded_witness :
  growproc (-8192) (machine [] 0 0 (GProc 8192 4096 (λ _, 0) 0)) =
  Ok 0 (machine [] 0 0 (GProc 8192 4096 (λ _, 0) 0)).
Proof. apply growproc_shrink_unrecorded; done. Defined.

(** ** Printing *)

Fixpoint shallowb (n : nat) (m : mem) (pagetable : Z) : bool :=
  match n with
  | O => false
  | S n => forallb (λ i : nat,
      let pte := load64 m (pagetable + 8 * Z.of_nat i) in
      if has_flag pte PTE_V && (Z.land pte (Z.lor (Z.lor PTE_R PTE_W) PTE_X) =? 0)
      then shallowb n m (PTE2PA pte) else true) (seq 0 512)
  end.

Lemma shallowb_shallow n m : ∀ pt, shallowb n m pt = true → shallow n m pt.
Proof.
  induction n as [|n IH]; intros pt; [done|]. cbn [shallowb shallow]. cbv zeta.
  rewrite forallb_forall. intros Hall i Hi HV HL.
  specialize (Hall i (proj2 (in_seq 512 0 i) ltac:(lia))). rewrite HV, HL in Hall. by apply IH.
Qed.

Lemma vmprint_dumps_witness :
  ∃ lines, super_vmprint 3 4096 mapped_region =
    Ok tt (log (("page table %p\n", [PInt 4096]) :: lines) mapped_region).
Proof.
  eexists. apply (vmprint_dumps [" "%string] 3 3 4096 mapped_region); [lia|].
  apply shallowb_shallow. by vm_compute.
Defined.

Lemma vmprint_root_addresses_witness : print_vpn 0 0 2 ≠ 2 * 2 ^ 30.
Proof. intros H. apply (vmprint_root_addresses 2 ltac:(lia)) in H. discriminate H. Defined.
