(* ===== verification/Tracing.v ===== *)
(** * System calls and their tracing (lab2 "system call tracing":
    kernel/syscall.c, syscall.h and sysproc.c; lab4 "alarm": syscall.c and
    syscall.h)

    [syscall] runs the handler whose number is in register a7 of the
    trapframe, stores its result in a0, and prints a line when the process
    traces that system call.  The handlers other than [sys_trace] are the
    stock kernel's, any code that returns a value. *)

From stdpp Require Import gmap.
From S2P Require Import Prelude Memory Machine.

(** ** The tables *)

(** The numbers of syscall.h; [SYS_trace] is lab2's, [SYS_sigalarm] and
    [SYS_sigreturn] are lab4's. *)
Definition SYS_fork : Z := 1.
Definition SYS_exit : Z := 2.
Definition SYS_wait : Z := 3.
Definition SYS_pipe : Z := 4.
Definition SYS_read : Z := 5.
Definition SYS_kill : Z := 6.
Definition SYS_exec : Z := 7.
Definition SYS_fstat : Z := 8.
Definition SYS_chdir : Z := 9.
Definition SYS_dup : Z := 10.
Definition SYS_getpid : Z := 11.
Definition SYS_sbrk : Z := 12.
Definition SYS_sleep : Z := 13.
Definition SYS_uptime : Z := 14.
Definition SYS_open : Z := 15.
Definition SYS_write : Z := 16.
Definition SYS_mknod : Z := 17.
Definition SYS_unlink : Z := 18.
Definition SYS_link : Z := 19.
Definition SYS_mkdir : Z := 20.
Definition SYS_close : Z := 21.
Definition SYS_trace : Z := 22.
Definition SYS_sigalarm : Z := 22.
Definition SYS_sigreturn : Z := 23.

(** The handlers [sys_fork], [sys_exit] and so on. *)
Inductive sysname :=
  | Sfork | Sexit | Swait | Spipe | Sread | Skill | Sexec | Sfstat | Schdir | Sdup | Sgetpid
  | Ssbrk | Ssleep | Suptime | Sopen | Swrite | Smknod | Sunlink | Slink | Smkdir | Sclose
  | Strace | Ssigalarm | Ssigreturn.

#[export] Instance sysname_eq_dec : EqDecision sysname.
Proof. solve_decision. Defined.

(** The array [syscalls] of lab2, designator by designator: a handler at every
    index named, null elsewhere. *)
Definition syscalls : gmap Z sysname := list_to_map [
  (SYS_fork, Sfork);
  (SYS_exit, Sexit);
  (SYS_wait, Swait);
  (SYS_pipe, Spipe);
  (SYS_read, Sread);
  (SYS_kill, Skill);
  (SYS_exec, Sexec);
  (SYS_fstat, Sfstat);
  (SYS_chdir, Schdir);
  (SYS_dup, Sdup);
  (SYS_getpid, Sgetpid);
  (SYS_sbrk, Ssbrk);
  (SYS_sleep, Ssleep);
  (SYS_uptime, Suptime);
  (SYS_open, Sopen);
  (SYS_write, Swrite);
  (SYS_mknod, Smknod);
  (SYS_unlink, Sunlink);
  (SYS_link, Slink);
  (SYS_mkdir, Smkdir);
  (SYS_close, Sclose);
  (SYS_trace, Strace)].

(** The array [syscalls] of lab4. *)
Definition alarm_syscalls : gmap Z sysname := list_to_map [
  (SYS_fork, Sfork);
  (SYS_exit, Sexit);
  (SYS_wait, Swait);
  (SYS_pipe, Spipe);
  (SYS_read, Sread);
  (SYS_kill, Skill);
  (SYS_exec, Sexec);
  (SYS_fstat, Sfstat);
  (SYS_chdir, Schdir);
  (SYS_dup, Sdup);
  (SYS_getpid, Sgetpid);
  (SYS_sbrk, Ssbrk);
  (SYS_sleep, Ssleep);
  (SYS_uptime, Suptime);
  (SYS_open, Sopen);
  (SYS_write, Swrite);
  (SYS_mknod, Smknod);
  (SYS_unlink, Sunlink);
  (SYS_link, Slink);
  (SYS_mkdir, Smkdir);
  (SYS_close, Sclose);
  (SYS_sigalarm, Ssigalarm);
  (SYS_sigreturn, Ssigreturn)].

(** [NELEM(syscalls)]: one more than the last number. *)
Definition NELEM : Z := 23.

(** The array [names]. *)
Definition names : list string :=
  ["fork"; "exit"; "wait"; "pipe"; "read"; "kill"; "exec"; "fstat"; "chdir";
   "dup"; "getpid"; "sbrk"; "sleep"; "uptime"; "open"; "write"; "mknod";
   "unlink"; "link"; "mkdir"; "close"; "trace"]%string.

(** What a handler is called. *)
Definition sysname_string (n : sysname) : string :=
  (match n with
  | Sfork => "fork" | Sexit => "exit" | Swait => "wait" | Spipe => "pipe" | Sread => "read"
  | Skill => "kill" | Sexec => "exec" | Sfstat => "fstat" | Schdir => "chdir" | Sdup => "dup"
  | Sgetpid => "getpid" | Ssbrk => "sbrk" | Ssleep => "sleep" | Suptime => "uptime"
  | Sopen => "open" | Swrite => "write" | Smknod => "mknod" | Sunlink => "unlink"
  | Slink => "link" | Smkdir => "mkdir" | Sclose => "close" | Strace => "trace"
  | Ssigalarm => "sigalarm" | Ssigreturn => "sigreturn"
  end)%string.

(** ** The process and the operations *)

(** The running process: its trapframe, pid, name and trace mask; [trest] is
    the rest of the kernel. *)
Record tproc {P : Type} := TProc {
  t_trapframe : Z; t_pid : Z; t_name : string; t_traceid : Z; trest : P;
}.
Arguments tproc P : clear implicits.

(** Where a0 and a7 are in the trapframe: two different words. *)
Class TraceLayout := {
  A0 : Z; A7 : Z;
  A0_A7 : A0 + 8 ≤ A7 ∨ A7 + 8 ≤ A0;
}.

Section tracing.
Context {P : Type} `{!TraceLayout}.
Implicit Types s : kst (tproc P).

(** The stock handlers. *)
Variable handler : sysname → M (kst (tproc P)) Z.

Definition reg_load (r : Z) : M (kst (tproc P)) Z := tf ← getx t_trapframe; load (tf + r).
Definition reg_store (r v : Z) : M (kst (tproc P)) unit := tf ← getx t_trapframe; store (tf + r) v.

(** [argint(0, &n)]: the low 32 bits of a0. *)
Definition argint0 : M (kst (tproc P)) Z := v ← reg_load A0; mret (s32 v).

Definition set_traceid (n : Z) (x : tproc P) : tproc P :=
  TProc _ (t_trapframe x) (t_pid x) (t_name x) n (trest x).

Definition sys_trace : M (kst (tproc P)) Z :=
  n ← argint0;
  let n := if n <? 0 then 0 else n in
  modx (set_traceid n);;
  mret 0.

Definition run_handler (n : sysname) : M (kst (tproc P)) Z :=
  match n with Strace => sys_trace | _ => handler n end.

Definition syscall : M (kst (tproc P)) unit :=
  a7 ← reg_load A7;
  let num := s32 a7 in
  match (if (0 <? num) && (num <? NELEM) then syscalls !! num else None) with
  | Some h =>
      r ← run_handler h;
      reg_store A0 r;;
      let mask := s32 (Z.shiftl 1 num) in
      traceid ← getx t_traceid;
      if negb (Z.land traceid mask =? 0) then
        pid ← getx t_pid;
        a0 ← reg_load A0;
        printf "%d: syscall %s -> %ld\n"
          [PInt pid; PStr (default EmptyString (names !! Z.to_nat (num - 1))); PInt a0]
      else mret tt
  | None =>
      pid ← getx t_pid;
      name ← getx t_name;
      printf "%d %s: unknown sys call %d\n" [PInt pid; PStr name; PInt num];;
      reg_store A0 (u64 (-1))
  end.

(** ** The tables agree *)

Lemma table_lookup (f : Z * sysname → bool) (t : gmap Z sysname) num n :
  forallb f (map_to_list t) = true → t !! num = Some n → f (num, n) = true.
Proof.
  rewrite forallb_forall. intros Hf Hn. by apply elem_of_map_to_list, list_elem_of_In, Hf in Hn.
Qed.

(** Every number of the table is in range, and [names] has the name of the
    handler the table gives it. *)
Lemma syscalls_named num h :
  syscalls !! num = Some h →
  0 < num < NELEM ∧ names !! Z.to_nat (num - 1) = Some (sysname_string h).
Proof.
  intros Hh. apply (table_lookup (λ kh, (0 <? kh.1) && (kh.1 <? NELEM) &&
    bool_decide (names !! Z.to_nat (kh.1 - 1) = Some (sysname_string kh.2)))) in Hh; [|vm_compute; reflexivity].
  cbn [fst snd] in Hh. rewrite !andb_true_iff, bool_decide_eq_true, !Z.ltb_lt in Hh. tauto.
Qed.

(** lab4's table is lab2's with its two handlers at the end, the first in the
    place of [sys_trace]. *)
Lemma alarm_syscalls_extend :
  alarm_syscalls = <[SYS_sigreturn := Ssigreturn]> (<[SYS_sigalarm := Ssigalarm]> syscalls).
Proof. vm_compute. reflexivity. Qed.

Lemma mask_bit traceid num :
  0 ≤ num < 31 → (Z.land traceid (s32 (Z.shiftl 1 num)) =? 0) = negb (Z.testbit traceid num).
Proof.
  intros Hn. rewrite Z.shiftl_mul_pow2, Z.mul_1_l by lia.
  rewrite s32_small by (split; [lia|apply Z.pow_lt_mono_r; lia]). rewrite land_bit_pow2 by lia.
  destruct (Z.testbit traceid num); cbn [negb]; [|done]. apply Z.eqb_neq. lia.
Qed.

Definition call_number s : Z := s32 (load64 (kmem s) (t_trapframe (ext s) + A7)).
Definition result_addr s : Z := t_trapframe (ext s) + A0.

Lemma reg_load_run r s : reg_load r s = Ok (load64 (kmem s) (t_trapframe (ext s) + r)) s.
Proof. done. Qed.
Lemma reg_store_run r v s :
  reg_store r v s = Ok tt (set_mem (store64 (kmem s) (t_trapframe (ext s) + r) v) s).
Proof. done. Qed.
Lemma getx_run {A} (f : tproc P → A) s : getx f s = Ok (f (ext s)) s.
Proof. done. Qed.

(** C29: system calls and their trace.  When the number in a7 has a handler and
    the handler returns, [syscall] puts its result in a0 and changes no other
    byte, and prints the pid, the name of that very system call and the result
    exactly when the process's mask, as the handler leaves it, has the bit of
    that number. *)
Theorem syscall_traces s h r s1 :
  syscalls !! call_number s = Some h → run_handler h s = Ok r s1 →
  ∃ s2, syscall s = Ok tt s2 ∧ load64 (kmem s2) (result_addr s1) = u64 r ∧ ext s2 = ext s1 ∧ held s2 = held s1 ∧
    agree_on (λ b, ¬ in_range (result_addr s1) 8 b) (kmem s1) (kmem s2) ∧
    console s2 = console s1 ++
      (if Z.testbit (t_traceid (ext s1)) (call_number s)
       then [("%d: syscall %s -> %ld\n", [PInt (t_pid (ext s1)); PStr (sysname_string h); PInt (u64 r)])]
       else []).
Proof.
  intros Hh Hr. destruct (syscalls_named _ _ Hh) as (Hrange & Hname). unfold call_number in *.
  set (num := s32 (load64 (kmem s) (t_trapframe (ext s) + A7))) in *.
  unfold syscall. rewrite (bind_Ok _ _ _ _ _ (reg_load_run A7 s)). fold num.
  rewrite (proj2 (Z.ltb_lt 0 num)), (proj2 (Z.ltb_lt num NELEM)) by lia. cbn [andb]. rewrite Hh, (bind_Ok _ _ _ _ _ Hr).
  rewrite (bind_Ok _ _ _ _ _ (reg_store_run A0 r s1)), (bind_Ok _ _ _ _ _ (getx_run t_traceid _)).
  rewrite (mask_bit _ num) by (unfold NELEM in Hrange; lia).
  change (t_traceid (ext (set_mem _ s1))) with (t_traceid (ext s1)).
  assert (Hag : agree_on (λ b, ¬ in_range (result_addr s1) 8 b) (kmem s1) (store64 (kmem s1) (result_addr s1) r))
    by (intros b Hb; by apply store64_ne).
  destruct (Z.testbit (t_traceid (ext s1)) num); cbn [negb].
  - rewrite (bind_Ok _ _ _ _ _ (getx_run t_pid _)), (bind_Ok _ _ _ _ _ (reg_load_run A0 _)).
    eexists. split; [reflexivity|]. cbn -[Z.add]. unfold result_addr in *. rewrite Hname, !load64_store64_eq.
    do 4 (split; [done|]). done.
  - eexists. split; [reflexivity|]. cbn -[Z.add]. unfold result_addr in *. by rewrite load64_store64_eq, app_nil_r.
Qed.

(** A number without a handler, out of range or not, is reported with the
    pid and the name of the process, and the result is -1; nothing else
    changes. *)
Theorem syscall_unknown s :
  syscalls !! call_number s = None →
  ∃ s2, syscall s = Ok tt s2 ∧ load64 (kmem s2) (result_addr s) = u64 (-1) ∧ ext s2 = ext s ∧ held s2 = held s ∧
    agree_on (λ b, ¬ in_range (result_addr s) 8 b) (kmem s) (kmem s2) ∧
    console s2 = console s ++ [("%d %s: unknown sys call %d\n",
      [PInt (t_pid (ext s)); PStr (t_name (ext s)); PInt (call_number s)])].
Proof.
  intros Hh. unfold call_number in *. set (num := s32 (load64 (kmem s) (t_trapframe (ext s) + A7))) in *.
  unfold syscall. rewrite (bind_Ok _ _ _ _ _ (reg_load_run A7 s)). fold num.
  assert ((if (0 <? num) && (num <? NELEM) then syscalls !! num else None) = None) as -> by (rewrite Hh; by case_match).
  do 3 (erewrite bind_Ok by reflexivity). eexists. split; [reflexivity|]. cbn. rewrite load64_store64_eq.
  split; [done|]. do 2 (split; [done|]). split; [|done]. intros b Hb. by apply store64_ne.
Qed.

(** [trace(n)] sets the mask to [n], to zero when [n] is negative. *)
Lemma sys_trace_run s :
  run_handler Strace s =
  Ok 0 (set_ext (set_traceid (Z.max 0 (s32 (load64 (kmem s) (result_addr s)))) (ext s)) s).
Proof.
  unfold run_handler, sys_trace, argint0. rewrite bind_assoc, (bind_Ok _ _ _ _ _ (reg_load_run A0 s)).
  erewrite bind_Ok by reflexivity. cbv beta. unfold result_addr.
  destruct (_ <? 0) eqn:E; bool_to_Prop; erewrite bind_Ok by reflexivity; unfold mret, M_ret; do 4 f_equal; lia.
Qed.
End tracing.

(** ** Examples *)

#[export] Instance stock_offsets : TraceLayout.
Proof. refine {| A0 := 112; A7 := 168 |}. lia. Defined.

(** Process 7 asks for system call [num] with argument [arg], traced by
    [mask]; every stock handler returns 5. *)
Definition asking (num arg mask : Z) : kst (tproc unit) :=
  KSt (store64 (store64 (λ _, 0) (4096 + 168) num) (4096 + 112) arg) ∅ [] (TProc _ 4096 7 "sh" mask tt).
Definition fives (n : sysname) : M (kst (tproc unit)) Z := mret 5.

Lemma syscall_traces_witness :
  ∃ s2, syscall fives (asking 5 0 32) = Ok tt s2 ∧
    console s2 = [("%d: syscall %s -> %ld\n", [PInt 7; PStr "read"; PInt 5])].
Proof.
  destruct (syscall_traces fives (asking 5 0 32) Sread 5 (asking 5 0 32)) as (s2 & Hr & _ & _ & _ & _ & Hc);
    [vm_compute; reflexivity|reflexivity|]. exists s2. split; [exact Hr|]. rewrite Hc. vm_compute. reflexivity.
Defined.

Lemma syscall_unknown_witness :
  ∃ s2, syscall fives (asking 99 0 0) = Ok tt s2 ∧
    console s2 = [("%d %s: unknown sys call %d\n", [PInt 7; PStr "sh"; PInt 99])].
Proof.
  destruct (syscall_unknown fives (asking 99 0 0)) as (s2 & Hr & _ & _ & _ & _ & Hc); [vm_compute; reflexivity|].
  exists s2. split; [exact Hr|]. rewrite Hc. vm_compute. reflexivity.
Defined.
