(* ===== verification/Backtrace.v ===== *)
(** * Backtraces (lab4 "backtrace": kernel/printf.c, riscv.h and sysproc.c)

    [backtrace] follows the saved frame pointers up the kernel stack, which is
    one page, and prints the return addresses; [sys_sleep] calls it after it
    has slept. *)

From S2P Require Import Prelude Memory Machine.

(** The frame pointer register, the global [ticks] ([uint]), whether the
    process has been killed, the print lock; [brest] is the rest. *)
Record bstate {P : Type} := BState { s0 : Z; ticks : Z; is_killed : bool; locking : Z; brest : P }.
Arguments bstate P : clear implicits.

Section backtrace.
Context `{Riscv} {P : Type}.
Implicit Types s : kst (bstate P).

Definition pr_lock : lock := ("pr", 0).
Definition tickslock : lock := ("time", 0).

Definition set_locking (v : Z) (x : bstate P) : bstate P := BState _ (s0 x) (ticks x) (is_killed x) v (brest x).

Definition printfinit : M (kst (bstate P)) unit :=
  initlock pr_lock;;
  modx (set_locking 1).

(** [r_fp]: the register s0. *)
Definition r_fp : M (kst (bstate P)) Z := getx s0.

Definition backtrace_body (fp : Z) : M (kst (bstate P)) (Z + unit) :=
  if PGROUNDDOWN fp <? fp then
    ra ← load (u64 (fp - 8));
    printf "%p\n" [PInt ra];;
    fp ← load (u64 (fp - 16));
    mret (inl fp)
  else mret (inr tt).

(** Frame pointers go up the page, so that there are fewer than 4096. *)
Definition backtrace_fuel : nat := 4096.

Definition backtrace : M (kst (bstate P)) unit :=
  printf "backtrace:\n" [];;
  fp ← r_fp;
  loop backtrace_fuel backtrace_body fp.

(** [sleep(&ticks, &tickslock)] of the stock kernel: other processes and the
    clock run. *)
Variable sleep : M (kst (bstate P)) unit.

Definition killed : M (kst (bstate P)) bool := getx is_killed.

(** [while(ticks - ticks0 < n)], both sides unsigned, with [n] up to 2^31. *)
Definition sleep_body (ticks0 n : Z) (_ : unit) : M (kst (bstate P)) (unit + Z) :=
  now ← getx ticks;
  if u32 (now - ticks0) <? u32 n then
    k ← killed;
    if (k : bool) then
      release tickslock;;
      mret (inr (u64 (-1)))
    else
      sleep;;
      mret (inl tt)
  else mret (inr 0).

(** [sys_sleep] with its argument [n] fetched by [argint]. *)
Definition sys_sleep (n : Z) : M (kst (bstate P)) Z :=
  let n := if n <? 0 then 0 else n in
  acquire tickslock;;
  ticks0 ← getx ticks;
  r ← loop (S (Z.to_nat n)) (sleep_body ticks0 n) tt;
  if r =? 0 then
    release tickslock;;
    backtrace;;
    mret 0
  else mret r.

(** ** The stack

    [frames m base fp ras]: from frame pointer [fp] the saved frame pointers
    lead up to the end of the stack page at [base], as calling conventions
    promise, and [ras] are the return addresses saved on the way. *)
Inductive frames (m : mem) (base : Z) : Z → list Z → Prop :=
  | frames_top : frames m base (base + 4096) []
  | frames_up fp ras :
      base + 16 ≤ fp < base + 4096 → fp < load64 m (fp - 16) → frames m base (load64 m (fp - 16)) ras →
      frames m base fp (load64 m (fp - 8) :: ras).

Definition page_ok (base : Z) : Prop := base mod 4096 = 0 ∧ 4096 ≤ base ∧ base + 4096 < 2 ^ 64.

Lemma frames_range m base fp ras :
  frames m base fp ras → base < fp ∧ fp + Z.of_nat (length ras) ≤ base + 4096.
Proof. induction 1 as [|fp ras Hfp Hlt _ IH]; cbn [length]; lia. Qed.

Lemma frames_ext m m' base fp ras :
  agree_on (in_range base 4096) m m' → frames m base fp ras → frames m' base fp ras.
Proof.
  intros Hag. assert (Hl : ∀ p, base ≤ p → p + 8 ≤ base + 4096 → load64 m' p = load64 m p).
  { intros p Hlo Hhi. apply load64_ext. eapply agree_on_mono; [done|]. unfold in_range. lia. }
  induction 1 as [|fp ras Hfp Hlt _ IH]; [constructor|].
  rewrite <-(Hl (fp - 8)) by lia. apply frames_up; [lia| |]; rewrite (Hl (fp - 16)) by lia; done.
Qed.

(** The lines printed for return addresses. *)
Definition lines (ras : list Z) : list (string * list parg) := (λ ra, ("%p\n", [PInt ra])) <$> ras.

Definition say (ls : list (string * list parg)) s : kst (bstate P) :=
  KSt (kmem s) (held s) (console s ++ ls) (ext s).

Lemma backtrace_loop m base fp ras : frames m base fp ras → ∀ fuel s,
  kmem s = m → page_ok base → (length ras < fuel)%nat →
  loop fuel backtrace_body fp s = Ok tt (say (lines ras) s).
Proof.
  induction 1 as [|fp ras Hfp Hlt _ IH]; intros [|fuel] s Hm Hok Hfuel; cbn [length] in *; try lia;
    pose proof Hok as (Hal & Hlo & Hhi); rewrite loop_S; unfold backtrace_body at 2; rewrite PGROUNDDOWN_spec by lia.
  - rewrite (proj2 (Z.ltb_ge _ _)) by dlia. unfold say, lines. cbn. rewrite app_nil_r. by destruct s.
  - rewrite (proj2 (Z.ltb_lt _ _)) by dlia. rewrite !u64_small by lia.
    rewrite !bind_assoc. erewrite bind_Ok by reflexivity. cbv beta. rewrite !bind_assoc.
    erewrite bind_Ok by reflexivity. cbv beta. rewrite !bind_assoc. erewrite bind_Ok by reflexivity. cbv beta.
    erewrite bind_Ok by reflexivity. cbv beta iota. cbn [kmem]. rewrite Hm.
    rewrite (IH fuel); [|done|done|lia].
    unfold say, lines. cbn [kmem held console ext]. rewrite fmap_cons, <-app_assoc, ?Hm. done.
Qed.

(** [backtrace] ends and prints the return addresses of the frames on the
    stack, innermost first; nothing but the console changes. *)
Lemma backtrace_prints s base ras :
  page_ok base → frames (kmem s) base (s0 (ext s)) ras →
  backtrace s = Ok tt (say (("backtrace:\n", []) :: lines ras) s).
Proof.
  intros Hok Hfr. unfold backtrace. erewrite bind_Ok by reflexivity.
  erewrite bind_Ok by reflexivity. cbv beta. pose proof (frames_range _ _ _ _ Hfr).
  rewrite (backtrace_loop (kmem s) base (s0 (ext s)) ras); [|done|done|done|unfold backtrace_fuel; lia].
  unfold say. cbn [kmem held console ext]. by rewrite <-app_assoc.
Qed.

(** ** Sleeping *)

(** What [sleep] does as the process sees it: [d] ticks pass, fewer than half
    the range of the counter; it is woken by the clock, after at least one
    tick, or by [kill], possibly after none, and stays killed; the lock is held
    again, and the process's stack and frame pointer are as before. *)
Definition slept (base d : Z) s s' : Prop :=
  (0 ≤ d < 2 ^ 31 ∧ (1 ≤ d ∨ is_killed (ext s') = true)) ∧
  (is_killed (ext s) = true → is_killed (ext s') = true) ∧ ticks (ext s') = u32 (ticks (ext s) + d) ∧ held s' = held s ∧ s0 (ext s') = s0 (ext s) ∧
  agree_on (in_range base 4096) (kmem s) (kmem s').

Definition elapsed (t0 : Z) s : Z := u32 (ticks (ext s) - t0).

Lemma elapsed_slept base d t0 s s' :
  slept base d s s' → elapsed t0 s < 2 ^ 31 → elapsed t0 s' = elapsed t0 s + d.
Proof. intros ((Hd & _) & _ & Ht & _) He. unfold elapsed, u32 in *. rewrite Ht. dlia. Qed.

Context (base : Z) (Hsleep : ∀ s, ∃ s' d, sleep s = Ok tt s' ∧ slept base d s s').

Definition same_stack s s' : Prop :=
  held s' = held s ∧ s0 (ext s') = s0 (ext s) ∧ agree_on (in_range base 4096) (kmem s) (kmem s').

Lemma sleep_body_run t0 n s :
  0 ≤ n < 2 ^ 31 →
  sleep_body t0 n tt s =
    if elapsed t0 s <? n then
      if is_killed (ext s) then (release tickslock;; mret (inr (u64 (-1)))) s else (sleep;; mret (inl tt)) s
    else Ok (inr 0) s.
Proof.
  intros Hn. unfold sleep_body. erewrite bind_Ok by reflexivity. cbv beta. fold (elapsed t0 s).
  assert (u32 n = n) as -> by (unfold u32; apply Z.mod_small; lia).
  destruct (elapsed t0 s <? n); [|done]. erewrite bind_Ok by reflexivity. by destruct (is_killed (ext s)).
Qed.

(** The loop left by [return -1]: before the time was up, the lock released. *)
Definition sleep_killed (t0 n : Z) s s' : Prop :=
  is_killed (ext s') = true ∧ elapsed t0 s' < n ∧ held s' = held s ∖ {[tickslock]}.

Lemma sleep_killed_run t0 n s fuel :
  0 ≤ n < 2 ^ 31 → tickslock ∈ held s → elapsed t0 s < n → is_killed (ext s) = true →
  ∃ s', loop (S fuel) (sleep_body t0 n) tt s = Ok (u64 (-1)) s' ∧ sleep_killed t0 n s s'.
Proof.
  intros Hn Hh He Hk. exists (set_held (held s ∖ {[tickslock]}) s). split; [|done].
  pose proof (sleep_body_run t0 n s Hn) as Hb. rewrite (proj2 (Z.ltb_lt _ _)), Hk in Hb by done.
  assert (Hr : release tickslock s = Ok tt (set_held (held s ∖ {[tickslock]}) s))
    by (unfold release; by rewrite decide_True).
  rewrite (bind_Ok _ _ _ _ _ Hr) in Hb. by rewrite loop_S, (bind_Ok _ _ _ _ _ Hb).
Qed.

Lemma sleep_loop t0 n k : ∀ s fuel,
  0 ≤ n < 2 ^ 31 → tickslock ∈ held s → n - elapsed t0 s ≤ Z.of_nat k → (k < fuel)%nat →
  (∃ s', loop fuel (sleep_body t0 n) tt s = Ok 0 s' ∧ n ≤ elapsed t0 s' ∧ same_stack s s') ∨
  (∃ s', loop fuel (sleep_body t0 n) tt s = Ok (u64 (-1)) s' ∧ sleep_killed t0 n s s').
Proof.
  induction k as [|k IH]; intros s [|fuel] Hn Hh Hk Hf; try lia;
    pose proof (sleep_body_run t0 n s Hn) as Hb; destruct (elapsed t0 s <? n) eqn:E; bool_to_Prop; try lia.
  1, 3: left; exists s; rewrite loop_S, (bind_Ok _ _ _ _ _ Hb); by split; [|split].
  destruct (is_killed (ext s)) eqn:Ek; [right; by apply sleep_killed_run|].
  destruct (Hsleep s) as (s1 & d & Hr & Hs). rewrite (bind_Ok _ _ _ _ _ Hr) in Hb.
  rewrite loop_S, (bind_Ok _ _ _ _ _ Hb). pose proof (elapsed_slept base d t0 s s1 Hs ltac:(lia)) as He.
  destruct Hs as ((Hd & Hwake) & _ & _ & Hh1 & Hs0 & Hag).
  destruct (decide (d = 0)) as [->|Hd0].
  - destruct Hwake as [?|Hk1]; [lia|]. right. destruct fuel as [|fuel]; [lia|].
    destruct (sleep_killed_run t0 n s1 fuel) as (s2 & Hr2 & Hk2 & He2 & Hh2); [done|by rewrite Hh1|lia|done|].
    exists s2. split; [done|]. split; [done|]. split; [done|]. by rewrite Hh2, Hh1.
  - destruct (IH s1 fuel) as [(s2 & Hr2 & Hn2 & Hh2 & Hs2 & Hag2)|(s2 & Hr2 & Hk2 & He2 & Hh2)];
      try lia; [by rewrite Hh1| |].
    + left. exists s2. split; [done|]. split; [done|]. unfold same_stack. rewrite Hh2, Hs2. split; [done|].
      split; [done|]. by transitivity (kmem s1).
    + right. exists s2. split; [done|]. split; [done|]. split; [done|]. by rewrite Hh2, Hh1.
Qed.

(** C30: [sleep(n)] ends, whether the clock or [kill] wakes the process.  It
    returns 0 after at least [n] ticks, also when the counter wraps round, with
    the lock released and the return addresses of the frames on the stack
    printed, innermost first; or, only when the process has been killed and
    the [n] ticks are not over, it returns -1 with the lock released.  A
    process that is already killed when it asks for at least one tick does not
    sleep at all. *)
Theorem sys_sleep_sleeps s n ras :
  n < 2 ^ 31 → tickslock ∉ held s → page_ok base → frames (kmem s) base (s0 (ext s)) ras →
  ((∃ s' cs, sys_sleep n s = Ok 0 s' ∧ Z.max 0 n ≤ elapsed (ticks (ext s)) s' ∧ held s' = held s ∧
      console s' = cs ++ ("backtrace:\n", []) :: lines ras) ∨
   (∃ s', sys_sleep n s = Ok (u64 (-1)) s' ∧ is_killed (ext s') = true ∧
      elapsed (ticks (ext s)) s' < n ∧ held s' = held s)) ∧
  (is_killed (ext s) = true → 0 < n → sys_sleep n s = Ok (u64 (-1)) s).
Proof.
  intros Hn Hl Hok Hfr. unfold sys_sleep. set (n' := if n <? 0 then 0 else n).
  assert (Hn' : n' = Z.max 0 n) by (unfold n'; destruct (n <? 0) eqn:E; bool_to_Prop; lia).
  rewrite (bind_Ok _ _ _ _ _ (acquire_ok tickslock s Hl)). set (s1 := set_held _ s).
  erewrite bind_Ok by reflexivity. cbv beta.
  assert (Hdiff : ({[tickslock]} ∪ held s) ∖ {[tickslock]} = held s) by set_solver.
  assert (Hin : tickslock ∈ held s1) by (unfold s1; cbn; set_solver).
  assert (He0 : elapsed (ticks (ext s1)) s1 = 0) by (unfold elapsed, u32; by rewrite Z.sub_diag).
  split.
  - destruct (sleep_loop (ticks (ext s1)) n' (Z.to_nat n') s1 (S (Z.to_nat n'))) as
      [(s2 & Hr & He & Hh & Hs0 & Hag)|(s2 & Hr & Hk & He & Hh)]; try lia; [done| |].
    + left. rewrite (bind_Ok _ _ _ _ _ Hr). cbn [Z.eqb].
      destruct s2 as [m2 h2 c2 x2]. cbn in Hh, Hs0, Hag. subst h2.
      rewrite (bind_Ok _ _ _ _ _ (release_ok _ _ _ _ _ Hl)). set (s3 := KSt m2 (held s) c2 x2).
      assert (Hfr3 : frames (kmem s3) base (s0 (ext s3)) ras) by (unfold s3; cbn; rewrite Hs0; by eapply frames_ext).
      rewrite (bind_Ok _ _ _ _ _ (backtrace_prints s3 base ras Hok Hfr3)). eexists _, c2. split; [reflexivity|].
      cbn. split; [by rewrite <-Hn'|]. by split.
    + right. exists s2. rewrite (bind_Ok _ _ _ _ _ Hr). split; [done|]. split; [done|].
      change (ticks (ext s)) with (ticks (ext s1)).
      assert (0 ≤ elapsed (ticks (ext s1)) s2) by (unfold elapsed, u32; apply Z.mod_pos_bound; lia).
      split; [lia|]. by rewrite Hh.
  - intros Hk Hpos. pose proof (sleep_body_run (ticks (ext s1)) n' s1 ltac:(lia)) as Hb.
    rewrite He0, (proj2 (Z.ltb_lt 0 n')) in Hb by lia. change (is_killed (ext s1)) with (is_killed (ext s)) in Hb.
    rewrite Hk in Hb. destruct s as [m h c x]. cbn [held] in *.
    rewrite (bind_Ok _ _ _ _ _ (release_ok tickslock h m c x Hl)) in Hb.
    assert (Hloop : loop (S (Z.to_nat n')) (sleep_body (ticks (ext s1)) n') tt s1 = Ok (u64 (-1)) (KSt m h c x))
      by (by rewrite loop_S, (bind_Ok _ _ _ _ _ Hb)).
    by rewrite (bind_Ok _ _ _ _ _ Hloop).
Qed.
End backtrace.

#[local] Existing Instance sv39.

(** ** An example: a process with one frame on its stack sleeps two ticks *)

Definition one_frame : mem := store64 (store64 (λ _, 0) 8144 8192) 8152 2147488000.

(** The clock wakes the process, or, at a count of 3, [kill] does. *)
Definition tick : M (kst (bstate unit)) unit :=
  modx (λ x, if ticks x =? 3 then BState _ (s0 x) (ticks x) true (locking x) (brest x)
             else BState _ (s0 x) (u32 (ticks x + 1)) (is_killed x) (locking x) (brest x)).

Definition sleepy : kst (bstate unit) := KSt one_frame ∅ [] (BState _ 8160 (2 ^ 32 - 1) false 1 tt).

Lemma tick_slept (s : kst (bstate unit)) : ∃ s' d, tick s = Ok tt s' ∧ slept 4096 d s s'.
Proof.
  unfold tick. destruct s as [m h c [f t k l r]]. destruct (decide (t = 3)) as [->|Ht].
  - eexists _, 0. split; [reflexivity|]. cbn. split; [split; [lia|by right]|]. by repeat split.
  - eexists _, 1. unfold modx, modify, set_ext. cbn [ext ticks]. rewrite (proj2 (Z.eqb_neq t 3)) by done.
    split; [reflexivity|]. cbn. split; [split; [lia|left; lia]|]. by repeat split.
Qed.

Lemma sleepy_frames : frames (kmem sleepy) 4096 (s0 (ext sleepy)) [2147488000].
Proof.
  change (frames one_frame 4096 8160 [2147488000]).
  replace 2147488000 with (load64 one_frame (8160 - 8)) by (vm_compute; reflexivity).
  apply frames_up; [lia|vm_compute; reflexivity|].
  replace (load64 one_frame (8160 - 16)) with (4096 + 4096) by (vm_compute; reflexivity). constructor.
Qed.

(** Two ticks pass; of ten only the first four, then the process is killed. *)
Lemma sys_sleep_sleeps_witness :
  (∃ s' cs, sys_sleep tick 2 sleepy = Ok 0 s' ∧ console s' = cs ++ [("backtrace:\n", []); ("%p\n", [PInt 2147488000])]) ∧
  (∃ s', sys_sleep tick 10 sleepy = Ok (u64 (-1)) s' ∧ is_killed (ext s') = true).
Proof.
  assert (Hok : page_ok 4096) by (split; [done|lia]).
  assert (Hl : tickslock ∉ held sleepy) by apply not_elem_of_empty.
  split.
  - destruct (sys_sleep_sleeps tick 4096 tick_slept sleepy 2 [2147488000] ltac:(lia) Hl Hok sleepy_frames)
      as [[(s' & cs & Hr & _ & _ & Hc)|(s' & Hr & _)] _]; [by exists s', cs|].
    exfalso. assert (Ho : match sys_sleep tick 2 sleepy with Ok r _ => r =? 0 | _ => false end = true) by (vm_compute; reflexivity).
    by rewrite Hr in Ho.
  - destruct (sys_sleep_sleeps tick 4096 tick_slept sleepy 10 [2147488000] ltac:(lia) Hl Hok sleepy_frames)
      as [[(s' & cs & Hr & _)|(s' & Hr & Hk & _)] _]; [|by exists s'].
    exfalso. assert (Ho : match sys_sleep tick 10 sleepy with Ok r _ => r =? 0 | _ => true end = false) by (vm_compute; reflexivity).
    by rewrite Hr in Ho.
Defined.
