(* ===== verification/Attack.v ===== *)
(** * An allocator that does not clear pages (lab2 "attack xv6",
    kernel/kalloc.c)

    In this kernel neither [kfree] nor [kalloc] fills a page, so that whoever
    gets a page finds in it what its last owner left there.  The allocator is
    modelled with its page counter and its printing, and refined by a contract
    that keeps the contents of pages.  AttackVm has the system call and the two
    user programs that use it. *)

From S2P Require Import Prelude Memory Machine FreeList.

Section attack.
Context `{Riscv, MemLayout} {P : Type}.

(** ** The allocator *)

(** [allocated_pages] is an [int] of kalloc.c, [has_record] one of main.c that
    the booted kernel sets to one; [rest] is the rest of the kernel. *)
Record atk := Atk { freelist : Z; allocated_pages : Z; has_record : Z; rest : P }.

Definition kmem_lock : lock := ("kmem", 0).

Definition set_freelist (r : Z) (x : atk) : atk := Atk r (allocated_pages x) (has_record x) (rest x).
Definition set_allocated (n : Z) (x : atk) : atk := Atk (freelist x) n (has_record x) (rest x).

(** [if (has_record == 1) { allocated_pages += d; printf(fmt, ...); }] *)
Definition record (d : Z) (fmt : string) (p : Z) : M (kst atk) unit :=
  hr ← getx has_record;
  if hr =? 1 then
    n ← getx allocated_pages;
    modx (set_allocated (s32 (n + d)));;
    n ← getx allocated_pages;
    printf fmt [PInt n; PInt p]
  else mret tt.

Definition kfree (pa : Z) : M (kst atk) unit :=
  (if negb (pa mod PGSIZE =? 0) || (pa <? KERNEND) || (PHYSTOP <=? pa)
   then panic "kfree" else mret tt);;
  acquire kmem_lock;;
  next ← getx freelist;
  store pa next;;
  modx (set_freelist pa);;
  record (-1) "- 当前内核使用页面数: %d %p\n" pa;;
  release kmem_lock.

Definition kalloc : M (kst atk) Z :=
  acquire kmem_lock;;
  r ← getx freelist;
  record 1 "+，当前内核使用页面数: %d %p\n" r;;
  (if negb (r =? 0) then next ← load r; modx (set_freelist next) else mret tt);;
  release kmem_lock;;
  mret r.

(** ** Its contract: the free pages, last freed first, and what the pages hold
    beyond their first word *)

Definition managed (p : Z) : Prop := p mod 4096 = 0 ∧ KERNEND ≤ p ∧ p + 4096 ≤ PHYSTOP.

Record arep (s : kst atk) (l : list Z) (c : mem) : Prop := {
  ar_chain : flist (kmem s) (freelist (ext s)) l;
  ar_blocks : blocks KERNEND PHYSTOP 4096 l;
  ar_content b : 8 ≤ b mod 4096 → kmem s b = c b;
}.

(** What the users of the allocator do: take a page, give one back, write a
    byte of a page they hold. *)
Inductive aop := OpAlloc | OpFree (p : Z) | OpUse (b v : Z).

Definition run_aop (o : aop) : M (kst atk) Z :=
  match o with
  | OpAlloc => kalloc
  | OpFree p => kfree p;; mret 0
  | OpUse b v => modify (λ s, set_mem (λ a, if a =? b then v else kmem s a) s);; mret 0
  end.

Fixpoint run_aops (os : list aop) : M (kst atk) (list Z) :=
  match os with
  | [] => mret []
  | o :: os => r ← run_aop o; rs ← run_aops os; mret (r :: rs)
  end.

Definition legal_aop (o : aop) (l : list Z) : Prop :=
  match o with
  | OpAlloc => True
  | OpFree p => managed p ∧ p ∉ l
  | OpUse b _ => ∀ p, p ∈ l → ¬ in_range p 4096 b
  end.

Definition spec_aop (o : aop) (l : list Z) (c : mem) : Z * (list Z * mem) :=
  match o with
  | OpAlloc => (default 0 (head l), (tail l, c))
  | OpFree p => (0, (p :: l, c))
  | OpUse b v => (0, (l, λ a, if a =? b then v else c a))
  end.

Fixpoint legal_aops (os : list aop) (l : list Z) (c : mem) : Prop :=
  match os with
  | [] => True
  | o :: os => legal_aop o l ∧ legal_aops os (spec_aop o l c).2.1 (spec_aop o l c).2.2
  end.

Fixpoint spec_aops (os : list aop) (l : list Z) (c : mem) : list Z * (list Z * mem) :=
  match os with
  | [] => ([], (l, c))
  | o :: os =>
      let '(r, (l1, c1)) := spec_aop o l c in
      let '(rs, lc) := spec_aops os l1 c1 in
      (r :: rs, lc)
  end.

Implicit Types s : kst atk.

(** How the counter moves. *)
Definition counted (d : Z) (s s' : kst atk) : Prop :=
  held s' = held s ∧ has_record (ext s') = has_record (ext s) ∧ rest (ext s') = rest (ext s) ∧
  allocated_pages (ext s') =
    (if has_record (ext s) =? 1 then s32 (allocated_pages (ext s) + d) else allocated_pages (ext s)).

Lemma record_ok d fmt p s :
  ∃ s', record d fmt p s = Ok tt s' ∧ kmem s' = kmem s ∧ freelist (ext s') = freelist (ext s) ∧ counted d s s'.
Proof.
  unfold record. erewrite bind_Ok by reflexivity. unfold counted.
  destruct (has_record (ext s) =? 1) eqn:E; [|by exists s].
  eexists. split; [reflexivity|]. done.
Qed.

Lemma page_nonzero p : managed p → 0 < p.
Proof. intros (_ & Hlo & _). pose proof KERNEND_pos. lia. Qed.

Lemma kalloc_ok s l c :
  arep s l c → kmem_lock ∉ held s →
  ∃ s', kalloc s = Ok (default 0 (head l)) s' ∧ arep s' (tail l) c ∧ kmem s' = kmem s ∧ counted 1 s s'.
Proof.
  intros [Hch Hbl Hc] Hl. destruct s as [m h co x]. cbn in *. unfold kalloc. do 2 kstep.
  destruct (record_ok 1 "+，当前内核使用页面数: %d %p\n" (freelist x) (set_held ({[kmem_lock]} ∪ h) (KSt m h co x)))
    as ([m1 h1 co1 x1] & Hr & Hm & Hf & Hh & Hc'). cbn in Hm, Hf, Hh. subst m1 h1.
  erewrite bind_Ok by exact Hr. destruct Hc' as (Hhr & Hrest & Hn). cbn in Hhr, Hrest, Hn.
  pose proof (flist_head _ _ _ Hch) as Hhd. rewrite <-Hhd.
  destruct (freelist x =? 0) eqn:E; bool_to_Prop; cbn [negb].
  - kstep. erewrite bind_Ok by (by apply release_ok). eexists. split; [done|].
    rewrite E in Hch. apply flist_null in Hch as ->. rewrite <-Hf in E.
    split; [|split; [done|by repeat split]]. constructor; [done|apply blocks_nil|done].
  - apply flist_cons_inv in Hch as (l' & -> & Hch); [|done].
    rewrite bind_assoc. do 2 kstep. erewrite bind_Ok by (by apply release_ok). eexists. split; [done|].
    split; [|split; [done|by repeat split]]. apply blocks_cons in Hbl as [_ Hbl]. by constructor.
Qed.

Lemma kfree_ok s l c p :
  arep s l c → kmem_lock ∉ held s → managed p → p ∉ l →
  ∃ s', kfree p s = Ok tt s' ∧ arep s' (p :: l) c ∧ agree_on (λ b, ¬ in_range p 8 b) (kmem s) (kmem s') ∧
    counted (-1) s s'.
Proof.
  intros [Hch Hbl Hc] Hl Hp Hn. pose proof (page_nonzero p Hp) as Hp0. destruct Hp as (Hal & Hlo & Hhi).
  destruct s as [m h co x]. cbn in *. unfold kfree, PGSIZE.
  assert (negb (p mod 4096 =? 0) || (p <? KERNEND) || (PHYSTOP <=? p) = false) as -> by lia.
  do 5 kstep.
  match goal with |- ∃ s', mbind _ ?r ?s0 = _ ∧ _ => destruct (record_ok (-1) "- 当前内核使用页面数: %d %p\n" p s0)
    as ([m1 h1 co1 x1] & Hr & Hm & Hf & Hh & Hhr & Hrest & Hn1) end.
  cbn in Hm, Hf, Hh, Hhr, Hrest, Hn1. subst m1 h1. erewrite bind_Ok by exact Hr.
  eexists. split; [by apply release_ok|].
  assert (Hag : agree_on (λ b, ¬ in_range p 8 b) m (store64 m p (freelist x))) by (intros b Hb; by apply store64_ne).
  split; [|split; [done|by repeat split]]. constructor; cbn.
  - rewrite Hf. apply (flist_push m _ (freelist x)); [done| | |lia].
    2: { rewrite load64_store64_eq. pose proof KERNEND_pos. pose proof PHYSTOP_bound.
         eapply flist_head_u64; [| | |exact Hch|exact Hbl]; lia. }
    apply (blocks_links KERNEND PHYSTOP 4096 ltac:(lia) m _ l p); try done.
    eapply agree_on_mono; [done|]. unfold in_range. lia.
  - apply blocks_cons. done.
  - intros b Hb. rewrite Hag; [by apply Hc|]. unfold in_range. dlia.
Qed.

(** One operation, and histories. *)
Lemma run_aop_refines o s l c :
  arep s l c → kmem_lock ∉ held s → legal_aop o l →
  ∃ s', run_aop o s = Ok (spec_aop o l c).1 s' ∧
    arep s' (spec_aop o l c).2.1 (spec_aop o l c).2.2 ∧ held s' = held s.
Proof.
  intros Hrep Hl Hleg. destruct o as [|p|b v]; cbn [run_aop spec_aop fst snd].
  - destruct (kalloc_ok s l c Hrep Hl) as (s' & Hr & Hrep' & _ & Hc). exists s'. split; [done|]. split; [done|apply Hc].
  - destruct Hleg as [Hp Hn]. destruct (kfree_ok s l c p Hrep Hl Hp Hn) as (s' & Hr & Hrep' & _ & Hc).
    exists s'. rewrite (bind_Ok _ _ _ _ _ Hr). split; [done|]. split; [done|apply Hc].
  - eexists. split; [reflexivity|]. split; [|done]. destruct Hrep as [Hch Hbl Hct]. constructor; cbn.
    + eapply flist_frame, Hch. intros q Hq. apply load64_ext. intros a Ha.
      rewrite (proj2 (Z.eqb_neq a b)); [done|]. intros ->. apply (Hleg q Hq). unfold in_range in *. lia.
    + done.
    + intros a Ha. destruct (a =? b); [done|]. by apply Hct.
Qed.

Lemma run_aops_refines os : ∀ s l c,
  arep s l c → kmem_lock ∉ held s → legal_aops os l c →
  ∃ s', run_aops os s = Ok (spec_aops os l c).1 s' ∧
    arep s' (spec_aops os l c).2.1 (spec_aops os l c).2.2 ∧ held s' = held s.
Proof.
  induction os as [|o os IH]; intros s l c Hrep Hl Hleg; cbn; [by exists s|].
  destruct Hleg as [Ho Hos]. destruct (run_aop_refines o s l c Hrep Hl Ho) as (s1 & Hr1 & Hrep1 & Hh1).
  rewrite (bind_Ok _ _ _ _ _ Hr1). destruct (spec_aop o l c) as [r [l1 c1]]. cbn in *.
  destruct (IH s1 l1 c1 Hrep1 ltac:(by rewrite Hh1) Hos) as (s2 & Hr2 & Hrep2 & Hh2).
  rewrite (bind_Ok _ _ _ _ _ Hr2). destruct (spec_aops os l1 c1) as [rs [l2 c2]]. cbn in *.
  exists s2. split; [done|]. split; [done|]. congruence.
Qed.

(** C33: pages keep their contents through the free list.  Over any legal
    history of allocations, frees and writes by the owners of pages, [kalloc]
    returns the page freed last, and every byte of memory outside the first
    word of a page holds what was last written to it by whoever owned it: the
    allocator never clears a page. *)
Theorem contents_survive (os : list aop) s l :
  arep s l (kmem s) → kmem_lock ∉ held s → legal_aops os l (kmem s) →
  ∃ s', run_aops os s = Ok (spec_aops os l (kmem s)).1 s' ∧
    flist (kmem s') (freelist (ext s')) (spec_aops os l (kmem s)).2.1 ∧
    ∀ b, 8 ≤ b mod 4096 → kmem s' b = (spec_aops os l (kmem s)).2.2 b.
Proof.
  intros Hrep Hl Hleg. destruct (run_aops_refines os s l (kmem s) Hrep Hl Hleg) as (s' & Hr & Hrep' & _).
  exists s'. split; [done|]. split; [apply Hrep'|]. intros b Hb. by apply (ar_content _ _ _ Hrep').
Qed.

(** The counter is not the number of pages in use: when no page is free
    [kalloc] returns null and counts one more all the same. *)
Theorem failed_kalloc_counted s c :
  arep s [] c → kmem_lock ∉ held s → has_record (ext s) = 1 → -2 ^ 31 ≤ allocated_pages (ext s) < 2 ^ 31 - 1 →
  ∃ s', kalloc s = Ok 0 s' ∧ kmem s' = kmem s ∧ allocated_pages (ext s') = allocated_pages (ext s) + 1.
Proof.
  intros Hrep Hl Hhr Hn. destruct (kalloc_ok s [] c Hrep Hl) as (s' & Hr & _ & Hm & _ & _ & _ & Hc).
  exists s'. split; [done|]. split; [done|]. rewrite Hc, Hhr. cbn. apply s32_small. lia.
Qed.
End attack.
