(* ===== verification/AttackVm.v ===== *)
(** * Growing a process with pages that are not cleared (lab2 "attack xv6":
    kernel/vm.c uvmalloc, kernel/proc.c growproc, kernel/sysproc.c, and the two
    user programs user/secret.c and user/attack.c)

    [mappages], [uvmdealloc] and [walkaddr] are the stock functions; what they
    are documented to do is [AtkVmLaws]. *)

From S2P Require Import Prelude Memory Machine FreeList Attack.

(** The running process; the rest of the kernel is [urest]. *)
Record uproc {Q : Type} := UProc { psz : Z; ppagetable : Z; urest : Q }.
Arguments uproc Q : clear implicits.

Section attack_vm.
Context `{Riscv, MemLayout} {Q : Type}.

Local Abbreviation atk := (atk (P := uproc Q)).
Implicit Types s : kst atk.

Definition set_psz (v : Z) (x : atk) : atk :=
  Atk (freelist x) (allocated_pages x) (has_record x)
    (UProc _ v (ppagetable (rest x)) (urest (rest x))).

(** The stock functions, what each page table maps (a page and permissions at
    each page address), and the pages that hold page tables. *)
Class AtkVm := {
  mappages : Z → Z → Z → Z → Z → M (kst atk) Z;
  uvmdealloc : Z → Z → Z → M (kst atk) Z;
  walkaddr : Z → Z → M (kst atk) Z;
  maps : Q → Z → Z → option (Z * Z);
  tpages : Q → gset Z;
}.

Context `{!AtkVm}.

(** ** Operations *)

Definition uvmalloc_body (pagetable oldsz newsz xperm a : Z) : M (kst atk) (Z + Z) :=
  if negb (a <? newsz) then mret (inr newsz)
  else
    mem ← kalloc;
    if mem =? 0 then
      uvmdealloc pagetable a oldsz;;
      mret (inr 0)
    else
      r ← mappages pagetable a PGSIZE mem (Z.lor (Z.lor PTE_R PTE_U) xperm);
      if negb (r =? 0) then
        kfree mem;;
        uvmdealloc pagetable a oldsz;;
        mret (inr 0)
      else mret (inl (a + PGSIZE)).

(** Every round advances by a page. *)
Definition page_rounds (oldsz newsz : Z) : nat := Z.to_nat ((newsz - oldsz + 4095) / 4096).

Definition uvmalloc (pagetable oldsz newsz xperm : Z) : M (kst atk) Z :=
  printf "执行了uvmalloc\n" [];;
  if newsz <? oldsz then mret oldsz
  else
    let oldsz := PGROUNDUP oldsz in
    loop (S (page_rounds oldsz newsz)) (uvmalloc_body pagetable oldsz newsz xperm) oldsz.

Definition growproc (n : Z) : M (kst atk) Z :=
  printf "执行了growproc %d\n" [PInt n];;
  sz ← getx (λ x, psz (rest x));
  pt ← getx (λ x, ppagetable (rest x));
  if 0 <? n then
    r ← uvmalloc pt sz (u64 (sz + n)) PTE_W;
    if r =? 0 then mret (-1)
    else modx (set_psz r);; mret 0
  else if n <? 0 then
    r ← uvmdealloc pt sz (u64 (sz + n));
    modx (set_psz r);;
    mret 0
  else
    modx (set_psz sz);;
    mret 0.

(** Printing where the new pages are. *)
Definition show_pages_body (new_sz va : Z) : M (kst atk) (Z + unit) :=
  if negb (va <? new_sz) then mret (inr tt)
  else
    pt ← getx (λ x, ppagetable (rest x));
    pa ← walkaddr pt va;
    (if 0 <? pa then printf "VA %lx -> %lx\n" [PInt va; PInt pa] else mret tt);;
    mret (inl (va + PGSIZE)).

Definition sys_sbrk (n : Z) : M (kst atk) Z :=
  addr ← getx (λ x, psz (rest x));
  r ← growproc n;
  if r <? 0 then mret (u64 (-1))
  else
    (if 0 <? n then
       new_sz ← getx (λ x, psz (rest x));
       loop (S (page_rounds addr new_sz)) (show_pages_body new_sz) addr
     else mret tt);;
    mret addr.

(** ** The user programs

    A user access goes through the page table; an access to a page that is not
    mapped ends the process. *)

Definition umaps s (va : Z) : option (Z * Z) :=
  maps (urest (rest (ext s))) (ppagetable (rest (ext s))) va.

Definition translate (va : Z) : M (kst atk) Z := λ s,
  match umaps s (va - va mod 4096) with
  | Some (pa, _) => Ok (pa + va mod 4096) s
  | None => Exited (-1) s
  end.

Definition uload (va : Z) : M (kst atk) Z := pa ← translate va; gets (λ s, kmem s pa).
Definition ustore (va v : Z) : M (kst atk) unit :=
  pa ← translate va;
  modify (λ s, set_mem (λ a, if a =? pa then v else kmem s a) s).

(** [strcpy]: the bytes and the null at their end. *)
Fixpoint ustore_bytes (va : Z) (bs : list Z) : M (kst atk) unit :=
  match bs with
  | [] => mret tt
  | b :: bs => ustore va b;; ustore_bytes (va + 1) bs
  end.
Definition strcpy (va : Z) (bs : list Z) : M (kst atk) unit := ustore_bytes va (bs ++ [0]).

Fixpoint uload_bytes (va : Z) (n : nat) : M (kst atk) (list Z) :=
  match n with
  | O => mret []
  | S n => b ← uload va; bs ← uload_bytes (va + 1) n; mret (b :: bs)
  end.

(** The bytes up to a null, as [printf] reads them for [%s]. *)
Definition ustring_body (v : Z * list Z) : M (kst atk) (Z * list Z + list Z) :=
  let '(va, acc) := v in
  b ← uload va;
  if b =? 0 then mret (inr acc) else mret (inl (va + 1, acc ++ [b])).
Definition ustring (fuel : nat) (va : Z) : M (kst atk) (list Z) := loop fuel ustring_body (va, []).

(** [write] to a descriptor: the bytes appear on the console. *)
Definition put (fmt : string) (bs : list Z) : M (kst atk) unit := printf fmt (PInt <$> bs).

(** "my very very very secret pw is:   " *)
Definition preamble : list Z :=
  [109; 121; 32; 118; 101; 114; 121; 32; 118; 101; 114; 121; 32; 118; 101; 114; 121; 32;
   115; 101; 99; 114; 101; 116; 32; 112; 119; 32; 105; 115; 58; 32; 32; 32].

(** main of secret.c; [argv1] is the password. *)
Definition secret_main (argc : Z) (argv1 : list Z) : M (kst atk) unit :=
  printf "执行了secret\n" [];;
  (if negb (argc =? 2) then
     printf "Usage: secret the-secret\n" [];;
     exit_with (A := unit) 1
   else mret tt);;
  end_ ← sys_sbrk (PGSIZE * 32);
  let end_ := end_ + 9 * PGSIZE in
  printf "写入到end %p\n" [PInt end_];;
  strcpy end_ preamble;;
  strcpy (end_ + 32) argv1;;
  exit_with 0.

(** main of attack.c: the string and eight bytes at offset 32 of the
    seventeenth new page. *)
Definition attack_main (fuel : nat) : M (kst atk) unit :=
  printf "执行了attack\n" [];;
  a ← sys_sbrk 0;
  c ← sys_sbrk (PGSIZE * 32);
  moved ← (if negb (c =? a) then mret true
           else d ← sys_sbrk 0; mret (negb (d =? a + PGSIZE * 32))) : M (kst atk) bool;
  (if moved : bool then
     printf "attack: sbrk re-allocation failed\n" [];;
     exit_with (A := unit) 1
   else mret tt);;
  let secret := c + 16 * PGSIZE + 32 in
  str ← ustring fuel secret;
  put "secret content as string: %s\n" str;;
  bytes ← uload_bytes secret 8;
  put "write(2, secret, 8)" bytes;;
  exit_with 1.

(** ** What the stock functions do *)

Definition tbls s : Z → Z → option (Z * Z) := maps (urest (rest (ext s))).
Definition tps s : gset Z := tpages (urest (rest (ext s))).

Definition outside (t : gset Z) (b : Z) : Prop := ∀ p, p ∈ t → ¬ in_range p 4096 b.

(** What no stock function changes. *)
Definition same_process s s' : Prop :=
  held s' = held s ∧ psz (rest (ext s')) = psz (rest (ext s)) ∧
  ppagetable (rest (ext s')) = ppagetable (rest (ext s)).

(** A state with free pages [l], none of them a page table. *)
Record free_ok s (l : list Z) : Prop := {
  fo_chain : flist (kmem s) (freelist (ext s)) l;
  fo_blocks : blocks KERNEND PHYSTOP 4096 l;
  fo_tables p : p ∈ tps s → p mod 4096 = 0 ∧ p ∉ l;
  fo_unlocked : kmem_lock ∉ held s;
}.

(** [mappages] of a page takes the pages it needs for page tables off the free
    list, and panics at an address from [MAXVA] on; [uvmdealloc] unmaps the pages of a range, and gives them back. *)
Class AtkVmLaws := {
  mappages_law s l pt va pa perm :
    free_ok s l → va mod 4096 = 0 → 0 ≤ va < MAXVA → tbls s pt va = None → pa ∉ l → pa ∉ tps s →
    ∃ r s' k, mappages pt va PGSIZE pa perm s = Ok r s' ∧ same_process s s' ∧
      free_ok s' (drop k l) ∧ tps s' = list_to_set (take k l) ∪ tps s ∧
      agree_on (outside (tps s')) (kmem s) (kmem s') ∧
      (r = 0 ∧ (∀ pt' va', tbls s' pt' va' =
                  if decide (pt' = pt ∧ va' = va) then Some (pa, perm) else tbls s pt' va') ∨
       r = -1 ∧ tbls s' = tbls s);
  mappages_high s pt va pa perm :
    va mod 4096 = 0 → MAXVA ≤ va → mappages pt va PGSIZE pa perm s = Panic "walk" s;
  uvmdealloc_law s l pt a b :
    free_ok s l → b ≤ a → b mod 4096 = 0 →
    (∀ va, b ≤ va < a → va mod 4096 = 0 → ∃ pa perm, tbls s pt va = Some (pa, perm) ∧
       managed pa ∧ pa ∉ l ∧ (pa ∉ tps s) ∧
       ∀ va' perm', b ≤ va' < a → va' mod 4096 = 0 → tbls s pt va' = Some (pa, perm') → va' = va) →
    ∃ s' l', uvmdealloc pt a b s = Ok b s' ∧ same_process s s' ∧ free_ok s' l' ∧
      ∀ pt' va', tbls s' pt' va' =
        if decide (pt' = pt ∧ b ≤ va' < a ∧ va' mod 4096 = 0) then None else tbls s pt' va';
  walkaddr_law s pt va :
    ∃ pa, walkaddr pt va s = Ok pa s;
}.

Context `{!AtkVmLaws}.

(** ** Growing *)

(** From [s0], with free pages [l0], the pages [pas] have been mapped from [a0]
    on; [l] is what is free now.  Every page that left the free list is mapped
    or holds a page table, and no byte outside page tables has changed. *)
Record grown s0 (l0 : list Z) (pt a0 perm : Z) s (pas l : list Z) : Prop := {
  gr_free : free_ok s l;
  gr_taken : ∃ used, l0 = used ++ l ∧ pas `sublist_of` used ∧ ∀ p, p ∈ used → p ∈ pas ∨ p ∈ tps s;
  gr_pages p : p ∈ pas → p ∉ tps s;
  gr_tables p : p ∈ tps s → p ∈ tps s0 ∨ p ∈ l0;
  gr_maps i pa : pas !! i = Some pa → tbls s pt (a0 + Z.of_nat i * 4096) = Some (pa, perm);
  gr_others pt' va : (pt' = pt → ∀ i, (i < length pas)%nat → va ≠ a0 + Z.of_nat i * 4096) →
    tbls s pt' va = tbls s0 pt' va;
  gr_mem : agree_on (outside (tps s)) (kmem s0) (kmem s);
  gr_process : same_process s0 s;
}.

Lemma grown_nil s l pt a0 perm : free_ok s l → grown s l pt a0 perm s [] l.
Proof.
  intros Hf. constructor; try done.
  - exists []. split; [done|]. split; [done|]. set_solver.
  - set_solver.
  - by left.
Qed.

Definition failed s0 s' : Prop :=
  (∀ pt va, tbls s' pt va = tbls s0 pt va) ∧ same_process s0 s' ∧ ∃ l, free_ok s' l.

Lemma same_process_trans s1 s2 s3 : same_process s1 s2 → same_process s2 s3 → same_process s1 s3.
Proof. unfold same_process. intuition congruence. Qed.

(** Unmapping what has been mapped so far. *)
Lemma undo_growth s0 s l pt a0 pas perm :
  free_ok s l → a0 mod 4096 = 0 → NoDup pas →
  (∀ p, p ∈ pas → managed p ∧ p ∉ l ∧ p ∉ tps s) →
  (∀ i pa, pas !! i = Some pa → tbls s pt (a0 + Z.of_nat i * 4096) = Some (pa, perm)) →
  (∀ pt' va, (pt' = pt → ∀ i, (i < length pas)%nat → va ≠ a0 + Z.of_nat i * 4096) → tbls s pt' va = tbls s0 pt' va) →
  (∀ i, (i < length pas)%nat → tbls s0 pt (a0 + Z.of_nat i * 4096) = None) → same_process s0 s →
  ∃ s', uvmdealloc pt (a0 + Z.of_nat (length pas) * 4096) a0 s = Ok a0 s' ∧ failed s0 s'.
Proof.
  intros Hfree Ha0 Hnd Hpas Hmaps Hoth Hnone Hsame.
  assert (Hidx : ∀ va, a0 ≤ va < a0 + Z.of_nat (length pas) * 4096 → va mod 4096 = 0 →
            ∃ i, va = a0 + Z.of_nat i * 4096 ∧ (i < length pas)%nat).
  { intros va Hva Hal. exists (Z.to_nat ((va - a0) / 4096)). dlia. }
  destruct (uvmdealloc_law s l pt (a0 + Z.of_nat (length pas) * 4096) a0 Hfree ltac:(lia) Ha0) as (s' & l' & Hr & Hs & Hf & Ht).
  { intros va Hva Hal. destruct (Hidx va Hva Hal) as (i & -> & Hi).
    destruct (lookup_lt_is_Some_2 pas i Hi) as [pa Hpa].
    destruct (Hpas pa) as (? & ? & ?); [by eapply list_elem_of_lookup_2|].
    exists pa, perm. do 4 (split; [by auto|]).
    intros va' perm' Hva' Hal' Ht. destruct (Hidx va' Hva' Hal') as (j & -> & Hj).
    destruct (lookup_lt_is_Some_2 pas j Hj) as [pa' Hpa']. rewrite (Hmaps j pa' Hpa') in Ht. injection Ht as -> _.
    rewrite (NoDup_lookup pas i j pa Hnd Hpa Hpa'). done. }
  exists s'. split; [done|]. split; [|split; [by eapply same_process_trans|by exists l']].
  intros pt' va. rewrite Ht. case_decide as Hd.
  - destruct Hd as (-> & Hva & Hal). destruct (Hidx va Hva Hal) as (i & -> & Hi). by rewrite Hnone.
  - apply Hoth. intros -> i Hi ->. apply Hd. split; [done|]. split; [lia|]. by rewrite Z_mod_plus_full.
Qed.

Lemma free_arep s l : free_ok s l → arep s l (kmem s).
Proof. intros []. by constructor. Qed.

Lemma grown_nodup s0 l0 pt a0 perm s pas l :
  free_ok s0 l0 → grown s0 l0 pt a0 perm s pas l → NoDup pas ∧ ∀ p, p ∈ pas → managed p ∧ p ∉ l ∧ p ∉ tps s.
Proof.
  intros Hf0 Hg. destruct (gr_taken _ _ _ _ _ _ _ _ Hg) as (used & Hl0 & Hsub & _).
  destruct (fo_blocks _ _ Hf0) as [Hnd Hall]. rewrite Hl0 in Hnd. apply NoDup_app in Hnd as (Hndu & Hdis & _).
  split; [by eapply sublist_NoDup|]. intros p Hp.
  assert (Hpu : p ∈ used) by (by eapply elem_of_sublist).
  split; [|split; [by apply Hdis|by apply Hg]]. rewrite Forall_forall in Hall. apply Hall. rewrite Hl0. set_solver.
Qed.

(** [kalloc] does not touch processes, tables or memory. *)
Lemma kalloc_free s l :
  free_ok s l →
  ∃ s', kalloc s = Ok (default 0 (head l)) s' ∧ free_ok s' (tail l) ∧ kmem s' = kmem s ∧
    tbls s' = tbls s ∧ tps s' = tps s ∧ same_process s s'.
Proof.
  intros Hf. destruct (kalloc_ok s l _ (free_arep s l Hf) (fo_unlocked _ _ Hf)) as (s' & Hr & [Hch Hbl _] & Hm & Hh & _ & Hrest & _).
  exists s'. split; [done|]. unfold tbls, tps, same_process. rewrite !Hrest. split; [|done].
  constructor; try done; unfold tps; rewrite ?Hrest, ?Hh; try apply Hf.
  intros p Hp. destruct (fo_tables _ _ Hf p Hp) as [Hal Hn]. split; [done|]. intros Hin. apply Hn. destruct l; [done|]. set_solver.
Qed.

Lemma kfree_free s l p :
  free_ok s l → managed p → p ∉ l → p ∉ tps s →
  ∃ s', kfree p s = Ok tt s' ∧ free_ok s' (p :: l) ∧ tbls s' = tbls s ∧ tps s' = tps s ∧ same_process s s'.
Proof.
  intros Hf Hp Hn Ht. destruct (kfree_ok s l _ p (free_arep s l Hf) (fo_unlocked _ _ Hf) Hp Hn) as (s' & Hr & [Hch Hbl _] & _ & Hh & _ & Hrest & _).
  exists s'. split; [done|]. unfold tbls, tps, same_process. rewrite !Hrest. split; [|done].
  constructor; try done; unfold tps; rewrite ?Hrest, ?Hh; try apply Hf.
  intros q Hq. destruct (fo_tables _ _ Hf q Hq) as [Hal Hn']. split; [done|]. apply not_elem_of_cons. split; [|done].
  by intros ->.
Qed.

(** A page mapped: the region grows by one. *)
Lemma grown_step s0 l0 pt a0 perm s pas l s1 pa l1 s2 k :
  free_ok s0 l0 → grown s0 l0 pt a0 perm s pas l → l = pa :: l1 →
  kmem s1 = kmem s → tbls s1 = tbls s → tps s1 = tps s → same_process s s1 → same_process s1 s2 →
  free_ok s2 (drop k l1) → tps s2 = list_to_set (take k l1) ∪ tps s1 →
  agree_on (outside (tps s2)) (kmem s1) (kmem s2) →
  (∀ pt' va', tbls s2 pt' va' = if decide (pt' = pt ∧ va' = a0 + Z.of_nat (length pas) * 4096) then Some (pa, perm)
                                else tbls s1 pt' va') →
  grown s0 l0 pt a0 perm s2 (pas ++ [pa]) (drop k l1).
Proof.
  intros Hf0 [Hf (used & Hl0 & Hsub & Hused) Hpg Htb Hmp Hot Hme Hsame] -> Hm1 Ht1 Htp1 Hs1 Hs2 Hf2 Htp2 Hm2 Ht2.
  destruct (fo_blocks _ _ Hf0) as [Hnd _]. rewrite Hl0 in Hnd.
  assert (Hl1 : l1 = take k l1 ++ drop k l1) by (by rewrite take_drop). rewrite Htp1 in Htp2.
  constructor; try done.
  - exists (used ++ pa :: take k l1). split; [rewrite Hl0, <-app_assoc; cbn; by rewrite <-Hl1|]. split.
    + apply sublist_app; [done|]. apply sublist_skip, sublist_nil_l.
    + intros p Hp. rewrite Htp2. apply elem_of_app in Hp as [Hp|Hp]; [destruct (Hused p Hp); set_solver|].
      apply elem_of_cons in Hp as [->|Hp]; [left; set_solver|right]. apply elem_of_union_l. by apply elem_of_list_to_set.
  - rewrite Hl1 in Hnd. apply NoDup_app in Hnd as (_ & Hdis & Hnd). apply NoDup_cons in Hnd as [Hpa _].
    intros p Hp. rewrite Htp2. apply elem_of_app in Hp as [Hp|Hp].
    + intros [Hin|Hin]%elem_of_union; [|by apply (Hpg p)]. apply elem_of_list_to_set in Hin.
      assert (p ∈ used) by exact (elem_of_sublist _ _ _ Hp Hsub). apply (Hdis p); [done|]. set_solver.
    + apply list_elem_of_singleton in Hp as ->. intros [Hin|Hin]%elem_of_union.
      * apply elem_of_list_to_set in Hin. apply Hpa. set_solver.
      * destruct (fo_tables _ _ Hf pa Hin). set_solver.
  - intros p. rewrite Htp2. intros [Hin|Hin]%elem_of_union; [right|by apply Htb].
    apply elem_of_list_to_set in Hin. rewrite Hl0, Hl1. set_solver.
  - intros i p Hi. rewrite Ht2, Ht1. apply lookup_app_Some in Hi as [Hi|[Hlen Hi]].
    + rewrite decide_False; [by apply Hmp|]. apply lookup_lt_Some in Hi. lia.
    + apply list_lookup_singleton_Some in Hi as [Hi <-]. rewrite decide_True; [done|]. split; [done|]. lia.
  - intros pt' va Hva. rewrite Ht2, Ht1, length_app in *. cbn in Hva. rewrite decide_False.
    + apply Hot. intros Hp i Hi. apply Hva; [done|lia].
    + intros [Hp Heq]. apply (Hva Hp (length pas)); [lia|done].
  - intros b Hb. rewrite Hm2, Hm1 by done. apply Hme. intros p Hp. apply Hb. rewrite Htp2. set_solver.
  - eapply same_process_trans; [done|]. by eapply same_process_trans.
Qed.

Definition user_perm (xperm : Z) : Z := Z.lor (Z.lor PTE_R PTE_U) xperm.

(** Undoing from a later state with the same tables. *)
Lemma undo_grown s0 l0 pt a0 perm s pas l s' l' :
  free_ok s0 l0 → a0 mod 4096 = 0 → grown s0 l0 pt a0 perm s pas l →
  (∀ i, (i ≤ length pas)%nat → tbls s0 pt (a0 + Z.of_nat i * 4096) = None) →
  free_ok s' l' → tbls s' = tbls s → same_process s s' → (∀ p, p ∈ pas → p ∉ l' ∧ p ∉ tps s') →
  ∃ s'', uvmdealloc pt (a0 + Z.of_nat (length pas) * 4096) a0 s' = Ok a0 s'' ∧ failed s0 s''.
Proof.
  intros Hf0 Ha0 Hg Hnone Hf' Ht Hs Hpas. destruct (grown_nodup _ _ _ _ _ _ _ _ Hf0 Hg) as [Hnd Hman].
  apply (undo_growth s0 s' l' pt a0 pas perm); try done.
  - intros p Hp. destruct (Hman p Hp) as (? & _). destruct (Hpas p Hp). done.
  - rewrite Ht. apply Hg.
  - rewrite Ht. apply Hg.
  - intros i Hi. apply Hnone. lia.
  - eapply same_process_trans; [apply Hg|done].
Qed.

(** The page could not be mapped: it is freed, and the others with it. *)
Lemma unmapped_page s0 l0 pt a0 perm s pas pa l1 s2 k :
  free_ok s0 l0 → a0 mod 4096 = 0 → grown s0 l0 pt a0 perm s pas (pa :: l1) →
  (∀ i, (i ≤ length pas)%nat → tbls s0 pt (a0 + Z.of_nat i * 4096) = None) → managed pa →
  same_process s s2 → free_ok s2 (drop k l1) → tps s2 = list_to_set (take k l1) ∪ tps s → tbls s2 = tbls s →
  ∃ s', (kfree pa;; uvmdealloc pt (a0 + Z.of_nat (length pas) * 4096) a0;; mret (inr 0 : Z + Z)) s2 = Ok (inr 0) s' ∧
    failed s0 s'.
Proof.
  intros Hf0 Ha0 Hg Hnone Hman Hs2 Hf2 Htp2 Ht2. pose proof (gr_free _ _ _ _ _ _ _ _ Hg) as Hf.
  destruct (grown_nodup _ _ _ _ _ _ _ _ Hf0 Hg) as [_ Hpas].
  destruct (fo_blocks _ _ Hf) as [Hnd _]. apply NoDup_cons in Hnd as [Hpa _].
  assert (Hsub : ∀ p, p ∈ drop k l1 → p ∈ l1) by (intros p Hp; eapply elem_of_sublist; [done|apply sublist_drop]).
  assert (Htk : ∀ p, p ∈ take k l1 → p ∈ l1) by (intros p Hp; eapply elem_of_sublist; [done|apply sublist_take]).
  assert (Hnew : ∀ p, p ∉ l1 → p ∉ tps s → p ∉ tps s2).
  { intros p Hn Hn'. rewrite Htp2. intros [Hin|Hin]%elem_of_union; [|done]. apply elem_of_list_to_set in Hin. auto. }
  assert (Hpat : pa ∉ tps s) by (intros Hin; destruct (fo_tables _ _ Hf pa Hin) as [_ Hn]; apply Hn; by left).
  destruct (kfree_free s2 _ pa Hf2 Hman ltac:(auto) ltac:(auto)) as (s3 & Hr3 & Hf3 & Ht3 & Htp3 & Hs3).
  rewrite (bind_Ok _ _ _ _ _ Hr3).
  destruct (undo_grown s0 l0 pt a0 perm s pas (pa :: l1) s3 _ Hf0 Ha0 Hg Hnone Hf3) as (s4 & Hr4 & Hfail).
  - by rewrite Ht3.
  - by eapply same_process_trans.
  - intros p Hp. destruct (Hpas p Hp) as (_ & Hn & Hn'). rewrite Htp3. apply not_elem_of_cons in Hn as [Hne Hn].
    split; [|by apply Hnew]. apply not_elem_of_cons. auto.
  - exists s4. by rewrite (bind_Ok _ _ _ _ _ Hr4).
Qed.

(** One round: the region grows by a page, or everything is undone. *)
Lemma uvmalloc_round s0 l0 pt a0 xperm newsz s pas l :
  free_ok s0 l0 → a0 mod 4096 = 0 → 0 ≤ a0 → grown s0 l0 pt a0 (user_perm xperm) s pas l →
  (∀ i, (i ≤ length pas)%nat → tbls s0 pt (a0 + Z.of_nat i * 4096) = None) →
  a0 + Z.of_nat (length pas) * 4096 < newsz →
  (∃ pa s' l', uvmalloc_body pt a0 newsz xperm (a0 + Z.of_nat (length pas) * 4096) s =
       Ok (inl (a0 + Z.of_nat (length (pas ++ [pa])) * 4096)) s' ∧
     grown s0 l0 pt a0 (user_perm xperm) s' (pas ++ [pa]) l') ∨
  (∃ s', uvmalloc_body pt a0 newsz xperm (a0 + Z.of_nat (length pas) * 4096) s = Ok (inr 0) s' ∧ failed s0 s') ∨
  (∃ s', uvmalloc_body pt a0 newsz xperm (a0 + Z.of_nat (length pas) * 4096) s = Panic "walk" s' ∧ MAXVA < newsz).
Proof.
  intros Hf0 Ha0 Ha0' Hg Hnone Hlt. set (a := a0 + Z.of_nat (length pas) * 4096) in *.
  unfold uvmalloc_body. rewrite (proj2 (Z.ltb_lt a newsz)) by done. cbn [negb].
  destruct (grown_nodup _ _ _ _ _ _ _ _ Hf0 Hg) as [Hnd Hpas]. pose proof (gr_free _ _ _ _ _ _ _ _ Hg) as Hf.
  destruct (kalloc_free s l Hf) as (s1 & Hr1 & Hf1 & Hm1 & Ht1 & Htp1 & Hs1). rewrite (bind_Ok _ _ _ _ _ Hr1).
  destruct l as [|pa l1]; cbn [head default tail] in *.
  { right; left. destruct (undo_grown s0 l0 pt a0 (user_perm xperm) s pas [] s1 [] Hf0 Ha0 Hg Hnone Hf1 Ht1 Hs1) as (s2 & Hr2 & Hfail).
    - intros p Hp. rewrite Htp1. by apply Hpas.
    - exists s2. cbn. by rewrite (bind_Ok _ _ _ _ _ Hr2). }
  pose proof (fo_blocks _ _ Hf) as Hbl. apply blocks_cons in Hbl as [(Hpan & Hpaal & Hpalo & Hpahi) _].
  assert (Hman : managed pa) by done. cbn. rewrite (proj2 (Z.eqb_neq pa 0)) by (pose proof (page_nonzero pa Hman); lia).
  assert (Hpat : pa ∉ tps s1). { rewrite Htp1. intros Hin. destruct (fo_tables _ _ Hf pa Hin) as [_ Hn]. apply Hn. by left. }
  assert (Hal : a mod 4096 = 0) by (unfold a; by rewrite Z_mod_plus_full).
  destruct (decide (a < MAXVA)) as [Hlow|Hhigh].
  2: { right; right. exists s1. split; [|lia]. fold (user_perm xperm).
       by rewrite (bind_Panic _ _ _ _ _ (mappages_high s1 pt a pa _ Hal ltac:(lia))). }
  destruct (mappages_law s1 l1 pt a pa (user_perm xperm) Hf1) as (r & s2 & k & Hr2 & Hs2 & Hf2 & Htp2 & Hm2 & Hcase); try done.
  { unfold a in *. lia. }
  { rewrite Ht1. rewrite (gr_others _ _ _ _ _ _ _ _ Hg); [by apply Hnone|]. intros _ i Hi. unfold a. lia. }
  fold (user_perm xperm). rewrite (bind_Ok _ _ _ _ _ Hr2). destruct Hcase as [[-> Ht2]|[-> Ht2]]; cbn [negb Z.eqb].
  - left. exists pa, s2, (drop k l1). split.
    { replace (a0 + Z.of_nat (length (pas ++ [pa])) * 4096) with (a + PGSIZE); [done|].
      unfold PGSIZE, a. rewrite length_app. cbn [length]. lia. }
    by eapply (grown_step s0 l0 pt a0 _ s pas (pa :: l1) s1 pa l1 s2 k).
  - right; left. rewrite Ht1 in Ht2. rewrite Htp1 in Htp2.
    eapply unmapped_page; try done. by eapply same_process_trans.
Qed.

Lemma page_rounds_spec a0 newsz i :
  a0 mod 4096 = 0 → (i < page_rounds a0 newsz)%nat ↔ a0 + Z.of_nat i * 4096 < newsz.
Proof. intros Ha0. unfold page_rounds. split; intros; dlia. Qed.

Lemma uvmalloc_loop s0 l0 pt a0 xperm newsz d : ∀ fuel s pas l,
  free_ok s0 l0 → a0 mod 4096 = 0 → 0 ≤ a0 → grown s0 l0 pt a0 (user_perm xperm) s pas l →
  (∀ va, a0 ≤ va < newsz → tbls s0 pt va = None) →
  (length pas + d = page_rounds a0 newsz)%nat → (d < fuel)%nat →
  (∃ s' pas' l', loop fuel (uvmalloc_body pt a0 newsz xperm) (a0 + Z.of_nat (length pas) * 4096) s = Ok newsz s' ∧
     length pas' = page_rounds a0 newsz ∧ grown s0 l0 pt a0 (user_perm xperm) s' pas' l') ∨
  (∃ s', loop fuel (uvmalloc_body pt a0 newsz xperm) (a0 + Z.of_nat (length pas) * 4096) s = Ok 0 s' ∧ failed s0 s') ∨
  (∃ s', loop fuel (uvmalloc_body pt a0 newsz xperm) (a0 + Z.of_nat (length pas) * 4096) s = Panic "walk" s' ∧
     MAXVA < newsz).
Proof.
  induction d as [|d IH]; intros [|fuel] s pas l Hf0 Ha0 Ha0' Hg Hnone Hlen Hfuel; try lia; rewrite loop_S.
  - left. exists s, pas, l. unfold uvmalloc_body at 2.
    rewrite (proj2 (Z.ltb_ge _ newsz)); [by split; [|split; [lia|]]|].
    pose proof (page_rounds_spec a0 newsz (length pas) Ha0). lia.
  - assert (Hlt : a0 + Z.of_nat (length pas) * 4096 < newsz) by (apply page_rounds_spec; [done|lia]).
    destruct (uvmalloc_round s0 l0 pt a0 xperm newsz s pas l Hf0 Ha0 Ha0' Hg)
      as [(pa & s1 & l1 & Hr & Hg1)|[(s1 & Hr & Hfail)|(s1 & Hr & Hbig)]]; try done.
    { intros i Hi. apply Hnone. lia. }
    + rewrite (bind_Ok _ _ _ _ _ Hr). apply (IH fuel s1 _ l1); try done; [|lia]. rewrite length_app. cbn. lia.
    + right; left. exists s1. by rewrite (bind_Ok _ _ _ _ _ Hr).
    + right; right. exists s1. by rewrite (bind_Panic _ _ _ _ _ Hr).
Qed.

(** Mapped pages are no page tables: their bytes have not changed. *)
Lemma grown_bytes s0 l0 pt a0 perm s pas l p b :
  free_ok s0 l0 → grown s0 l0 pt a0 perm s pas l → p ∈ pas → in_range p 4096 b → kmem s b = kmem s0 b.
Proof.
  intros Hf0 Hg Hp Hb. destruct (grown_nodup _ _ _ _ _ _ _ _ Hf0 Hg) as [_ Hman].
  destruct (Hman p Hp) as ((Hal & _) & _ & Hn). apply (gr_mem _ _ _ _ _ _ _ _ Hg). intros q Hq Hbq.
  destruct (fo_tables _ _ (gr_free _ _ _ _ _ _ _ _ Hg) q Hq) as [Hqal _].
  destruct (aligned_disjoint 4096 p q) as [|]; try done; try lia; [congruence| |]; unfold in_range in *; lia.
Qed.

(** A line printed. *)
Definition printed (fmt : string) (args : list parg) s : kst atk :=
  KSt (kmem s) (held s) (console s ++ [(fmt, args)]) (ext s).

Lemma uvmalloc_ok s l pt oldsz newsz xperm :
  free_ok s l → 0 ≤ oldsz ≤ newsz → oldsz + 4095 < 2 ^ 64 →
  (∀ va, PGROUNDUP oldsz ≤ va < newsz → tbls s pt va = None) →
  (∃ s' pas l', uvmalloc pt oldsz newsz xperm s = Ok newsz s' ∧
     length pas = page_rounds (PGROUNDUP oldsz) newsz ∧
     grown (printed "执行了uvmalloc\n" [] s) l pt (PGROUNDUP oldsz)
       (user_perm xperm) s' pas l' ∧
     ∀ p b, p ∈ pas → in_range p 4096 b → kmem s' b = kmem s b) ∨
  (∃ s', uvmalloc pt oldsz newsz xperm s = Ok 0 s' ∧ failed s s') ∨
  (MAXVA < newsz ∧ ∃ s', uvmalloc pt oldsz newsz xperm s = Panic "walk" s').
Proof.
  intros Hf [Hlo Hle] Hbd Hnone. unfold uvmalloc. erewrite bind_Ok by reflexivity.
  fold (printed "执行了uvmalloc\n" [] s). rewrite (proj2 (Z.ltb_ge newsz oldsz)) by done.
  set (s0 := printed _ _ s). assert (Hf0 : free_ok s0 l) by (destruct Hf; by constructor).
  assert (Ha0 : PGROUNDUP oldsz mod 4096 = 0) by (rewrite PGROUNDUP_spec by done; apply Z_mod_mult).
  assert (Ha0' : 0 ≤ PGROUNDUP oldsz) by (rewrite PGROUNDUP_spec by done; dlia).
  destruct (uvmalloc_loop s0 l pt (PGROUNDUP oldsz) xperm newsz (page_rounds (PGROUNDUP oldsz) newsz)
    (S (page_rounds (PGROUNDUP oldsz) newsz)) s0 [] l)
    as [(s' & pas & l' & Hr & Hlen & Hg)|[(s' & Hr & Hfail)|(s' & Hr & Hbig)]]; try done;
    try lia; [by apply grown_nil| | |]; cbn [length] in Hr; rewrite Z.mul_0_l, Z.add_0_r in Hr.
  - left. exists s', pas, l'. split; [done|]. split; [done|]. split; [done|].
    intros p b Hp Hb. by rewrite (grown_bytes _ _ _ _ _ _ _ _ p b Hf0 Hg).
  - right; left. by exists s'.
  - right; right. split; [done|]. by exists s'.
Qed.


(** ** The system call *)

(** Only the console differs. *)
Definition printed_only s s' : Prop := kmem s' = kmem s ∧ held s' = held s ∧ ext s' = ext s.

Lemma show_pages_ok sz fuel : ∀ va s, (page_rounds va sz < fuel)%nat →
  ∃ s', loop fuel (show_pages_body sz) va s = Ok tt s' ∧ printed_only s s'.
Proof.
  induction fuel as [|fuel IH]; intros va s Hf; [lia|]. rewrite loop_S. unfold show_pages_body at 2. cbv beta.
  destruct (va <? sz) eqn:E; cbn [negb]; [|by exists s].
  erewrite bind_assoc, bind_Ok by reflexivity. cbv beta.
  destruct (walkaddr_law s (ppagetable (rest (ext s))) va) as [pa Hpa]. rewrite bind_assoc, (bind_Ok _ _ _ _ _ Hpa).
  rewrite bind_assoc. bool_to_Prop.
  assert (Hd : (page_rounds (va + PGSIZE) sz < fuel)%nat) by (unfold page_rounds, PGSIZE in *; dlia).
  destruct (0 <? pa); erewrite bind_Ok by reflexivity; erewrite bind_Ok by reflexivity; cbv beta;
    (edestruct (IH (va + PGSIZE)) as (s' & Hr & Hm & Hh & Hx); [done|]); exists s'; (split; [exact Hr|]); by split.
Qed.

(** What a successful [sbrk] of [n > 0] bytes leaves. *)
Record sbrk_done s (l : list Z) (n : Z) s' (pas l' : list Z) : Prop := {
  sd_free : free_ok s' l';
  sd_pages : length pas = page_rounds (psz (rest (ext s))) (psz (rest (ext s)) + n);
  sd_from p : p ∈ pas → p ∈ l ∧ managed p;
  sd_nodup : NoDup pas;
  sd_order : pas `sublist_of` l;
  sd_maps i pa : pas !! i = Some pa →
    umaps s' (psz (rest (ext s)) + Z.of_nat i * 4096) = Some (pa, user_perm PTE_W);
  sd_bytes p b : p ∈ pas → in_range p 4096 b → kmem s' b = kmem s b;
  sd_size : psz (rest (ext s')) = psz (rest (ext s)) + n;
}.

Lemma sbrk_grows s l n :
  let sz := psz (rest (ext s)) in
  free_ok s l → 0 < n → 0 ≤ sz → sz mod 4096 = 0 → sz + n + 4095 < 2 ^ 64 →
  (∀ va, sz ≤ va < sz + n → umaps s va = None) →
  (∃ s' pas l', sys_sbrk n s = Ok sz s' ∧ sbrk_done s l n s' pas l') ∨
  (∃ s', sys_sbrk n s = Ok (u64 (-1)) s' ∧ failed s s') ∨
  (MAXVA < sz + n ∧ ∃ s', sys_sbrk n s = Panic "walk" s').
Proof.
  cbv zeta. set (sz := psz (rest (ext s))). set (pt := ppagetable (rest (ext s))). intros Hf Hn Hsz Hal Hbd Hnone.
  assert (Hup : PGROUNDUP sz = sz) by (rewrite PGROUNDUP_spec by lia; dlia).
  set (s1 := printed "执行了growproc %d\n" [PInt n] s). assert (Hf1 : free_ok s1 l) by (destruct Hf; by constructor).
  unfold sys_sbrk. erewrite bind_Ok by reflexivity. fold sz. unfold growproc.
  rewrite bind_assoc. erewrite bind_Ok by reflexivity. fold (printed "执行了growproc %d\n" [PInt n] s). fold s1.
  rewrite bind_assoc. erewrite bind_Ok by reflexivity. rewrite bind_assoc. erewrite bind_Ok by reflexivity. cbv beta.
  change (psz (rest (ext s1))) with sz. change (ppagetable (rest (ext s1))) with pt.
  rewrite (proj2 (Z.ltb_lt 0 n)), (u64_small (sz + n)) by lia.
  destruct (uvmalloc_ok s1 l pt sz (sz + n) PTE_W Hf1)
    as [(s2 & pas & l' & Hr & Hlen & Hg & Hb)|[(s2 & Hr & Hfail)|(Hbig & s2 & Hr)]];
    [lia|lia|by rewrite Hup| | |]; rewrite bind_assoc, ?(bind_Ok _ _ _ _ _ Hr).
  3: { right; right. split; [done|]. exists s2. by rewrite (bind_Panic _ _ _ _ _ Hr). }
  2: { right; left. exists s2. split; [done|]. destruct Hfail as (Ht & Hs & Hl). done. }
  rewrite (proj2 (Z.eqb_neq (sz + n) 0)) by lia. rewrite Hup in *.
  rewrite bind_assoc. erewrite bind_Ok by reflexivity. erewrite bind_Ok by reflexivity. cbv beta. cbn [Z.ltb Z.compare].
  rewrite bind_assoc. erewrite bind_Ok by reflexivity. cbv beta.
  destruct (show_pages_ok (sz + n) (S (page_rounds sz (sz + n))) sz (set_ext (set_psz (sz + n) (ext s2)) s2) ltac:(lia))
    as (s3 & Hr3 & Hm3 & Hh3 & Hx3).
  left. exists s3, pas, l'. split.
  { change (psz (rest (ext (set_ext (set_psz (sz + n) (ext s2)) s2)))) with (sz + n).
    by rewrite (bind_Ok _ _ _ _ _ Hr3). }
  set (s0 := printed _ _ s1) in Hg. assert (Hf0 : free_ok s0 l) by (destruct Hf; by constructor).
  destruct (grown_nodup _ _ _ _ _ _ _ _ Hf0 Hg) as [Hnd Hman].
  destruct (gr_taken _ _ _ _ _ _ _ _ Hg) as (used & Hl & Hsub & _). destruct (gr_process _ _ _ _ _ _ _ _ Hg) as (Hh & _ & Hpt).
  pose proof (gr_free _ _ _ _ _ _ _ _ Hg) as Hf2.
  constructor; try done.
  - destruct Hf2 as [Hc Hbl Htb Hul]. constructor; rewrite ?Hm3, ?Hx3, ?Hh3; try done. unfold tps in *. by rewrite Hx3.
  - intros p Hp. split; [rewrite Hl; apply elem_of_app; left; exact (elem_of_sublist _ _ _ Hp Hsub)|by apply Hman].
  - rewrite Hl. etransitivity; [exact Hsub|]. apply sublist_inserts_r. done.
  - intros i pa Hi. unfold umaps. rewrite Hx3. cbn. rewrite Hpt. by apply (gr_maps _ _ _ _ _ _ _ _ Hg).
  - intros p b Hp Hbp. rewrite Hm3. cbn. by rewrite (Hb p b Hp Hbp).
  - by rewrite Hx3.
Qed.

(** [sbrk(0)] asks for the size. *)
Lemma sbrk_zero s :
  sys_sbrk 0 s = Ok (psz (rest (ext s)))
    (set_ext (set_psz (psz (rest (ext s))) (ext s)) (printed "执行了growproc %d\n" [PInt 0] s)).
Proof. done. Qed.

(** ** The user programs *)

(** Page [q] holds the bytes [bs] from offset [o] on. *)
Definition holds s (q o : Z) (bs : list Z) : Prop :=
  ∀ i b, bs !! i = Some b → kmem s (q + o + Z.of_nat i) = b.

Lemma translate_ok s a o q perm :
  umaps s a = Some (q, perm) → a mod 4096 = 0 → 0 ≤ o < 4096 → translate (a + o) s = Ok (q + o) s.
Proof.
  intros Hm Ha Ho. unfold translate.
  assert ((a + o) mod 4096 = o) as -> by dlia. replace (a + o - o) with a by lia. by rewrite Hm.
Qed.

Lemma ustore_bytes_ok a q perm bs : ∀ o s,
  umaps s a = Some (q, perm) → a mod 4096 = 0 → 0 ≤ o → o + Z.of_nat (length bs) ≤ 4096 →
  ∃ s', ustore_bytes (a + o) bs s = Ok tt s' ∧ ext s' = ext s ∧ held s' = held s ∧ console s' = console s ∧
    holds s' q o bs ∧ agree_on (λ x, ¬ in_range (q + o) (Z.of_nat (length bs)) x) (kmem s) (kmem s').
Proof.
  induction bs as [|b bs IH]; intros o s Hm Ha Ho Hlen; [by exists s|]. cbn [length] in *.
  set (s1 := set_mem (λ x, if x =? q + o then b else kmem s x) s).
  assert (Hr1 : ustore (a + o) b s = Ok tt s1).
  { unfold ustore. rewrite (bind_Ok _ _ _ _ _ (translate_ok s a o q perm Hm Ha ltac:(lia))). done. }
  destruct (IH (o + 1) s1) as (s2 & Hr2 & Hx & Hh & Hc & Hb & Hag); try done; try lia.
  exists s2. cbn [ustore_bytes]. rewrite (bind_Ok _ _ _ _ _ Hr1), <-Z.add_assoc. split; [done|]. do 3 (split; [done|]). split.
  - intros [|i] b' Hi; cbn in Hi.
    + injection Hi as <-. rewrite Hag; [|unfold in_range; lia]. cbn. rewrite Z.add_0_r. by rewrite Z.eqb_refl.
    + replace (q + o + Z.of_nat (S i)) with (q + (o + 1) + Z.of_nat i) by lia. by apply Hb.
  - intros x Hx'. rewrite Hag; [|unfold in_range in *; lia]. cbn.
    rewrite (proj2 (Z.eqb_neq x (q + o))); [done|]. unfold in_range in *. lia.
Qed.

Lemma uload_ok s a o q perm :
  umaps s a = Some (q, perm) → a mod 4096 = 0 → 0 ≤ o < 4096 → uload (a + o) s = Ok (kmem s (q + o)) s.
Proof. intros Hm Ha Ho. unfold uload. by rewrite (bind_Ok _ _ _ _ _ (translate_ok s a o q perm Hm Ha Ho)). Qed.

Lemma uload_bytes_ok a q perm n : ∀ o s,
  umaps s a = Some (q, perm) → a mod 4096 = 0 → 0 ≤ o → o + Z.of_nat n ≤ 4096 →
  uload_bytes (a + o) n s = Ok (load_bytes (kmem s) (q + o) n) s.
Proof.
  induction n as [|n IH]; intros o s Hm Ha Ho Hlen; [done|]. cbn [uload_bytes].
  rewrite (bind_Ok _ _ _ _ _ (uload_ok s a o q perm Hm Ha ltac:(lia))), <-Z.add_assoc.
  rewrite (bind_Ok _ _ _ _ _ (IH (o + 1) s Hm Ha ltac:(lia) ltac:(lia))).
  unfold load_bytes, mret, M_ret. do 2 f_equal. cbn [seq]. rewrite fmap_cons. f_equal; [f_equal; lia|].
  rewrite <-seq_shift, <-list_fmap_compose. apply list_fmap_ext. intros i x _. cbn. f_equal. lia.
Qed.

Lemma ustring_ok a q perm w : ∀ o s acc fuel,
  umaps s a = Some (q, perm) → a mod 4096 = 0 → 0 ≤ o → o + Z.of_nat (length w) < 4096 →
  holds s q o (w ++ [0]) → (0 ∉ w) → (length w < fuel)%nat →
  loop fuel ustring_body (a + o, acc) s = Ok (acc ++ w) s.
Proof.
  induction w as [|b w IH]; intros o s acc [|fuel] Hm Ha Ho Hlen Hh Hz Hf; cbn [length] in *; try lia;
    rewrite loop_S; unfold ustring_body at 2; rewrite bind_assoc, (bind_Ok _ _ _ _ _ (uload_ok s a o q perm Hm Ha ltac:(lia)));
    pose proof (Hh 0%nat _ eq_refl) as Hb; rewrite Z.add_0_r in Hb; rewrite Hb.
  - by rewrite app_nil_r.
  - apply not_elem_of_cons in Hz as [Hb0 Hz]. rewrite (proj2 (Z.eqb_neq b 0)) by done.
    erewrite bind_Ok by reflexivity. cbv beta. rewrite <-Z.add_assoc, (IH (o + 1)); try done; try lia.
    + by rewrite <-app_assoc.
    + intros i b' Hi. replace (q + (o + 1) + Z.of_nat i) with (q + o + Z.of_nat (S i)) by lia. by apply Hh.
Qed.

Definition region_free s (n : Z) : Prop :=
  ∀ va, psz (rest (ext s)) ≤ va < psz (rest (ext s)) + n → umaps s va = None.

(** A page of the region that [sbrk] of 32 pages made. *)
Lemma region_page s l s' pas l' i :
  sbrk_done s l (PGSIZE * 32) s' pas l' → (i < 32)%nat →
  ∃ q, pas !! i = Some q ∧ q ∈ l ∧ umaps s' (psz (rest (ext s)) + Z.of_nat i * 4096) = Some (q, user_perm PTE_W) ∧
    ∀ b, in_range q 4096 b → kmem s' b = kmem s b.
Proof.
  intros Hd Hi. destruct (lookup_lt_is_Some_2 pas i) as [q Hq].
  { rewrite (sd_pages _ _ _ _ _ _ Hd). unfold page_rounds, PGSIZE. dlia. }
  pose proof (list_elem_of_lookup_2 _ _ _ Hq) as Hin. exists q. split; [done|].
  split; [by apply Hd|]. split; [by apply Hd|]. intros b. by apply (sd_bytes _ _ _ _ _ _ Hd).
Qed.

(** C35: the secret program leaves its password in memory.  Called with the
    password [w], it ends normally with [w] and a null at offset 32 of a page
    that was free before, or its [sbrk] failed; called with another number of
    arguments it exits with status 1.  Only a size above [MAXVA] panics. *)
Theorem secret_leaves_password s l argc w :
  free_ok s l → 0 ≤ psz (rest (ext s)) → psz (rest (ext s)) mod 4096 = 0 →
  psz (rest (ext s)) + PGSIZE * 32 + 4095 < 2 ^ 64 → region_free s (PGSIZE * 32) → (length w < 4064)%nat →
  let s0 := printed "执行了secret\n" [] s in
  (argc ≠ 2 ∧ secret_main argc w s = Exited 1 (printed "Usage: secret the-secret\n" [] s0)) ∨
  (argc = 2 ∧ ∃ q s', q ∈ l ∧ secret_main argc w s = Exited 0 s' ∧ holds s' q 32 (w ++ [0])) ∨
  (argc = 2 ∧ ∃ s', sys_sbrk (PGSIZE * 32) s0 = Ok (u64 (-1)) s' ∧ failed s0 s') ∨
  (argc = 2 ∧ MAXVA < psz (rest (ext s)) + PGSIZE * 32 ∧ ∃ s', secret_main argc w s = Panic "walk" s').
Proof.
  intros Hf Hsz Hal Hbd Hfree Hw. cbv zeta. set (s0 := printed _ _ s). unfold secret_main.
  erewrite bind_Ok by reflexivity. fold (printed "执行了secret\n" [] s). fold s0.
  destruct (argc =? 2) eqn:E; bool_to_Prop; cbn [negb]; [right|by left].
  assert (Hf0 : free_ok s0 l) by (destruct Hf; by constructor).
  destruct (sbrk_grows s0 l (PGSIZE * 32) Hf0)
    as [(s1 & pas & l' & Hr & Hd)|[(s1 & Hr & Hfail)|(Hbig & s1 & Hr)]]; try done; [|by right; left; eauto|].
  2: { right; right. split; [done|]. split; [done|]. exists s1.
       erewrite bind_Ok by reflexivity. by rewrite (bind_Panic _ _ _ _ _ Hr). }
  left. split; [done|]. erewrite bind_Ok by reflexivity. rewrite (bind_Ok _ _ _ _ _ Hr).
  erewrite bind_Ok by reflexivity. set (s2 := KSt _ _ _ _).
  destruct (region_page _ _ _ _ _ 9 Hd ltac:(lia)) as (q & _ & Hq & Hm & _). change (Z.of_nat 9) with 9 in Hm.
  set (a := psz (rest (ext s0)) + 9 * 4096) in *. change (psz (rest (ext s0)) + 9 * PGSIZE) with a.
  assert (Ha : a mod 4096 = 0) by (unfold a; rewrite Z_mod_plus_full; exact Hal).
  destruct (ustore_bytes_ok a q (user_perm PTE_W) (preamble ++ [0]) 0 s2 Hm Ha) as (s3 & Hr3 & Hx3 & _); [done|done|].
  rewrite Z.add_0_r in Hr3. change (strcpy a preamble) with (ustore_bytes a (preamble ++ [0])). rewrite (bind_Ok _ _ _ _ _ Hr3).
  destruct (ustore_bytes_ok a q (user_perm PTE_W) (w ++ [0]) 32 s3) as (s4 & Hr4 & _ & _ & _ & Hh & _); try done.
  { unfold umaps. by rewrite Hx3. }
  { rewrite length_app. cbn. lia. }
  exists q, s4. unfold strcpy. by rewrite (bind_Ok _ _ _ _ _ Hr4).
Qed.

(** C36: the attack program prints what the last owner of a page left there.
    Unless its [sbrk] fails, when it says so, [sbrk] hands out thirty-two free
    pages in the order of the free list, and for the seventeenth of them, [q]:
    whatever null-terminated string [w] is at offset 32 of [q], the program
    prints exactly [w] and writes the eight bytes there.  Only a size above
    [MAXVA] panics. *)
Theorem attack_prints_leftovers s l fuel :
  let sz := psz (rest (ext s)) in
  free_ok s l → 0 ≤ sz → sz mod 4096 = 0 → sz + PGSIZE * 32 + 4095 < 2 ^ 64 → region_free s (PGSIZE * 32) →
  ∃ s1, sys_sbrk 0 (printed "执行了attack\n" [] s) = Ok sz s1 ∧
  ((∃ s2 pas l' q, sys_sbrk (PGSIZE * 32) s1 = Ok sz s2 ∧ sbrk_done s1 l (PGSIZE * 32) s2 pas l' ∧
      pas !! 16%nat = Some q ∧
      ∀ w, holds s q 32 (w ++ [0]) → 0 ∉ w → (length w < 4064)%nat → (length w < fuel)%nat →
      ∃ s' cs, attack_main fuel s = Exited 1 s' ∧
        console s' = cs ++ [("secret content as string: %s\n", PInt <$> w);
                            ("write(2, secret, 8)", PInt <$> load_bytes (kmem s) (q + 32) 8)]) ∨
   (∃ s2, sys_sbrk (PGSIZE * 32) s1 = Ok (u64 (-1)) s2 ∧ failed s1 s2 ∧
      ∃ s' cs, attack_main fuel s = Exited 1 s' ∧
        console s' = cs ++ [("attack: sbrk re-allocation failed\n", [])]) ∨
   (MAXVA < sz + PGSIZE * 32 ∧ ∃ s', attack_main fuel s = Panic "walk" s')).
Proof.
  cbv zeta. intros Hf Hsz Hal Hbd Hfree. eexists.
  split; [exact (sbrk_zero (printed "执行了attack\n" [] s))|].
  unfold attack_main. erewrite bind_Ok by reflexivity. fold (printed "执行了attack\n" [] s).
  rewrite (bind_Ok _ _ _ _ _ (sbrk_zero _)). set (s1 := set_ext _ _).
  assert (Hf1 : free_ok s1 l) by (destruct Hf; by constructor).
  change (psz (rest (ext s))) with (psz (rest (ext s1))) in *. set (sz := psz (rest (ext s1))) in *.
  destruct (sbrk_grows s1 l (PGSIZE * 32) Hf1)
    as [(s2 & pas & l' & Hr & Hd)|[(s2 & Hr & Hfail)|(Hbig & s2 & Hr)]]; try done;
    fold sz in Hr; rewrite ?(bind_Ok _ _ _ _ _ Hr).
  3: { right; right. split; [done|]. exists s2. by rewrite (bind_Panic _ _ _ _ _ Hr). }
  2: { right; left. exists s2. split; [done|]. split; [done|]. assert (Hne : u64 (-1) ≠ sz) by (change (u64 (-1)) with (2 ^ 64 - 1); unfold PGSIZE in *; lia).
       change (psz (rest (ext _))) with sz. rewrite (proj2 (Z.eqb_neq (u64 (-1)) sz)) by done. cbn [negb].
       erewrite bind_Ok by reflexivity. eexists _, (console s2). split; reflexivity. }
  left. destruct (region_page _ _ _ _ _ 16 Hd ltac:(lia)) as (q & Hq16 & Hq & Hm & Hb).
  exists s2, pas, l', q. do 3 (split; [done|]). intros w Hh Hz Hw Hfuel. change (psz (rest (ext _))) with sz. rewrite Z.eqb_refl. cbn [negb].
  rewrite bind_assoc, (bind_Ok _ _ _ _ _ (sbrk_zero s2)). set (s3 := set_ext _ (printed _ _ s2)).
  rewrite (sd_size _ _ _ _ _ _ Hd). fold sz. rewrite Z.eqb_refl. cbn [negb].
  erewrite bind_Ok by reflexivity. erewrite bind_Ok by reflexivity. cbv beta zeta.
  assert (Hm3 : umaps s3 (sz + 16 * 4096) = Some (q, user_perm PTE_W)) by exact Hm.
  assert (Ha : (sz + 16 * 4096) mod 4096 = 0) by (by rewrite Z_mod_plus_full).
  assert (Hb3 : ∀ b, in_range q 4096 b → kmem s3 b = kmem s b) by exact Hb.
  assert (Hh3 : holds s3 q 32 (w ++ [0])).
  { intros i b Hi. pose proof (lookup_lt_Some _ _ _ Hi) as Hlt. rewrite length_app in Hlt. cbn in Hlt.
    rewrite Hb3; [by apply Hh|]. unfold in_range. lia. }
  change (sz + 16 * PGSIZE + 32) with (sz + 16 * 4096 + 32). unfold ustring.
  rewrite (bind_Ok _ _ _ _ _ (ustring_ok _ q _ w 32 s3 [] fuel Hm3 Ha ltac:(lia) ltac:(lia) Hh3 Hz Hfuel)).
  unfold put at 1. erewrite bind_Ok by reflexivity. cbv beta. set (s4 := KSt _ _ _ _).
  rewrite (bind_Ok _ _ _ _ _ (uload_bytes_ok _ q _ 8 32 s4 Hm3 Ha ltac:(lia) ltac:(lia))).
  assert (load_bytes (kmem s4) (q + 32) 8 = load_bytes (kmem s) (q + 32) 8) as ->.
  { apply load_bytes_ext. intros b Hbr. apply Hb3. unfold in_range in *. lia. }
  erewrite bind_Ok by reflexivity. eexists _, (console s3). split; [reflexivity|].
  unfold s4. cbn [console]. by rewrite <-app_assoc.
Qed.
End attack_vm.
