(* ===== verification/AttackExample.v ===== *)
(** * Example states for Attack and AttackVm: thirty-two free pages that hold a
    string, page tables as functions, and the theorems there. *)

From S2P Require Import Prelude Memory Machine FreeList Attack AttackVm.

#[local] Existing Instance sv39.
#[local] Existing Instance small_layout.

(** ** Small page tables

    A mapping is recorded in a function and needs no page of its own. *)

Definition tables : Type := Z → Z → option (Z * Z).
Local Abbreviation tatk := (atk (P := uproc tables)).

Definition set_tables (f : tables → tables) (s : kst tatk) : kst tatk :=
  let x := ext s in
  set_ext (Atk (freelist x) (allocated_pages x) (has_record x)
    (UProc _ (psz (rest x)) (ppagetable (rest x)) (f (urest (rest x))))) s.

#[export] Instance toy_vm : AtkVm (Q := tables) := {|
  mappages pt va sz pa perm := λ s,
    if MAXVA <=? va then Panic "walk" s else
    Ok 0 (set_tables (λ t pt' va', if decide (pt' = pt ∧ va' = va) then Some (pa, perm) else t pt' va') s);
  uvmdealloc pt a b := λ s,
    Ok b (set_tables (λ t pt' va', if decide (pt' = pt ∧ b ≤ va' < a ∧ va' mod 4096 = 0) then None else t pt' va') s);
  walkaddr pt va := λ s,
    Ok (match urest (rest (ext s)) pt va with Some (pa, _) => pa | None => 0 end) s;
  maps t := t;
  tpages _ := ∅;
|}.

#[export] Instance toy_vm_laws : AtkVmLaws (Q := tables).
Proof.
  split.
  - intros s l pt va pa perm Hf _ Hva Hn _ _. cbn [mappages toy_vm].
    rewrite (proj2 (Z.leb_gt _ _)) by lia. eexists 0, _, 0%nat. split; [done|]. split; [done|].
    rewrite drop_0, take_0. split; [by destruct Hf|]. split; [set_solver|]. split; [done|]. by left.
  - intros s pt va pa perm _ Hva. cbn [mappages toy_vm]. by rewrite (proj2 (Z.leb_le _ _)).
  - intros s l pt a b Hf _ _ _. eexists _, l. split; [done|]. split; [done|]. split; [by destruct Hf|]. done.
  - intros s pt va. by eexists.
Qed.

(** ** A state *)

#[export] Instance managed_dec p : Decision (managed p).
Proof. unfold managed. apply _. Defined.

#[export] Instance legal_aop_dec o l : Decision (legal_aop o l).
Proof.
  destruct o as [|p|b v]; [left; exact I|apply and_dec; apply _|].
  destruct (decide (Forall (λ p, ¬ (p ≤ b < p + 4096)) l)) as [Hl|Hl]; [left|right].
  - rewrite Forall_forall in Hl. exact Hl.
  - intros Hn. apply Hl, Forall_forall. exact Hn.
Defined.

Fixpoint legal_aops_dec os : ∀ l c, Decision (legal_aops os l c).
Proof.
  destruct os as [|o os]; intros l c; [left; exact I|]. cbn.
  apply and_dec; [apply _|apply legal_aops_dec].
Defined.
#[export] Existing Instance legal_aops_dec.

(** Every page holds the string "hi" at offset 32. *)
Definition greeting : mem := λ b,
  if b mod 4096 =? 32 then 104 else if b mod 4096 =? 33 then 105 else 0.

Definition bare : kst tatk := KSt greeting ∅ [] (Atk 0 0 1 (UProc _ 8192 5 (λ _ _, None))).

Definition frees (n : nat) : list aop := OpFree <$> run 4096 4096 n.

Definition after (os : list aop) : kst tatk :=
  match run_aops os bare with Ok _ s => s | _ => bare end.

Lemma bare_arep : arep bare [] greeting.
Proof. constructor; [done|apply blocks_nil|done]. Qed.

Lemma after_arep os :
  legal_aops os [] greeting →
  arep (after os) (spec_aops os [] greeting).2.1 (spec_aops os [] greeting).2.2 ∧ (kmem_lock ∉ held (after os)).
Proof.
  intros Hleg. destruct (run_aops_refines os bare [] greeting bare_arep) as (s & Hr & Hrep & Hh); [set_solver|done|].
  unfold after. rewrite Hr. split; [done|]. rewrite Hh. set_solver.
Qed.

Lemma frees_legal n : bool_decide (legal_aops (frees n) [] greeting) = true → legal_aops (frees n) [] greeting.
Proof. apply bool_decide_eq_true. Qed.

(** ** The theorems there *)

(** A byte written to a page is there when the page is allocated again. *)
Definition reuse : list aop := [OpAlloc; OpUse 8232 99; OpFree 8192; OpAlloc].

Lemma contents_survive_witness :
  ∃ s', run_aops reuse (after (frees 2)) = Ok [8192; 0; 0; 8192] s' ∧ kmem s' 8232 = 99.
Proof.
  destruct (after_arep (frees 2)) as [[Hch Hbl Hc] Hl]; [by apply frees_legal; vm_compute|].
  destruct (contents_survive reuse (after (frees 2)) [8192; 4096]) as (s' & Hr & _ & Hb); [by constructor|done| |].
  - apply (bool_decide_eq_true (legal_aops reuse [8192; 4096] (kmem (after (frees 2))))). vm_compute. reflexivity.
  - exists s'. split; [exact Hr|]. by apply (Hb 8232).
Defined.

Lemma failed_kalloc_counted_witness :
  ∃ s', kalloc bare = Ok 0 s' ∧ kmem s' = kmem bare ∧ allocated_pages (ext s') = 1.
Proof. apply (failed_kalloc_counted bare greeting bare_arep); [set_solver|done|cbn; lia]. Defined.

(** All thirty-two pages free. *)
Definition full : kst tatk := after (frees 32).
Definition full_list : list Z := (spec_aops (frees 32) [] greeting).2.1.

Lemma full_free : free_ok full full_list.
Proof.
  destruct (after_arep (frees 32)) as [[Hch Hbl _] Hl]; [by apply frees_legal; vm_compute|].
  constructor; [exact Hch|exact Hbl| |exact Hl].
  intros p Hp. change (p ∈ (∅ : gset Z)) in Hp. by apply elem_of_empty in Hp.
Qed.

Lemma frees_content ps : ∀ l c, (spec_aops (OpFree <$> ps) l c).2.2 = c.
Proof.
  induction ps as [|p ps IH]; intros l c; [done|]. cbn. specialize (IH (p :: l) c).
  by destruct (spec_aops _ _ _) as [rs [l' c']].
Qed.

Lemma full_holds q : q ∈ full_list → holds full q 32 ([104; 105] ++ [0]).
Proof.
  intros Hq. destruct (after_arep (frees 32)) as [[Hch Hbl Hc] _]; [by apply frees_legal; vm_compute|].
  unfold frees in Hc. rewrite frees_content in Hc. fold (frees 32) in Hc.
  destruct (blocks_elem _ _ _ _ _ Hbl Hq) as [Hal _].
  assert (Hg : ∀ o, 8 ≤ o < 4096 → kmem full (q + o) = greeting o).
  { intros o Ho. unfold full. rewrite Hc by dlia.
    unfold greeting.
    replace ((q + o) mod 4096) with (o mod 4096) by dlia. done. }
  intros [|[|[|i]]] b Hi; cbn in Hi; simplify_eq; rewrite <-?Z.add_assoc, Hg by lia; done.
Qed.


Lemma secret_leaves_password_witness :
  ∃ q s', q ∈ full_list ∧ secret_main 2 [115; 51] full = Exited 0 s' ∧ holds s' q 32 ([115; 51] ++ [0]).
Proof.
  destruct (secret_leaves_password full full_list 2 [115; 51] full_free)
    as [[Hc _]|[(_ & Hok)|[(_ & s' & Hr & _)|(_ & Hbig & _)]]];
    [vm_compute; congruence|done|vm_compute; reflexivity|intros va Hva; done|cbn; lia|done|exact Hok|exfalso|exfalso; vm_compute in Hbig; discriminate Hbig].
  assert (Ho : match secret_main 2 [115; 51] full with Exited st _ => st =? 0 | _ => false end = true) by (vm_compute; reflexivity).
  assert (Hn : match sys_sbrk (PGSIZE * 32) (printed "执行了secret\n" [] full) with Ok r _ => r =? 8192 | _ => false end = true)
    by (vm_compute; reflexivity).
  by rewrite Hr in Hn.
Defined.

(** The seventeenth page of the free list is the page at 65536. *)
Lemma attack_prints_leftovers_witness :
  ∃ s' cs, attack_main 10 full = Exited 1 s' ∧
    console s' = cs ++ [("secret content as string: %s\n", [PInt 104; PInt 105]);
                        ("write(2, secret, 8)", PInt <$> load_bytes (kmem full) (65536 + 32) 8)].
Proof.
  destruct (attack_prints_leftovers full full_list 10 full_free)
    as (s1 & Hz & [(s2 & pas & l' & q & _ & Hd & Hq & Hw)|[(s2 & _ & _ & s' & cs & Hr & Hc)|(Hbig & _)]]);
    [vm_compute; congruence|done|vm_compute; reflexivity|intros va Hva; done| |exfalso|exfalso; vm_compute in Hbig; discriminate Hbig].
  - assert (Hpas : pas = full_list).
    { refine (sublist_full pas full_list (sd_order _ _ _ _ _ _ Hd) _). clear -Hz Hd. pose proof (sd_pages _ _ _ _ _ _ Hd) as Hn.
      assert (Hx : match sys_sbrk 0 (printed "执行了attack\n" [] full) with Ok _ s => psz (rest (ext s)) | _ => 0 end = 8192)
        by (vm_compute; reflexivity).
      rewrite Hz in Hx.
      rewrite Hx in Hn. rewrite Hn. apply Nat.eq_le_incl. vm_compute. reflexivity. }
    rewrite Hpas in Hq. assert (Hfull : full_list !! 16%nat = Some 65536) by (vm_compute; reflexivity).
    rewrite Hfull in Hq. injection Hq as <-.
    assert (Hin : 65536 ∈ full_list) by (by eapply list_elem_of_lookup_2).
    destruct (Hw [104; 105]) as (s' & cs & Hr & Hc); [exact (full_holds 65536 Hin)|rewrite list_elem_of_In; cbn; lia|cbn; lia|cbn; lia|].
    exists s', cs. split; [exact Hr|exact Hc].
  - assert (Hn : match attack_main 10 full with
                 | Exited _ s' => match last (console s') with Some (fmt, _) => String.eqb fmt "write(2, secret, 8)" | None => false end
                 | _ => false end = true) by (vm_compute; reflexivity).
    rewrite Hr, Hc, last_snoc in Hn. vm_compute in Hn. done.
Defined.
