(* ===== verification/Find.v ===== *)
(** * find (lab1, find.c)

    [find] walks a directory tree and prints the paths of the files with a
    given name.  Strings are lists of bytes without the null at their end; the
    buffer in which a path is built is modelled byte by byte.  The file system
    is a parameter: what a path names. *)

From S2P Require Import Prelude.

(** A string in memory ends at its first null. *)
Fixpoint cstr (bs : list Z) : list Z :=
  match bs with
  | [] => []
  | b :: bs => if b =? 0 then [] else b :: cstr bs
  end.

Definition slash : Z := 47.
Definition dot : Z := 46.

(** [struct dirent]: an inode number and [DIRSIZ] bytes of name. *)
Definition DIRSIZ : nat := 14.
Record dirent := Dirent { de_inum : Z; de_name : list Z }.

(** What [open] and [fstat] find: a file, a directory with its entries, or
    something else. *)
Inductive inode := IFile | IDir (es : list dirent) | IOther.

(** The descriptors the process has open, and what it has printed: a format
    and a string. *)
Record fstate := FState { fds : nat; printed : list (string * list Z) }.

Definition NOFILE : nat := 16.
Definition BUFSIZE : nat := 512.

Section find.
(** The file system, on which paths [fstat] succeeds, and what is in the
    buffer of a call at first. *)
Variables (fs : list Z → option inode) (fstat : list Z → bool) (junk : list Z).

(** ** Operations *)

(** The pointer [p] is an index, from [strlen(path)] down to -1. *)
Definition name_body (path : list Z) (p : Z) : M fstate (Z + Z) :=
  if (0 <=? p) && negb (default 0 (path !! Z.to_nat p) =? slash) then mret (inl (p - 1))
  else mret (inr (p + 1)).

Definition get_file_name (path : list Z) : M fstate (list Z) :=
  p ← loop (length path + 2) (name_body path) (Z.of_nat (length path));
  mret (drop (Z.to_nat p) path).

Definition say (fmt : string) (str : list Z) : M fstate unit :=
  modify (λ s, FState (fds s) (printed s ++ [(fmt, str)])).
Definition set_fds (n : nat) : M fstate unit := modify (λ s, FState n (printed s)).

Definition open (path : list Z) : M fstate (option inode) :=
  n ← gets fds;
  match fs path with
  | Some i => if Nat.ltb n NOFILE then set_fds (S n);; mret (Some i) else mret None
  | None => mret None
  end.
Definition close : M fstate unit := n ← gets fds; set_fds (n - 1).

(** Bytes written into [buf] at an index; outside the array it is undefined. *)
Definition put (i : nat) (bs buf : list Z) : M fstate (list Z) :=
  if Nat.leb (i + length bs) (length buf)
  then mret (take i buf ++ bs ++ drop (i + length bs) buf)
  else undefined "find: buf".

(** The path of an entry, built in [buf]; [p] is the index after the slash. *)
Definition entry_path (p : nat) (buf : list Z) (de : dirent) : M fstate (list Z) :=
  buf ← put p (take DIRSIZ (de_name de)) buf;
  put (p + DIRSIZ) [0] buf.

Definition skipped (de : dirent) : bool :=
  (de_inum de =? 0) || bool_decide (cstr (de_name de) = [dot]) || bool_decide (cstr (de_name de) = [dot; dot]).

(** The loop over the entries of a directory. *)
Fixpoint scan (find : list Z → M fstate unit) (p : nat) (buf : list Z) (es : list dirent) : M fstate unit :=
  match es with
  | [] => mret tt
  | de :: es =>
      if skipped de then scan find p buf es
      else
        buf ← entry_path p buf de;
        find (cstr buf);;
        scan find p buf es
  end.

(** The [switch] on the kind of file; [find] is the recursive call. *)
Definition visit (find : list Z → M fstate unit) (path file_name : list Z) (i : inode) : M fstate unit :=
  match i with
  | IFile =>
      name ← get_file_name path;
      if bool_decide (name = file_name) then say "%s\n" path else mret tt
  | IDir es =>
      if Nat.ltb BUFSIZE (length path + 1 + DIRSIZ + 1) then say "find: path too long\n" []
      else
        buf ← put 0 (path ++ [0]) junk;
        let p := length (cstr buf) in
        buf ← put p [slash] buf;
        scan find (p + 1) buf es
  | IOther => mret tt
  end.

Fixpoint find (fuel : nat) (path file_name : list Z) : M fstate unit :=
  match fuel with
  | O => λ _, NoFuel
  | S fuel =>
      i ← open path;
      match i with
      | None => say "find: cannot open %s\n" path
      | Some i =>
          if negb (fstat path) then say "find: cannot stat %s\n" path;; close
          else visit (λ path', find fuel path' file_name) path file_name i;; close
      end
  end.

(** Every level makes the path longer, and paths that do not fit in the buffer
    are not entered. *)
Definition find_fuel : nat := 513.

(** [main] ignores calls with another number of arguments. *)
Definition main (argc : Z) (path file_name : list Z) : M fstate unit :=
  (if negb (argc =? 3) then exit_with (A := unit) 0 else mret tt);;
  find find_fuel path file_name;;
  exit_with 0.

(** ** File names *)

(** [name] is the last component of [path]. *)
Definition last_component (path name : list Z) : Prop :=
  slash ∉ name ∧ ∃ pre, path = pre ++ name ∧ (pre = [] ∨ ∃ pre', pre = pre' ++ [slash]).

Lemma last_component_shorter path n1 n2 :
  last_component path n1 → last_component path n2 → (length n1 ≤ length n2)%nat.
Proof.
  intros (Hs1 & p1 & H1 & _) (Hs2 & p2 & H2 & [->|(p2' & ->)]).
  { subst path. cbn in H2. apply (f_equal length) in H2. rewrite length_app in H2. lia. }
  rewrite H1, <-app_assoc in H2. apply app_eq_inv in H2 as [(k & H2 & H3)|(k & H2 & H3)].
  - destruct k as [|x k]; cbn in H3.
    + destruct Hs1. rewrite <-H3. set_solver.
    + injection H3 as _ ->. rewrite length_app. lia.
  - destruct Hs1. rewrite H3. set_solver.
Qed.

Lemma last_component_unique path n1 n2 : last_component path n1 → last_component path n2 → n1 = n2.
Proof.
  intros Hn1 Hn2. pose proof (last_component_shorter _ _ _ Hn1 Hn2). pose proof (last_component_shorter _ _ _ Hn2 Hn1).
  destruct Hn1 as (_ & p1 & H1 & _), Hn2 as (_ & p2 & H2 & _). rewrite H1 in H2. apply app_inj_2 in H2; [tauto|lia].
Qed.

(** The loop comes down to the last slash, or below the string. *)
Lemma name_loop path k : ∀ fuel s,
  (k ≤ length path)%nat → (k < fuel)%nat → slash ∉ drop k path →
  ∃ p, loop fuel (name_body path) (Z.of_nat k - 1) s = Ok (Z.of_nat p) s ∧ last_component path (drop p path).
Proof.
  induction k as [|k IH]; intros [|fuel] s Hk Hf Hn; try lia; rewrite loop_S; unfold name_body at 2.
  - exists 0%nat. split; [done|]. rewrite drop_0 in *. split; [done|]. exists []. by split; [|left].
  - replace (Z.of_nat (S k) - 1) with (Z.of_nat k) by lia. rewrite (proj2 (Z.leb_le 0 (Z.of_nat k))), Nat2Z.id by lia.
    destruct (lookup_lt_is_Some_2 path k) as [x Hx]; [lia|]. rewrite Hx. cbn [andb].
    change (default 0 (Some x)) with x.
    destruct (x =? slash) eqn:E; bool_to_Prop; cbn [negb].
    + exists (S k). subst x. split; [replace (Z.of_nat (S k)) with (Z.of_nat k + 1) by lia; done|]. split; [done|].
      exists (take (S k) path). split; [by rewrite take_drop|]. right. exists (take k path). by apply take_S_r.
    + erewrite bind_Ok by reflexivity. cbv beta iota. apply IH; [lia|lia|].
      rewrite (drop_S path x k Hx). apply not_elem_of_cons. split; [congruence|done].
Qed.

Lemma get_file_name_ok path s :
  ∃ name, get_file_name path s = Ok name s ∧ last_component path name.
Proof.
  unfold get_file_name.
  assert (Hnul : ∃ p, loop (length path + 2) (name_body path) (Z.of_nat (length path)) s = Ok (Z.of_nat p) s ∧
                   last_component path (drop p path)).
  { replace (length path + 2)%nat with (S (length path + 1)) by lia. rewrite loop_S. unfold name_body at 2.
    rewrite (proj2 (Z.leb_le 0 (Z.of_nat (length path)))), Nat2Z.id, (lookup_ge_None_2 path (length path)) by lia. cbn [default andb Z.eqb negb].
    erewrite bind_Ok by reflexivity. cbv beta iota. apply name_loop; [lia|lia|]. rewrite drop_all. apply not_elem_of_nil. }
  destruct Hnul as (p & Hr & Hl). exists (drop p path). rewrite (bind_Ok _ _ _ _ _ Hr), Nat2Z.id. done.
Qed.

(** ** The buffer *)

Lemma cstr_end l t : cstr (l ++ 0 :: t) = cstr l.
Proof. induction l as [|b l IH]; cbn; [done|]. by rewrite IH. Qed.

Lemma cstr_app a b : 0 ∉ a → cstr (a ++ b) = a ++ cstr b.
Proof.
  induction a as [|x a IH]; intros Ha; cbn; [done|]. apply not_elem_of_cons in Ha as [Hx Ha].
  rewrite (proj2 (Z.eqb_neq x 0)) by done. by rewrite IH.
Qed.

Lemma cstr_no_null l : 0 ∉ cstr l.
Proof.
  induction l as [|b l IH]; cbn; [apply not_elem_of_nil|]. destruct (b =? 0) eqn:E; bool_to_Prop; [apply not_elem_of_nil|].
  apply not_elem_of_cons. by split.
Qed.

Lemma put_ok i bs buf s :
  (i + length bs ≤ length buf)%nat → put i bs buf s = Ok (take i buf ++ bs ++ drop (i + length bs) buf) s.
Proof. intros Hle. unfold put. by rewrite (proj2 (Nat.leb_le _ _)). Qed.

Lemma put_here a b bs t s :
  length b = length bs → put (length a) bs (a ++ b ++ t) s = Ok (a ++ bs ++ t) s.
Proof.
  intros Hl. rewrite put_ok by (rewrite !length_app; lia). rewrite take_app_length, <-Hl, <-length_app.
  by rewrite (app_assoc a b t), drop_app_length.
Qed.

(** The buffer of a call in a directory: the path, a slash, and room for a
    name. *)
Definition buf_ok (path buf : list Z) : Prop :=
  ∃ t, buf = path ++ slash :: t ∧ (DIRSIZ + 1 ≤ length t)%nat.

Definition child (path : list Z) (de : dirent) : list Z := path ++ slash :: cstr (de_name de).

Lemma entry_path_ok path buf de s :
  buf_ok path buf → length (de_name de) = DIRSIZ → 0 ∉ path →
  ∃ buf', entry_path (length path + 1) buf de s = Ok buf' s ∧ buf_ok path buf' ∧ cstr buf' = child path de.
Proof.
  intros (t & -> & Ht) Hde Hp. unfold entry_path. rewrite take_ge by lia.
  assert (Hs : ∀ l, path ++ slash :: l = (path ++ [slash]) ++ l) by (intros l; by rewrite <-app_assoc).
  assert (Hlen : (length path + 1)%nat = length (path ++ [slash])) by (by rewrite length_app).
  assert (Ht' : ∃ t1 x t2, t = t1 ++ [x] ++ t2 ∧ length t1 = DIRSIZ).
  { destruct (lookup_lt_is_Some_2 t DIRSIZ) as [x Hx]; [lia|]. exists (take DIRSIZ t), x, (drop (S DIRSIZ) t).
    cbn [app]. rewrite <-(drop_S _ _ _ Hx), take_drop, length_take. split; [done|lia]. }
  destruct Ht' as (t1 & x & t2 & -> & Ht1). assert (Hl : length t1 = length (de_name de)) by congruence.
  rewrite Hs, Hlen, (bind_Ok _ _ _ _ _ (put_here _ t1 (de_name de) _ s Hl)).
  rewrite app_assoc.
  replace (length (path ++ [slash]) + DIRSIZ)%nat with (length ((path ++ [slash]) ++ de_name de)) by (rewrite length_app; lia).
  rewrite (put_here _ [x] [0] t2 s) by done.
  eexists. split; [reflexivity|]. rewrite <-!app_assoc. cbn [app]. split.
  - eexists. split; [reflexivity|]. rewrite length_app. cbn [length]. lia.
  - rewrite cstr_app by done. unfold child. f_equal. cbn. f_equal. apply cstr_end.
Qed.

(** ** What is found *)

(** [located n path q]: from [path], with [n] descriptors open, the file [q]
    is reached through directories that can be opened, and has the name. *)
Inductive located (file_name : list Z) : nat → list Z → list Z → Prop :=
  | located_here n path :
      (n < NOFILE)%nat → fs path = Some IFile → fstat path = true → last_component path file_name →
      located file_name n path path
  | located_below n path es de q :
      (n < NOFILE)%nat → fs path = Some (IDir es) → fstat path = true → (length path + 16 ≤ BUFSIZE)%nat →
      de ∈ es → skipped de = false → located file_name (S n) (child path de) q →
      located file_name n path q.

(** Names of directory entries have [DIRSIZ] bytes. *)
Definition dirs_ok : Prop := ∀ path es de, fs path = Some (IDir es) → de ∈ es → length (de_name de) = DIRSIZ.

Definition finds (file_name : list Z) (run : M fstate unit) (s : fstate) (Q : list Z → Prop) : Prop :=
  ∃ s' l, run s = Ok tt s' ∧ fds s' = fds s ∧ printed s' = printed s ++ l ∧ ∀ q, ("%s\n"%string, q) ∈ l ↔ Q q.

Lemma scan_ok path file_name (run : list Z → M fstate unit) es : ∀ buf s,
  (∀ path' s, 0 ∉ path' → (length path < length path')%nat → finds file_name (run path') s (located file_name (fds s) path')) →
  buf_ok path buf → 0 ∉ path → (∀ de, de ∈ es → length (de_name de) = DIRSIZ) →
  finds file_name (scan run (length path + 1) buf es) s
    (λ q, ∃ de, de ∈ es ∧ skipped de = false ∧ located file_name (fds s) (child path de) q).
Proof.
  induction es as [|de es IH]; intros buf s Hrun Hbuf Hp Hdir; cbn [scan].
  { exists s, []. split; [done|]. split; [done|]. rewrite app_nil_r. split; [done|]. intros q.
    split; [intros Hq; by apply not_elem_of_nil in Hq|]. intros (de & Hde & _). by apply not_elem_of_nil in Hde. }
  destruct (skipped de) eqn:Esk.
  - destruct (IH buf s Hrun Hbuf Hp) as (s' & l & Hr & Hf & Hpr & Hq); [set_solver|]. exists s', l.
    do 3 (split; [done|]). intros q. rewrite Hq. split.
    + intros (de' & Hin & Hrest). exists de'. split; [by right|done].
    + intros (de' & Hin & Hsk & Hloc). apply elem_of_cons in Hin as [->|Hin]; [congruence|]. by exists de'.
  - unfold finds. destruct (entry_path_ok path buf de s Hbuf) as (buf' & Hr1 & Hbuf' & Hc); [apply Hdir; by left|done|].
    rewrite (bind_Ok _ _ _ _ _ Hr1), Hc.
    destruct (Hrun (child path de) s) as (s1 & l1 & Hr2 & Hf1 & Hp1 & Hq1).
    { unfold child. intros Hin. apply elem_of_app in Hin as [Hin|Hin]; [done|].
      apply elem_of_cons in Hin as [Hin|Hin]; [done|by apply (cstr_no_null (de_name de))]. }
    { unfold child. rewrite length_app. cbn. lia. }
    rewrite (bind_Ok _ _ _ _ _ Hr2).
    destruct (IH buf' s1 Hrun Hbuf' Hp) as (s2 & l2 & Hr3 & Hf2 & Hp2 & Hq2); [set_solver|].
    exists s2, (l1 ++ l2). split; [done|]. split; [congruence|]. split; [by rewrite Hp2, Hp1, app_assoc|].
    intros q. rewrite elem_of_app, Hq1, Hq2, Hf1. split.
    + intros [Hl|(de' & Hin & Hrest)]; [exists de; split; [by left|done]|]. exists de'. split; [by right|done].
    + intros (de' & Hin & Hsk & Hl). apply elem_of_cons in Hin as [->|Hin]; [by left|right]. by exists de'.
Qed.

Lemma open_run path s :
  open path s =
    match fs path with
    | Some i => if Nat.ltb (fds s) NOFILE then Ok (Some i) (FState (S (fds s)) (printed s)) else Ok None s
    | None => Ok None s
    end.
Proof.
  unfold open. erewrite bind_Ok by reflexivity. cbv beta. destruct (fs path); [|done]. by destruct (Nat.ltb _ _).
Qed.

(** A run that prints nothing about files, or one line that is not about one. *)
Lemma finds_quiet run s (Q : list Z → Prop) file_name l s' :
  run s = Ok tt s' → fds s' = fds s → printed s' = printed s ++ l →
  (∀ q, ("%s\n"%string, q) ∉ l) → (∀ q, ¬ Q q) → finds file_name run s Q.
Proof. intros Hr Hf Hp Hl HQ. exists s', l. do 3 (split; [done|]). intros q. by split; [intros ?%Hl|intros ?%HQ]. Qed.

Lemma not_a_file (fmt : string) (str q : list Z) : fmt ≠ "%s\n"%string → ("%s\n"%string, q) ∉ [(fmt, str)].
Proof. intros Hf Hin. apply list_elem_of_singleton in Hin. congruence. Qed.

Lemma visit_file (find : list Z → M fstate unit) path file_name n s :
  (n < NOFILE)%nat → fs path = Some IFile → fstat path = true →
  finds file_name (visit find path file_name IFile) s (located file_name n path).
Proof.
  intros Hn Hi Hst. unfold finds. cbn [visit]. destruct (get_file_name_ok path s) as (name & Hr & Hname).
  rewrite (bind_Ok _ _ _ _ _ Hr). case_bool_decide as Hd.
  - subst name. eexists _, [("%s\n"%string, path)]. split; [reflexivity|]. do 2 (split; [done|]). intros q.
    rewrite list_elem_of_singleton. split; [intros [= ->]; by constructor|].
    intros Hq. inversion Hq; subst; [done|congruence].
  - exists s, []. do 2 (split; [done|]). rewrite app_nil_r. split; [done|]. intros q.
    split; [by intros Hq%not_elem_of_nil|]. intros Hq. inversion Hq; subst; [|congruence].
    destruct Hd. by eapply last_component_unique.
Qed.

Lemma visit_dir (find : list Z → M fstate unit) path file_name n es s :
  dirs_ok → length junk = BUFSIZE → 0 ∉ path → (n < NOFILE)%nat → fs path = Some (IDir es) → fstat path = true →
  fds s = S n →
  (∀ path' s, 0 ∉ path' → (length path < length path')%nat → (length path < BUFSIZE)%nat →
     finds file_name (find path') s (located file_name (fds s) path')) →
  finds file_name (visit find path file_name (IDir es)) s (located file_name n path).
Proof.
  intros Hdirs Hjunk Hp Hn Hi Hst Hfds Hrec. cbn [visit].
  destruct (Nat.ltb_spec BUFSIZE (length path + 1 + DIRSIZ + 1)) as [Hlong|Hfits]; unfold DIRSIZ in *.
  { eapply finds_quiet; [reflexivity|done|reflexivity|intros q; by apply not_a_file|].
    intros q Hq. inversion Hq; subst; [congruence|lia]. }
  assert (Hj : ∃ t1 t2, junk = t1 ++ t2 ∧ length t1 = length (path ++ [0]) ∧ (DIRSIZ + 1 ≤ length t2)%nat).
  { exists (take (length path + 1) junk), (drop (length path + 1) junk). rewrite take_drop, length_take, length_drop, length_app.
    unfold DIRSIZ. cbn [length]. split; [done|lia]. }
  destruct Hj as (t1 & t2 & Hj & Ht1 & Ht2). unfold finds.
  assert (Hput : put 0 (path ++ [0]) junk s = Ok (path ++ [0] ++ t2) s).
  { rewrite Hj. etransitivity; [exact (put_here [] t1 (path ++ [0]) t2 s Ht1)|]. by rewrite <-app_assoc. }
  rewrite (bind_Ok _ _ _ _ _ Hput). cbv zeta. rewrite cstr_app by done. cbn [app cstr Z.eqb]. rewrite app_nil_r.
  rewrite (bind_Ok _ _ _ _ _ (put_here path [0] [slash] t2 s eq_refl)).
  destruct (scan_ok path file_name find es (path ++ [slash] ++ t2) s) as (s' & l & Hr & Hf & Hpr & Hq).
  - intros path' s' Hp' Hlt. apply Hrec; [done|done|lia].
  - by exists t2.
  - done.
  - intros de Hde. by eapply Hdirs.
  - exists s', l. do 3 (split; [done|]). intros q. rewrite Hq, Hfds. split.
    + intros (de & Hde & Hsk & Hl). eapply located_below; try done. lia.
    + intros Hl. inversion Hl; subst; [congruence|]. simplify_eq. by eexists.
Qed.

(** One call of [find], given its recursive calls. *)
Lemma find_step fuel path file_name s :
  dirs_ok → length junk = BUFSIZE → 0 ∉ path →
  (∀ path' s, 0 ∉ path' → (length path < length path')%nat → (length path < BUFSIZE)%nat →
     finds file_name (find fuel path' file_name) s (located file_name (fds s) path')) →
  finds file_name (find (S fuel) path file_name) s (located file_name (fds s) path).
Proof.
  intros Hdirs Hjunk Hp Hrec. cbn [find]. pose proof (open_run path s) as Ho.
  assert (Hclose : ∀ s2, fds s2 = S (fds s) → close s2 = Ok tt (FState (fds s) (printed s2))).
  { intros s2 Hf. unfold close. erewrite bind_Ok by reflexivity. unfold set_fds, modify. by rewrite Hf, Nat.sub_1_r. }
  destruct (fs path) as [i|] eqn:Ei; [destruct (Nat.ltb_spec (fds s) NOFILE) as [Hn|Hn]|].
  2, 3: eapply (finds_quiet _ _ _ _ [("find: cannot open %s\n"%string, path)]);
    [rewrite (bind_Ok _ _ _ _ _ Ho); reflexivity|done|done|intros q; by apply not_a_file|].
  2, 3: intros q Hq; inversion Hq; subst; (lia || congruence).
  destruct (fstat path) eqn:Est; cbn [negb].
  2: { eapply (finds_quiet _ _ _ _ [("find: cannot stat %s\n"%string, path)]).
       - rewrite (bind_Ok _ _ _ _ _ Ho). erewrite bind_Ok by reflexivity. by apply Hclose.
       - done.
       - done.
       - intros q. by apply not_a_file.
       - intros q Hq. inversion Hq; congruence. }
  set (s1 := FState (S (fds s)) (printed s)) in *.
  assert (Hv : finds file_name (visit (λ path', find fuel path' file_name) path file_name i) s1 (located file_name (fds s) path)).
  { destruct i as [|es|].
    - by apply visit_file.
    - by apply visit_dir.
    - eapply (finds_quiet _ _ _ _ []); [reflexivity|done|by rewrite app_nil_r|intros q; apply not_elem_of_nil|].
      intros q Hq. inversion Hq; congruence. }
  destruct Hv as (s2 & l & Hr & Hf & Hpr & Hq). exists (FState (fds s) (printed s2)), l.
  rewrite (bind_Ok _ _ _ _ _ Ho), (bind_Ok _ _ _ _ _ Hr), (Hclose s2 Hf). done.
Qed.

Lemma find_ok file_name fuel : ∀ path s,
  dirs_ok → length junk = BUFSIZE → 0 ∉ path → (BUFSIZE - length path < fuel)%nat →
  finds file_name (find fuel path file_name) s (located file_name (fds s) path).
Proof.
  induction fuel as [|fuel IH]; intros path s Hdirs Hjunk Hp Hf; [lia|].
  apply find_step; try done. intros path' s' Hp' Hlt Hlt'. apply IH; [done|done|done|lia].
Qed.

(** C37: [find] ends and finds.  Whatever the tree (links that make cycles
    included), [find path name] terminates with the descriptors it opened
    closed again, never writes outside its buffer, and prints exactly the paths
    of the regular files with that name reachable from [path] through
    directories it can open: at most as deep as there are free descriptors, and
    with paths that leave room for a name in the buffer. *)
Theorem find_finds path file_name s :
  dirs_ok → length junk = BUFSIZE → 0 ∉ path →
  ∃ s' l, find find_fuel path file_name s = Ok tt s' ∧ fds s' = fds s ∧ printed s' = printed s ++ l ∧
    ∀ q, ("%s\n"%string, q) ∈ l ↔ located file_name (fds s) path q.
Proof. intros. apply find_ok; try done. unfold find_fuel, BUFSIZE. lia. Qed.

(** [get_file_name] returns the last component of a path: the part after
    the last slash, all of it when there is none. *)
Theorem get_file_name_last path s name :
  get_file_name path s = Ok name s ↔ last_component path name.
Proof.
  destruct (get_file_name_ok path s) as (n & Hr & Hn). rewrite Hr. split.
  - by intros [= ->].
  - intros Hname. by rewrite (last_component_unique path n name).
Qed.
End find.

(** ** An example: a directory "a" with a file "b" and a directory "c" that has
    another "b" *)

Definition entry (inum : Z) (name : list Z) : dirent :=
  Dirent inum (name ++ replicate (DIRSIZ - length name) 0).

Definition small_fs (path : list Z) : option inode :=
  if bool_decide (path = [97]) then Some (IDir [entry 1 [46]; entry 2 [98]; entry 0 [98]; entry 3 [99]])
  else if bool_decide (path = [97; 47; 99]) then Some (IDir [entry 3 [46]; entry 1 [46; 46]; entry 4 [98]])
  else if bool_decide (path = [97; 47; 98]) || bool_decide (path = [97; 47; 99; 47; 98]) then Some IFile
  else None.

Lemma small_dirs : dirs_ok small_fs.
Proof.
  intros path es de Hes Hde. unfold small_fs in Hes. repeat case_match; simplify_eq;
    repeat (apply elem_of_cons in Hde as [->|Hde]; [done|]); by apply not_elem_of_nil in Hde.
Qed.

Lemma find_finds_witness :
  ∃ s' l, find small_fs (λ _, true) (replicate BUFSIZE 7) find_fuel [97] [98] (FState 3 []) = Ok tt s' ∧
    printed s' = l ∧ ("%s\n"%string, [97; 47; 99; 47; 98]) ∈ l ∧ fds s' = 3%nat.
Proof.
  destruct (find_finds small_fs (λ _, true) (replicate BUFSIZE 7) [97] [98] (FState 3 []) small_dirs)
    as (s' & l & Hr & Hf & Hp & Hq); [apply length_replicate|intros Hin%list_elem_of_In; cbn in Hin; lia|].
  exists s', l. split; [done|]. split; [done|]. split; [|done]. apply Hq.
  eapply (located_below _ _ _ _ _ _ (entry 3 [99])); [unfold NOFILE, BUFSIZE; cbn; lia|reflexivity|done|unfold NOFILE, BUFSIZE; cbn; lia|apply list_elem_of_In; cbn; auto 10|reflexivity|].
  eapply (located_below _ _ _ _ _ _ (entry 4 [98])); [unfold NOFILE, BUFSIZE; cbn; lia|reflexivity|done|unfold NOFILE, BUFSIZE; cbn; lia|apply list_elem_of_In; cbn; auto 10|reflexivity|].
  apply located_here; [unfold NOFILE, BUFSIZE; cbn; lia|reflexivity|done|]. split; [intros Hin%list_elem_of_In; cbn in Hin; unfold slash in Hin; lia|].
  exists [97; 47; 99; 47]. split; [done|right]. by exists [97; 47; 99].
Defined.
