(* ===== verification/Exec.v ===== *)
(** * exec (lab2 "attack xv6": kernel/exec.c)

    [exec] builds the image of a program in a new page table and, when all of
    it is there, puts it in the place of the caller's.  The file system, the
    page-table functions and the loader of one segment are stock functions:
    their operations and what they keep track of are [ExecEnv], what they are
    documented to do is [ExecLaws]; [loadseg], which panics at an address that
    is not mapped, may only be asked to fill mapped memory.  Strings are lists
    of bytes without the null at their end, as in [Find]. *)

From S2P Require Import Prelude Memory Machine Find.

(** ** Data *)

(** The fields of an ELF header and of a program header that [exec] uses. *)
Record elfhdr := Elfhdr { e_magic : Z; e_entry : Z; e_phoff : Z; e_phnum : Z }.
Record proghdr := Proghdr {
  ph_type : Z; ph_flags : Z; ph_off : Z; ph_vaddr : Z; ph_filesz : Z; ph_memsz : Z;
}.

(** The constants of elf.h and param.h, how headers lie in the bytes of a file,
    and the permissions of a segment; the address and the sizes of a segment
    are [uint64]. *)
Class ExecConsts := {
  ELF_MAGIC : Z;
  ELF_PROG_LOAD : Z;
  ELFHDR_SIZE : Z;
  PROGHDR_SIZE : Z;
  MAXARG : nat;
  USERSTACK : Z;
  elf_of : list Z → elfhdr;
  ph_of : list Z → proghdr;
  flags2perm : Z → Z;
  ELFHDR_SIZE_pos : 0 < ELFHDR_SIZE;
  MAXARG_small : (MAXARG < 512)%nat;
  USERSTACK_range : 1 ≤ USERSTACK < 2 ^ 16;
  ph_of_uint64 bs : let ph := ph_of bs in
    0 ≤ ph_vaddr ph < 2 ^ 64 ∧ 0 ≤ ph_filesz ph < 2 ^ 64 ∧ 0 ≤ ph_memsz ph < 2 ^ 64;
}.

(** The calling process: size, page table, the registers of its trapframe that
    [exec] sets, and its name; [env] is the rest of the kernel. *)
Record xproc {E : Type} := XProc {
  x_sz : Z; x_pagetable : Z; x_a1 : Z; x_epc : Z; x_sp : Z; x_name : list Z; env : E;
}.
Arguments xproc E : clear implicits.

(** The stock functions, and the state of theirs that matters: how many file
    system operations are open, which inodes are locked, what is in a file and
    which inode a path names, the page tables with the size of their memory,
    and the memory each of them maps. *)
Class ExecEnv (E : Type) := {
  begin_op : M (kst (xproc E)) unit;
  end_op : M (kst (xproc E)) unit;
  namei : list Z → M (kst (xproc E)) Z;
  ilock : Z → M (kst (xproc E)) unit;
  iunlockput : Z → M (kst (xproc E)) unit;
  readi : Z → Z → Z → M (kst (xproc E)) (list Z);
  proc_pagetable : M (kst (xproc E)) Z;
  proc_freepagetable : Z → Z → M (kst (xproc E)) unit;
  uvmalloc : Z → Z → Z → Z → M (kst (xproc E)) Z;
  uvmclear : Z → Z → M (kst (xproc E)) unit;
  loadseg : Z → Z → Z → Z → Z → M (kst (xproc E)) Z;
  copyout : Z → Z → list Z → M (kst (xproc E)) Z;
  open_ops : E → Z;
  inodes : E → gset Z;
  idata : E → Z → list Z;
  inode_of : E → list Z → Z;
  tables : E → gmap Z Z;
  umem : E → Z → mem;
}.

(** A 64-bit word as eight bytes. *)
Definition word_bytes (v : Z) : list Z := (λ i, v / 2 ^ (8 * i) mod 256) <$> seqZ 0 8.
Definition words (l : list Z) : list Z := concat (word_bytes <$> l).

Section exec.
Context `{Riscv, MemLayout, ExecConsts} {E : Type} `{!ExecEnv E}.
Implicit Types s : kst (xproc E).

(** ** Operations *)

(** The label [bad]: give back what has been taken.  [0] is the null pointer. *)
Definition bad (pagetable sz ip : Z) : M (kst (xproc E)) Z :=
  (if negb (pagetable =? 0) then proc_freepagetable pagetable sz else mret tt);;
  (if negb (ip =? 0) then iunlockput ip;; end_op else mret tt);;
  mret (-1).

(** One round of the loop over program headers: whether all is well, and the
    size so far. *)
Definition load_body (pagetable ip phnum : Z) (v : Z * Z * Z) :
    M (kst (xproc E)) (Z * Z * Z + bool * Z) :=
  let '(i, off, sz) := v in
  if negb (i <? phnum) then mret (inr (true, sz))
  else
    bs ← readi ip off PROGHDR_SIZE;
    if negb (Z.of_nat (length bs) =? PROGHDR_SIZE) then mret (inr (false, sz))
    else
      let ph := ph_of bs in
      let next sz := inl (i + 1, s32 (off + PROGHDR_SIZE), sz) in
      if negb (ph_type ph =? ELF_PROG_LOAD) then mret (next sz)
      else if ph_memsz ph <? ph_filesz ph then mret (inr (false, sz))
      else if u64 (ph_vaddr ph + ph_memsz ph) <? ph_vaddr ph then mret (inr (false, sz))
      else if negb (ph_vaddr ph mod PGSIZE =? 0) then mret (inr (false, sz))
      else
        sz1 ← uvmalloc pagetable sz (u64 (ph_vaddr ph + ph_memsz ph)) (flags2perm (ph_flags ph));
        if sz1 =? 0 then mret (inr (false, sz))
        else
          r ← loadseg pagetable (ph_vaddr ph) ip (ph_off ph) (ph_filesz ph);
          if r <? 0 then mret (inr (false, sz1)) else mret (next sz1).

(** The loop over the arguments, from a stack pointer down; [ustack] has the
    addresses so far.  [None]: [goto bad]. *)
Fixpoint push_args (pagetable stackbase : Z) (argv : list (list Z)) (sp : Z) (ustack : list Z) :
    M (kst (xproc E)) (option (Z * list Z)) :=
  match argv with
  | [] => mret (Some (sp, ustack))
  | a :: argv =>
      if Nat.leb MAXARG (length ustack) then mret None
      else
        let sp := u64 (sp - (Z.of_nat (length a) + 1)) in
        let sp := u64 (sp - sp mod 16) in
        if sp <? stackbase then mret None
        else
          r ← copyout pagetable sp (a ++ [0]);
          if r <? 0 then mret None
          else push_args pagetable stackbase argv sp (ustack ++ [sp])
  end.

(** [for(last=s=path; *s; s++)]: the pointers are suffixes of the path. *)
Fixpoint last_loop (s last : list Z) : list Z :=
  match s with
  | [] => last
  | c :: s => last_loop s (if c =? slash then s else last)
  end.

(** [safestrcpy(p->name, last, sizeof(p->name))]. *)
Definition safestrcpy16 (str : list Z) : list Z := take 15 str.

Definition commit (pagetable sz entry sp : Z) (x : xproc E) : xproc E :=
  XProc _ sz pagetable (x_a1 x) entry sp (x_name x) (env x).

(** From the end of the array of argument addresses to the end of [exec]. *)
Definition exec_finish (path : list Z) (elf : elfhdr) (pagetable oldsz sz stackbase sp : Z) (ustack : list Z) :
    M (kst (xproc E)) Z :=
  let argc := length ustack in
  (if Nat.ltb argc MAXARG then mret tt else undefined "exec: ustack");;
  let sp := u64 (sp - (Z.of_nat argc + 1) * 8) in
  let sp := u64 (sp - sp mod 16) in
  if sp <? stackbase then bad pagetable sz 0
  else
    r ← copyout pagetable sp (words (ustack ++ [0]));
    if r <? 0 then bad pagetable sz 0
    else
      modx (λ x, XProc _ (x_sz x) (x_pagetable x) sp (x_epc x) (x_sp x)
                   (safestrcpy16 (last_loop path path)) (env x));;
      oldpagetable ← getx x_pagetable;
      modx (commit pagetable sz (e_entry elf) sp);;
      proc_freepagetable oldpagetable oldsz;;
      mret (Z.of_nat argc).

(** The stack and the arguments. *)
Definition exec_stack (path : list Z) (argv : list (list Z)) (elf : elfhdr) (pagetable sz : Z) :
    M (kst (xproc E)) Z :=
  oldsz ← getx x_sz;
  let sz := PGROUNDUP sz in
  sz1 ← uvmalloc pagetable sz (u64 (sz + (USERSTACK + 1) * PGSIZE)) PTE_W;
  if sz1 =? 0 then bad pagetable sz 0
  else
    let sz := sz1 in
    uvmclear pagetable (u64 (sz - (USERSTACK + 1) * PGSIZE));;
    let stackbase := u64 (sz - USERSTACK * PGSIZE) in
    r ← push_args pagetable stackbase argv sz [];
    match r with
    | None => bad pagetable sz 0
    | Some (sp, ustack) => exec_finish path elf pagetable oldsz sz stackbase sp ustack
    end.

(** From the locked inode on: the header, the page table and the segments. *)
Definition exec_load (path : list Z) (argv : list (list Z)) (ip : Z) : M (kst (xproc E)) Z :=
  bs ← readi ip 0 ELFHDR_SIZE;
  if negb (Z.of_nat (length bs) =? ELFHDR_SIZE) then bad 0 0 ip
  else
    let elf := elf_of bs in
    if negb (e_magic elf =? ELF_MAGIC) then bad 0 0 ip
    else
      pagetable ← proc_pagetable;
      if pagetable =? 0 then bad 0 0 ip
      else
        '(ok, sz) ← loop (S (Z.to_nat (e_phnum elf))) (load_body pagetable ip (e_phnum elf)) (0, s32 (e_phoff elf), 0);
        if negb (ok : bool) then bad pagetable sz ip
        else
          iunlockput ip;;
          end_op;;
          exec_stack path argv elf pagetable sz.

Definition exec (path : list Z) (argv : list (list Z)) : M (kst (xproc E)) Z :=
  printf "执行了exec\n" [];;
  begin_op;;
  ip ← namei path;
  if ip =? 0 then end_op;; mret (-1)
  else
    ilock ip;;
    exec_load path argv ip.

(** ** What the stock functions do *)

(** The fields of the process, the file system, and the memory of the page
    tables other than [pt]. *)
Definition fields (x : xproc E) := (x_sz x, x_pagetable x, x_a1 x, x_epc x, x_sp x, x_name x).
Definition proc_kept s s' : Prop := fields (ext s') = fields (ext s).
Definition files_kept s s' : Prop :=
  idata (env (ext s')) = idata (env (ext s)) ∧ inode_of (env (ext s')) = inode_of (env (ext s)).
Definition fs_kept s s' : Prop :=
  open_ops (env (ext s')) = open_ops (env (ext s)) ∧ inodes (env (ext s')) = inodes (env (ext s)) ∧ files_kept s s'.
Definition stables s : gmap Z Z := tables (env (ext s)).
Definition smem s (pt : Z) : mem := umem (env (ext s)) pt.
Definition only_table (pt : Z) s s' : Prop :=
  ∀ pt' n, stables s !! pt' = Some n → pt' ≠ pt → ∀ va, smem s' pt' va = smem s pt' va.
Definition mem_kept s s' : Prop :=
  stables s' = stables s ∧ ∀ pt n, stables s !! pt = Some n → ∀ va, smem s' pt va = smem s pt va.

Class ExecLaws := {
  begin_op_law s : ∃ s', begin_op s = Ok tt s' ∧ proc_kept s s' ∧ mem_kept s s' ∧ files_kept s s' ∧
    open_ops (env (ext s')) = open_ops (env (ext s)) + 1 ∧ inodes (env (ext s')) = inodes (env (ext s));
  end_op_law s : 0 < open_ops (env (ext s)) →
    ∃ s', end_op s = Ok tt s' ∧ proc_kept s s' ∧ mem_kept s s' ∧ files_kept s s' ∧
    open_ops (env (ext s')) = open_ops (env (ext s)) - 1 ∧ inodes (env (ext s')) = inodes (env (ext s));
  namei_law path s : ∃ ip s', namei path s = Ok ip s' ∧ proc_kept s s' ∧ mem_kept s s' ∧ fs_kept s s' ∧
    (ip = 0 ∨ ip = inode_of (env (ext s)) path);
  ilock_law ip s : ip ∉ inodes (env (ext s)) →
    ∃ s', ilock ip s = Ok tt s' ∧ proc_kept s s' ∧ mem_kept s s' ∧ files_kept s s' ∧
    open_ops (env (ext s')) = open_ops (env (ext s)) ∧ inodes (env (ext s')) = {[ip]} ∪ inodes (env (ext s));
  iunlockput_law ip s : ip ∈ inodes (env (ext s)) →
    ∃ s', iunlockput ip s = Ok tt s' ∧ proc_kept s s' ∧ mem_kept s s' ∧ files_kept s s' ∧
    open_ops (env (ext s')) = open_ops (env (ext s)) ∧ inodes (env (ext s')) = inodes (env (ext s)) ∖ {[ip]};
  readi_law ip off n s : ip ∈ inodes (env (ext s)) →
    ∃ bs s', readi ip off n s = Ok bs s' ∧ proc_kept s s' ∧ mem_kept s s' ∧ fs_kept s s' ∧
    (0 ≤ off → Z.of_nat (length bs) = n → bs = take (Z.to_nat n) (drop (Z.to_nat off) (idata (env (ext s)) ip)));
  proc_pagetable_law s :
    ∃ pt s', proc_pagetable s = Ok pt s' ∧ proc_kept s s' ∧ fs_kept s s' ∧ only_table pt s s' ∧
    (pt = 0 ∧ mem_kept s s' ∨ pt ≠ 0 ∧ stables s !! pt = None ∧ stables s' = <[pt := 0]> (stables s));
  proc_freepagetable_law pt sz s : stables s !! pt = Some (PGROUNDUP sz) →
    ∃ s', proc_freepagetable pt sz s = Ok tt s' ∧ proc_kept s s' ∧ fs_kept s s' ∧ only_table pt s s' ∧
    stables s' = delete pt (stables s);
  uvmalloc_law pt old new perm s : stables s !! pt = Some (PGROUNDUP old) → 0 ≤ old ≤ MAXVA → 0 ≤ new < 2 ^ 64 →
    ∃ r s', uvmalloc pt old new perm s = Ok r s' ∧ proc_kept s s' ∧ fs_kept s s' ∧ only_table pt s s' ∧
    (r = 0 ∧ stables s' = stables s ∨ new < old ∧ r = old ∧ stables s' = stables s ∨
     old ≤ new ≤ MAXVA ∧ r = new ∧ stables s' = <[pt := PGROUNDUP new]> (stables s));
  uvmclear_law pt va n s : stables s !! pt = Some n → 0 ≤ va < n →
    ∃ s', uvmclear pt va s = Ok tt s' ∧ proc_kept s s' ∧ fs_kept s s' ∧ mem_kept s s';
  loadseg_law pt va ip off n size s : stables s !! pt = Some size → 0 ≤ va → 0 ≤ n → va + n ≤ size →
    ip ∈ inodes (env (ext s)) → va mod 4096 = 0 →
    ∃ r s', loadseg pt va ip off n s = Ok r s' ∧ proc_kept s s' ∧ fs_kept s s' ∧ only_table pt s s' ∧ stables s' = stables s;
  copyout_law pt va bs s : is_Some (stables s !! pt) →
    ∃ r s', copyout pt va bs s = Ok r s' ∧ proc_kept s s' ∧ fs_kept s s' ∧ only_table pt s s' ∧ stables s' = stables s ∧
    (r = -1 ∨ r = 0 ∧ ∀ a, smem s' pt a = store_bytes (smem s pt) va bs a);
}.

Context `{!ExecLaws}.

(** ** While the new image is built

    Compared with [s0], when [exec] was called: the process is as it was, the
    new page table [pt] has memory of size [sz], and nothing another page table
    maps has changed. *)
Record building s0 (pt sz : Z) s : Prop := {
  bd_proc : proc_kept s0 s;
  bd_files : files_kept s0 s;
  bd_tables : stables s = <[pt := PGROUNDUP sz]> (stables s0);
  bd_mem pt' n : stables s0 !! pt' = Some n → ∀ va, smem s pt' va = smem s0 pt' va;
  bd_sz : 0 ≤ sz ≤ MAXVA;
  bd_new : stables s0 !! pt = None;
  bd_pt : pt ≠ 0;
}.

(** The open operations and the locked inodes. *)
Definition fs_at s (k : Z) (L : gset Z) : Prop := open_ops (env (ext s)) = k ∧ inodes (env (ext s)) = L.

(** Nothing has happened that the caller could see. *)
Definition untouched s0 s : Prop := proc_kept s0 s ∧ fs_kept s0 s ∧ mem_kept s0 s.

Lemma caller_kept_trans s1 s2 s3 : proc_kept s1 s2 → proc_kept s2 s3 → proc_kept s1 s3.
Proof. unfold proc_kept. congruence. Qed.
Lemma files_kept_trans s1 s2 s3 : files_kept s1 s2 → files_kept s2 s3 → files_kept s1 s3.
Proof. unfold files_kept. intuition congruence. Qed.
Lemma mem_kept_trans s1 s2 s3 : mem_kept s1 s2 → mem_kept s2 s3 → mem_kept s1 s3.
Proof.
  intros [Ht1 Hm1] [Ht2 Hm2]. split; [congruence|]. intros pt n Hpt va.
  rewrite (Hm2 pt n) by congruence. by apply (Hm1 pt n).
Qed.
Lemma fs_at_kept s s' k L : fs_kept s s' → fs_at s k L → fs_at s' k L.
Proof. intros (Ho & Hi & _) [Hk HL]. split; congruence. Qed.

Lemma building_table s0 pt sz s : building s0 pt sz s → stables s !! pt = Some (PGROUNDUP sz).
Proof. intros []. rewrite bd_tables0. apply lookup_insert_eq. Qed.

Lemma building_step s0 pt sz sz' s s' :
  building s0 pt sz s → proc_kept s s' → files_kept s s' → only_table pt s s' →
  stables s' = <[pt := PGROUNDUP sz']> (stables s) → 0 ≤ sz' ≤ MAXVA → building s0 pt sz' s'.
Proof.
  intros [] Hp Hf Ho Ht Hsz. constructor; try done.
  - by eapply caller_kept_trans.
  - by eapply files_kept_trans.
  - by rewrite Ht, bd_tables0, insert_insert_eq.
  - intros pt' n Hpt' va. assert (pt' ≠ pt) by congruence.
    rewrite (Ho pt' n); [by apply (bd_mem0 pt' n)| |done]. by rewrite bd_tables0, lookup_insert_ne.
Qed.

Lemma building_same s0 pt sz s s' :
  building s0 pt sz s → proc_kept s s' → files_kept s s' → only_table pt s s' → stables s' = stables s →
  building s0 pt sz s'.
Proof.
  intros Hb Hp Hf Ho Ht. eapply building_step; [done..| |apply Hb].
  rewrite insert_id; [done|]. by eapply building_table.
Qed.

Lemma mem_kept_only pt s s' : mem_kept s s' → only_table pt s s' ∧ stables s' = stables s.
Proof. intros [Ht Hm]. split; [|done]. intros pt' n Hpt' _. by apply (Hm pt' n). Qed.

Lemma building_mem s0 pt sz s s' :
  building s0 pt sz s → proc_kept s s' → files_kept s s' → mem_kept s s' → building s0 pt sz s'.
Proof. intros Hb Hp Hf [Ho Ht]%(mem_kept_only pt). by eapply building_same. Qed.

(** [bad] gives everything back. *)
Lemma close_file s k L ip :
  fs_at s (k + 1) ({[ip]} ∪ L) → 0 ≤ k → ip ∉ L →
  ∃ s', (iunlockput ip;; end_op) s = Ok tt s' ∧ proc_kept s s' ∧ files_kept s s' ∧ mem_kept s s' ∧ fs_at s' k L.
Proof.
  intros [Ho Hi] Hk Hip.
  destruct (iunlockput_law ip s) as (s1 & Hr1 & Hp1 & Hm1 & Hf1 & Ho1 & Hi1); [rewrite Hi; set_solver|].
  destruct (end_op_law s1) as (s2 & Hr2 & Hp2 & Hm2 & Hf2 & Ho2 & Hi2); [lia|].
  exists s2. split; [by rewrite (bind_Ok _ _ _ _ _ Hr1)|]. split; [by eapply caller_kept_trans|].
  split; [by eapply files_kept_trans|]. split; [by eapply mem_kept_trans|]. split; [lia|].
  rewrite Hi2, Hi1, Hi. set_solver.
Qed.

Lemma free_new s0 pt sz s k L :
  building s0 pt sz s → fs_at s k L →
  ∃ s', proc_freepagetable pt sz s = Ok tt s' ∧ proc_kept s0 s' ∧ files_kept s0 s' ∧ mem_kept s0 s' ∧ fs_at s' k L.
Proof.
  intros Hb Hfs. destruct (proc_freepagetable_law pt sz s) as (s1 & Hr & Hp & Hf & Ho & Ht); [by eapply building_table|].
  destruct Hb. exists s1. split; [done|]. split; [by eapply caller_kept_trans|].
  split; [eapply files_kept_trans; [done|apply Hf]|]. split; [|by eapply fs_at_kept]. split.
  - by rewrite Ht, bd_tables0, delete_insert_id.
  - intros pt' n Hpt' va. assert (pt' ≠ pt) by congruence.
    rewrite (Ho pt' n); [by apply (bd_mem0 pt' n)| |done]. by rewrite bd_tables0, lookup_insert_ne.
Qed.

Lemma untouched_intro s0 s : proc_kept s0 s → files_kept s0 s → mem_kept s0 s →
  fs_at s (open_ops (env (ext s0))) (inodes (env (ext s0))) → untouched s0 s.
Proof. intros Hp Hf Hm [Ho Hi]. by repeat split; try apply Hf; try apply Hm. Qed.

Local Abbreviation ops0 s0 := (open_ops (env (ext s0))).
Local Abbreviation ino0 s0 := (inodes (env (ext s0))).

Lemma bad_loading s0 pt sz s ip :
  building s0 pt sz s → fs_at s (ops0 s0 + 1) ({[ip]} ∪ ino0 s0) → 0 ≤ ops0 s0 → ip ∉ ino0 s0 → ip ≠ 0 →
  ∃ s', bad pt sz ip s = Ok (-1) s' ∧ untouched s0 s'.
Proof.
  intros Hb Hfs Hops Hip Hne. destruct (free_new s0 pt sz s _ _ Hb Hfs) as (s1 & Hr1 & Hp1 & Hf1 & Hm1 & Hfs1).
  destruct (close_file s1 _ _ ip Hfs1 Hops Hip) as (s2 & Hr2 & Hp2 & Hf2 & Hm2 & Hfs2).
  exists s2. split.
  - unfold bad. rewrite (proj2 (Z.eqb_neq pt 0)), (proj2 (Z.eqb_neq ip 0)) by (done || apply Hb). cbn [negb].
    by rewrite (bind_Ok _ _ _ _ _ Hr1), (bind_Ok _ _ _ _ _ Hr2).
  - apply untouched_intro; [by eapply caller_kept_trans|by eapply files_kept_trans|by eapply mem_kept_trans|done].
Qed.

Lemma bad_stack s0 pt sz s :
  building s0 pt sz s → fs_at s (ops0 s0) (ino0 s0) → ∃ s', bad pt sz 0 s = Ok (-1) s' ∧ untouched s0 s'.
Proof.
  intros Hb Hfs. destruct (free_new s0 pt sz s _ _ Hb Hfs) as (s1 & Hr1 & Hp1 & Hf1 & Hm1 & Hfs1).
  exists s1. split; [|by apply untouched_intro].
  unfold bad. rewrite (proj2 (Z.eqb_neq pt 0)) by apply Hb. cbn [negb Z.eqb]. by rewrite (bind_Ok _ _ _ _ _ Hr1).
Qed.

Lemma bad_early s0 s ip :
  proc_kept s0 s → files_kept s0 s → mem_kept s0 s → fs_at s (ops0 s0 + 1) ({[ip]} ∪ ino0 s0) →
  0 ≤ ops0 s0 → ip ∉ ino0 s0 → ip ≠ 0 →
  ∃ s', bad 0 0 ip s = Ok (-1) s' ∧ untouched s0 s'.
Proof.
  intros Hp Hf Hm Hfs Hops Hip Hne. destruct (close_file s _ _ ip Hfs Hops Hip) as (s2 & Hr2 & Hp2 & Hf2 & Hm2 & Hfs2).
  exists s2. split.
  - unfold bad. cbn [negb Z.eqb]. rewrite (proj2 (Z.eqb_neq ip 0)) by done. cbn [negb].
    erewrite bind_Ok by reflexivity. by rewrite (bind_Ok _ _ _ _ _ Hr2).
  - apply untouched_intro; [by eapply caller_kept_trans|by eapply files_kept_trans|by eapply mem_kept_trans|done].
Qed.

(** ** Loading *)

Lemma MAXVA_aligned : MAXVA mod 4096 = 0.
Proof. pose proof TRAMPOLINE_top. pose proof TRAPFRAME_below. pose proof USYSCALL_below. pose proof USYSCALL_aligned. dlia. Qed.

Lemma rounded sz : 0 ≤ sz ≤ MAXVA → sz ≤ PGROUNDUP sz ≤ MAXVA ∧ PGROUNDUP sz mod 4096 = 0 ∧ PGROUNDUP (PGROUNDUP sz) = PGROUNDUP sz.
Proof.
  intros Hsz. pose proof MAXVA_bound. pose proof MAXVA_aligned. change (2 ^ 39) with 549755813888 in *.
  assert (2 ^ 64 = 18446744073709551616) as H64 by done.
  rewrite PGROUNDUP_spec by lia. split; [dlia|]. split; [dlia|]. rewrite PGROUNDUP_spec by dlia. dlia.
Qed.

Lemma uvmalloc_builds s0 pt sz new perm s k L :
  building s0 pt sz s → fs_at s k L → 0 ≤ new < 2 ^ 64 →
  ∃ r s', uvmalloc pt sz new perm s = Ok r s' ∧ fs_at s' k L ∧
    (r = 0 ∧ building s0 pt sz s' ∨ r ≠ 0 ∧ r = Z.max sz new ∧ building s0 pt r s').
Proof.
  intros Hb Hfs Hnew.
  destruct (uvmalloc_law pt sz new perm s (building_table _ _ _ _ Hb) (bd_sz _ _ _ _ Hb) Hnew)
    as (r & s' & Hr & Hp & Hf & Ho & Hcase). exists r, s'. split; [done|]. split; [by eapply fs_at_kept|].
  destruct (decide (r = 0)) as [->|Hne].
  - left. split; [done|]. destruct Hcase as [[_ Ht]|[(Hlt & <- & Ht)|(Hle & <- & Ht)]];
      [eapply building_same|eapply building_same|]; try done; try apply Hf.
    pose proof (bd_sz _ _ _ _ Hb). replace sz with 0 in * by lia. eapply building_step; try done; apply Hf.
  - right. split; [done|]. pose proof (bd_sz _ _ _ _ Hb). destruct Hcase as [[-> _]|[(Hlt & -> & Ht)|(Hle & -> & Ht)]]; [done|..].
    + split; [lia|]. eapply building_same; try done; apply Hf.
    + split; [lia|]. eapply building_step; try done; [apply Hf|lia].
Qed.

(** The guard against an end of the segment that wraps round. *)
Lemma segment_fits ph :
  0 ≤ ph_vaddr ph < 2 ^ 64 → 0 ≤ ph_memsz ph < 2 ^ 64 →
  ph_vaddr ph ≤ u64 (ph_vaddr ph + ph_memsz ph) →
  u64 (ph_vaddr ph + ph_memsz ph) = ph_vaddr ph + ph_memsz ph.
Proof.
  intros Hva Hmz Hge. destruct (decide (ph_vaddr ph + ph_memsz ph < 2 ^ 64)) as [Hlt|Hge'].
  - apply u64_small. lia.
  - exfalso. unfold u64 in *. replace (ph_vaddr ph + ph_memsz ph) with
      (ph_vaddr ph + ph_memsz ph - 2 ^ 64 + 1 * 2 ^ 64) in Hge by lia.
    rewrite Z.mod_add, Z.mod_small in Hge by lia. lia.
Qed.

Lemma load_round s0 pt ip phnum i off sz s k L :
  building s0 pt sz s → fs_at s k L → ip ∈ L →
  returns (load_body pt ip phnum (i, off, sz)) s (λ r s', fs_at s' k L ∧
    match r with
    | inl (i', _, sz') => building s0 pt sz' s' ∧ i' = i + 1 ∧ i < phnum
    | inr (_, sz') => building s0 pt sz' s'
    end).
Proof.
  intros Hb Hfs Hip. unfold load_body. destruct (i <? phnum) eqn:Ei; bool_to_Prop; cbn [negb]; [|by apply returns_ret].
  destruct (readi_law ip off PROGHDR_SIZE s) as (bs & s1 & Hr & Hp & Hm & Hf & _); [by destruct Hfs as [_ ->]|].
  apply returns_bind, (returns_intro _ _ _ _ _ Hr).
  assert (Hb1 : building s0 pt sz s1) by (eapply building_mem; [done|done|apply Hf|done]).
  pose proof (fs_at_kept _ _ _ _ Hf Hfs) as Hfs1.
  destruct (ph_of_uint64 bs) as (Hva & Hfz & Hmz). set (ph := ph_of bs) in *.
  case_bool; [by apply returns_ret|]. case_bool; [by apply returns_ret|].
  destruct (ph_memsz ph <? ph_filesz ph) eqn:Eg1; [by apply returns_ret|].
  destruct (u64 (ph_vaddr ph + ph_memsz ph) <? ph_vaddr ph) eqn:Eg2; [by apply returns_ret|].
  case_bool; [by apply returns_ret|].
  destruct (uvmalloc_builds s0 pt sz (u64 (ph_vaddr ph + ph_memsz ph)) (flags2perm (ph_flags ph)) s1 k L)
    as (r & s2 & Hr2 & Hfs2 & Hcase); [done|done|apply u64_range|].
  apply returns_bind, (returns_intro _ _ _ _ _ Hr2). destruct Hcase as [[-> Hb2]|(Hne & Hmax & Hb2)]; [by apply returns_ret|].
  rewrite (proj2 (Z.eqb_neq r 0)) by done. bool_to_Prop.
  assert (Hfit : ph_vaddr ph + ph_filesz ph ≤ PGROUNDUP r).
  { destruct (rounded r (bd_sz _ _ _ _ Hb2)) as ((Hround & _) & _). pose proof (segment_fits ph Hva Hmz Eg2). lia. }
  destruct (loadseg_law pt (ph_vaddr ph) ip (ph_off ph) (ph_filesz ph) (PGROUNDUP r) s2)
    as (q & s3 & Hr3 & Hp3 & Hf3 & Ho3 & Ht3);
    [by apply (building_table _ _ _ _ Hb2)|lia|lia|done|by destruct Hfs2 as [_ ->]|done|].
  apply returns_bind, (returns_intro _ _ _ _ _ Hr3).
  assert (building s0 pt r s3) by (eapply building_same; [done|done|apply Hf3|done|done]).
  pose proof (fs_at_kept _ _ _ _ Hf3 Hfs2). case_bool; by apply returns_ret.
Qed.

Lemma load_ok s0 pt ip phnum off s k L :
  building s0 pt 0 s → fs_at s k L → ip ∈ L →
  returns (loop (S (Z.to_nat phnum)) (load_body pt ip phnum) (0, off, 0)) s
    (λ r s', fs_at s' k L ∧ building s0 pt r.2 s').
Proof.
  intros Hb Hfs Hip. apply (loop_returns _ (λ v s, building s0 pt v.2 s ∧ fs_at s k L) (λ v, Z.to_nat (phnum - v.1.1))).
  - intros [[i o] sz] s1 [Hb1 Hfs1]. cbn in Hb1. eapply returns_mono; [by apply (load_round s0 pt ip phnum i o sz s1 k L)|].
    intros [[[i' o'] sz']|[ok sz']] s2; cbn; [|tauto]. intros (Hfs2 & Hb2 & -> & Hlt). split; [by split|]. lia.
  - done.
  - cbn. lia.
Qed.

(** ** The arguments *)

Lemma word_bytes_digit v i : 0 ≤ i < 8 → word_bytes v !! Z.to_nat i = Some (v / 2 ^ (8 * i) mod 256).
Proof.
  intros Hi. unfold word_bytes. rewrite list_lookup_fmap, lookup_seqZ_lt by lia. cbn. do 4 f_equal. lia.
Qed.

Lemma words_cons v l : words (v :: l) = word_bytes v ++ words l.
Proof. done. Qed.

Lemma words_length l : length (words l) = (8 * length l)%nat.
Proof. induction l as [|v l IH]; [done|]. rewrite words_cons, length_app, IH. cbn [length]. change (length (word_bytes v)) with 8%nat. lia. Qed.

Lemma words_digit l : ∀ k v i, l !! k = Some v → 0 ≤ i < 8 → words l !! (8 * k + Z.to_nat i)%nat = Some (v / 2 ^ (8 * i) mod 256).
Proof.
  induction l as [|w l IH]; intros k v i Hk Hi; [done|]. rewrite words_cons. destruct k as [|k]; cbn in Hk.
  - injection Hk as ->. rewrite lookup_app_l; [by apply word_bytes_digit|]. change (length (word_bytes v)) with 8%nat. lia.
  - rewrite lookup_app_r by (change (length (word_bytes w)) with 8%nat; lia). change (length (word_bytes w)) with 8%nat.
    replace (8 * S k + Z.to_nat i - 8)%nat with (8 * k + Z.to_nat i)%nat by lia. by apply IH.
Qed.

Lemma words_load m p l k v : l !! k = Some v → load64 (store_bytes m p (words l)) (p + 8 * Z.of_nat k) = u64 v.
Proof.
  intros Hk. unfold load64, u64. rewrite (le_load_digits 8 _ _ v); [done|]. intros i Hi.
  replace (p + 8 * Z.of_nat k + i) with (p + Z.of_nat (8 * k + Z.to_nat i)) by lia.
  by rewrite (store_bytes_in _ _ _ _ _ (words_digit l k v i Hk Hi)).
Qed.

(** The argument strings that lie between [lo] and [top], at these addresses. *)
Definition placed (m : mem) (lo top : Z) (ptrs : list Z) (args : list (list Z)) : Prop :=
  Forall2 (λ p a, p mod 16 = 0 ∧ lo ≤ p ∧ p + Z.of_nat (length a) + 1 ≤ top ∧
             load_bytes m p (S (length a)) = a ++ [0]) ptrs args.

Lemma placed_lower m m' lo lo' top ptrs args :
  placed m lo top ptrs args → lo' ≤ lo → (∀ b, lo ≤ b → m' b = m b) → placed m' lo' top ptrs args.
Proof.
  intros Hp Hle Hag. eapply Forall2_impl; [exact Hp|]. cbv beta. intros p a (Hal & Hlo & Htop & Hb).
  split; [done|]. split; [lia|]. split; [done|]. rewrite <-Hb. apply load_bytes_ext. intros b Hin. apply Hag. unfold in_range in Hin. lia.
Qed.

Lemma stored_string m p a : load_bytes (store_bytes m p a) p (length a) = a.
Proof.
  apply list_eq. intros i. destruct (decide (i < length a)%nat) as [Hi|Hi].
  - rewrite load_bytes_lookup by done. destruct (lookup_lt_is_Some_2 a i Hi) as [b Hb]. rewrite Hb.
    by rewrite (store_bytes_in _ _ _ _ _ Hb).
  - rewrite !lookup_ge_None_2; [done|lia|]. rewrite load_bytes_length. lia.
Qed.

(** A string below those already there. *)
Lemma placed_snoc m m' lo sp top ptrs args a :
  placed m lo top ptrs args → sp mod 16 = 0 → sp + Z.of_nat (length a) + 1 ≤ lo → lo ≤ top →
  (∀ b, m' b = store_bytes m sp (a ++ [0]) b) → placed m' sp top (ptrs ++ [sp]) (args ++ [a]).
Proof.
  intros Hp Hal Hlo Htop Hm. apply Forall2_app.
  - eapply placed_lower; [done|lia|]. intros b Hb. rewrite Hm. apply store_bytes_ne. unfold in_range.
    rewrite length_app. cbn. lia.
  - constructor; [|constructor]. split; [done|]. split; [lia|]. split; [lia|].
    rewrite <-(stored_string m sp (a ++ [0])) at 1. rewrite length_app, Nat.add_1_r.
    apply load_bytes_ext. intros b _. apply Hm.
Qed.

Lemma MAXVA_small : 0 < MAXVA ≤ 549755813888.
Proof. exact MAXVA_bound. Qed.

Lemma push_args_ok s0 pt sz stackbase k L argv : ∀ sp ustack pushed s,
  building s0 pt sz s → fs_at s k L → stackbase ≤ sp ≤ sz → 4096 ≤ stackbase →
  placed (smem s pt) sp sz ustack pushed → Forall (λ a, (length a < 4096)%nat) argv →
  returns (push_args pt stackbase argv sp ustack) s (λ r s', building s0 pt sz s' ∧ fs_at s' k L ∧
    match r with
    | None => True
    | Some (sp', ustack') => stackbase ≤ sp' ≤ sz ∧ placed (smem s' pt) sp' sz ustack' (pushed ++ argv)
    end).
Proof.
  induction argv as [|a argv IH]; intros sp ustack pushed s Hb Hfs Hsp Hbase Hpl Hlen; cbn [push_args].
  { apply returns_ret. rewrite app_nil_r. tauto. }
  destruct (MAXARG <=? length ustack)%nat; [apply returns_ret; tauto|].
  apply Forall_cons in Hlen as [Ha Hlen]. pose proof (bd_sz _ _ _ _ Hb). pose proof MAXVA_small.
  assert (2 ^ 64 = 18446744073709551616) as H64 by done.
  set (sp1 := sp - (Z.of_nat (length a) + 1)). assert (0 ≤ sp1 < sp) by lia.
  rewrite (u64_small sp1) by lia. set (sp2 := sp1 - sp1 mod 16).
  assert (Hal : sp2 mod 16 = 0 ∧ 0 ≤ sp2 ≤ sp1) by (unfold sp2; dlia).
  rewrite (u64_small sp2) by lia. destruct (sp2 <? stackbase) eqn:Eb; bool_to_Prop; [apply returns_ret; tauto|].
  destruct (copyout_law pt sp2 (a ++ [0]) s) as (r & s1 & Hr & Hp & Hf & Ho & Ht & Hcase);
    [rewrite (building_table _ _ _ _ Hb); eauto|].
  apply returns_bind, (returns_intro _ _ _ _ _ Hr).
  assert (Hb1 : building s0 pt sz s1) by (eapply building_same; [done|done|apply Hf|done|done]).
  pose proof (fs_at_kept _ _ _ _ Hf Hfs). destruct Hcase as [->|[-> Hm]]; [by apply returns_ret|]. cbn [Z.ltb Z.compare].
  replace (pushed ++ a :: argv) with ((pushed ++ [a]) ++ argv) by (by rewrite <-app_assoc).
  apply IH; [done|done|lia|done| |done]. eapply placed_snoc; [done|tauto|lia|lia|done].
Qed.

(** The name is the last component of the path. *)
Lemma last_loop_component str : ∀ pre mid,
  slash ∉ mid → (pre = [] ∨ ∃ q, pre = q ++ [slash]) →
  last_component (pre ++ mid ++ str) (last_loop str (mid ++ str)).
Proof.
  induction str as [|c str IH]; intros pre mid Hmid Hpre; cbn [last_loop].
  - rewrite app_nil_r. split; [done|]. by exists pre.
  - destruct (c =? slash) eqn:Ec; bool_to_Prop.
    + subst c. specialize (IH (pre ++ mid ++ [slash]) []). cbn [app] in IH. rewrite <-!app_assoc in IH. cbn in IH.
      apply IH; [apply not_elem_of_nil|]. right. exists (pre ++ mid). by rewrite app_assoc.
    + specialize (IH pre (mid ++ [c])). rewrite <-!app_assoc in IH. cbn in IH. apply IH; [|done].
      rewrite not_elem_of_app, not_elem_of_cons. split; [done|]. split; [congruence|apply not_elem_of_nil].
Qed.

(** What the caller has become after a call of [exec] that succeeds: the
    program of the file in the new page table [pt], with its arguments. *)
Record image s0 (path : list Z) (argv : list (list Z)) (pt : Z) s : Prop := {
  im_pt : x_pagetable (ext s) = pt;
  im_new : stables s0 !! pt = None;
  im_tables : stables s = <[pt := x_sz (ext s)]> (delete (x_pagetable (ext s0)) (stables s0));
  im_mem pt' n : stables s0 !! pt' = Some n → pt' ≠ x_pagetable (ext s0) → ∀ va, smem s pt' va = smem s0 pt' va;
  im_entry : ∃ elf, x_epc (ext s) = e_entry elf ∧ e_magic elf = ELF_MAGIC ∧
    elf = elf_of (take (Z.to_nat ELFHDR_SIZE) (idata (env (ext s0)) (inode_of (env (ext s0)) path)));
  im_name : ∃ name, last_component path name ∧ x_name (ext s) = take 15 name;
  im_sp : x_a1 (ext s) = x_sp (ext s) ∧ x_sp (ext s) mod 16 = 0 ∧ x_sz (ext s) - USERSTACK * 4096 ≤ x_sp (ext s) < x_sz (ext s);
  im_args : ∃ ptrs, placed (smem s pt) (x_sp (ext s) + 8 * (Z.of_nat (length argv) + 1)) (x_sz (ext s)) ptrs argv ∧
    (∀ i p, ptrs !! i = Some p → load64 (smem s pt) (x_sp (ext s) + 8 * Z.of_nat i) = p) ∧
    load64 (smem s pt) (x_sp (ext s) + 8 * Z.of_nat (length argv)) = 0;
}.

(** The program a call of [exec] is about to run. *)
Definition found s0 (path : list Z) (elf : elfhdr) : Prop :=
  e_magic elf = ELF_MAGIC ∧
  elf = elf_of (take (Z.to_nat ELFHDR_SIZE) (idata (env (ext s0)) (inode_of (env (ext s0)) path))).

(** The caller's own page table has the memory the process has. *)
Definition own_table s0 : Prop := stables s0 !! x_pagetable (ext s0) = Some (PGROUNDUP (x_sz (ext s0))).

(** How [exec] can end: without a trace, or with the new image. *)
Definition exec_post s0 (path : list Z) (argv : list (list Z)) (r : Z) s' : Prop :=
  fs_kept s0 s' ∧
  (r = -1 ∧ untouched s0 s' ∨ r = Z.of_nat (length argv) ∧ ∃ pt, image s0 path argv pt s').

Lemma exec_post_bad s0 path argv s : untouched s0 s → exec_post s0 path argv (-1) s.
Proof. intros Hu. split; [apply Hu|by left]. Qed.

(** The array of addresses, below the strings. *)
Lemma placed_array m m' lo sp top ptrs args :
  placed m lo top ptrs args → 0 ≤ sp → sp + 8 * (Z.of_nat (length args) + 1) ≤ lo → top < 2 ^ 64 →
  (∀ b, m' b = store_bytes m sp (words (ptrs ++ [0])) b) →
  placed m' (sp + 8 * (Z.of_nat (length args) + 1)) top ptrs args ∧
  (∀ i p, ptrs !! i = Some p → load64 m' (sp + 8 * Z.of_nat i) = p) ∧
  load64 m' (sp + 8 * Z.of_nat (length args)) = 0.
Proof.
  intros Hp Hsp Hle Htop Hm. pose proof (Forall2_length _ _ _ Hp) as Hlen.
  assert (Hw : ∀ i p, (ptrs ++ [0]) !! i = Some p → load64 m' (sp + 8 * Z.of_nat i) = u64 p).
  { intros i p Hi. rewrite <-(words_load m sp _ _ _ Hi). apply load64_ext. intros b _. apply Hm. }
  split; [|split].
  - eapply placed_lower; [done|done|]. intros b Hb. rewrite Hm. apply store_bytes_ne. unfold in_range.
    rewrite words_length, length_app. cbn. lia.
  - intros i p Hi. rewrite (Hw i p) by by apply lookup_app_l_Some. apply u64_small.
    destruct (Forall2_lookup_l _ _ _ _ _ Hp Hi) as (a & _ & _ & Hlo & Hhi & _). lia.
  - rewrite (Hw (length args) 0); [done|]. rewrite <-Hlen. by apply list_lookup_middle.
Qed.

(** Putting the image in the caller's place. *)
Lemma commit_image s0 path argv elf pt sz sp ptrs s :
  building s0 pt sz s → fs_at s (ops0 s0) (ino0 s0) → own_table s0 → found s0 path elf →
  PGROUNDUP sz = sz → sp mod 16 = 0 → sz - USERSTACK * 4096 ≤ sp < sz →
  placed (smem s pt) (sp + 8 * (Z.of_nat (length argv) + 1)) sz ptrs argv →
  (∀ i p, ptrs !! i = Some p → load64 (smem s pt) (sp + 8 * Z.of_nat i) = p) →
  load64 (smem s pt) (sp + 8 * Z.of_nat (length argv)) = 0 →
  ∃ s', (modx (λ x, XProc _ (x_sz x) (x_pagetable x) sp (x_epc x) (x_sp x) (safestrcpy16 (last_loop path path)) (env x));;
         oldpagetable ← getx x_pagetable;
         modx (commit pt sz (e_entry elf) sp);;
         proc_freepagetable oldpagetable (x_sz (ext s0));;
         mret (Z.of_nat (length argv))) s = Ok (Z.of_nat (length argv)) s' ∧
    exec_post s0 path argv (Z.of_nat (length argv)) s'.
Proof.
  intros Hb Hfs Hown [Hmg Helf] Hround Hal Hrange Hpl Hptr Hnul. do 3 (erewrite bind_Ok by reflexivity).
  pose proof (bd_proc _ _ _ _ Hb) as Hproc. unfold proc_kept, fields in Hproc. injection Hproc as Hsz Hptb _ _ _ _. unfold own_table in Hown.
  cbn [ext set_ext x_pagetable]. rewrite Hptb. set (opt := x_pagetable (ext s0)) in *.
  match goal with |- context [(proc_freepagetable _ _ ≫= _) ?x] => set (s1 := x) end.
  assert (Hne : opt ≠ pt) by (intros <-; pose proof (bd_new _ _ _ _ Hb); congruence).
  assert (Ht1 : stables s1 = <[pt := sz]> (stables s0)).
  { change (stables s1) with (stables s). rewrite (bd_tables _ _ _ _ Hb). by rewrite Hround. }
  destruct (proc_freepagetable_law opt (x_sz (ext s0)) s1) as (s' & Hr & Hp & Hf & Ho & Ht);
    [by rewrite Ht1, lookup_insert_ne|].
  exists s'. split; [by rewrite (bind_Ok _ _ _ _ _ Hr)|]. unfold proc_kept, fields in Hp. injection Hp as E1 E2 E3 E4 E5 E6.
  assert (Hm : ∀ pt' n, pt' ≠ opt → stables s1 !! pt' = Some n → ∀ va, smem s' pt' va = smem s pt' va).
  { intros pt' n Hpt' Hn va. by rewrite (Ho pt' n Hn Hpt' va). }
  assert (Hmp : ∀ va, smem s' pt va = smem s pt va) by (apply (Hm pt sz); [done|by rewrite Ht1, lookup_insert_eq]).
  split; [|right; split; [done|exists pt]].
  { destruct Hfs as [G1 G2], Hf as (F1 & F2 & F3). repeat split; [by rewrite F1|by rewrite F2|..];
      [destruct F3 as [-> _]|destruct F3 as [_ ->]]; apply Hb. }
  constructor; rewrite ?E1, ?E3, ?E4, ?E5, ?E6.
  - by rewrite E2.
  - apply Hb.
  - rewrite Ht, Ht1. cbn [s1 set_ext ext commit x_sz]. by rewrite delete_insert_ne.
  - intros pt' n Hpt' Hne' va. rewrite (Hm pt' n Hne'); [by apply (bd_mem _ _ _ _ Hb pt' n)|].
    rewrite Ht1, lookup_insert_ne; [done|]. intros <-. pose proof (bd_new _ _ _ _ Hb). congruence.
  - exists elf. done.
  - exists (last_loop path path). split; [|done]. apply (last_loop_component path [] []); [apply not_elem_of_nil|by left].
  - done.
  - exists ptrs. cbn [s1 set_ext ext commit x_sz x_sp]. split; [|split].
    + eapply placed_lower; [done|done|]. intros b _. apply Hmp.
    + intros i p Hi. etransitivity; [|exact (Hptr i p Hi)]. apply load64_ext. intros b _. apply Hmp.
    + etransitivity; [|exact Hnul]. apply load64_ext. intros b _. apply Hmp.
Qed.

Lemma bad_stack_post s0 pt sz path argv s :
  building s0 pt sz s → fs_at s (ops0 s0) (ino0 s0) →
  ∃ r s', bad pt sz 0 s = Ok r s' ∧ exec_post s0 path argv r s'.
Proof.
  intros Hb Hfs. destruct (bad_stack s0 pt sz s Hb Hfs) as (s' & Hr & Hu). exists (-1), s'.
  split; [done|by apply exec_post_bad].
Qed.

Lemma exec_finish_ok s0 path argv elf pt sz sp ptrs s :
  building s0 pt sz s → fs_at s (ops0 s0) (ino0 s0) → own_table s0 → found s0 path elf →
  PGROUNDUP sz = sz → 4096 ≤ sz - USERSTACK * 4096 ≤ sp → sp ≤ sz → placed (smem s pt) sp sz ptrs argv →
  (length argv < MAXARG)%nat →
  ∃ r s', exec_finish path elf pt (x_sz (ext s0)) sz (sz - USERSTACK * 4096) sp ptrs s = Ok r s' ∧ exec_post s0 path argv r s'.
Proof.
  intros Hb Hfs Hown Helf Hround Hsp Hspsz Hpl Hargc. pose proof MAXARG_small. pose proof MAXVA_small. pose proof (bd_sz _ _ _ _ Hb).
  assert (2 ^ 64 = 18446744073709551616) as H64 by done.
  unfold exec_finish. rewrite (Forall2_length _ _ _ Hpl), (proj2 (Nat.ltb_lt _ _)) by done.
  erewrite bind_Ok by reflexivity. set (sp1 := sp - (Z.of_nat (length argv) + 1) * 8).
  rewrite (u64_small sp1) by lia. set (sp2 := sp1 - sp1 mod 16).
  assert (Hal : sp2 mod 16 = 0 ∧ 0 ≤ sp2 ≤ sp1) by (unfold sp2; dlia).
  rewrite (u64_small sp2) by lia. destruct (sp2 <? _) eqn:Eb; bool_to_Prop; [by apply bad_stack_post|].
  destruct (copyout_law pt sp2 (words (ptrs ++ [0])) s) as (r & s1 & Hr & Hp & Hf & Ho & Ht & Hcase);
    [rewrite (building_table _ _ _ _ Hb); eauto|].
  rewrite (bind_Ok _ _ _ _ _ Hr).
  assert (Hb1 : building s0 pt sz s1) by (eapply building_same; [done|done|apply Hf|done|done]).
  pose proof (fs_at_kept _ _ _ _ Hf Hfs). destruct Hcase as [->|[-> Hm]]; [by apply bad_stack_post|]. cbn [Z.ltb Z.compare].
  destruct (placed_array (smem s pt) (smem s1 pt) sp sp2 sz ptrs argv Hpl) as (Hpl1 & Hptr & Hnul); [lia..|exact Hm|].
  destruct (commit_image s0 path argv elf pt sz sp2 ptrs s1) as (s' & Hr' & Hpost); try done; [tauto|lia|].
  exists (Z.of_nat (length argv)), s'. done.
Qed.

Lemma exec_stack_ok s0 path argv elf pt sz s :
  building s0 pt sz s → fs_at s (ops0 s0) (ino0 s0) → own_table s0 → found s0 path elf →
  (length argv < MAXARG)%nat → Forall (λ a, (length a < 4096)%nat) argv →
  ∃ r s', exec_stack path argv elf pt sz s = Ok r s' ∧ exec_post s0 path argv r s'.
Proof.
  intros Hb Hfs Hown Helf Hargc Hlen. unfold exec_stack. erewrite bind_Ok by reflexivity. cbv beta zeta.
  pose proof (bd_proc _ _ _ _ Hb) as Hproc. unfold proc_kept, fields in Hproc. injection Hproc as -> _ _ _ _ _.
  pose proof (bd_sz _ _ _ _ Hb) as Hsz. destruct (rounded sz Hsz) as (Hrsz & Hral & Hrr). pose proof USERSTACK_range. pose proof MAXVA_small.
  assert (2 ^ 64 = 18446744073709551616) as H64 by done. change (2 ^ 16) with 65536 in *.
  assert (Hb0 : building s0 pt (PGROUNDUP sz) s) by (destruct Hb; constructor; try done; [by rewrite Hrr|lia]).
  unfold PGSIZE. set (new := PGROUNDUP sz + (USERSTACK + 1) * 4096). rewrite (u64_small new) by lia.
  destruct (uvmalloc_builds s0 pt (PGROUNDUP sz) new PTE_W s _ _ Hb0 Hfs) as (r & s1 & Hr & Hfs1 & Hcase); [lia|].
  rewrite (bind_Ok _ _ _ _ _ Hr). destruct Hcase as [[-> Hb1]|(Hne & Hrmax & Hb1)]; [by apply bad_stack_post|].
  rewrite (proj2 (Z.eqb_neq r 0)) by done. pose proof (bd_sz _ _ _ _ Hb1).
  assert (Hround : PGROUNDUP r = r) by (rewrite PGROUNDUP_spec by lia; dlia).
  rewrite !u64_small by lia.
  destruct (uvmclear_law pt (r - (USERSTACK + 1) * 4096) r s1) as (s2 & Hr2 & Hp2 & Hf2 & Hm2);
    [rewrite (building_table _ _ _ _ Hb1); by rewrite Hround|lia|].
  rewrite (bind_Ok _ _ _ _ _ Hr2).
  assert (Hb2 : building s0 pt r s2) by (eapply building_mem; [done|done|apply Hf2|done]).
  destruct (push_args_ok s0 pt r (r - USERSTACK * 4096) _ _ argv r [] [] s2 Hb2 (fs_at_kept _ _ _ _ Hf2 Hfs1))
    as (res & s3 & Hr3 & Hb3 & Hfs3 & Hres); [try lia; constructor..|done|].
  rewrite (bind_Ok _ _ _ _ _ Hr3). destruct res as [[sp ptrs]|]; [|by apply bad_stack_post].
  destruct Hres as [Hsp Hpl]. apply exec_finish_ok; try done; lia.
Qed.

(** From the moment the inode is locked. *)
Lemma exec_open_ok s0 path argv ip s :
  proc_kept s0 s → files_kept s0 s → mem_kept s0 s → fs_at s (ops0 s0 + 1) ({[ip]} ∪ ino0 s0) →
  0 ≤ ops0 s0 → ip ∉ ino0 s0 → ip ≠ 0 → ip = inode_of (env (ext s0)) path → own_table s0 →
  (length argv < MAXARG)%nat → Forall (λ a, (length a < 4096)%nat) argv →
  ∃ r s', exec_load path argv ip s = Ok r s' ∧ exec_post s0 path argv r s'.
Proof.
  intros Hp Hf Hm Hfs Hops Hip Hne Hino Hown Hargc Hlen. unfold exec_load.
  destruct (readi_law ip 0 ELFHDR_SIZE s) as (bs & s1 & Hr & Hp1 & Hm1 & Hf1 & Hbs); [destruct Hfs as [_ ->]; set_solver|].
  rewrite (bind_Ok _ _ _ _ _ Hr). pose proof (fs_at_kept _ _ _ _ Hf1 Hfs) as Hfs1.
  pose proof (caller_kept_trans _ _ _ Hp Hp1) as Hp1'. pose proof (mem_kept_trans _ _ _ Hm Hm1) as Hm1'.
  assert (Hf1' : files_kept s0 s1) by (eapply files_kept_trans; [done|apply Hf1]).
  assert (Hbad : ∀ s2, proc_kept s0 s2 → files_kept s0 s2 → mem_kept s0 s2 → fs_at s2 (ops0 s0 + 1) ({[ip]} ∪ ino0 s0) →
            ∃ r s', bad 0 0 ip s2 = Ok r s' ∧ exec_post s0 path argv r s').
  { intros s2 P2 F2 M2 O2. destruct (bad_early s0 s2 ip P2 F2 M2 O2 Hops Hip Hne) as (s' & Hr' & Hu).
    exists (-1), s'. split; [done|by apply exec_post_bad]. }
  destruct (_ =? ELFHDR_SIZE) eqn:El; bool_to_Prop; cbn [negb]; [|by apply Hbad].
  destruct (_ =? ELF_MAGIC) eqn:Em; bool_to_Prop; cbn [negb]; [|by apply Hbad].
  assert (Helf : found s0 path (elf_of bs)).
  { split; [done|]. rewrite (Hbs (Z.le_refl 0) El) at 1. cbn [Z.to_nat]. rewrite drop_0. by destruct Hf as [-> _]; rewrite Hino. }
  destruct (proc_pagetable_law s1) as (pt & s2 & Hr2 & Hp2 & Hf2 & Ho2 & Hcase). rewrite (bind_Ok _ _ _ _ _ Hr2).
  pose proof (fs_at_kept _ _ _ _ Hf2 Hfs1) as Hfs2. pose proof (caller_kept_trans _ _ _ Hp1' Hp2) as Hp2'.
  assert (Hf2' : files_kept s0 s2) by (eapply files_kept_trans; [done|apply Hf2]).
  destruct Hcase as [[-> Hm2]|(Hpt & Hnew & Ht2)]; [apply Hbad; [done..|by eapply mem_kept_trans|done]|].
  rewrite (proj2 (Z.eqb_neq pt 0)) by done.
  assert (Hb2 : building s0 pt 0 s2).
  { destruct Hm1' as [Ht Hmm]. pose proof MAXVA_small. constructor; try done.
    - rewrite Ht2, Ht. f_equal. rewrite PGROUNDUP_spec by lia. done.
    - intros pt' n Hpt' va. rewrite (Ho2 pt' n) by congruence. by apply (Hmm pt' n).
    - lia.
    - congruence. }
  destruct (load_ok s0 pt ip (e_phnum (elf_of bs)) (s32 (e_phoff (elf_of bs))) s2 _ _ Hb2 Hfs2)
    as ([ok sz] & s3 & Hr3 & Hfs3 & Hb3); [set_solver|]. cbn [snd] in Hb3.
  rewrite (bind_Ok _ _ _ _ _ Hr3). destruct ok; cbn [negb].
  - destruct (close_file s3 _ _ ip Hfs3 Hops Hip) as (s4 & Hr4 & Hp4 & Hf4 & Hm4 & Hfs4).
    rewrite <-bind_assoc, (bind_Ok _ _ _ _ _ Hr4).
    apply exec_stack_ok; try done. by eapply building_mem.
  - destruct (bad_loading s0 pt sz s3 ip Hb3 Hfs3 Hops Hip Hne) as (s' & Hr' & Hu).
    exists (-1), s'. split; [done|by apply exec_post_bad].
Qed.

(** C31: [exec] replaces the caller's image or leaves no trace.  It always
    returns.  When it returns -1, the process, every page table and what each
    maps are as they were.  Otherwise it returns the number of arguments, and
    the process has the new page table in place of its own, which is gone; it
    starts at the entry of the program the path names, under the last component
    of the path as its name; its stack pointer is a multiple of 16 within the
    stack, points to the null-terminated array of argument addresses, and at
    each of them lies that argument's string.  Either way no file system
    operation and no inode lock is left behind, and no other page table or
    anything it maps has changed. *)
Theorem exec_outcomes path argv s :
  0 ≤ open_ops (env (ext s)) → inode_of (env (ext s)) path ∉ inodes (env (ext s)) → own_table s →
  (length argv < MAXARG)%nat → Forall (λ a, (length a < 4096)%nat) argv →
  ∃ r s', exec path argv s = Ok r s' ∧ fs_kept s s' ∧
    (r = -1 ∧ untouched s s' ∨ r = Z.of_nat (length argv) ∧ ∃ pt, image s path argv pt s').
Proof.
  intros Hops Hip Hown Hargc Hlen. unfold exec. erewrite bind_Ok by reflexivity.
  match goal with |- context [(begin_op ≫= _) ?x] => set (sp := x) end.
  destruct (begin_op_law sp) as (s1 & Hr1 & Hp1 & Hm1 & Hf1 & Ho1 & Hi1). rewrite (bind_Ok _ _ _ _ _ Hr1).
  destruct (namei_law path s1) as (ip & s2 & Hr2 & Hp2 & Hm2 & Hf2 & Hino). rewrite (bind_Ok _ _ _ _ _ Hr2).
  assert (Hp : proc_kept s s2) by (by eapply caller_kept_trans).
  assert (Hf : files_kept s s2) by (eapply files_kept_trans; [exact Hf1|apply Hf2]).
  assert (Hm : mem_kept s s2) by (by eapply mem_kept_trans).
  assert (Hfs : fs_at s2 (ops0 s + 1) (ino0 s)) by (destruct Hf2 as (E1 & E2 & _); split; [rewrite E1; exact Ho1|rewrite E2; exact Hi1]).
  destruct (ip =? 0) eqn:E0; bool_to_Prop.
  - destruct (end_op_law s2) as (s3 & Hr3 & Hp3 & Hm3 & Hf3 & Ho3 & Hi3); [destruct Hfs as [-> _]; lia|].
    exists (-1), s3. split; [by rewrite (bind_Ok _ _ _ _ _ Hr3)|]. apply (exec_post_bad s path argv), untouched_intro;
      [by eapply caller_kept_trans|by eapply files_kept_trans|by eapply mem_kept_trans|]. destruct Hfs as [G1 G2]. split; [lia|congruence].
  - destruct Hino as [->|Hino]; [done|]. assert (Hino' : ip = inode_of (env (ext s)) path) by (destruct Hf1 as [_ E1]; rewrite Hino, E1; reflexivity).
    destruct (ilock_law ip s2) as (s3 & Hr3 & Hp3 & Hm3 & Hf3 & Ho3 & Hi3); [destruct Hfs as [_ E1]; by rewrite E1, Hino'|].
    rewrite (bind_Ok _ _ _ _ _ Hr3).
    apply (exec_open_ok s path argv ip); try done; [by eapply caller_kept_trans|by eapply files_kept_trans|by eapply mem_kept_trans| |by rewrite Hino'].
    destruct Hfs as [G1 G2]. split; congruence.
Qed.
End exec.
