(* ===== verification/ExecExample.v ===== *)
(** * A small machine that executes a program

    A concrete instance of the interface of [exec]: one file, "/s", a program
    of one segment, and one free page table.  It shows that the laws of [Exec]
    hold together and runs the model. *)

From S2P Require Import Prelude Memory Machine Find Exec.

#[local] Existing Instance sv39.
#[local] Existing Instance small_layout.

(** Headers of one byte per field. *)
#[export] Instance toy_consts : ExecConsts.
Proof.
  refine {|
    ELF_MAGIC := 127;
    ELF_PROG_LOAD := 1;
    ELFHDR_SIZE := 4;
    PROGHDR_SIZE := 6;
    MAXARG := 32;
    USERSTACK := 1;
    elf_of bs := Elfhdr (default 0 (bs !! 0%nat)) (default 0 (bs !! 1%nat)) (default 0 (bs !! 2%nat)) (default 0 (bs !! 3%nat));
    ph_of bs := Proghdr (default 0 (bs !! 0%nat)) (default 0 (bs !! 1%nat)) (default 0 (bs !! 2%nat))
                  (u64 (4096 * default 0 (bs !! 3%nat))) (u64 (default 0 (bs !! 4%nat)))
                  (u64 (default 0 (bs !! 5%nat)));
    flags2perm f := f;
  |}; [lia..|]. intros bs. split; [|split]; apply u64_range.
Defined.

(** The file "/s": a header, one program header, two bytes of code. *)
Definition s_path : list Z := [47; 115].
Definition s_data : list Z := [127; 7; 4; 1;  1; 0; 10; 0; 2; 3;  19; 115].

Record toy_env := ToyEnv { t_ops : Z; t_inodes : gset Z; t_tables : gmap Z Z; t_umem : Z → mem }.

Local Abbreviation st := (kst (xproc toy_env)).

Definition on_env (f : toy_env → toy_env) : M st unit :=
  modx (λ x, XProc _ (x_sz x) (x_pagetable x) (x_a1 x) (x_epc x) (x_sp x) (x_name x) (f (env x))).
Definition get_tables : M st (gmap Z Z) := getx (λ x, t_tables (env x)).
Definition set_tables (f : gmap Z Z → gmap Z Z) : M st unit :=
  on_env (λ e, ToyEnv (t_ops e) (t_inodes e) (f (t_tables e)) (t_umem e)).
Definition write_mem (pt va : Z) (bs : list Z) : M st Z :=
  on_env (λ e, ToyEnv (t_ops e) (t_inodes e) (t_tables e)
    (λ pt', if pt' =? pt then store_bytes (t_umem e pt) va bs else t_umem e pt'));;
  mret 0.
Definition toy_inode (path : list Z) : Z := if bool_decide (path = s_path) then 5 else 0.
Definition toy_data (ip : Z) : list Z := if ip =? 5 then s_data else [].

#[export] Instance toy_exec : ExecEnv toy_env.
Proof.
  refine {|
    begin_op := on_env (λ e, ToyEnv (t_ops e + 1) (t_inodes e) (t_tables e) (t_umem e));
    end_op := on_env (λ e, ToyEnv (t_ops e - 1) (t_inodes e) (t_tables e) (t_umem e));
    namei path := mret (toy_inode path);
    ilock ip := on_env (λ e, ToyEnv (t_ops e) ({[ip]} ∪ t_inodes e) (t_tables e) (t_umem e));
    iunlockput ip := on_env (λ e, ToyEnv (t_ops e) (t_inodes e ∖ {[ip]}) (t_tables e) (t_umem e));
    readi ip off n := mret (take (Z.to_nat n) (drop (Z.to_nat off) (toy_data ip)));
    proc_pagetable :=
      ts ← get_tables;
      match ts !! 8192 with None => set_tables <[8192 := 0]>;; mret 8192 | Some _ => mret 0 end;
    proc_freepagetable pt sz := set_tables (delete pt);
    uvmalloc pt old new perm :=
      if new <? old then mret old
      else if new <=? MAXVA then set_tables <[pt := PGROUNDUP new]>;; mret new else mret 0;
    uvmclear pt va := mret tt;
    loadseg pt va ip off n :=
      ts ← get_tables;
      if va + n <=? default (-1) (ts !! pt) then
        write_mem pt va (take (Z.to_nat n) (drop (Z.to_nat off) (toy_data ip)))
      else panic "loadseg: address should exist";
    copyout pt va bs := write_mem pt va bs;
    open_ops := t_ops;
    inodes := t_inodes;
    idata _ := toy_data;
    inode_of _ := toy_inode;
    tables := t_tables;
    umem := t_umem;
  |}.
Defined.

Lemma write_mem_only pt va bs (s : st) :
  ∃ s', write_mem pt va bs s = Ok 0 s' ∧ proc_kept s s' ∧ fs_kept s s' ∧ only_table pt s s' ∧ stables s' = stables s ∧
    ∀ a, smem s' pt a = store_bytes (smem s pt) va bs a.
Proof.
  eexists. split; [reflexivity|]. do 2 (split; [done|]). split; [|split; [done|]].
  - intros pt' n _ Hne a. cbn. by rewrite (proj2 (Z.eqb_neq pt' pt)).
  - intros a. cbn. by rewrite Z.eqb_refl.
Qed.

Lemma set_tables_only pt f (s : st) :
  ∃ s', set_tables f s = Ok tt s' ∧ proc_kept s s' ∧ fs_kept s s' ∧ only_table pt s s' ∧ stables s' = f (stables s).
Proof. eexists. by split; [reflexivity|]. Qed.

#[export] Instance toy_exec_laws : ExecLaws (E := toy_env).
Proof.
  split.
  - intros s. by eexists.
  - intros s _. by eexists.
  - intros path s. exists (toy_inode path), s. do 4 (split; [done|]). by right.
  - intros ip s _. by eexists.
  - intros ip s _. by eexists.
  - intros ip off n s _. eexists _, s. split; [reflexivity|]. by do 3 (split; [done|]).
  - intros s. destruct (t_tables (env (ext s)) !! 8192) as [n|] eqn:Ht.
    + exists 0, s. split; [cbn; unfold mbind, M_bind; cbn; by rewrite Ht|]. do 3 (split; [done|]). by left.
    + destruct (set_tables_only 8192 <[8192 := 0]> s) as (s' & Hr & Hp & Hf & Ho & Hts). exists 8192, s'.
      split; [cbn; unfold mbind at 1, M_bind at 1; cbn; by rewrite Ht, (bind_Ok _ _ _ _ _ Hr)|].
      do 3 (split; [done|]). by right.
  - intros pt sz s _. apply set_tables_only.
  - intros pt old new perm s _ Hold Hnew. cbn [uvmalloc toy_exec]. destruct (new <? old) eqn:E1; bool_to_Prop.
    { exists old, s. do 4 (split; [done|]). right; left. done. }
    destruct (new <=? MAXVA) eqn:E2; bool_to_Prop.
    + destruct (set_tables_only pt <[pt := PGROUNDUP new]> s) as (s' & Hr & Hp & Hf & Ho & Hts). exists new, s'.
      split; [by rewrite (bind_Ok _ _ _ _ _ Hr)|]. do 3 (split; [done|]). right; right. done.
    + exists 0, s. do 4 (split; [done|]). by left.
  - intros pt va n s _ _. by exists s.
  - intros pt va ip off n size s Hpt Hva Hn Hfit _ _. unfold stables in Hpt. cbn in Hpt.
    cbn [loadseg toy_exec]. erewrite bind_Ok by reflexivity. cbv beta. rewrite Hpt.
    cbn [default]. rewrite (proj2 (Z.leb_le _ _)) by done.
    destruct (write_mem_only pt va (take (Z.to_nat n) (drop (Z.to_nat off) (toy_data ip))) s) as (s' & Hr & Hs).
    exists 0, s'. split; [done|]. tauto.
  - intros pt va bs s _. destruct (write_mem_only pt va bs s) as (s' & Hr & Hp & Hf & Ho & Ht & Hm).
    exists 0, s'. do 5 (split; [done|]). by right.
Qed.

(** A process of two pages. *)
Definition caller : st :=
  KSt (λ _, 0) ∅ [] (XProc _ 8000 4096 0 0 0 [] (ToyEnv 0 ∅ {[4096 := 8192]} (λ _ _, 0))).
Definition caller_argv : list (list Z) := [[115]; [104; 105]].

Lemma exec_outcomes_witness :
  own_table caller ∧ ∃ r s', exec s_path caller_argv caller = Ok r s' ∧ fs_kept caller s' ∧ (r = -1 ∨ r = 2).
Proof.
  split; [by vm_compute|].
  destruct (exec_outcomes s_path caller_argv caller) as (r & s' & Hr & Hf & Hcase).
  - vm_compute. discriminate.
  - cbn. apply not_elem_of_empty.
  - by vm_compute.
  - cbn. lia.
  - repeat constructor; cbn; lia.
  - exists r, s'. split; [exact Hr|]. split; [exact Hf|]. destruct Hcase as [[-> _]|[-> _]]; auto.
Defined.

(** The model executes it: the two arguments are there, the process has the new
    page table and starts at the entry. *)
Definition ran (o : outcome st Z) : option (Z * Z * Z * Z) :=
  match o with Ok r s => Some (r, x_pagetable (ext s), x_epc (ext s), x_sz (ext s)) | _ => None end.

Example exec_runs : ran (exec s_path caller_argv caller) = Some (2, 8192, 7, 12288).
Proof. vm_compute. reflexivity. Qed.

(** A name that is not there. *)
Example exec_missing : ran (exec [47; 116] caller_argv caller) = Some (-1, 4096, 0, 8000).
Proof. vm_compute. reflexivity. Qed.
