(* ===== verification/Fork.v ===== *)
(** * fork (lab2 "attack xv6": kernel/proc.c)

    [fork] of the kernel with traced processes, over the stock functions
    [allocproc], [freeproc], [uvmcopy], [filedup] and [idup] ([ForkEnv], with
    what they are documented to do in [ForkEnvLaws]). *)

From S2P Require Import Prelude Memory Machine.

(** ** State *)

Record fproc := FProc {
  f_state : Z; f_pid : Z; f_traceid : Z; f_parent : option nat; f_sz : Z;
  f_pagetable : Z; f_trapframe : Z; f_ofile : list Z; f_cwd : Z; f_name : list Z;
}.

(** The process table, and the rest of the kernel. *)
Record fstate {E : Type} := FkState { ftab : nat → fproc; fenv : E }.
Arguments fstate E : clear implicits.

(** Numbers of the stock headers; where a0 is in the trapframe. *)
Class ForkLayout := {
  NOFILE : nat;
  NPROC : nat;
  UNUSED : Z; USED : Z; RUNNABLE : Z;
  TF_SIZE : Z; TF_A0 : Z;
  states_differ : UNUSED ≠ USED ∧ UNUSED ≠ RUNNABLE;
  TF_A0_in : 0 ≤ TF_A0 ∧ TF_A0 + 8 ≤ TF_SIZE ≤ 4096;
}.

(** The stock functions; the pages that hold trapframes, what a page table
    lets its process read, and the reference counts of open files and inodes. *)
Class ForkEnv (E : Type) := {
  allocproc : M (kst (fstate E)) (option nat);
  freeproc : nat → M (kst (fstate E)) unit;
  uvmcopy : Z → Z → Z → M (kst (fstate E)) Z;
  filedup : Z → M (kst (fstate E)) Z;
  idup : Z → M (kst (fstate E)) Z;
  tfpages : E → gset Z;
  uread : E → mem → Z → Z → option Z;
  frefs : E → Z → Z;
  irefs : E → Z → Z;
}.

Section fork.
Context `{ForkLayout} {E : Type} `{!ForkEnv E}.
Implicit Types s : kst (fstate E).

Definition plock (k : nat) : lock := ("proc", Z.of_nat k).
Definition wait_lock : lock := ("wait_lock", 0).

Definition pr s (k : nat) : fproc := ftab (ext s) k.
Definition getp {A} (k : nat) (f : fproc → A) : M (kst (fstate E)) A := getx (λ x, f (ftab x k)).
Definition setp (k : nat) (f : fproc → fproc) : M (kst (fstate E)) unit :=
  modx (λ x, FkState _ (λ j, if Nat.eqb j k then f (ftab x k) else ftab x j) (fenv x)).

Definition with_sz v x := FProc (f_state x) (f_pid x) (f_traceid x) (f_parent x) v (f_pagetable x) (f_trapframe x) (f_ofile x) (f_cwd x) (f_name x).
Definition with_ofile l x := FProc (f_state x) (f_pid x) (f_traceid x) (f_parent x) (f_sz x) (f_pagetable x) (f_trapframe x) l (f_cwd x) (f_name x).
Definition with_cwd v x := FProc (f_state x) (f_pid x) (f_traceid x) (f_parent x) (f_sz x) (f_pagetable x) (f_trapframe x) (f_ofile x) v (f_name x).
Definition with_name v x := FProc (f_state x) (f_pid x) (f_traceid x) (f_parent x) (f_sz x) (f_pagetable x) (f_trapframe x) (f_ofile x) (f_cwd x) v.
Definition with_traceid v x := FProc (f_state x) (f_pid x) v (f_parent x) (f_sz x) (f_pagetable x) (f_trapframe x) (f_ofile x) (f_cwd x) (f_name x).
Definition with_parent v x := FProc (f_state x) (f_pid x) (f_traceid x) (Some v) (f_sz x) (f_pagetable x) (f_trapframe x) (f_ofile x) (f_cwd x) (f_name x).
Definition with_state v x := FProc v (f_pid x) (f_traceid x) (f_parent x) (f_sz x) (f_pagetable x) (f_trapframe x) (f_ofile x) (f_cwd x) (f_name x).

(** ** Operations *)

(** [for(i = 0; i < NOFILE; i++) if(p->ofile[i]) np->ofile[i] = filedup(p->ofile[i]);]
    from [i], for [n] rounds. *)
Fixpoint dup_files (p np : nat) (i n : nat) : M (kst (fstate E)) unit :=
  match n with
  | O => mret tt
  | S n =>
      fs ← getp p f_ofile;
      let f := default 0 (fs !! i) in
      (if negb (f =? 0) then g ← filedup f; setp np (λ x, with_ofile (<[i := g]> (f_ofile x)) x) else mret tt);;
      dup_files p np (S i) n
  end.

(** What the child gets once its memory is there. *)
Definition fork_copy (p np : nat) : M (kst (fstate E)) Z :=
  sz ← getp p f_sz;
  setp np (with_sz sz);;
  dst ← getp np f_trapframe;
  src ← getp p f_trapframe;
  memmoveM dst src TF_SIZE;;
  store (dst + TF_A0) 0;;
  dup_files p np 0 NOFILE;;
  cwd ← getp p f_cwd;
  c ← idup cwd;
  setp np (with_cwd c);;
  name ← getp p f_name;
  setp np (with_name (take 15 name));;
  pid ← getp np f_pid;
  traceid ← getp p f_traceid;
  setp np (with_traceid traceid);;
  release (plock np);;
  acquire wait_lock;;
  setp np (with_parent p);;
  release wait_lock;;
  acquire (plock np);;
  setp np (with_state RUNNABLE);;
  release (plock np);;
  mret pid.

(** [fork] by process [p]. *)
Definition fork (p : nat) : M (kst (fstate E)) Z :=
  printf "执行了fork\n" [];;
  r ← allocproc;
  match r with
  | None => mret (-1)
  | Some np =>
      old ← getp p f_pagetable;
      new ← getp np f_pagetable;
      sz ← getp p f_sz;
      r ← uvmcopy old new sz;
      if r <? 0 then
        freeproc np;;
        release (plock np);;
        mret (-1)
      else fork_copy p np
  end.

(** ** What the stock functions do *)

Definition in_use s (k : nat) : Prop := f_state (pr s k) ≠ UNUSED.
Definition pread s (k : nat) (va : Z) : option Z := uread (fenv (ext s)) (kmem s) (f_pagetable (pr s k)) va.

(** Process [k] is as it was, with its trapframe and all it can read. *)
Definition proc_kept s s' (k : nat) : Prop :=
  pr s' k = pr s k ∧ (∀ va, pread s' k va = pread s k va) ∧
  agree_on (in_range (f_trapframe (pr s k)) 4096) (kmem s) (kmem s').

Definition refs_kept s s' : Prop :=
  (∀ f, frefs (fenv (ext s')) f = frefs (fenv (ext s)) f) ∧ (∀ i, irefs (fenv (ext s')) i = irefs (fenv (ext s)) i).

(** Trapframes of different processes are different pages, and a process in
    use has its own page table. *)
Record procs_ok s : Prop := {
  po_table k : in_use s k → (k < NPROC)%nat;
  po_frames k : in_use s k → f_trapframe (pr s k) ∈ tfpages (fenv (ext s));
  po_pages t t' : t ∈ tfpages (fenv (ext s)) → t' ∈ tfpages (fenv (ext s)) → t ≠ t' → t + 4096 ≤ t' ∨ t' + 4096 ≤ t;
  po_own_frame j k : in_use s j → in_use s k → j ≠ k → f_trapframe (pr s j) ≠ f_trapframe (pr s k);
  po_own_table j k : in_use s j → in_use s k → j ≠ k → f_pagetable (pr s j) ≠ f_pagetable (pr s k);
}.

(** A process just allocated. *)
Record fresh_proc s s' (np : nat) : Prop := {
  fp_unused : ¬ in_use s np;
  fp_state : f_state (pr s' np) = USED;
  fp_pid : 0 < f_pid (pr s' np);
  fp_ofile : f_ofile (pr s' np) = replicate NOFILE 0;
  fp_held : held s' = {[plock np]} ∪ held s;
  fp_others k : k ≠ np → pr s' k = pr s k;
}.

Class ForkEnvLaws := {
  uread_frames e m m' pt va :
    agree_on (λ b, ∀ t, t ∈ tfpages e → ¬ in_range t 4096 b) m m' → uread e m' pt va = uread e m pt va;
  allocproc_law s : procs_ok s →
    ∃ r s', allocproc s = Ok r s' ∧ procs_ok s' ∧ refs_kept s s' ∧ (∀ k, in_use s k → proc_kept s s' k) ∧
      match r with
      | None => (∀ k, pr s' k = pr s k) ∧ held s' = held s
      | Some np => fresh_proc s s' np
      end;
  freeproc_law np s : procs_ok s → in_use s np →
    ∃ s', freeproc np s = Ok tt s' ∧ held s' = held s ∧ refs_kept s s' ∧
      ¬ in_use s' np ∧ (∀ k, k ≠ np → pr s' k = pr s k) ∧ (∀ k, k ≠ np → in_use s k → proc_kept s s' k);
  uvmcopy_law p np s : procs_ok s → in_use s p → in_use s np → p ≠ np →
    ∃ r s', uvmcopy (f_pagetable (pr s p)) (f_pagetable (pr s np)) (f_sz (pr s p)) s = Ok r s' ∧
      held s' = held s ∧ (∀ k, pr s' k = pr s k) ∧ tfpages (fenv (ext s')) = tfpages (fenv (ext s)) ∧ refs_kept s s' ∧
      (∀ k, k ≠ np → in_use s k → proc_kept s s' k) ∧
      (r = -1 ∨ r = 0 ∧ ∀ va, 0 ≤ va < f_sz (pr s p) → pread s' np va = pread s p va);
  filedup_law f s : f ≠ 0 →
    ∃ e, filedup f s = Ok f (set_ext (FkState _ (ftab (ext s)) e) s) ∧ tfpages e = tfpages (fenv (ext s)) ∧
      (∀ m pt va, uread e m pt va = uread (fenv (ext s)) m pt va) ∧ (∀ i, irefs e i = irefs (fenv (ext s)) i) ∧
      ∀ g, frefs e g = frefs (fenv (ext s)) g + (if g =? f then 1 else 0);
  idup_law i s :
    ∃ e, idup i s = Ok i (set_ext (FkState _ (ftab (ext s)) e) s) ∧ tfpages e = tfpages (fenv (ext s)) ∧
      (∀ m pt va, uread e m pt va = uread (fenv (ext s)) m pt va) ∧ (∀ g, frefs e g = frefs (fenv (ext s)) g) ∧
      ∀ j, irefs e j = irefs (fenv (ext s)) j + (if j =? i then 1 else 0);
}.

Context `{!ForkEnvLaws}.

(** ** The child taking shape

    Compared with [s]: process [np] is [x], the others are as they were; the
    memory is [m], the locks are [h], the rest of the kernel is [e]. *)
Record shaped (np : nat) s s' (x : fproc) (h : gset lock) (m : mem) (e : E) : Prop := {
  sh_proc : pr s' np = x;
  sh_others k : k ≠ np → pr s' k = pr s k;
  sh_held : held s' = h;
  sh_mem : kmem s' = m;
  sh_env : fenv (ext s') = e;
}.

(** An environment with other reference counts. *)
Record more_refs (e e' : E) (df di : Z → Z) : Prop := {
  mr_pages : tfpages e' = tfpages e;
  mr_uread m pt va : uread e' m pt va = uread e m pt va;
  mr_frefs f : frefs e' f = frefs e f + df f;
  mr_irefs i : irefs e' i = irefs e i + di i;
}.

Lemma setp_shaped np s s1 x h m e f :
  shaped np s s1 x h m e → ∃ s2, setp np f s1 = Ok tt s2 ∧ shaped np s s2 (f x) h m e.
Proof.
  intros [Hx Ho Hh Hm He]. eexists. split; [reflexivity|]. constructor; try done.
  - unfold pr; cbn. rewrite Nat.eqb_refl. by rewrite <-Hx.
  - intros k Hk. unfold pr; cbn. rewrite (proj2 (Nat.eqb_neq k np)) by done. by apply Ho.
Qed.

Lemma getp_shaped {A} np s s1 x h m e k (f : fproc → A) :
  shaped np s s1 x h m e → getp k f s1 = Ok (if decide (k = np) then f x else f (pr s k)) s1.
Proof.
  intros [Hx Ho _ _ _]. unfold getp, getx, gets. fold (pr s1 k).
  case_decide as Hk; [subst k; by rewrite Hx|by rewrite Ho].
Qed.

Lemma getp_child {A} np s s1 x h m e (f : fproc → A) :
  shaped np s s1 x h m e → getp np f s1 = Ok (f x) s1.
Proof. intros Hs. rewrite (getp_shaped _ _ _ _ _ _ _ _ _ Hs). by rewrite decide_True. Qed.

Lemma getp_parent {A} np s s1 x h m e k (f : fproc → A) :
  shaped np s s1 x h m e → k ≠ np → getp k f s1 = Ok (f (pr s k)) s1.
Proof. intros Hs Hk. rewrite (getp_shaped _ _ _ _ _ _ _ _ _ Hs). by rewrite decide_False. Qed.

Lemma acquire_shaped np s s1 x h m e lk :
  shaped np s s1 x h m e → lk ∉ h → ∃ s2, acquire lk s1 = Ok tt s2 ∧ shaped np s s2 x ({[lk]} ∪ h) m e.
Proof.
  intros [Hx Ho Hh Hm He] Hlk. exists (set_held ({[lk]} ∪ held s1) s1).
  split; [apply acquire_ok; by rewrite Hh|]. constructor; try done. cbn. by rewrite Hh.
Qed.

Lemma release_shaped np s s1 x h m e lk :
  shaped np s s1 x ({[lk]} ∪ h) m e → lk ∉ h → ∃ s2, release lk s1 = Ok tt s2 ∧ shaped np s s2 x h m e.
Proof.
  intros [Hx Ho Hh Hm He] Hlk. destruct s1 as [m1 h1 c1 x1]. cbn in Hh. subst h1.
  exists (KSt m1 h c1 x1). split; [by apply release_ok|]. by constructor.
Qed.

Lemma memmove_shaped np s s1 x h m e dst src n :
  shaped np s s1 x h m e → ∃ s2, memmoveM dst src n s1 = Ok tt s2 ∧ shaped np s s2 x h (memmove m dst src n) e.
Proof. intros [Hx Ho Hh Hm He]. eexists. split; [reflexivity|]. constructor; try done. cbn. by rewrite Hm. Qed.

Lemma store_shaped np s s1 x h m e a v :
  shaped np s s1 x h m e → ∃ s2, store a v s1 = Ok tt s2 ∧ shaped np s s2 x h (store64 m a v) e.
Proof. intros [Hx Ho Hh Hm He]. eexists. split; [reflexivity|]. constructor; try done. cbn. by rewrite Hm. Qed.

Lemma env_shaped np s s1 x h m e e' :
  shaped np s s1 x h m e → shaped np s (set_ext (FkState _ (ftab (ext s1)) e') s1) x h m e'.
Proof. intros []. by constructor. Qed.

Lemma more_refs_trans e1 e2 e3 df1 di1 df2 di2 :
  more_refs e1 e2 df1 di1 → more_refs e2 e3 df2 di2 → more_refs e1 e3 (λ f, df1 f + df2 f) (λ i, di1 i + di2 i).
Proof.
  intros [P1 U1 F1 I1] [P2 U2 F2 I2]. constructor.
  - congruence.
  - intros. by rewrite U2.
  - intros f. rewrite F2, F1. lia.
  - intros j. rewrite I2, I1. lia.
Qed.

Lemma more_refs_ext e1 e2 df df' di di' :
  more_refs e1 e2 df di → (∀ f, df f = df' f) → (∀ i, di i = di' i) → more_refs e1 e2 df' di'.
Proof. intros [P U F I] Hf Hi. constructor; [done..|intros f; by rewrite F, Hf|intros j; by rewrite I, Hi]. Qed.

(** How many of these descriptors are the open file [g]. *)
Definition descriptors (g : Z) (l : list Z) : Z := countb (λ f, negb (f =? 0) && (f =? g)) l.

(** The loop over the descriptors. *)
Lemma dup_files_ok p np s h m n : ∀ i s1 x e,
  p ≠ np → shaped np s s1 x h m e → (i + n)%nat = length (f_ofile (pr s p)) →
  f_ofile x = take i (f_ofile (pr s p)) ++ replicate n 0 →
  ∃ s2 e', dup_files p np i n s1 = Ok tt s2 ∧ shaped np s s2 (with_ofile (f_ofile (pr s p)) x) h m e' ∧
    more_refs e e' (λ g, descriptors g (drop i (f_ofile (pr s p)))) (λ _, 0).
Proof.
  set (fs := f_ofile (pr s p)). induction n as [|n IH]; intros i s1 x e Hne Hsh Hin Hx; cbn [dup_files].
  - exists s1, e. split; [done|]. rewrite Nat.add_0_r in Hin. subst i. rewrite take_ge, app_nil_r in Hx by lia. split.
    + rewrite <-Hx. by destruct x.
    + rewrite drop_all. constructor; [done..|intros f|intros j]; cbn; lia.
  - rewrite (bind_Ok _ _ _ _ _ (getp_parent _ _ _ _ _ _ _ p f_ofile Hsh Hne)). fold fs.
    destruct (lookup_lt_is_Some_2 fs i) as [f Hf]; [lia|]. rewrite Hf. cbn [default from_option id].
    assert (Htake : take (S i) fs = take i fs ++ [f]) by by apply take_S_r.
    assert (Hins : <[i := f]> (f_ofile x) = take (S i) fs ++ replicate n 0).
    { rewrite Hx, Htake, <-app_assoc. cbn. assert (Hi : length (take i fs) = i) by (rewrite length_take; lia).
      rewrite <-Hi at 1. replace (length (take i fs)) with (length (take i fs) + 0)%nat by lia. by rewrite insert_app_r. }
    rewrite (drop_S _ _ _ Hf). destruct (f =? 0) eqn:E0; bool_to_Prop; cbn [negb].
    + erewrite bind_Ok by reflexivity. destruct (IH (S i) s1 x e) as (s2 & e' & Hr & Hs2 & Hm2); [done|done|lia| |].
      { rewrite <-Hins, E0. rewrite list_insert_id; [done|]. rewrite Hx, lookup_app_r by (rewrite length_take; lia).
        rewrite length_take. by replace (i - i `min` length fs)%nat with 0%nat by lia. }
      exists s2, e'. do 2 (split; [done|]). eapply more_refs_ext; [exact Hm2| |done]. intros g. unfold descriptors. cbn. by rewrite E0.
    + destruct (filedup_law f s1 E0) as (e1 & Hr1 & Hp1 & Hu1 & Hi1 & Hf1).
      rewrite bind_assoc, (bind_Ok _ _ _ _ _ Hr1). rewrite (sh_env _ _ _ _ _ _ _ Hsh) in Hp1, Hu1, Hi1, Hf1.
      destruct (setp_shaped np s _ x h m e1 (λ x, with_ofile (<[i := f]> (f_ofile x)) x) (env_shaped _ _ _ _ _ _ _ e1 Hsh)) as (s2 & Hr2 & Hsh2).
      rewrite (bind_Ok _ _ _ _ _ Hr2). destruct (IH (S i) s2 _ e1 Hne Hsh2) as (s3 & e' & Hr & Hs3 & Hm3); [lia|exact Hins|].
      exists s3, e'. split; [exact Hr|]. split; [exact Hs3|].
      assert (Hm1 : more_refs e e1 (λ g, if g =? f then 1 else 0) (λ _, 0)) by (constructor; [done..|intros j; rewrite Hi1; lia]).
      eapply more_refs_ext; [exact (more_refs_trans _ _ _ _ _ _ _ Hm1 Hm3)| |done].
      intros g. unfold descriptors. cbn. rewrite (proj2 (Z.eqb_neq f 0)) by done. cbn. by rewrite (Z.eqb_sym f g).
Qed.

(** What the child becomes. *)
Definition child_of (parent : fproc) (p : nat) (x : fproc) : fproc :=
  FProc RUNNABLE (f_pid x) (f_traceid parent) (Some p) (f_sz parent) (f_pagetable x) (f_trapframe x)
    (f_ofile parent) (f_cwd parent) (take 15 (f_name parent)).

(** One operation of straight-line code on the child. *)
Ltac shape :=
  let Hr := fresh "Hr" in
  let sh := fresh "sh" in
  match goal with
  | Hs : shaped ?np _ ?s1 _ _ _ _ |- context [(getp ?np ?f ≫= _) ?s1] =>
      rewrite (bind_Ok _ _ _ _ _ (getp_child _ _ _ _ _ _ _ f Hs))
  | Hs : shaped ?np _ ?s1 _ _ _ _, Hne : ?p ≠ ?np |- context [(getp ?p ?f ≫= _) ?s1] =>
      rewrite (bind_Ok _ _ _ _ _ (getp_parent _ _ _ _ _ _ _ p f Hs Hne))
  | Hs : shaped _ _ ?s1 _ _ _ _ |- context [(setp _ ?f ≫= _) ?s1] =>
      destruct (setp_shaped _ _ _ _ _ _ _ f Hs) as (sh & Hr & ?); rewrite (bind_Ok _ _ _ _ _ Hr); clear Hr Hs
  | Hs : shaped _ _ ?s1 _ _ _ _ |- context [(acquire ?lk ≫= _) ?s1] =>
      edestruct (acquire_shaped _ _ _ _ _ _ _ lk Hs) as (sh & Hr & ?); [|rewrite (bind_Ok _ _ _ _ _ Hr); clear Hr Hs]; [assumption|]
  | Hs : shaped _ _ ?s1 _ _ _ _ |- context [(release ?lk ≫= _) ?s1] =>
      edestruct (release_shaped _ _ _ _ _ _ _ lk Hs) as (sh & Hr & ?); [|rewrite (bind_Ok _ _ _ _ _ Hr); clear Hr Hs]; [assumption|]
  | Hs : shaped _ _ ?s1 _ _ _ _ |- context [(memmoveM ?d ?r ?n ≫= _) ?s1] =>
      destruct (memmove_shaped _ _ _ _ _ _ _ d r n Hs) as (sh & Hr & ?); rewrite (bind_Ok _ _ _ _ _ Hr); clear Hr Hs
  | Hs : shaped _ _ ?s1 _ _ _ _ |- context [(store ?a ?v ≫= _) ?s1] =>
      destruct (store_shaped _ _ _ _ _ _ _ a v Hs) as (sh & Hr & ?); rewrite (bind_Ok _ _ _ _ _ Hr); clear Hr Hs
  end.

Lemma fork_copy_ok p np s h :
  p ≠ np → held s = {[plock np]} ∪ h → plock np ∉ h → wait_lock ∉ h →
  length (f_ofile (pr s p)) = NOFILE → f_ofile (pr s np) = replicate NOFILE 0 →
  let dst := f_trapframe (pr s np) in
  ∃ s' e, fork_copy p np s = Ok (f_pid (pr s np)) s' ∧
    shaped np s s' (child_of (pr s p) p (pr s np)) h
      (store64 (memmove (kmem s) dst (f_trapframe (pr s p)) TF_SIZE) (dst + TF_A0) 0) e ∧
    more_refs (fenv (ext s)) e (λ g, descriptors g (f_ofile (pr s p))) (λ j, if j =? f_cwd (pr s p) then 1 else 0).
Proof.
  intros Hne Hheld Hnp Hwl Hlen Hof. cbn zeta.
  assert (Hsh : shaped np s s (pr s np) ({[plock np]} ∪ h) (kmem s) (fenv (ext s))) by done.
  unfold fork_copy. do 6 shape.
  match goal with Hs : shaped _ _ ?s1 _ _ _ ?e |- _ =>
    destruct (dup_files_ok p np s _ _ NOFILE 0 s1 _ e Hne Hs) as (s4 & e4 & Hr4 & H4' & Hm4); [done|exact Hof|]; clear Hs end.
  rewrite (bind_Ok _ _ _ _ _ Hr4). shape.
  destruct (idup_law (f_cwd (pr s p)) s4) as (e5 & Hr5 & Hp5 & Hu5 & Hf5 & Hi5). rewrite (bind_Ok _ _ _ _ _ Hr5).
  rewrite (sh_env _ _ _ _ _ _ _ H4') in Hp5, Hu5, Hf5, Hi5. pose proof (env_shaped _ _ _ _ _ _ _ e5 H4') as H5'. clear H4'.
  do 13 shape. eexists _, e5. split; [reflexivity|]. split; [eassumption|].
  assert (Hm5 : more_refs e4 e5 (λ _, 0) (λ j, if j =? f_cwd (pr s p) then 1 else 0)) by (constructor; [done..|intros g; rewrite Hf5; lia|done]).
  eapply more_refs_ext; [exact (more_refs_trans _ _ _ _ _ _ _ Hm4 Hm5)| |done].
  intros g. rewrite drop_0. lia.
Qed.

(** ** The whole fork *)

Lemma proc_kept_trans s1 s2 s3 k : proc_kept s1 s2 k → proc_kept s2 s3 k → proc_kept s1 s3 k.
Proof.
  intros (P1 & R1 & F1) (P2 & R2 & F2). split; [congruence|]. split; [intros va; by rewrite R2|].
  rewrite P1 in F2. by transitivity (kmem s2).
Qed.

Lemma proc_kept_in_use s s' k : proc_kept s s' k → in_use s k → in_use s' k.
Proof. intros (Hp & _). unfold in_use. by rewrite Hp. Qed.

Lemma refs_kept_trans s1 s2 s3 : refs_kept s1 s2 → refs_kept s2 s3 → refs_kept s1 s3.
Proof. intros [F1 I1] [F2 I2]. split; [intros f; by rewrite F2|intros j; by rewrite I2]. Qed.

Lemma procs_ok_same s s' :
  (∀ k, pr s' k = pr s k) → tfpages (fenv (ext s')) = tfpages (fenv (ext s)) → procs_ok s → procs_ok s'.
Proof. intros Hp Ht []. constructor; unfold in_use in *; intros *; rewrite ?Hp, ?Ht; eauto. Qed.

(** The trapframe the child gets, and nothing else. *)
Definition child_frame (m : mem) (dst src : Z) : mem := store64 (memmove m dst src TF_SIZE) (dst + TF_A0) 0.

Lemma child_frame_outside m dst src b : ¬ in_range dst 4096 b → child_frame m dst src b = m b.
Proof.
  intros Hb. pose proof TF_A0_in. unfold child_frame. rewrite store64_ne, memmove_ne; unfold in_range in *; lia || done.
Qed.

Lemma child_frame_copied m dst src b :
  0 ≤ b < TF_SIZE → ¬ in_range TF_A0 8 b → child_frame m dst src (dst + b) = m (src + b).
Proof.
  intros Hb Ha. unfold child_frame. rewrite store64_ne, memmove_in by (unfold in_range in *; lia). f_equal. lia.
Qed.

(** Building the child leaves the other processes as they were. *)
Lemma shaped_kept np s s' x h e df di k :
  procs_ok s → in_use s np → in_use s k → k ≠ np → more_refs (fenv (ext s)) e df di →
  (∃ src, shaped np s s' x h (child_frame (kmem s) (f_trapframe (pr s np)) src) e) → proc_kept s s' k.
Proof.
  intros Hok Hnp Hk Hne Hmr [src [_ Ho _ Hm He]]. split; [by apply Ho|].
  pose proof (po_frames _ Hok _ Hnp) as Hf. split.
  - intros va. unfold pread. rewrite (Ho k Hne), He, Hm, (mr_uread _ _ _ _ Hmr). apply uread_frames.
    intros b Hb. apply child_frame_outside. by apply Hb.
  - intros b Hb. rewrite Hm. apply child_frame_outside.
    pose proof (po_pages _ Hok _ _ (po_frames _ Hok _ Hk) Hf (po_own_frame _ Hok _ _ Hk Hnp Hne)).
    unfold in_range in *. lia.
Qed.

(** What a successful [fork] of process [p] has made of slot [np]. *)
Record forked (p np : nat) s s' : Prop := {
  fd_unused : ¬ in_use s np;
  fd_pid : 0 < f_pid (pr s' np);
  fd_state : f_state (pr s' np) = RUNNABLE;
  fd_parent : f_parent (pr s' np) = Some p;
  fd_same : f_sz (pr s' np) = f_sz (pr s p) ∧ f_traceid (pr s' np) = f_traceid (pr s p) ∧
    f_ofile (pr s' np) = f_ofile (pr s p) ∧ f_cwd (pr s' np) = f_cwd (pr s p) ∧
    f_name (pr s' np) = take 15 (f_name (pr s p));
  fd_reads va : 0 ≤ va < f_sz (pr s p) → pread s' np va = pread s p va;
  fd_frame b : 0 ≤ b < TF_SIZE → ¬ in_range TF_A0 8 b →
    kmem s' (f_trapframe (pr s' np) + b) = kmem s (f_trapframe (pr s p) + b);
  fd_a0 : load64 (kmem s') (f_trapframe (pr s' np) + TF_A0) = 0;
  fd_frefs f : frefs (fenv (ext s')) f = frefs (fenv (ext s)) f + descriptors f (f_ofile (pr s p));
  fd_irefs i : irefs (fenv (ext s')) i = irefs (fenv (ext s)) i + (if i =? f_cwd (pr s p) then 1 else 0);
  fd_kept k : in_use s k → proc_kept s s' k;
}.

(** A failed one. *)
Record not_forked s s' : Prop := {
  nf_kept k : in_use s k → proc_kept s s' k;
  nf_slots k : in_use s' k → in_use s k;
  nf_refs : refs_kept s s';
}.

(** [uvmcopy] failed: the new process is given back. *)
Lemma fork_undo np s s1 s2 :
  fresh_proc s s1 np → (∀ k, plock k ∉ held s) → procs_ok s2 → held s2 = held s1 → (∀ k, pr s2 k = pr s1 k) →
  refs_kept s s2 → (∀ k, in_use s k → proc_kept s s2 k) →
  ∃ s', (freeproc np;; release (plock np);; mret (-1)) s2 = Ok (-1) s' ∧ held s' = held s ∧ not_forked s s'.
Proof.
  intros Hfr Hul Hok Hh Hp Hrefs Hkept. pose proof states_differ as [HU _].
  destruct (freeproc_law np s2 Hok) as (s3 & Hr3 & Hh3 & Hrf3 & Hun & Hp3 & Hk3).
  { unfold in_use. rewrite Hp, (fp_state _ _ _ Hfr). done. }
  rewrite (bind_Ok _ _ _ _ _ Hr3). rewrite Hh, (fp_held _ _ _ Hfr) in Hh3. destruct s3 as [m3 h3 c3 x3]. cbn in Hh3. subst h3.
  exists (KSt m3 (held s) c3 x3). rewrite (bind_Ok _ _ _ _ _ (release_ok _ _ _ _ _ (Hul np))).
  split; [done|]. split; [done|]. constructor.
  - intros k Hk. assert (k ≠ np) by (intros ->; by apply (fp_unused _ _ _ Hfr)).
    eapply proc_kept_trans; [by apply Hkept|]. apply Hk3; [done|]. by eapply proc_kept_in_use; [apply Hkept|].
  - intros k Hk. destruct (decide (k = np)) as [->|Hne]; [done|]. unfold in_use in *.
    specialize (Hp3 k Hne). cbn in Hk. change (pr (KSt m3 (held s) c3 x3) k) with (pr (KSt m3 ({[plock np]} ∪ held s) c3 x3) k) in Hk.
    by rewrite Hp3, Hp, (fp_others _ _ _ Hfr k Hne) in Hk.
  - exact (refs_kept_trans s s2 _ Hrefs Hrf3).
Qed.

(** [uvmcopy] succeeded: the child is completed. *)
Lemma fork_complete p np s s1 s2 :
  in_use s p → length (f_ofile (pr s p)) = NOFILE → (∀ k, plock k ∉ held s) → wait_lock ∉ held s →
  fresh_proc s s1 np → procs_ok s2 → held s2 = held s1 → (∀ k, pr s2 k = pr s1 k) → refs_kept s s2 →
  (∀ k, in_use s k → proc_kept s s2 k) → (∀ va, 0 ≤ va < f_sz (pr s p) → pread s2 np va = pread s p va) →
  ∃ s', fork_copy p np s2 = Ok (f_pid (pr s' np)) s' ∧ held s' = held s ∧ forked p np s s'.
Proof.
  intros Hp Hlen Hul Hwl Hfr Hok Hh Hpr [Hrf Hri] Hkept Hreads. pose proof states_differ as [HU _].
  assert (Hne : p ≠ np) by (intros ->; by apply (fp_unused _ _ _ Hfr)).
  destruct (Hkept p Hp) as (Hpp & Hprd & Hpf).
  assert (Hnp : in_use s2 np) by (unfold in_use; by rewrite Hpr, (fp_state _ _ _ Hfr)).
  destruct (fork_copy_ok p np s2 (held s)) as (s3 & e & Hr & Hsh & Hmr); try done;
    [by rewrite Hh, (fp_held _ _ _ Hfr)|by rewrite Hpp|by rewrite Hpr, (fp_ofile _ _ _ Hfr)|].
  fold (child_frame (kmem s2) (f_trapframe (pr s2 np)) (f_trapframe (pr s2 p))) in Hsh. rewrite Hpp in *.
  exists s3. destruct (Hsh) as [Hx Ho Hh3 Hm He]. rewrite Hx. cbn [child_of f_pid f_sz f_traceid f_ofile].
  split; [done|]. split; [done|].
  constructor; rewrite ?Hx; try done; cbn [child_of f_trapframe f_pid].
  - apply Hfr.
  - rewrite Hpr. apply Hfr.
  - intros va Hva. rewrite <-Hreads by done. unfold pread. rewrite Hx, He, Hm, (mr_uread _ _ _ _ Hmr).
    cbn [child_of f_pagetable]. apply uread_frames. intros b Hb. apply child_frame_outside, Hb, (po_frames _ Hok _ Hnp).
  - intros b Hb Ha. rewrite Hm, child_frame_copied by done. apply Hpf. pose proof TF_A0_in. unfold in_range. lia.
  - rewrite Hm. unfold child_frame. by rewrite load64_store64_eq.
  - intros f. by rewrite He, (mr_frefs _ _ _ _ Hmr), Hrf.
  - intros j. by rewrite He, (mr_irefs _ _ _ _ Hmr), Hri.
  - intros k Hk. assert (k ≠ np) by (intros ->; by apply (fp_unused _ _ _ Hfr)).
    eapply proc_kept_trans; [by apply Hkept|].
    eapply (shaped_kept np s2 s3 _ _ e _ _ k Hok Hnp); [|done|exact Hmr|by eexists]. by eapply proc_kept_in_use; [apply Hkept|].
Qed.

(** C32: [fork] makes a copy of its process or leaves no trace.  It always
    returns, holding the locks it held before.  When it returns -1, every
    process in use, what it reads and its trapframe, and all reference counts
    are as they were, and no slot is taken.  Otherwise it returns the positive
    pid of a process in a slot that was unused: runnable, a child of the caller,
    with its size, trace mask, open files, directory and (but for a 16th byte)
    name; it reads at every address what the caller reads; its trapframe is the
    caller's with a0 zero; every open file has one reference more for each
    descriptor, the directory one more; no process in use has changed. *)
Theorem fork_outcomes p s :
  procs_ok s → in_use s p → length (f_ofile (pr s p)) = NOFILE → (∀ k, plock k ∉ held s) → wait_lock ∉ held s →
  ∃ r s', fork p s = Ok r s' ∧ held s' = held s ∧
    (r = -1 ∧ not_forked s s' ∨ ∃ np, r = f_pid (pr s' np) ∧ forked p np s s').
Proof.
  intros Hok Hp Hlen Hul Hwl. unfold fork. erewrite bind_Ok by reflexivity.
  match goal with |- context [(allocproc ≫= _) ?x] => set (s0 := x) end.
  destruct (allocproc_law s0) as (r & s1 & Hr1 & Hok1 & Hrf1 & Hk1 & Hres).
  { by apply (procs_ok_same s s0). }
  rewrite (bind_Ok _ _ _ _ _ Hr1). destruct r as [np|].
  2: { destruct Hres as [Hpr Hh]. exists (-1), s1. split; [done|]. split; [done|]. left. split; [done|]. constructor.
       - intros k Hk. by apply Hk1.
       - intros k Hk. unfold in_use in *. by rewrite Hpr in Hk.
       - exact Hrf1. }
  assert (Hfr : fresh_proc s s1 np) by (by destruct Hres).
  assert (Hne : p ≠ np) by (intros ->; by apply (fp_unused _ _ _ Hfr)). pose proof states_differ as [HU _].
  do 3 (erewrite bind_Ok by reflexivity). cbv beta. fold (pr s1 p) (pr s1 np).
  destruct (uvmcopy_law p np s1 Hok1) as (r & s2 & Hr2 & Hh2 & Hpr2 & Htf2 & Hrf2 & Hk2 & Hcase);
    [exact (proc_kept_in_use s0 s1 p (Hk1 p Hp) Hp)| |done|].
  { unfold in_use. by rewrite (fp_state _ _ _ Hres). }
  rewrite (bind_Ok _ _ _ _ _ Hr2).
  assert (Hok2 : procs_ok s2) by exact (procs_ok_same s1 s2 Hpr2 Htf2 Hok1).
  assert (Hrf : refs_kept s s2) by exact (refs_kept_trans s0 s1 s2 Hrf1 Hrf2).
  assert (Hk : ∀ k, in_use s k → proc_kept s s2 k).
  { intros k Hk. assert (k ≠ np) by (intros ->; by apply (fp_unused _ _ _ Hfr)).
    apply (proc_kept_trans s s1); [exact (Hk1 k Hk)|]. apply Hk2; [done|]. exact (proc_kept_in_use s0 s1 k (Hk1 k Hk) Hk). }
  destruct Hcase as [->|[-> Hrd]]; cbn [Z.ltb Z.compare].
  - destruct (fork_undo np s s1 s2 Hfr Hul Hok2 Hh2 Hpr2 Hrf Hk) as (s' & Hr & Hh & Hn). exists (-1), s'. split; [done|]. split; [done|]. by left.
  - destruct (Hk1 p Hp) as (Hpp & Hprd & _). destruct (fork_complete p np s s1 s2 Hp Hlen Hul Hwl Hfr Hok2 Hh2 Hpr2 Hrf Hk) as (s' & Hr & Hh & Hf).
    { intros va Hva. rewrite Hrd; [apply Hprd|]. by rewrite Hpp. }
    exists (f_pid (pr s' np)), s'. split; [done|]. split; [done|]. right. by exists np.
Qed.
End fork.
