(* ===== verification/ForkExample.v ===== *)
(** * A small machine that forks

    A concrete instance of the interface of [fork]: two process slots, and a
    page table that reads what a function of the rest of the kernel says.  It
    shows that the laws of [Fork] hold together and runs the model. *)

From S2P Require Import Prelude Memory Machine Fork.

#[export] Instance two_slots : ForkLayout.
Proof.
  refine {|
    NOFILE := 3; NPROC := 2; UNUSED := 0; USED := 1; RUNNABLE := 2; TF_SIZE := 288; TF_A0 := 112;
  |}; lia.
Defined.

Record fork_env := ForkEnvData { e_frames : gset Z; e_user : Z → Z → Z; e_files : Z → Z; e_inodes : Z → Z }.

Local Abbreviation st := (kst (fstate fork_env)).

Definition set_env (e : fork_env) (s : st) : st := set_ext (FkState _ (ftab (ext s)) e) s.
Definition bump (f : Z) (r : Z → Z) : Z → Z := λ g, r g + (if g =? f then 1 else 0).

(** The new process is slot 1, with trapframe 8192 and page table 2. *)
Definition newborn : fproc := FProc 1 2 0 None 0 2 8192 (replicate 3 0) 0 [].
Definition can_alloc (s : st) : bool :=
  (f_state (pr s 1) =? 0) && ((f_state (pr s 0) =? 0) || negb (f_pagetable (pr s 0) =? 2)) &&
  forallb (λ t, (t + 4096 <=? 8192) || (12288 <=? t)) (elements (e_frames (fenv (ext s)))).

Definition put_proc (k : nat) (x : fproc) (e : fork_env) (h : gset lock) (s : st) : st :=
  KSt (kmem s) h (console s) (FkState _ (λ j, if Nat.eqb j k then x else ftab (ext s) j) e).

#[export] Instance toy_fork : ForkEnv fork_env.
Proof.
  refine {|
    allocproc s :=
      if can_alloc s then
        let e := fenv (ext s) in
        Ok (Some 1%nat) (put_proc 1 newborn (ForkEnvData ({[8192]} ∪ e_frames e) (e_user e) (e_files e) (e_inodes e))
                           ({[plock 1]} ∪ held s) s)
      else Ok None s;
    freeproc np s := Ok tt (put_proc np (with_state 0 (pr s np)) (fenv (ext s)) (held s) s);
    uvmcopy old new sz s :=
      let e := fenv (ext s) in
      Ok 0 (set_env (ForkEnvData (e_frames e) (λ pt va, if pt =? new then e_user e old va else e_user e pt va) (e_files e) (e_inodes e)) s);
    filedup f s := let e := fenv (ext s) in
      Ok f (set_env (ForkEnvData (e_frames e) (e_user e) (bump f (e_files e)) (e_inodes e)) s);
    idup i s := let e := fenv (ext s) in
      Ok i (set_env (ForkEnvData (e_frames e) (e_user e) (e_files e) (bump i (e_inodes e))) s);
    tfpages := e_frames;
    uread e m pt va := Some (e_user e pt va);
    frefs := e_files;
    irefs := e_inodes;
  |}.
Defined.

Lemma can_alloc_true (s : st) :
  can_alloc s = true →
  ¬ in_use s 1 ∧ (in_use s 0 → f_pagetable (pr s 0) ≠ 2) ∧
  ∀ t, t ∈ e_frames (fenv (ext s)) → t + 4096 ≤ 8192 ∨ 12288 ≤ t.
Proof.
  unfold can_alloc. rewrite !andb_true_iff, forallb_forall. intros [[H1 H2] H3]. bool_to_Prop. split; [|split].
  - unfold in_use. cbn. lia.
  - unfold in_use. cbn. intros Hu. apply orb_true_iff in H2 as [H2|H2]; bool_to_Prop; lia.
  - intros t Ht. apply elem_of_elements, list_elem_of_In, H3 in Ht. apply orb_true_iff in Ht as [Ht|Ht]; bool_to_Prop; lia.
Qed.

Lemma newborn_ok (s : st) : can_alloc s = true → procs_ok s →
  procs_ok (put_proc 1 newborn (ForkEnvData ({[8192]} ∪ e_frames (fenv (ext s))) (e_user (fenv (ext s)))
              (e_files (fenv (ext s))) (e_inodes (fenv (ext s)))) ({[plock 1]} ∪ held s) s).
Proof.
  intros Hc [Ht Hf Hp Hof Hot]. destruct (can_alloc_true s Hc) as (Hun & Hpt & Hfr).
  assert (H8 : 8192 ∉ e_frames (fenv (ext s))) by (intros Hin; specialize (Hfr _ Hin); lia).
  constructor; cbn -[newborn]; unfold in_use, pr; cbn -[newborn].
  - intros k Hk. destruct (k =? 1)%nat eqn:E; [apply Nat.eqb_eq in E; lia|by apply Ht].
  - intros k Hk. destruct (k =? 1)%nat; [cbn; set_solver|]. apply elem_of_union. right. by apply Hf.
  - intros t t' Hin Hin' Hne. apply elem_of_union in Hin as [->%elem_of_singleton|Hin], Hin' as [->%elem_of_singleton|Hin']; [done|..].
    + specialize (Hfr _ Hin'). lia.
    + specialize (Hfr _ Hin). lia.
    + by apply Hp.
  - intros j k Hj Hk Hne. destruct (j =? 1)%nat eqn:Ej, (k =? 1)%nat eqn:Ek; rewrite ?Nat.eqb_eq, ?Nat.eqb_neq in *; try lia.
    + cbn. intros Heq. apply H8. rewrite Heq. by apply Hf.
    + cbn. intros Heq. apply H8. rewrite <-Heq. by apply Hf.
    + by apply Hof.
  - intros j k Hj Hk Hne.
    assert (H0 : ∀ i, i ≠ 1%nat → f_state (ftab (ext s) i) ≠ 0 → f_pagetable (ftab (ext s) i) ≠ 2).
    { intros i Hi Hiu. pose proof (Ht i Hiu) as Hlt. cbn in Hlt. replace i with 0%nat in * by lia. by apply Hpt. }
    destruct (j =? 1)%nat eqn:Ej, (k =? 1)%nat eqn:Ek; rewrite ?Nat.eqb_eq, ?Nat.eqb_neq in *; try lia.
    + cbn. intros Heq. by apply (H0 k).
    + cbn. intros Heq. by apply (H0 j).
    + by apply Hot.
Qed.

#[export] Instance toy_fork_laws : ForkEnvLaws (E := fork_env).
Proof.
  split.
  - done.
  - intros s Hok. cbn. destruct (can_alloc s) eqn:Hc; [|by exists None, s].
    eexists _, _. split; [reflexivity|]. split; [by apply newborn_ok|]. split; [done|].
    destruct (can_alloc_true s Hc) as (Hun & _). split; [|by constructor; unfold in_use, pr; cbn; try done; intros [|[|k]]].
    intros k Hk. assert (Hk1 : (k =? 1)%nat = false) by (apply Nat.eqb_neq; by intros ->).
    split; [by unfold pr; cbn; rewrite Hk1|]. split; [|done]. intros va. unfold pread, pr. cbn. by rewrite Hk1.
  - intros np s Hok Hu. eexists. split; [reflexivity|]. split; [done|]. split; [done|].
    assert (Ho : ∀ k, k ≠ np → pr (put_proc np (with_state 0 (pr s np)) (fenv (ext s)) (held s) s) k = pr s k).
    { intros k Hk. unfold pr. cbn. by rewrite (proj2 (Nat.eqb_neq k np)). }
    split; [unfold in_use, pr; cbn; rewrite Nat.eqb_refl; cbn; lia|]. split; [done|].
    intros k Hk _. split; [by apply Ho|]. split; [|done]. intros va. unfold pread. by rewrite Ho.
  - intros p np s Hok Hp Hnp Hne. eexists 0, _. split; [reflexivity|]. do 4 (split; [done|]). split.
    + intros k Hk Hku. split; [done|]. split; [|done]. intros va. unfold pread. cbn.
      by rewrite (proj2 (Z.eqb_neq _ _)) by exact (po_own_table _ Hok k np Hku Hnp Hk).
    + right. split; [done|]. intros va _. unfold pread. cbn. unfold pr; cbn. by rewrite Z.eqb_refl.
  - intros f s Hf. by eexists.
  - intros i s. by eexists.
Qed.

(** A process with one open file. *)
Definition runner : fproc := FProc 4 1 32 None 4096 1 4096 [7; 0; 7] 9 [115].
Definition running : st :=
  KSt (λ _, 5) ∅ [] (FkState _ (λ j, if Nat.eqb j 0 then runner else FProc 0 0 0 None 0 0 0 (replicate 3 0) 0 [])
    (ForkEnvData {[4096]} (λ _ va, va) (λ _, 2) (λ _, 1))).

Lemma running_ok : procs_ok running.
Proof.
  assert (Hu : ∀ k, in_use running k → k = 0%nat) by (by intros [|k] Hk).
  constructor.
  - intros k ->%Hu. cbn. lia.
  - intros k ->%Hu. cbn. set_solver.
  - cbn. intros t t' ->%elem_of_singleton ->%elem_of_singleton. done.
  - by intros j k ->%Hu ->%Hu.
  - by intros j k ->%Hu ->%Hu.
Qed.

Lemma fork_outcomes_witness :
  ∃ r s', fork 0 running = Ok r s' ∧ held s' = ∅ ∧ (r = -1 ∨ ∃ np, r = f_pid (pr s' np) ∧ f_traceid (pr s' np) = 32).
Proof.
  destruct (fork_outcomes 0 running running_ok) as (r & s' & Hr & Hh & Hcase).
  - unfold in_use. cbn. lia.
  - reflexivity.
  - intros k. cbn. apply not_elem_of_empty.
  - cbn. apply not_elem_of_empty.
  - exists r, s'. split; [exact Hr|]. split; [exact Hh|]. destruct Hcase as [[-> _]|(np & -> & Hf)]; [by left|].
    right. exists np. split; [done|]. destruct (fd_same _ _ _ _ Hf) as (_ & -> & _). reflexivity.
Defined.

(** The model forks: pid 2, runnable, traced as its parent, two references more
    to the open file. *)
Example fork_runs :
  match fork 0 running with
  | Ok r s' => (r, f_state (pr s' 1), f_traceid (pr s' 1), f_ofile (pr s' 1), frefs (fenv (ext s')) 7, pread s' 1 100)
  | _ => (0, 0, 0, [], 0, None)
  end = (2, 2, 32, [7; 0; 7], 4, Some 100).
Proof. vm_compute. reflexivity. Qed.
