(* ===== verification/Primes.v ===== *)
(** * The concurrent prime sieve (lab1, primes.c)

    [main] feeds the numbers from 2 on into a pipe; each process of the chain
    prints the first number it reads, forks the next process, and passes on
    the numbers its own does not divide.  The model has the processes with
    their file descriptors, pipes of bounded size, and steps in any order; the
    calls of [fork] and [pipe] succeed. *)

From S2P Require Import Prelude.
From Stdlib Require Import Znumtheory.

(** ** Processes and pipes *)

(** The highest number sieved, and how many ints a pipe holds (512 bytes). *)
Definition limit : Z := 280.
Definition pipe_cap : nat := 128.

(** Where a process is.  [M...] are points of [main], [C...] of a new child,
    [H...] and [P...] of [handle] before and after it has forked. *)
Inductive pc :=
  | MPipe | MFork | MCloseR | MLoop (i : Z) | MCloseW
  | CCloseNums | CCloseW
  | HRead | HPrint (prime : Z) | HPipe (prime : Z) | HFork (prime : Z)
  | HClose | HCloseAgain
  | PCloseR (prime : Z) | PRead (prime : Z) | PWrite (prime num : Z) | PCloseNums | PCloseW
  | Wait | Exit | Exited.

(** An end of a pipe: its number, and whether it is the end for writing. *)
Definition fd : Type := nat * bool.

Record proc := Proc { p_pc : pc; p_fds : list fd }.

(** Process [k] was forked by process [k - 1]; it reads pipe [k - 1] and, once
    it has made it, writes pipe [k]. *)
Record config := Config { procs : list proc; pipes : nat → list Z; out : list Z }.

Definition start : config := Config [Proc MPipe []] (λ _, []) [].

Definition is_fd (e e' : fd) : bool := Nat.eqb e.1 e'.1 && Bool.eqb e.2 e'.2.
Definition holds_fd (e : fd) (fds : list fd) : bool := existsb (is_fd e) fds.
Definition close (e : fd) (fds : list fd) : list fd := List.filter (λ e', negb (is_fd e e')) fds.

Definition set_pipe (j : nat) (l : list Z) (b : nat → list Z) : nat → list Z :=
  λ i, if Nat.eqb i j then l else b i.

(** ** System calls *)

(** What a read of an int returns: a number, the end of the file (or an error),
    or not yet anything. *)
Inductive reading := Got (n : Z) (l : list Z) | Eof | Block.

Definition read (c : config) (p : proc) (j : nat) : reading :=
  if negb (holds_fd (j, false) (p_fds p)) then Eof
  else match pipes c j with
       | n :: l => Got n l
       | [] => if existsb (λ q, holds_fd (j, true) (p_fds q)) (procs c) then Block else Eof
       end.

(** What a write of an int does: blocks on a full pipe, fails on a pipe no one
    can read (the program ignores it), or appends. *)
Definition write (c : config) (p : proc) (j : nat) (n : Z) : option (nat → list Z) :=
  if negb (holds_fd (j, true) (p_fds p)) then Some (pipes c)
  else if negb (existsb (λ q, holds_fd (j, false) (p_fds q)) (procs c)) then Some (pipes c)
  else if Nat.ltb (length (pipes c j)) pipe_cap then Some (set_pipe j (pipes c j ++ [n]) (pipes c))
  else None.

(** ** Steps *)

Definition goto (k : nat) (pc' : pc) (fds : list fd) (c : config) : config :=
  Config (<[k := Proc pc' fds]> (procs c)) (pipes c) (out c).

(** The step of process [k], if it can take one. *)
Definition step_of (k : nat) (c : config) : option config :=
  p ← procs c !! k;
  let fds := p_fds p in
  let here pc' fds' := Some (goto k pc' fds' c) in
  let reader := pred k in
  let made := (k, false) :: (k, true) :: fds in
  let spawn pc' parent := Some (Config (<[k := Proc parent fds]> (procs c) ++ [Proc pc' fds]) (pipes c) (out c)) in
  match p_pc p with
  | MPipe => here MFork made
  | MFork => spawn CCloseW MCloseR
  | MCloseR => here (MLoop 2) (close (k, false) fds)
  | MLoop i =>
      b ← write c p k i;
      Some (Config (<[k := Proc (if i + 1 <=? limit then MLoop (i + 1) else MCloseW) fds]> (procs c)) b (out c))
  | MCloseW => here Wait (close (k, true) fds)
  | CCloseNums => here CCloseW (close (pred reader, false) fds)
  | CCloseW => here HRead (close (reader, true) fds)
  | HRead =>
      match read c p reader with
      | Got n l => Some (Config (<[k := Proc (HPrint n) fds]> (procs c)) (set_pipe reader l (pipes c)) (out c))
      | Eof => here HClose fds
      | Block => None
      end
  | HPrint prime => Some (Config (<[k := Proc (HPipe prime) fds]> (procs c)) (pipes c) (out c ++ [prime]))
  | HPipe prime => here (HFork prime) made
  | HFork prime => spawn CCloseNums (PCloseR prime)
  | HClose => here HCloseAgain (close (reader, false) fds)
  | HCloseAgain => here Exit (close (reader, false) fds)
  | PCloseR prime => here (PRead prime) (close (k, false) fds)
  | PRead prime =>
      match read c p reader with
      | Got n l =>
          let pc' := if negb (Z.rem n prime =? 0) then PWrite prime n else PRead prime in
          Some (Config (<[k := Proc pc' fds]> (procs c)) (set_pipe reader l (pipes c)) (out c))
      | Eof => here PCloseNums fds
      | Block => None
      end
  | PWrite prime n =>
      b ← write c p k n;
      Some (Config (<[k := Proc (PRead prime) fds]> (procs c)) b (out c))
  | PCloseNums => here PCloseW (close (reader, false) fds)
  | PCloseW => here Wait (close (k, true) fds)
  | Wait =>
      q ← procs c !! S k;
      match p_pc q with Exited => here Exit fds | _ => None end
  | Exit => here Exited []
  | Exited => None
  end.

Definition step (c c' : config) : Prop := ∃ k, step_of k c = Some c'.

(** ** What is still to come

    The numbers a process will still pass on depend on the numbers it will
    still read only, whatever the order of steps.  So do the primes still to
    be printed and the number of steps still to be taken, which are computed
    here from a configuration, along the chain. *)

Definition pass (prime : Z) (l : list Z) : list Z :=
  List.filter (λ n, negb (Z.rem n prime =? 0)) l.

Definition range (i : Z) : list Z := seqZ i (limit + 1 - i).

(** The primes printed by a chain that is given [l], and its steps. *)
Fixpoint sieve (fuel : nat) (l : list Z) : list Z :=
  match fuel, l with
  | S fuel, p :: l => p :: sieve fuel (pass p l)
  | _, _ => []
  end.
(** Steps of a process in its loop with [l] to read. *)
Definition loop_cost (p : Z) (l : list Z) : nat := length l + length (pass p l) + 5.
Fixpoint sieve_cost (fuel : nat) (l : list Z) : nat :=
  match fuel, l with
  | S fuel, p :: l => 4 + (1 + loop_cost p l) + 2 + sieve_cost fuel (pass p l)
  | _, _ => 4
  end.

Definition primes_of (l : list Z) : list Z := sieve (length l) l.
Definition cost_of (l : list Z) : nat := sieve_cost (length l) l.

Lemma pass_length p l : (length (pass p l) ≤ length l)%nat.
Proof. induction l as [|n l IH]; cbn; [lia|]. case_bool; cbn; unfold pass in *; lia. Qed.

Lemma sieve_fuel f1 f2 l :
  (length l ≤ f1)%nat → (length l ≤ f2)%nat →
  sieve f1 l = sieve f2 l ∧ sieve_cost f1 l = sieve_cost f2 l.
Proof.
  revert f2 l. induction f1 as [|f1 IH]; intros [|f2] [|p l] H1 H2; cbn in H1, H2 |- *; try lia; [done..|].
  pose proof (pass_length p l). destruct (IH f2 (pass p l)) as [E1 E2]; [lia..|]. by rewrite E1, E2.
Qed.

Lemma primes_of_cons p l : primes_of (p :: l) = p :: primes_of (pass p l).
Proof.
  unfold primes_of. cbn [length sieve]. f_equal. pose proof (pass_length p l). by apply sieve_fuel.
Qed.

Lemma cost_of_cons p l : cost_of (p :: l) = (7 + loop_cost p l + cost_of (pass p l))%nat.
Proof.
  unfold cost_of. cbn [length sieve_cost]. pose proof (pass_length p l).
  destruct (sieve_fuel (length l) (length (pass p l)) (pass p l)) as [_ ->]; lia.
Qed.

(** What the last process of the chain, [k], will still print, and the steps
    it and its descendants will still take, when it has [l] to read. *)
Definition last_future (k : nat) (l : list Z) (p : pc) : option (list Z * nat) :=
  let main r := if Nat.eqb k 0 then Some r else None in
  let child r := if Nat.eqb k 0 then None else Some r in
  let ended r := match l with [] => r | _ => None end in
  match p with
  | MPipe => main (primes_of (range 2), 7 + length (range 2) + cost_of (range 2))%nat
  | MFork => main (primes_of (range 2), 6 + length (range 2) + cost_of (range 2))%nat
  | CCloseNums => if Nat.leb k 1 then None else Some (primes_of l, 2 + cost_of l)%nat
  | CCloseW => child (primes_of l, 1 + cost_of l)%nat
  | HRead => child (primes_of l, cost_of l)
  | HPrint p => child (p :: primes_of (pass p l), 6 + loop_cost p l + cost_of (pass p l))%nat
  | HPipe p => child (primes_of (pass p l), 5 + loop_cost p l + cost_of (pass p l))%nat
  | HFork p => child (primes_of (pass p l), 4 + loop_cost p l + cost_of (pass p l))%nat
  | HClose => ended (child ([], 3%nat))
  | HCloseAgain => ended (child ([], 2%nat))
  | Exit => ended (child ([], 1%nat))
  | Exited => ended (child ([], 0%nat))
  | _ => None
  end.

(** What a process that has forked will still pass on, and its steps. *)
Definition pass_on (k : nat) (l : list Z) (p : pc) : option (list Z * nat) :=
  let main r := if Nat.eqb k 0 then Some r else None in
  let child r := if Nat.eqb k 0 then None else Some r in
  let ended r := match l with [] => r | _ => None end in
  match p with
  | MCloseR => main (range 2, length (range 2) + 4)%nat
  | MLoop i => if i <=? limit then main (range i, length (range i) + 3)%nat else None
  | MCloseW => main ([], 3%nat)
  | PCloseR p => child (pass p l, loop_cost p l + 1)%nat
  | PRead p => child (pass p l, loop_cost p l)
  | PWrite p n => child (n :: pass p l, loop_cost p l + 1)%nat
  | PCloseNums => ended (child ([], 4%nat))
  | PCloseW => ended (child ([], 3%nat))
  | Wait => ended (Some ([], 2%nat))
  | Exit => ended (Some ([], 1%nat))
  | Exited => ended (Some ([], 0%nat))
  | _ => None
  end.

(** The bytes in the pipe process [k] reads. *)
Definition inbox (b : nat → list Z) (k : nat) : list Z := match k with O => [] | S j => b j end.

(** Along the chain from process [k] on; [xs] is what its parent will still
    write. *)
Fixpoint future (b : nat → list Z) (k : nat) (xs : list Z) (ps : list pc) : option (list Z * nat) :=
  match ps with
  | [] => None
  | [p] => last_future k (inbox b k ++ xs) p
  | p :: rest =>
      '(ys, n) ← pass_on k (inbox b k ++ xs) p;
      '(o, m) ← future b (S k) ys rest;
      Some (o, n + m)%nat
  end.

Fixpoint through (b : nat → list Z) (k : nat) (xs : list Z) (ps : list pc) : option (list Z * nat) :=
  match ps with
  | [] => Some (xs, 0%nat)
  | p :: rest =>
      '(ys, n) ← pass_on k (inbox b k ++ xs) p;
      '(zs, m) ← through b (S k) ys rest;
      Some (zs, n + m)%nat
  end.

Lemma future_cons b k xs p q rest :
  future b k xs (p :: q :: rest) =
  ('(ys, n) ← pass_on k (inbox b k ++ xs) p;
   '(o, m) ← future b (S k) ys (q :: rest);
   Some (o, n + m)%nat).
Proof. done. Qed.

Lemma future_app b ps p rest : ∀ k xs,
  future b k xs (ps ++ p :: rest) =
  ('(ys, n) ← through b k xs ps;
   '(o, m) ← future b (length ps + k)%nat ys (p :: rest);
   Some (o, n + m)%nat).
Proof.
  induction ps as [|q ps IH]; intros k xs.
  { cbn [app through length Nat.add mbind option_bind]. by destruct (future b k xs (p :: rest)) as [[o m]|]. }
  assert (Hne : ∃ r l, ps ++ p :: rest = r :: l) by (destruct ps; eauto).
  destruct Hne as (r & l & Hne). cbn [app]. rewrite Hne, future_cons, <-Hne. cbn [through].
  destruct (pass_on k (inbox b k ++ xs) q) as [[ys n]|]; [|done]. cbn [mbind option_bind length]. rewrite IH.
  destruct (through b (S k) ys ps) as [[zs m]|]; [|done]. cbn [mbind option_bind].
  rewrite Nat.add_succ_r. change (S (length ps) + k)%nat with (S (length ps + k)).
  destruct (future b (S (length ps + k)) zs (p :: rest)) as [[o m']|]; [|done].
  cbn [mbind option_bind]. do 2 f_equal. lia.
Qed.

(** The chain from [k] on depends on the pipes through what [k] will read and
    the pipes after it. *)
Lemma future_ext b b' ps : ∀ k xs xs',
  inbox b k ++ xs = inbox b' k ++ xs' → (∀ j, (k ≤ j)%nat → b' j = b j) →
  future b' k xs' ps = future b k xs ps.
Proof.
  induction ps as [|p ps IH]; intros k xs xs' Hin Hb; [done|]. destruct ps as [|q ps].
  - cbn. by rewrite Hin.
  - rewrite !future_cons, Hin. destruct (pass_on k _ p) as [[ys n]|]; [|done]. cbn [mbind option_bind].
    rewrite (IH (S k) ys ys); [done| |intros j Hj; apply Hb; lia]. cbn. by rewrite Hb.
Qed.

Lemma through_ext b b' ps : ∀ k xs,
  (∀ j, (S j < length ps + k)%nat → b' j = b j) → through b' k xs ps = through b k xs ps.
Proof.
  induction ps as [|p ps IH]; intros k xs Hb; [done|]. cbn [through].
  replace (inbox b' k) with (inbox b k).
  - destruct (pass_on k _ p) as [[ys n]|]; [|done]. cbn. rewrite IH; [done|].
    intros j Hj. apply Hb. cbn. lia.
  - destruct k; [done|]. cbn. symmetry. apply Hb. cbn. lia.
Qed.

(** ** The invariant *)

(** The descriptors a process has open, by where it is. *)
Definition fds_of (k : nat) (p : pc) : list fd :=
  match p with
  | MPipe | HCloseAgain | Wait | Exit | Exited => []
  | MFork | MCloseR => [(k, false); (k, true)]
  | MLoop _ | MCloseW | PCloseW => [(k, true)]
  | CCloseNums => [(pred k, false); (pred k, true); (pred (pred k), false)]
  | CCloseW => [(pred k, false); (pred k, true)]
  | HRead | HPrint _ | HPipe _ | HClose => [(pred k, false)]
  | HFork _ | PCloseR _ => [(k, false); (k, true); (pred k, false)]
  | PRead _ | PWrite _ _ | PCloseNums => [(k, true); (pred k, false)]
  end.

(** [n] steps are left, and what is printed with what will be is the primes. *)
Record inv (c : config) (n : nat) : Prop := {
  i_fds k p : procs c !! k = Some p → p_fds p = fds_of k (p_pc p);
  i_fresh j : (length (procs c) ≤ S j)%nat → pipes c j = [];
  i_future : ∃ o, future (pipes c) 0 [] (p_pc <$> procs c) = Some (o, n) ∧
                  out c ++ o = primes_of (range 2);
}.

Lemma start_inv : inv start (7 + length (range 2) + cost_of (range 2)).
Proof.
  constructor; [|done|].
  - by intros [|k] p Hp; [injection Hp as <-|].
  - exists (primes_of (range 2)). done.
Qed.

(** The pcs before and after process [k]. *)
Definition before (k : nat) (c : config) : list pc := p_pc <$> take k (procs c).
Definition after (k : nat) (c : config) : list pc := p_pc <$> drop (S k) (procs c).

Lemma split_at k c p :
  procs c !! k = Some p →
  p_pc <$> procs c = before k c ++ p_pc p :: after k c ∧ length (before k c) = k ∧
  ∀ p', p_pc <$> <[k := p']> (procs c) = before k c ++ p_pc p' :: after k c.
Proof.
  intros Hk. unfold before, after. split; [|split].
  - rewrite <-(take_drop_middle (procs c) k p Hk) at 1. by rewrite fmap_app, fmap_cons.
  - apply lookup_lt_Some in Hk. rewrite length_fmap, length_take. lia.
  - intros p'. rewrite insert_take_drop by (by eapply lookup_lt_Some). by rewrite fmap_app, fmap_cons.
Qed.

(** What reaches process [k], and the future from it on. *)
Lemma split_future c n k p :
  inv c n → procs c !! k = Some p →
  ∃ ys m o m', through (pipes c) 0 [] (before k c) = Some (ys, m) ∧
    future (pipes c) k ys (p_pc p :: after k c) = Some (o, m') ∧
    n = (m + m')%nat ∧ out c ++ o = primes_of (range 2).
Proof.
  intros [_ _ (o & Hf & Ho)] Hk. destruct (split_at k c p Hk) as (Hs & Hl & _).
  rewrite Hs, future_app, Hl, Nat.add_0_r in Hf.
  destruct (through (pipes c) 0 [] (before k c)) as [[ys m]|]; [|done]. cbn [mbind option_bind] in Hf.
  destruct (future (pipes c) k ys _) as [[o' m']|] eqn:E; [|done]. injection Hf as -> <-.
  by exists ys, m, o, m'.
Qed.

(** Replacing what process [k] and the ones after it are. *)
Lemma join_future b' k c p' rest ys m o m' :
  procs c !! k ≠ None → (∀ j, (S j < k)%nat → b' j = pipes c j) →
  through (pipes c) 0 [] (before k c) = Some (ys, m) →
  future b' k ys (p' :: rest) = Some (o, m') →
  future b' 0 [] (before k c ++ p' :: rest) = Some (o, (m + m')%nat).
Proof.
  intros Hk Hb Ht Hf. destruct (procs c !! k) as [p|] eqn:E; [|done].
  destruct (split_at k c p E) as (_ & Hl & _).
  rewrite future_app, (through_ext (pipes c) b'), Ht; [|intros j Hj; apply Hb; lia].
  cbn [mbind option_bind]. by rewrite Hl, Nat.add_0_r, Hf.
Qed.

(** A step of process [k] that makes no process. *)
Lemma inv_local c n k p pc' fds' b' out' :
  inv c n → procs c !! k = Some p → fds' = fds_of k pc' →
  (∀ j, (S j < k)%nat → b' j = pipes c j) → (∀ j, (length (procs c) ≤ S j)%nat → b' j = []) →
  (∀ ys m0 o m, through (pipes c) 0 [] (before k c) = Some (ys, m0) →
     future (pipes c) k ys (p_pc p :: after k c) = Some (o, m) →
     ∃ o' m', m = S m' ∧ future b' k ys (pc' :: after k c) = Some (o', m') ∧ out' ++ o' = out c ++ o) →
  ∃ n', n = S n' ∧ inv (Config (<[k := Proc pc' fds']> (procs c)) b' out') n'.
Proof.
  intros Hinv Hk Hfds Hb Hfresh Hloc.
  destruct (split_future c n k p Hinv Hk) as (ys & m & o & m1 & Ht & Hf & -> & Ho).
  destruct (Hloc ys m o m1 Ht Hf) as (o' & m' & -> & Hf' & Ho').
  destruct (split_at k c p Hk) as (_ & _ & Hins). exists (m + m')%nat. split; [lia|]. constructor; cbn.
  - intros i q Hq. destruct (decide (i = k)) as [->|Hne].
    + rewrite list_lookup_insert_eq in Hq by (by eapply lookup_lt_Some). by injection Hq as <-.
    + rewrite list_lookup_insert_ne in Hq by done. by apply (i_fds _ _ Hinv).
  - intros j. rewrite length_insert. apply Hfresh.
  - exists o'. rewrite Hins. split; [|by rewrite Ho'].
    apply (join_future b' k c) with ys; [by rewrite Hk|done|done|done].
Qed.

(** Moving process [k] from [p] with [l] to read to [p'] with [l'] to read
    takes one of the steps that are left. *)
Definition local (k : nat) (l : list Z) (p : pc) (l' : list Z) (p' : pc) : Prop :=
  (∀ o m, last_future k l p = Some (o, m) → ∃ m', m = S m' ∧ last_future k l' p' = Some (o, m')) ∧
  (∀ o m, pass_on k l p = Some (o, m) → ∃ m', m = S m' ∧ pass_on k l' p' = Some (o, m')).

Lemma local_future b b' k xs p p' rest o m :
  local k (inbox b k ++ xs) p (inbox b' k ++ xs) p' → (∀ j, (k ≤ j)%nat → b' j = b j) →
  future b k xs (p :: rest) = Some (o, m) →
  ∃ m', m = S m' ∧ future b' k xs (p' :: rest) = Some (o, m').
Proof.
  intros [Hl Hp] Hb. destruct rest as [|q rest]; [apply Hl|]. rewrite !future_cons.
  destruct (pass_on k (inbox b k ++ xs) p) as [[ys n]|]; [|done]. cbn [mbind option_bind].
  destruct (Hp ys n eq_refl) as (n' & -> & ->). cbn [mbind option_bind].
  rewrite (future_ext b b' _ (S k) ys ys); [|cbn; by rewrite Hb|intros j Hj; apply Hb; lia].
  destruct (future b (S k) ys (q :: rest)) as [[o' m']|]; [|done]. cbn [mbind option_bind].
  intros [= -> <-]. by eexists.
Qed.

Lemma inv_here c n k p pc' fds' :
  inv c n → procs c !! k = Some p → fds' = fds_of k pc' →
  (∀ ys m0, through (pipes c) 0 [] (before k c) = Some (ys, m0) →
     local k (inbox (pipes c) k ++ ys) (p_pc p) (inbox (pipes c) k ++ ys) pc') →
  ∃ n', n = S n' ∧ inv (goto k pc' fds' c) n'.
Proof.
  intros Hinv Hk Hfds Hloc. apply (inv_local c n k p pc' fds' (pipes c) (out c)); try done; [apply Hinv|].
  intros ys m0 o m Ht Hf.
  destruct (local_future (pipes c) (pipes c) _ _ _ pc' _ _ _ (Hloc ys m0 Ht) ltac:(done) Hf) as (m' & -> & Hf').
  by exists o, m'.
Qed.

(** ** Steps keep the invariant *)

Arguments range : simpl never.
Arguments limit : simpl never.
Arguments cost_of : simpl never.
Arguments primes_of : simpl never.
Arguments loop_cost : simpl never.
Arguments pass : simpl never.

(** Case analysis on a process whose future is known. *)
Ltac known := repeat match goal with
  | H : Some _ = Some _ |- _ => apply (inj Some) in H
  | H : None = Some _ |- _ => discriminate H
  | H : (_, _) = (_, _) |- _ => apply pair_equal_spec in H as [? ?]; subst
  | H : context [match ?l with [] => _ | _ :: _ => _ end] |- _ => revert H; destruct l eqn:?; intros H
  | H : context [if ?b then _ else _] |- _ => revert H; destruct b eqn:?; intros H
  end.

Ltac one_step := eexists; split; cycle 1; [reflexivity|first [lia|reflexivity]].

Lemma local_simple k l p p' :
  match p, p' with
  | MPipe, MFork | MCloseW, Wait | CCloseNums, CCloseW | CCloseW, HRead
  | HClose, HCloseAgain | HCloseAgain, Exit | PCloseNums, PCloseW | PCloseW, Wait
  | Wait, Exit | Exit, Exited => True
  | HPipe a, HFork b | PCloseR a, PRead b => a = b
  | MCloseR, MLoop i => i = 2
  | _, _ => False
  end → (p = MCloseW → l = []) → local k l p l p'.
Proof.
  intros H Hl. destruct p, p'; try done; try subst.
  all: try (rewrite Hl by done).
  all: split; cbn [last_future pass_on]; cbv zeta; intros o m Hr; known; try one_step.
  destruct k; [done|]. cbn [Nat.eqb]. one_step.
Qed.

Lemma through_app b ps2 : ∀ ps1 k xs,
  through b k xs (ps1 ++ ps2) =
  ('(ys, n) ← through b k xs ps1;
   '(zs, m) ← through b (length ps1 + k)%nat ys ps2;
   Some (zs, n + m)%nat).
Proof.
  induction ps1 as [|q ps IH]; intros k xs.
  { cbn [app through length Nat.add mbind option_bind]. by destruct (through b k xs ps2) as [[o m]|]. }
  cbn [app through]. destruct (pass_on k (inbox b k ++ xs) q) as [[ys n]|]; [|done].
  cbn [mbind option_bind length]. rewrite IH.
  destruct (through b (S k) ys ps) as [[zs m]|]; [|done]. cbn [mbind option_bind].
  rewrite Nat.add_succ_r. change (S (length ps) + k)%nat with (S (length ps + k)).
  destruct (through b (S (length ps + k)) zs ps2) as [[o m']|]; [|done].
  cbn [mbind option_bind]. do 2 f_equal. lia.
Qed.

Lemma is_fd_refl e : is_fd e e = true.
Proof. destruct e as [j b]. unfold is_fd; cbn. rewrite Nat.eqb_refl. by destruct b. Qed.

(** A process that no longer holds the end for writing writes nothing more. *)
Lemma pass_on_closed k l p ys m :
  pass_on k l p = Some (ys, m) → holds_fd (k, true) (fds_of k p) = false → ys = [].
Proof.
  intros H Hh. destruct p; try done; cbn [pass_on] in H; cbv zeta in H; known; try done;
    unfold holds_fd in Hh; cbn [fds_of existsb] in Hh; rewrite is_fd_refl, ?orb_true_r in Hh; done.
Qed.

(** A process with numbers to come holds the end for reading. *)
Lemma reader_open k l p r :
  last_future (S k) l p = Some r ∨ pass_on (S k) l p = Some r → l ≠ [] →
  holds_fd (k, false) (fds_of (S k) p) = true.
Proof.
  intros H Hl. unfold holds_fd. destruct p; cbn [fds_of existsb pred];
    rewrite ?is_fd_refl, ?orb_true_r; try done; exfalso;
    destruct H as [H|H]; cbn [last_future pass_on Nat.eqb] in H; cbv zeta in H; known; done.
Qed.

Lemma holder_none c n j :
  inv c n → existsb (λ q, holds_fd (j, true) (p_fds q)) (procs c) = false →
  ∀ q, procs c !! j = Some q → holds_fd (j, true) (fds_of j (p_pc q)) = false.
Proof.
  intros Hinv He q Hq. rewrite <-(i_fds _ _ Hinv j q Hq). apply not_true_is_false. intros Ht.
  apply not_true_iff_false in He. apply He, existsb_exists. exists q. split; [|done].
  apply list_elem_of_In. by eapply list_elem_of_lookup_2.
Qed.

(** At the end of the file nothing more will be written to the pipe. *)
Lemma eof_upstream c n j p ys m :
  inv c n → procs c !! S j = Some p →
  existsb (λ q, holds_fd (j, true) (p_fds q)) (procs c) = false →
  through (pipes c) 0 [] (before (S j) c) = Some (ys, m) → ys = [].
Proof.
  intros Hinv Hp He Ht.
  destruct (procs c !! j) as [q|] eqn:Hq.
  2: { apply lookup_ge_None in Hq. apply lookup_lt_Some in Hp. lia. }
  unfold before in Ht. rewrite (take_S_r _ _ q Hq), fmap_app, through_app in Ht.
  destruct (through (pipes c) 0 [] _) as [[zs m1]|]; [|done]. cbn [mbind option_bind fmap list_fmap through] in Ht.
  assert (Hlen : (length (p_pc <$> take j (procs c)) + 0)%nat = j).
  { apply lookup_lt_Some in Hq. rewrite length_fmap, length_take. lia. }
  rewrite Hlen in Ht.
  destruct (pass_on j _ (p_pc q)) as [[ws m2]|] eqn:E; [|done]. cbn [mbind option_bind] in Ht. known.
  eapply pass_on_closed; [done|]. by apply (holder_none c n).
Qed.

(** A process that reads was forked, and its pipe is the one before it. *)
Lemma reading_child c n k p :
  inv c n → procs c !! k = Some p →
  match p_pc p with HRead | PRead _ => True | _ => False end →
  ∃ j, k = S j ∧ holds_fd (j, false) (p_fds p) = true.
Proof.
  intros Hinv Hk Hpc. rewrite (i_fds _ _ Hinv k p Hk).
  destruct (split_future c n k p Hinv Hk) as (ys & m & o & m' & _ & Hf & _).
  destruct k as [|j].
  - exfalso. destruct (after 0 c) as [|q l]; [|rewrite future_cons in Hf]; destruct (p_pc p); done.
  - exists j. split; [done|]. unfold holds_fd. destruct (p_pc p); try done; cbn [fds_of existsb pred];
      by rewrite is_fd_refl, ?orb_true_r.
Qed.

(** What a read of the pipe before returns. *)
Lemma read_cases c n j p ys m :
  inv c n → procs c !! S j = Some p → holds_fd (j, false) (p_fds p) = true →
  through (pipes c) 0 [] (before (S j) c) = Some (ys, m) →
  match read c p j with
  | Got v l => pipes c j = v :: l
  | Eof => pipes c j = [] ∧ ys = []
  | Block => pipes c j = []
  end.
Proof.
  intros Hinv Hp Hh Ht. unfold read. rewrite Hh. cbn [negb].
  destruct (pipes c j) as [|v l] eqn:E; [|done].
  destruct (existsb _ (procs c)) eqn:He; [done|]. split; [done|]. by eapply eof_upstream.
Qed.

Lemma set_pipe_eq j l b : set_pipe j l b j = l.
Proof. unfold set_pipe. by rewrite Nat.eqb_refl. Qed.
Lemma set_pipe_ne j l b i : i ≠ j → set_pipe j l b i = b i.
Proof. intros. unfold set_pipe. by rewrite (proj2 (Nat.eqb_neq i j)). Qed.

(** Reading a number moves it from the pipe into the process. *)
Lemma inv_got c n j p v l pc' fds' :
  inv c n → procs c !! S j = Some p → fds' = fds_of (S j) pc' → pipes c j = v :: l →
  (∀ ys, local (S j) (v :: ys) (p_pc p) ys pc') →
  ∃ n', n = S n' ∧ inv (Config (<[S j := Proc pc' fds']> (procs c)) (set_pipe j l (pipes c)) (out c)) n'.
Proof.
  intros Hinv Hp Hfds Hl Hloc. pose proof (lookup_lt_Some _ _ _ Hp) as Hlt.
  apply (inv_local c n (S j) p); try done.
  - intros i Hi. apply set_pipe_ne. lia.
  - intros i Hi. rewrite set_pipe_ne by lia. by apply (i_fresh _ _ Hinv).
  - intros ys m0 o m _ Hf.
    destruct (local_future (pipes c) (set_pipe j l (pipes c)) (S j) ys (p_pc p) pc' (after (S j) c) o m)
      as (m' & -> & Hf'); [|intros i Hi; apply set_pipe_ne; lia|done|by exists o, m'].
    cbn [inbox]. rewrite set_pipe_eq, Hl. apply Hloc.
Qed.

Lemma local_got_head k v ys : local k (v :: ys) HRead ys (HPrint v).
Proof.
  split; cbn [last_future pass_on]; cbv zeta; intros o m Hr; known.
  rewrite primes_of_cons, cost_of_cons. one_step.
Qed.

Lemma pass_cons p v l : pass p (v :: l) = if negb (Z.rem v p =? 0) then v :: pass p l else pass p l.
Proof. done. Qed.

Lemma local_got_loop k p v ys :
  local k (v :: ys) (PRead p) ys (if negb (Z.rem v p =? 0) then PWrite p v else PRead p).
Proof.
  split; cbn [last_future pass_on]; cbv zeta; intros o m Hr; known.
  match goal with E : Nat.eqb k 0 = false |- _ => rename E into Hk end.
  unfold loop_cost. rewrite pass_cons.
  destruct (negb _); cbn [pass_on length]; cbv zeta; rewrite Hk; unfold loop_cost; one_step.
Qed.

Lemma local_eof k p : match p with HRead => local k [] p [] HClose | PRead _ => local k [] p [] PCloseNums | _ => True end.
Proof.
  destruct p; try done; split; cbn [last_future pass_on]; cbv zeta; intros o m Hr; known; one_step.
Qed.

Lemma step_head c n k p c' :
  inv c n → procs c !! k = Some p → p_pc p = HRead → step_of k c = Some c' →
  ∃ n', n = S n' ∧ inv c' n'.
Proof.
  intros Hinv Hk Hpc Hst.
  destruct (reading_child c n k p Hinv Hk) as (j & -> & Hh); [by rewrite Hpc|].
  pose proof (i_fds _ _ Hinv _ _ Hk) as Hfds. rewrite Hpc in Hfds.
  destruct (split_future c n (S j) p Hinv Hk) as (ys & m & _ & _ & Ht & _).
  pose proof (read_cases c n j p ys m Hinv Hk Hh Ht) as Hr.
  unfold step_of in Hst. rewrite Hk in Hst. cbn [mbind option_bind] in Hst. cbv zeta in Hst.
  rewrite Hpc in Hst. cbn [pred] in Hst. destruct (read c p j) as [v l| |]; [| |done]; injection Hst as <-.
  - apply (inv_got c n j p v l); try done. intros ys'. rewrite Hpc. apply local_got_head.
  - apply (inv_here c n (S j) p); try done. intros ys' m0 Ht'. rewrite Ht in Ht'. injection Ht' as <- <-.
    cbn [inbox]. destruct Hr as [-> ->]. rewrite Hpc. apply (local_eof _ HRead).
Qed.

Lemma step_loop c n k p prime c' :
  inv c n → procs c !! k = Some p → p_pc p = PRead prime → step_of k c = Some c' →
  ∃ n', n = S n' ∧ inv c' n'.
Proof.
  intros Hinv Hk Hpc Hst.
  destruct (reading_child c n k p Hinv Hk) as (j & -> & Hh); [by rewrite Hpc|].
  pose proof (i_fds _ _ Hinv _ _ Hk) as Hfds. rewrite Hpc in Hfds.
  destruct (split_future c n (S j) p Hinv Hk) as (ys & m & _ & _ & Ht & _).
  pose proof (read_cases c n j p ys m Hinv Hk Hh Ht) as Hr.
  unfold step_of in Hst. rewrite Hk in Hst. cbn [mbind option_bind] in Hst. cbv zeta in Hst.
  rewrite Hpc in Hst. cbn [pred] in Hst. destruct (read c p j) as [v l| |]; [| |done]; injection Hst as <-.
  - apply (inv_got c n j p v l); try done; [rewrite Hfds; by destruct (negb _)|].
    intros ys'. rewrite Hpc. apply local_got_loop.
  - apply (inv_here c n (S j) p); try done. intros ys' m0 Ht'. rewrite Ht in Ht'. injection Ht' as <- <-.
    cbn [inbox]. destruct Hr as [-> ->]. rewrite Hpc. apply (local_eof _ (PRead prime)).
Qed.

(** ** Writing *)

(** The next process can read what [k] writes. *)
Lemma write_reaches c n k p v ys rest (o : list Z) m :
  inv c n → procs c !! k = Some p → holds_fd (k, true) (p_fds p) = true →
  after k c = rest → future (pipes c) (S k) (v :: ys) rest = Some (o, m) →
  write c p k v = if Nat.ltb (length (pipes c k)) pipe_cap
                  then Some (set_pipe k (pipes c k ++ [v]) (pipes c)) else None.
Proof.
  intros Hinv Hk Hh Hrest Hf. unfold write. rewrite Hh. cbn [negb].
  enough (existsb (λ q, holds_fd (k, false) (p_fds q)) (procs c) = true) as -> by done.
  destruct rest as [|q rest]; [done|]. unfold after in Hrest.
  destruct (drop (S k) (procs c)) as [|q' l] eqn:Hd; [done|]. injection Hrest as Hq _.
  assert (Hq' : procs c !! S k = Some q').
  { rewrite <-(Nat.add_0_r (S k)), <-lookup_drop, Hd. done. }
  apply existsb_exists. exists q'. split; [apply list_elem_of_In; by eapply list_elem_of_lookup_2|].
  rewrite (i_fds _ _ Hinv _ _ Hq'), Hq.
  assert (∃ r, last_future (S k) (inbox (pipes c) (S k) ++ v :: ys) q = Some r ∨
               pass_on (S k) (inbox (pipes c) (S k) ++ v :: ys) q = Some r) as [r Hr].
  { destruct rest as [|q2 rest]; [exists (o, m); left; exact Hf|]. rewrite future_cons in Hf.
    destruct (pass_on (S k) _ q) as [r|] eqn:E; [|done]. exists r. by right. }
  apply (reader_open k _ q r Hr). by destruct (inbox (pipes c) (S k)).
Qed.

Lemma inv_put c n k p v pc' b' :
  inv c n → procs c !! k = Some p → p_fds p = fds_of k pc' → holds_fd (k, true) (p_fds p) = true →
  (∀ l, last_future k l (p_pc p) = None) →
  (∀ l ys m, pass_on k l (p_pc p) = Some (ys, m) →
     ∃ ys' m', ys = v :: ys' ∧ m = S m' ∧ pass_on k l pc' = Some (ys', m')) →
  write c p k v = Some b' →
  ∃ n', n = S n' ∧ inv (Config (<[k := Proc pc' (p_fds p)]> (procs c)) b' (out c)) n'.
Proof.
  intros Hinv Hk Hfds Hh Hlast Hpass Hw.
  destruct (split_future c n k p Hinv Hk) as (ys0 & m0 & o0 & m1 & Ht0 & Hf0 & _).
  destruct (after k c) as [|q rest] eqn:Haf; [cbn in Hf0; by rewrite Hlast in Hf0|].
  pose proof Hf0 as Hf1. rewrite future_cons in Hf1.
  destruct (pass_on k (inbox (pipes c) k ++ ys0) (p_pc p)) as [[ys m2]|] eqn:Ep; [|done]. cbn [mbind option_bind] in Hf1.
  destruct (future (pipes c) (S k) ys (q :: rest)) as [[o2 m3]|] eqn:Ef; [|done].
  destruct (Hpass _ _ _ Ep) as (ys' & m2' & -> & -> & Ep').
  rewrite (write_reaches c n k p v ys' (q :: rest) o2 m3) in Hw by done.
  destruct (Nat.ltb _ _) eqn:Hcap; [|done]. injection Hw as <-.
  assert (Hlen : (S k < length (procs c))%nat).
  { apply (f_equal length) in Haf. unfold after in Haf. rewrite length_fmap, length_drop in Haf. cbn in Haf. lia. }
  apply (inv_local c n k p); try done.
  - intros i Hi. apply set_pipe_ne. lia.
  - intros i Hi. rewrite set_pipe_ne by lia. by apply (i_fresh _ _ Hinv).
  - intros ys1 m4 o m Ht Hf. rewrite Ht0 in Ht. injection Ht as <- <-. rewrite Haf in Hf. rewrite Hf0 in Hf.
    injection Hf as <- <-. rewrite Haf, future_cons. cbn [mbind option_bind] in Hf1. injection Hf1 as <- <-.
    replace (inbox (set_pipe k _ (pipes c)) k) with (inbox (pipes c) k).
    2: { destruct k; [done|]. cbn [inbox]. rewrite set_pipe_ne by lia. done. }
    rewrite Ep'. cbn [mbind option_bind].
    rewrite (future_ext (pipes c) _ (q :: rest) (S k) (v :: ys') ys'), Ef.
    + cbn [mbind option_bind]. eexists _, (m2' + m3)%nat. split; [lia|done].
    + cbn [inbox]. rewrite set_pipe_eq, <-app_assoc. done.
    + intros i Hi. apply set_pipe_ne. lia.
Qed.

(** ** Forking *)

Lemma inv_spawn c n k p parent child :
  inv c n → procs c !! k = Some p → (∀ l, pass_on k l (p_pc p) = None) →
  p_fds p = fds_of k parent → p_fds p = fds_of (S k) child →
  (∀ l o m, last_future k l (p_pc p) = Some (o, m) →
     ∃ ys m1 m2, m = S (m1 + m2) ∧ pass_on k l parent = Some (ys, m1) ∧
                 last_future (S k) ys child = Some (o, m2)) →
  ∃ n', n = S n' ∧
    inv (Config (<[k := Proc parent (p_fds p)]> (procs c) ++ [Proc child (p_fds p)]) (pipes c) (out c)) n'.
Proof.
  intros Hinv Hk Hlast Hf1 Hf2 Hloc.
  destruct (split_future c n k p Hinv Hk) as (ys & m & o & m' & Ht & Hf & -> & Ho).
  destruct (after k c) as [|q rest] eqn:Haf; [|by rewrite future_cons, Hlast in Hf].
  destruct (Hloc _ _ _ Hf) as (ys' & m1 & m2 & -> & Hp & Hc).
  assert (Hlen : length (procs c) = S k).
  { apply (f_equal length) in Haf. unfold after in Haf. rewrite length_fmap, length_drop in Haf.
    apply lookup_lt_Some in Hk. cbn in Haf. lia. }
  destruct (split_at k c p Hk) as (_ & _ & Hins).
  exists (m + (m1 + m2))%nat. split; [lia|]. constructor; cbn -[pass_on last_future].
  - intros i q Hq. rewrite lookup_app, length_insert in Hq.
    destruct (<[k := Proc parent (p_fds p)]> (procs c) !! i) as [q'|] eqn:E.
    + injection Hq as <-. destruct (decide (i = k)) as [->|Hne].
      * rewrite list_lookup_insert_eq in E by lia. by injection E as <-.
      * rewrite list_lookup_insert_ne in E by done. by apply (i_fds _ _ Hinv).
    + apply list_lookup_singleton_Some in Hq as [Hi <-].
      apply lookup_ge_None in E. rewrite length_insert in E. cbn. by replace i with (S k) by lia.
  - intros j. rewrite length_app, length_insert. cbn. intros Hj. apply (i_fresh _ _ Hinv). lia.
  - exists o. split; [|done]. rewrite fmap_app, Hins, Haf, <-app_assoc. cbn [app fmap list_fmap p_pc].
    apply (join_future (pipes c) k c) with ys; [by rewrite Hk|done|done|].
    rewrite future_cons, Hp. cbn [mbind option_bind future inbox].
    rewrite (i_fresh _ _ Hinv k) by lia. cbn [app]. by rewrite Hc.
Qed.

Lemma spawn_main k l o m :
  last_future k l MFork = Some (o, m) →
  ∃ ys m1 m2, m = S (m1 + m2) ∧ pass_on k l MCloseR = Some (ys, m1) ∧
              last_future (S k) ys CCloseW = Some (o, m2).
Proof.
  cbn [last_future pass_on Nat.eqb]. cbv zeta. intros Hr. known.
  do 3 eexists. split; cycle 1; [split; reflexivity|]. lia.
Qed.

Lemma spawn_handle k prime l o m :
  last_future k l (HFork prime) = Some (o, m) →
  ∃ ys m1 m2, m = S (m1 + m2) ∧ pass_on k l (PCloseR prime) = Some (ys, m1) ∧
              last_future (S k) ys CCloseNums = Some (o, m2).
Proof.
  cbn [last_future pass_on]. cbv zeta. intros Hr. known. destruct k as [|k]; [done|].
  do 3 eexists. split; cycle 1; [split; reflexivity|]. lia.
Qed.

(** ** Every step *)

Lemma pass_on_loop k l i ys m :
  pass_on k l (MLoop i) = Some (ys, m) →
  ∃ ys' m', ys = i :: ys' ∧ m = S m' ∧
    pass_on k l (if i + 1 <=? limit then MLoop (i + 1) else MCloseW) = Some (ys', m').
Proof.
  cbn [pass_on]. cbv zeta. intros Hr. known. match goal with E : Nat.eqb k 0 = true |- _ => rename E into Hk end.
  match goal with E : (i <=? limit) = true |- _ => apply Z.leb_le in E end.
  assert (Hi : range i = i :: range (i + 1)).
  { unfold range. replace (limit + 1 - i) with (Z.succ (limit - i)) by lia. rewrite seqZ_cons by lia.
    f_equal. replace (Z.pred (Z.succ (limit - i))) with (limit + 1 - (i + 1)) by lia.
    by replace (Z.succ i) with (i + 1) by lia. }
  rewrite Hi. exists (range (i + 1)). cbn [length].
  destruct (i + 1 <=? limit) eqn:E; cbn [pass_on]; cbv zeta; rewrite Hk.
  - rewrite E. eexists. split; [done|]. split; [|done]. lia.
  - apply Z.leb_gt in E. assert (range (i + 1) = []) as -> by (unfold range; rewrite seqZ_nil; [done|lia]).
    eexists. split; [done|]. split; [|done]. done.
Qed.

Lemma pass_on_write k prime v l ys m :
  pass_on k l (PWrite prime v) = Some (ys, m) →
  ∃ ys' m', ys = v :: ys' ∧ m = S m' ∧ pass_on k l (PRead prime) = Some (ys', m').
Proof.
  cbn [pass_on]. cbv zeta. intros Hr. known. do 2 eexists. split; [done|]. split; cycle 1; [done|lia].
Qed.

Lemma step_print c n k p prime :
  inv c n → procs c !! k = Some p → p_pc p = HPrint prime →
  ∃ n', n = S n' ∧
    inv (Config (<[k := Proc (HPipe prime) (p_fds p)]> (procs c)) (pipes c) (out c ++ [prime])) n'.
Proof.
  intros Hinv Hk Hpc. pose proof (i_fds _ _ Hinv _ _ Hk) as Hfds. rewrite Hpc in Hfds.
  apply (inv_local c n k p); try done; [apply Hinv|].
  intros ys m0 o m _ Hf. rewrite Hpc in Hf.
  destruct (after k c) as [|q rest]; [|by rewrite future_cons in Hf].
  cbn [future last_future] in Hf |- *. cbv zeta in Hf |- *. known.
  do 2 eexists. split; cycle 1; [split; [reflexivity|by rewrite <-app_assoc]|lia].
Qed.

(** A process that has no parent reads nothing. *)
Lemma main_input c n k p :
  inv c n → procs c !! k = Some p → p_pc p = MCloseW → ∀ ys m,
  through (pipes c) 0 [] (before k c) = Some (ys, m) → inbox (pipes c) k ++ ys = [].
Proof.
  intros Hinv Hk Hpc ys m Ht. destruct (split_future c n k p Hinv Hk) as (ys' & m' & o & m1 & Ht' & Hf & _).
  rewrite Hpc in Hf. destruct k as [|k]; [|exfalso].
  - cbn in Ht. by injection Ht as <- _.
  - destruct (after (S k) c) as [|q rest]; [done|]. by rewrite future_cons in Hf.
Qed.

Lemma is_fd_side i j b : is_fd (i, b) (j, negb b) = false.
Proof. unfold is_fd; cbn. rewrite andb_false_iff. right. by destruct b. Qed.
Lemma is_fd_rw i j : is_fd (i, false) (j, true) = false.
Proof. apply (is_fd_side i j false). Qed.
Lemma is_fd_wr i j : is_fd (i, true) (j, false) = false.
Proof. apply (is_fd_side i j true). Qed.
Lemma is_fd_ne i j b : i ≠ j → is_fd (i, b) (j, b) = false.
Proof. intros. unfold is_fd; cbn. by rewrite (proj2 (Nat.eqb_neq i j)). Qed.

(** Children of [main] and of its children have numbers from 1 and 2 on. *)
Lemma pc_position c n k p :
  inv c n → procs c !! k = Some p →
  match p_pc p with CCloseNums => (2 ≤ k)%nat | PCloseR _ => (1 ≤ k)%nat | _ => True end.
Proof.
  intros Hinv Hk. destruct (split_future c n k p Hinv Hk) as (ys & m & o & m1 & _ & Hf & _).
  destruct (after k c) as [|q rest]; [|rewrite future_cons in Hf];
    destruct (p_pc p); try done; destruct k as [|[|k]]; try done; lia.
Qed.

Ltac fds Hfds := rewrite Hfds; unfold close; cbn [List.filter fds_of pred];
  rewrite ?is_fd_refl, ?is_fd_rw, ?is_fd_wr, ?is_fd_ne by lia; reflexivity.

Lemma step_inv k c n c' : inv c n → step_of k c = Some c' → ∃ n', n = S n' ∧ inv c' n'.
Proof.
  intros Hinv Hst. destruct (procs c !! k) as [p|] eqn:Hk; [|unfold step_of in Hst; by rewrite Hk in Hst].
  pose proof (pc_position c n k p Hinv Hk) as Hpos.
  destruct (p_pc p) eqn:Hpc; try (by eapply step_head); try (by eapply step_loop).
  all: pose proof (i_fds _ _ Hinv _ _ Hk) as Hfds; rewrite Hpc in Hfds.
  all: unfold step_of in Hst; rewrite Hk in Hst; cbn [mbind option_bind] in Hst; cbv zeta in Hst;
       rewrite Hpc in Hst; try discriminate Hst.
  all: try (injection Hst as <-;
    first [ by apply step_print
          | apply (inv_spawn c n k p); rewrite ?Hpc; (done || (intros ? ? ?; first [apply spawn_main|apply spawn_handle]))
          | apply (inv_here c n k p); [done|done|first [reflexivity|fds Hfds]|intros ys m0 Ht; rewrite Hpc;
              apply local_simple; [done|first [done|intros _; by eapply main_input]]] ]).
  - destruct (write c p k i) as [b'|] eqn:Hw; [|done]. injection Hst as <-.
    apply (inv_put c n k p i); rewrite ?Hpc; try done.
    + rewrite Hfds. by destruct (i + 1 <=? limit).
    + rewrite Hfds. unfold holds_fd. cbn [fds_of existsb]. by rewrite is_fd_refl.
    + intros l ys m. apply pass_on_loop.
  - destruct (write c p k num) as [b'|] eqn:Hw; [|done]. injection Hst as <-.
    apply (inv_put c n k p num); rewrite ?Hpc; try done.
    + rewrite Hfds. unfold holds_fd. cbn [fds_of existsb]. by rewrite is_fd_refl.
    + intros l ys m. apply pass_on_write.
  - destruct (procs c !! S k) as [q|]; [|done]. cbn [mbind option_bind] in Hst.
    destruct (p_pc q); try done. injection Hst as <-.
    apply (inv_here c n k p); [done|done|fds Hfds|intros ys m0 Ht; rewrite Hpc; by apply local_simple].
Qed.

(** ** Progress *)

Definition reading_pc (p : pc) : bool :=
  match p with HRead | PRead _ => true | _ => false end.

(** Who holds the end for writing of pipe [j]. *)
Lemma holder_index i j p :
  holds_fd (j, true) (fds_of i p) = true → i = j ∨ (pred i = j ∧ (p = CCloseNums ∨ p = CCloseW)).
Proof.
  unfold holds_fd. assert (Hfd : ∀ a, is_fd (j, true) (a, true) = true → a = j).
  { intros a Ha. unfold is_fd in Ha; cbn in Ha. rewrite andb_true_r in Ha. by apply Nat.eqb_eq in Ha. }
  destruct p; cbn [fds_of existsb]; rewrite ?is_fd_wr, ?orb_false_r, ?orb_false_l; intros H; try done;
    apply Hfd in H; auto.
Qed.

(** A blocked reader waits for its parent, which can still write. *)
Lemma blocked_read c n k p :
  inv c n → procs c !! k = Some p → reading_pc (p_pc p) = true → step_of k c = None →
  ∃ j q, k = S j ∧ pipes c j = [] ∧ procs c !! j = Some q ∧ holds_fd (j, true) (fds_of j (p_pc q)) = true.
Proof.
  intros Hinv Hk Hpc Hst.
  destruct (reading_child c n k p Hinv Hk) as (j & -> & Hh); [by destruct (p_pc p)|].
  assert (Hr : read c p j = Block).
  { unfold step_of in Hst. rewrite Hk in Hst. cbn [mbind option_bind pred] in Hst. cbv zeta in Hst.
    destruct (p_pc p); try done; by destruct (read c p j). }
  unfold read in Hr. rewrite Hh in Hr. cbn [negb] in Hr.
  destruct (pipes c j) eqn:Ep; [|done]. destruct (existsb _ (procs c)) eqn:He; [|done].
  apply existsb_exists in He as (q & Hq & Hw). apply list_elem_of_In, list_elem_of_lookup in Hq as (i & Hi).
  rewrite (i_fds _ _ Hinv _ _ Hi) in Hw. destruct (holder_index i j (p_pc q) Hw) as [->|[Hij Hc]].
  - by exists j, q.
  - exfalso. destruct i as [|i].
    + cbn in Hij. subst. destruct (split_future c n 0 q Hinv Hi) as (ys & m & o & m1 & _ & Hf & _).
      destruct (after 0 c) as [|r l]; [|rewrite future_cons in Hf]; destruct Hc as [Hc|Hc]; by rewrite Hc in Hf.
    + cbn in Hij. subst. rewrite Hk in Hi. injection Hi as <-. by destruct Hc as [Hc|Hc]; rewrite Hc in Hpc.
Qed.

Lemma after_cons c k x l :
  after k c = x :: l → ∃ q, procs c !! S k = Some q ∧ p_pc q = x.
Proof.
  unfold after. destruct (drop (S k) (procs c)) as [|q l'] eqn:Hd; [done|]. intros [= <- _].
  exists q. split; [|done]. by rewrite <-(Nat.add_0_r (S k)), <-lookup_drop, Hd.
Qed.

(** A blocked writer waits for a child that has not finished. *)
Lemma blocked_write c n k p v :
  inv c n → procs c !! k = Some p → holds_fd (k, true) (p_fds p) = true →
  (∀ l, last_future k l (p_pc p) = None) →
  (∀ l ys m, pass_on k l (p_pc p) = Some (ys, m) → ∃ ys', ys = v :: ys') →
  write c p k v = None →
  ∃ q, procs c !! S k = Some q ∧ p_pc q ≠ Exited ∧ pipes c k ≠ [].
Proof.
  intros Hinv Hk Hh Hlast Hpass Hw.
  destruct (split_future c n k p Hinv Hk) as (ys0 & m0 & o0 & m1 & _ & Hf & _).
  destruct (after k c) as [|x rest] eqn:Haf; [cbn in Hf; by rewrite Hlast in Hf|].
  rewrite future_cons in Hf. destruct (pass_on k _ (p_pc p)) as [[ys m]|] eqn:Ep; [|done].
  destruct (Hpass _ _ _ Ep) as [ys' ->]. cbn [mbind option_bind] in Hf.
  destruct (future (pipes c) (S k) (v :: ys') (x :: rest)) as [[o m2]|] eqn:Ef; [|done].
  rewrite (write_reaches c n k p v ys' (x :: rest) o m2) in Hw by done.
  destruct (after_cons c k x rest Haf) as (q & Hq & Hx). exists q. split; [done|]. split.
  - rewrite Hx. intros ->. destruct rest as [|y rest]; [|rewrite future_cons in Ef];
      cbn [future last_future pass_on] in Ef; destruct (inbox (pipes c) (S k)); done.
  - intros He. rewrite He in Hw. done.
Qed.

(** In a configuration without steps, whoever has not exited waits to read an
    empty pipe. *)
Lemma stuck_reads c n :
  inv c n → (∀ k, step_of k c = None) → ∀ d k p,
  (length (procs c) - k ≤ d)%nat → procs c !! k = Some p →
  p_pc p = Exited ∨ reading_pc (p_pc p) = true.
Proof.
  intros Hinv Hno. induction d as [|d IH]; intros k p Hd Hk.
  { apply lookup_lt_Some in Hk. lia. }
  assert (Hkid : ∀ q, procs c !! S k = Some q → p_pc q = Exited ∨ reading_pc (p_pc q) = true).
  { intros q. apply IH. lia. }
  pose proof (Hno k) as Hst. unfold step_of in Hst. rewrite Hk in Hst. cbn [mbind option_bind] in Hst.
  cbv zeta in Hst. pose proof (i_fds _ _ Hinv _ _ Hk) as Hfds.
  destruct (split_future c n k p Hinv Hk) as (ys0 & m0 & o0 & m1 & _ & Hf & _).
  destruct (p_pc p) eqn:Hpc; try done; try (by left); try (by right).
  - destruct (write c p k i) as [b|] eqn:Hw; [done|].
    destruct (blocked_write c n k p i) as (q & Hq & Hne & Hp); rewrite ?Hpc; try done.
    + rewrite Hfds. unfold holds_fd. cbn [fds_of existsb]. by rewrite is_fd_refl.
    + intros l ys m (ys' & m' & -> & _)%pass_on_loop. by exists ys'.
    + exfalso. destruct (Hkid q Hq) as [|Hr]; [done|].
      destruct (blocked_read c n (S k) q Hinv Hq Hr (Hno _)) as (j & r & [= <-] & He & _). done.
  - destruct (write c p k num) as [b|] eqn:Hw; [done|].
    destruct (blocked_write c n k p num) as (q & Hq & Hne & Hp); rewrite ?Hpc; try done.
    + rewrite Hfds. unfold holds_fd. cbn [fds_of existsb]. by rewrite is_fd_refl.
    + intros l ys m (ys' & m' & -> & _)%pass_on_write. by exists ys'.
    + exfalso. destruct (Hkid q Hq) as [|Hr]; [done|].
      destruct (blocked_read c n (S k) q Hinv Hq Hr (Hno _)) as (j & r & [= <-] & He & _). done.
  - exfalso. destruct (after k c) as [|x rest] eqn:Haf; [done|].
    destruct (after_cons c k x rest Haf) as (q & Hq & _). rewrite Hq in Hst. cbn [mbind option_bind] in Hst.
    destruct (Hkid q Hq) as [Hx|Hr]; [by rewrite Hx in Hst|].
    destruct (blocked_read c n (S k) q Hinv Hq Hr (Hno _)) as (j & r & [= <-] & _ & Hj & Hw).
    rewrite Hk in Hj. injection Hj as <-. by rewrite Hpc in Hw.
Qed.

(** Then everyone has exited. *)
Lemma stuck_exited c n :
  inv c n → (∀ k, step_of k c = None) → ∀ k p, procs c !! k = Some p → p_pc p = Exited.
Proof.
  intros Hinv Hno k. induction k as [|k IH]; intros p Hk;
    (destruct (stuck_reads c n Hinv Hno (length (procs c)) _ p ltac:(lia) Hk) as [|Hr]; [done|exfalso]);
    destruct (blocked_read c n _ p Hinv Hk Hr (Hno _)) as (j & q & Hj & _ & Hq & Hw); [done|].
  injection Hj as <-. by rewrite (IH q Hq) in Hw.
Qed.

Lemma exited_future b ps : ∀ k xs o n,
  (∀ p, p ∈ ps → p = Exited) → future b k xs ps = Some (o, n) → o = [] ∧ n = 0%nat.
Proof.
  induction ps as [|p ps IH]; intros k xs o n Hall Hf; [done|].
  assert (p = Exited) as -> by (apply Hall; by apply elem_of_cons; left).
  destruct ps as [|q ps].
  - cbn [future last_future] in Hf. cbv zeta in Hf. by known.
  - rewrite future_cons in Hf. cbn [pass_on] in Hf. cbv zeta in Hf.
    destruct (inbox b k ++ xs); [|done]. cbn [mbind option_bind] in Hf.
    destruct (future b (S k) [] (q :: ps)) as [[o' m]|] eqn:E; [|done].
    apply IH in E as [-> ->]; [|intros p Hp; apply Hall; by apply elem_of_cons; right].
    cbn in Hf. by injection Hf as <- <-.
Qed.

(** ** The primes *)

Definition primeb (n : Z) : bool := (2 <=? n) && forallb (λ d, negb (n mod d =? 0)) (seqZ 2 (n - 2)).

Lemma primeb_spec n : primeb n = true ↔ Z.prime n.
Proof.
  unfold primeb, Z.prime. rewrite andb_true_iff, forallb_forall, Z.leb_le.
  split; intros [Hn Hd]; (split; [lia|]).
  - intros d Hd' Hdiv. specialize (Hd d ltac:(apply list_elem_of_In, elem_of_seqZ; lia)).
    apply Z.mod_divide in Hdiv; [|lia]. by rewrite Hdiv in Hd.
  - intros d Hd'%list_elem_of_In. apply elem_of_seqZ in Hd'. apply negb_true_iff, Z.eqb_neq.
    intros Hm. apply (Hd d); [lia|]. apply Z.mod_divide; [lia|done].
Qed.

#[export] Instance prime_decision n : Decision (Z.prime n).
Proof. refine (cast_if (decide (primeb n = true))); by rewrite <-primeb_spec. Defined.

Lemma filter_primes l : filter Z.prime l = List.filter primeb l.
Proof.
  induction l as [|n l IH]; [done|]. rewrite filter_cons. cbn [List.filter].
  pose proof (primeb_spec n) as Hs. rewrite IH.
  case_decide as Hp; destruct (primeb n) eqn:E; try done.
  - by rewrite <-Hs in Hp.
  - by destruct Hp; apply Hs.
Qed.

Lemma sieve_primes : primes_of (range 2) = filter Z.prime (seqZ 2 (limit - 1)).
Proof. rewrite filter_primes. by vm_compute. Qed.

Lemma nsteps_inv m c : nsteps step m start c → ∃ n, inv c n ∧ (m + n = 4928)%nat.
Proof.
  intros Hs. assert (Hall : ∀ m c0 c1, nsteps step m c0 c1 → ∀ n0, inv c0 n0 → ∃ n, inv c1 n ∧ (m + n = n0)%nat).
  { clear. induction 1 as [c|m c0 c1 c2 [k Hk] _ IH]; intros n0 Hi; [by exists n0|].
    destruct (step_inv k c0 n0 c1 Hi Hk) as (n1 & -> & Hi1). destruct (IH n1 Hi1) as (n & Hn & <-).
    exists n. split; [done|lia]. }
  destruct (Hall m start c Hs _ start_inv) as (n & Hn & Hm). exists n. split; [done|]. rewrite Hm.
  by vm_compute.
Qed.

(** C20: the sieve prints the primes.  However the processes are interleaved, what
    has been printed is a prefix of the increasing list of the primes up to 280,
    no execution takes more than 4928 steps, and one that can go no further has
    taken exactly 4928, printed all of the list, and every process has
    exited. *)
Theorem sieve_prints_primes m c :
  nsteps step m start c →
  (m ≤ 4928)%nat ∧ out c `prefix_of` filter Z.prime (seqZ 2 (limit - 1)) ∧
  ((∀ c', ¬ step c c') →
   m = 4928%nat ∧ out c = filter Z.prime (seqZ 2 (limit - 1)) ∧ ∀ p, p ∈ procs c → p_pc p = Exited).
Proof.
  intros Hs. destruct (nsteps_inv m c Hs) as (n & Hinv & Hm). rewrite <-sieve_primes.
  pose proof Hinv as [_ _ (o & Hf & Ho)]. split; [lia|]. split; [by exists o|]. intros Hno.
  assert (Hnone : ∀ k, step_of k c = None).
  { intros k. destruct (step_of k c) as [c'|] eqn:E; [|done]. by destruct (Hno c'); exists k. }
  assert (Hex : ∀ p, p ∈ procs c → p_pc p = Exited).
  { intros p [k Hk]%list_elem_of_lookup. by apply (stuck_exited c n Hinv Hnone k). }
  destruct (exited_future (pipes c) (p_pc <$> procs c) 0 [] o n) as [-> ->]; [|done|].
  - intros q (p & -> & Hp)%list_elem_of_fmap. by apply Hex.
  - rewrite app_nil_r in Ho. split; [lia|done].
Qed.

(** ** A run *)

Lemma sieve_first_steps : ∃ c, nsteps step 3 start c ∧ length (procs c) = 2%nat.
Proof.
  eexists. split.
  - eapply nsteps_l; [exists 0%nat; reflexivity|]. eapply nsteps_l; [exists 0%nat; reflexivity|].
    eapply nsteps_l; [exists 1%nat; reflexivity|]. apply nsteps_O.
  - done.
Qed.

Lemma sieve_prints_primes_witness : ∃ c, nsteps step 3 start c ∧ (3 ≤ 4928)%nat ∧
  out c `prefix_of` filter Z.prime (seqZ 2 (limit - 1)).
Proof.
  destruct sieve_first_steps as (c & Hs & _). exists c. split; [exact Hs|].
  destruct (sieve_prints_primes 3 c Hs) as (H1 & H2 & _). exact (conj H1 H2).
Defined.
