(* ===== verification/Xargs.v ===== *)
(** * xargs (lab1, xargs.c)

    [xargs] reads its input byte by byte into a buffer and, at every newline,
    forks a child that executes the command with the line as last argument.
    Strings are lists of bytes without the null at their end, as in [Find]. *)

From S2P Require Import Prelude Find.

Definition newline : Z := 10.
Definition ARGSLEN : nat := 32.
Definition LINELEN : nat := 1024.

(** An entry of [args]: a string of the caller, the buffer, null or not yet
    written. *)
Inductive arg := AStr (str : list Z) | ABuf | ANull | AJunk.

(** What the processes share: the input not yet read (parent and children
    have one file offset), how often [fork] was called, and the commands that
    [exec] was asked for. *)
Record xstate := XState { input : list Z; forks : nat; execs : list (list (list Z)) }.

Section xargs.
(** Which calls of [fork] succeed, which commands [exec] can start, and what a
    command leaves of the input. *)
Variables (fork_ok : nat → bool) (exec_ok : list (list Z) → bool) (program : list (list Z) → list Z → list Z).

(** ** Operations *)

Definition set_arg (i : nat) (a : arg) (args : list arg) : M xstate (list arg) :=
  if Nat.ltb i (length args) then mret (<[i := a]> args) else undefined "xargs: args".

(** The first loop of [main]: [args[i-1] = argv[i]]. *)
Fixpoint copy_args (i : nat) (argv : list (list Z)) (args : list arg) : M xstate (list arg) :=
  match argv with
  | [] => mret args
  | a :: argv => args ← set_arg i (AStr a) args; copy_args (S i) argv args
  end.

(** The strings [exec] finds: up to the null pointer. *)
Fixpoint resolve (buf : list Z) (args : list arg) : option (list (list Z)) :=
  match args with
  | ANull :: _ => Some []
  | AStr a :: args => cons a <$> resolve buf args
  | ABuf :: args => cons (cstr buf) <$> resolve buf args
  | _ => None
  end.

(** [exec(args[0], args)]: whether the command runs.  When it does, it is the
    child from then on. *)
Definition exec (buf : list Z) (args : list arg) : M xstate bool :=
  match resolve buf args with
  | Some cmd =>
      modify (λ s, XState (input s) (forks s) (execs s ++ [cmd]));;
      if exec_ok cmd then modify (λ s, XState (program cmd (input s)) (forks s) (execs s));; mret true
      else mret false
  | None => undefined "xargs: exec"
  end.

(** [read(0, p, 1)]: the next byte, which lands in the buffer if [p] still
    points into it. *)
Definition read1 : M xstate (option Z) := λ s,
  match input s with
  | [] => Ok None s
  | b :: rest => Ok (Some b) (XState rest (forks s) (execs s))
  end.

Definition store_byte (p : nat) (b : Z) (buf : list Z) : M xstate (list Z) :=
  if Nat.ltb p (length buf) then mret (<[p := b]> buf) else undefined "xargs: buf".

Definition fork : M xstate bool := λ s,
  Ok (fork_ok (forks s)) (XState (input s) (S (forks s)) (execs s)).

(** The [while] loop of [main], from its test.  A child whose [exec] fails goes
    on in the same loop, to its [exit(0)]; the parent waits for it. *)
Fixpoint xloop (fuel : nat) (argc : nat) (args : list arg) (buf : list Z) (p : nat) : M xstate unit :=
  match fuel with
  | O => λ _, NoFuel
  | S fuel =>
      c ← read1;
      match c with
      | None => mret tt
      | Some b =>
          buf ← store_byte p b buf;
          if b =? newline then
            buf ← store_byte p 0 buf;
            forked ← fork;
            if (forked : bool) then
              (child_args ← set_arg (argc - 1) ABuf args;
               child_args ← set_arg argc ANull child_args;
               ran ← exec buf child_args;
               if (ran : bool) then mret tt else xloop fuel argc child_args buf p);;
              xloop fuel argc args buf 0
            else xloop fuel argc args buf p
          else xloop fuel argc args buf (p + 1)
      end
  end.

(** [main] with [argv[0]] left out; the loop reads a byte each time. *)
Definition main (argv : list (list Z)) (junk : list Z) : M xstate unit :=
  args ← copy_args 0 argv (replicate ARGSLEN AJunk);
  n ← gets (λ s, length (input s));
  xloop (S n) (S (length argv)) args junk 0;;
  exit_with 0.

(** ** The argument array *)

Lemma copy_args_run argv : ∀ pre suf s,
  (length argv ≤ length suf)%nat →
  copy_args (length pre) argv (pre ++ suf) s = Ok (pre ++ (AStr <$> argv) ++ drop (length argv) suf) s.
Proof.
  induction argv as [|a argv IH]; intros pre [|x suf] s Hle; cbn in Hle |- *; try lia; [done..|].
  unfold set_arg. rewrite length_app, (proj2 (Nat.ltb_lt _ _)) by (cbn; lia).
  erewrite bind_Ok by reflexivity. replace (length pre) with (length pre + 0)%nat at 2 by lia. rewrite insert_app_r.
  cbn [insert list_insert]. specialize (IH (pre ++ [AStr a]) suf s). rewrite length_app, <-!app_assoc in IH. cbn in IH.
  replace (length pre + 1)%nat with (S (length pre)) in IH by lia. apply IH. lia.
Qed.

(** The array a child passes to [exec], for a command line that fits. *)
Definition child_array (argv : list (list Z)) (rest : list arg) : list arg :=
  (AStr <$> argv) ++ ABuf :: ANull :: rest.

Lemma child_array_resolve argv rest buf : resolve buf (child_array argv rest) = Some (argv ++ [cstr buf]).
Proof. unfold child_array. induction argv as [|a argv IH]; cbn; [done|]. cbn in IH. by rewrite IH. Qed.

Lemma set_child_args argv x y rest s :
  (a ← set_arg (S (length argv) - 1) ABuf ((AStr <$> argv) ++ x :: y :: rest);
   set_arg (S (length argv)) ANull a) s = Ok (child_array argv rest) s.
Proof.
  unfold set_arg. replace (S (length argv) - 1)%nat with (length (AStr <$> argv) + 0)%nat by (rewrite length_fmap; lia).
  replace (S (length argv)) with (length (AStr <$> argv) + 1)%nat by (rewrite length_fmap; lia).
  rewrite length_app, (proj2 (Nat.ltb_lt _ _)) by (cbn; lia). erewrite bind_Ok by reflexivity.
  rewrite length_insert, length_app, (proj2 (Nat.ltb_lt _ _)) by (cbn; lia).
  rewrite !insert_app_r. reflexivity.
Qed.

(** ** Lines *)

Definition feed (i : list Z) (s : xstate) : xstate := XState i (forks s) (execs s).

Lemma store_byte_run pre x suf b s :
  store_byte (length pre) b (pre ++ x :: suf) s = Ok (pre ++ b :: suf) s.
Proof.
  unfold store_byte. rewrite length_app, (proj2 (Nat.ltb_lt _ _)) by (cbn; lia).
  replace (length pre) with (length pre + 0)%nat by lia. by rewrite insert_app_r.
Qed.

(** The bytes of a line land in the buffer one after the other. *)
Lemma xloop_bytes argc args l : ∀ fuel pre suf more s,
  newline ∉ l → (length l ≤ length suf)%nat →
  xloop (length l + fuel) argc args (pre ++ suf) (length pre) (feed (l ++ more) s) =
  xloop fuel argc args ((pre ++ l) ++ drop (length l) suf) (length (pre ++ l)) (feed more s).
Proof.
  induction l as [|b l IH]; intros fuel pre [|x suf] more s Hn Hle; cbn [length] in Hle; try lia;
    [by cbn; rewrite ?app_nil_r..|].
  apply not_elem_of_cons in Hn as [Hb Hn]. cbn [length Nat.add xloop].
  erewrite bind_Ok by reflexivity. cbv beta iota. rewrite (bind_Ok _ _ _ _ _ (store_byte_run pre x suf b _)).
  rewrite (proj2 (Z.eqb_neq b newline)) by done. replace (pre ++ b :: suf) with ((pre ++ [b]) ++ suf) by (by rewrite <-app_assoc).
  replace (length pre + 1)%nat with (length (pre ++ [b])) by (by rewrite length_app).
  etransitivity; [apply (IH fuel (pre ++ [b]) suf more s); [done|lia]|]. cbn [drop]. by rewrite <-!app_assoc.
Qed.

(** The newline after a line: the string in the buffer ends there. *)
Lemma xloop_newline fuel argc args l x suf more s :
  xloop (S fuel) argc args (l ++ x :: suf) (length l) (feed (newline :: more) s) =
  (forked ← fork;
   if (forked : bool) then
     (child_args ← set_arg (argc - 1) ABuf args;
      child_args ← set_arg argc ANull child_args;
      ran ← exec (l ++ 0 :: suf) child_args;
      if (ran : bool) then mret tt else xloop fuel argc child_args (l ++ 0 :: suf) (length l));;
     xloop fuel argc args (l ++ 0 :: suf) 0
   else xloop fuel argc args (l ++ 0 :: suf) (length l)) (feed more s).
Proof.
  cbn [xloop]. erewrite bind_Ok by reflexivity. cbv beta iota. rewrite (bind_Ok _ _ _ _ _ (store_byte_run l x suf newline _)).
  rewrite (Z.eqb_refl newline). by rewrite (bind_Ok _ _ _ _ _ (store_byte_run l newline suf 0 _)).
Qed.

(** The end of the input. *)
Lemma xloop_eof fuel argc args buf p s : xloop (S fuel) argc args buf p (feed [] s) = Ok tt (feed [] s).
Proof. done. Qed.

(** The last bytes of the input, without a newline, are read and dropped. *)
Lemma xloop_tail argc args l fuel pre suf s :
  newline ∉ l → (length l ≤ length suf)%nat → (length l < fuel)%nat →
  xloop fuel argc args (pre ++ suf) (length pre) (feed l s) = Ok tt (feed [] s).
Proof.
  intros Hn Hle Hf. replace fuel with (length l + S (fuel - length l - 1))%nat by lia.
  pose proof (xloop_bytes argc args l (S (fuel - length l - 1)) pre suf [] s Hn Hle) as Hb.
  rewrite (app_nil_r l) in Hb. rewrite Hb. apply xloop_eof.
Qed.

Definition text (lines : list (list Z)) (rest : list Z) : list Z :=
  concat ((λ l, l ++ [newline]) <$> lines) ++ rest.

Lemma text_cons l lines rest : text (l :: lines) rest = l ++ newline :: text lines rest.
Proof. unfold text. cbn. by rewrite <-!app_assoc. Qed.

(** A forked child: with the buffer as last argument it runs the command, or
    goes on where the parent was. *)
Lemma child_run fuel argv x y rest buf p s :
  (child_args ← set_arg (S (length argv) - 1) ABuf ((AStr <$> argv) ++ x :: y :: rest);
   child_args ← set_arg (S (length argv)) ANull child_args;
   ran ← exec buf child_args;
   if (ran : bool) then mret tt else xloop fuel (S (length argv)) child_args buf p) s =
  (let cmd := argv ++ [cstr buf] in
   let s' := XState (input s) (forks s) (execs s ++ [cmd]) in
   if exec_ok cmd then Ok tt (feed (program cmd (input s)) s')
   else xloop fuel (S (length argv)) (child_array argv rest) buf p s').
Proof.
  rewrite <-(bind_assoc (set_arg (S (length argv) - 1) ABuf _) (set_arg (S (length argv)) ANull)).
  rewrite (bind_Ok _ _ _ _ _ (set_child_args argv x y rest s)). unfold exec. rewrite child_array_resolve. cbv zeta.
  unfold mbind, M_bind, modify. by destruct (exec_ok _).
Qed.

(** A whole line, of a process whose buffer holds [pre] so far: the child runs
    the command or goes on, and then the parent goes on with an empty buffer. *)
Lemma xloop_line fuel argv x y rest pre suf l more s :
  newline ∉ l → (length l < length suf)%nat → fork_ok (forks s) = true →
  ∃ suf', length suf = (length l + S (length suf'))%nat ∧
  xloop (length l + S fuel) (S (length argv)) ((AStr <$> argv) ++ x :: y :: rest) (pre ++ suf) (length pre)
    (feed (l ++ newline :: more) s) =
  ((λ _, let cmd := argv ++ [cstr (pre ++ l)] in
    let s' := XState more (S (forks s)) (execs s ++ [cmd]) in
    if exec_ok cmd then Ok tt (feed (program cmd more) s')
    else xloop fuel (S (length argv)) (child_array argv rest) ((pre ++ l) ++ 0 :: suf') (length (pre ++ l)) s') ≫= λ _,
   xloop fuel (S (length argv)) ((AStr <$> argv) ++ x :: y :: rest) ((pre ++ l) ++ 0 :: suf') 0) s.
Proof.
  intros Hn Hle Hf. destruct (drop (length l) suf) as [|z suf'] eqn:Ed.
  { apply (f_equal length) in Ed. rewrite length_drop in Ed. cbn in Ed. lia. }
  exists suf'. split.
  { apply (f_equal length) in Ed. rewrite length_drop in Ed. cbn in Ed. lia. }
  rewrite xloop_bytes, Ed, xloop_newline by (done || lia).
  unfold fork. erewrite bind_Ok by reflexivity. cbn [forks feed]. rewrite Hf.
  pose proof (child_run fuel argv x y rest ((pre ++ l) ++ 0 :: suf') (length (pre ++ l))) as Hrun. rewrite cstr_end in Hrun.
  unfold mbind at 1, M_bind at 1. rewrite Hrun. reflexivity.
Qed.

(** A line the buffer has room for. *)
Definition fits (l : list Z) : Prop := newline ∉ l ∧ (length l < LINELEN)%nat.

Definition command (argv : list (list Z)) (l : list Z) : list (list Z) := argv ++ [cstr l].

Lemma xloop_commands argv x y args lines rest : ∀ fuel buf s,
  length buf = LINELEN → Forall fits lines → newline ∉ rest → (length rest ≤ LINELEN)%nat → (∀ n, fork_ok n = true) →
  (∀ l, l ∈ lines → exec_ok (command argv l) = true ∧ ∀ i, program (command argv l) i = i) →
  (length (text lines rest) < fuel)%nat →
  xloop fuel (S (length argv)) ((AStr <$> argv) ++ x :: y :: args) buf 0 (feed (text lines rest) s) =
  Ok tt (XState [] (forks s + length lines) (execs s ++ (command argv <$> lines))).
Proof.
  induction lines as [|l lines IH]; intros fuel buf s Hbuf Hfit Hn Hrest Hfork Hrun Hfuel.
  { change (text [] rest) with rest in *.
    etransitivity; [apply (xloop_tail _ _ rest fuel [] buf s); [done|lia|lia]|]. cbn. by rewrite app_nil_r, Nat.add_0_r. }
  apply Forall_cons in Hfit as [[Hnl Hlen] Hfit]. rewrite text_cons in *. rewrite length_app in Hfuel. cbn [length] in Hfuel.
  destruct (Hrun l) as [Hexec Hprog]; [set_solver|].
  replace fuel with (length l + S (fuel - length l - 1))%nat by lia.
  destruct (xloop_line (fuel - length l - 1) argv x y args [] buf l (text lines rest) s) as (suf' & Hsuf & Hl);
    [done|unfold fits in *; lia|apply Hfork|]. cbn [app length] in Hl. etransitivity; [exact Hl|]. fold (command argv l). cbv zeta.
  unfold mbind, M_bind. rewrite Hexec, Hprog. cbn [forks execs feed].
  etransitivity; [apply (IH (fuel - length l - 1)%nat (l ++ 0 :: suf') (XState [] (S (forks s)) (execs s ++ [command argv l])))|].
  - rewrite length_app. cbn. lia.
  - done.
  - done.
  - done.
  - done.
  - intros l' Hl'. apply Hrun. set_solver.
  - lia.
  - cbn. rewrite <-app_assoc. do 2 f_equal. lia.
Qed.

(** The last arguments of the commands when every child goes on: each line
    lands behind the ones before it. *)
Fixpoint piled (pre : list Z) (lines : list (list Z)) : list (list Z) :=
  match lines with
  | [] => []
  | l :: lines => (pre ++ l) :: piled (pre ++ l) lines
  end.

Lemma xloop_piles argv lines rest : ∀ x y args fuel pre suf s,
  (∀ l, l ∈ lines → newline ∉ l) → newline ∉ rest → (length (concat lines) + length rest < length suf)%nat →
  (∀ n, fork_ok n = true) → (∀ cmd, exec_ok cmd = false) → (length (text lines rest) < fuel)%nat →
  xloop fuel (S (length argv)) ((AStr <$> argv) ++ x :: y :: args) (pre ++ suf) (length pre) (feed (text lines rest) s) =
  Ok tt (XState [] (forks s + length lines) (execs s ++ (command argv <$> piled pre lines))).
Proof.
  induction lines as [|l lines IH]; intros x y args fuel pre suf s Hnl Hn Hlen Hfork Hexec Hfuel.
  { change (text [] rest) with rest in *. cbn in Hlen. rewrite xloop_tail by (done || lia). cbn. by rewrite app_nil_r, Nat.add_0_r. }
  rewrite text_cons in *. rewrite length_app in Hfuel. cbn [length concat] in Hfuel, Hlen. rewrite length_app in Hlen.
  replace fuel with (length l + S (fuel - length l - 1))%nat by lia.
  destruct (xloop_line (fuel - length l - 1) argv x y args pre suf l (text lines rest) s) as (suf' & Hsuf & Hl);
    [set_solver|lia|done|]. etransitivity; [exact Hl|]. fold (command argv (pre ++ l)). cbv zeta.
  unfold mbind, M_bind. rewrite Hexec. change (XState (text lines rest) ?a ?b) with (feed (text lines rest) (XState [] a b)).
  unfold child_array. rewrite IH; [|set_solver|done|cbn; lia|done|done|lia].
  replace (fuel - length l - 1)%nat with (S (fuel - length l - 2)) by lia.
  cbn [xloop]. erewrite bind_Ok by reflexivity. unfold mret, M_ret. cbn. rewrite <-app_assoc. do 2 f_equal. lia.
Qed.

Lemma main_run argv junk s :
  (length argv ≤ 30)%nat →
  ∃ rest, main argv junk s = ((xloop (S (length (input s))) (S (length argv)) ((AStr <$> argv) ++ AJunk :: AJunk :: rest) junk 0;; exit_with 0) s).
Proof.
  intros Hle. destruct (ARGSLEN - length argv)%nat as [|[|k]] eqn:Ek; [unfold ARGSLEN in Ek; lia..|].
  exists (replicate k AJunk). unfold main.
  pose proof (copy_args_run argv [] (replicate ARGSLEN AJunk) s) as Hc. cbn [app length] in Hc.
  rewrite (bind_Ok _ _ _ _ _ (Hc ltac:(rewrite length_replicate; unfold ARGSLEN; lia))).
  erewrite bind_Ok by reflexivity. by rewrite drop_replicate, Ek.
Qed.

(** C38: one command per line.  With at most thirty arguments, lines that fit in
    the buffer, forks and execs that succeed and commands that leave the input
    alone, [xargs] ends with status 0 after running, in the order of the
    lines, exactly the commands made of its arguments and one line each; bytes
    after the last newline are dropped. *)
Theorem xargs_runs_lines argv junk lines rest s :
  input s = text lines rest → (length argv ≤ 30)%nat → length junk = LINELEN → Forall fits lines →
  newline ∉ rest → (length rest ≤ LINELEN)%nat → (∀ n, fork_ok n = true) →
  (∀ l, l ∈ lines → exec_ok (command argv l) = true ∧ ∀ i, program (command argv l) i = i) →
  main argv junk s = Exited 0 (XState [] (forks s + length lines) (execs s ++ (command argv <$> lines))).
Proof.
  intros Hin Hargv Hjunk Hfit Hn Hrest Hfork Hrun. destruct (main_run argv junk s Hargv) as [args Hm]. rewrite Hm.
  destruct s as [i f e]. cbn in Hin. subst i. cbn [input forks execs].
  by rewrite (bind_Ok _ _ _ _ _ (xloop_commands argv AJunk AJunk args lines rest _ junk (XState [] f e)
    Hjunk Hfit Hn Hrest Hfork Hrun (Nat.lt_succ_diag_r _))).
Qed.

(** C39: a command that cannot be executed.  The child does not exit: it goes on
    reading the input where the parent was, with the line still in its buffer.
    When no command can be executed, [xargs] asks [exec] once per line, but for
    the concatenation of all lines so far, and the parent sees none of the
    lines after the first. *)
Theorem xargs_exec_failure_piles argv junk lines rest s :
  input s = text lines rest → (length argv ≤ 30)%nat → length junk = LINELEN → (∀ l, l ∈ lines → newline ∉ l) →
  newline ∉ rest → (length (concat lines) + length rest < LINELEN)%nat → (∀ n, fork_ok n = true) →
  (∀ cmd, exec_ok cmd = false) →
  main argv junk s = Exited 0 (XState [] (forks s + length lines) (execs s ++ (command argv <$> piled [] lines))).
Proof.
  intros Hin Hargv Hjunk Hnl Hn Hlen Hfork Hexec. destruct (main_run argv junk s Hargv) as [args Hm]. rewrite Hm.
  destruct s as [i f e]. cbn in Hin. subst i. cbn [input forks execs]. rewrite <-Hjunk in Hlen.
  by rewrite (bind_Ok _ _ _ _ _ (xloop_piles argv lines rest AJunk AJunk args _ [] junk (XState [] f e)
    Hnl Hn Hlen Hfork Hexec (Nat.lt_succ_diag_r _))).
Qed.
End xargs.

(** ** An example: [xargs echo] on the lines "1" and "2" *)

Definition echo : list Z := [101; 99; 104; 111].

Lemma xargs_runs_lines_witness :
  main (λ _, true) (λ _, true) (λ _ i, i) [echo] (replicate LINELEN 7) (XState (text [[49]; [50]] [51]) 0 []) =
  Exited 0 (XState [] 2 [[echo; [49]]; [echo; [50]]]).
Proof.
  apply (xargs_runs_lines (λ _, true) (λ _, true) (λ _ i, i) [echo] _ [[49]; [50]] [51] (XState _ 0 [])).
  - reflexivity.
  - cbn. lia.
  - apply length_replicate.
  - repeat constructor; cbn; unfold LINELEN, newline; try lia; intros Hin%list_elem_of_In; cbn in Hin; lia.
  - intros Hin%list_elem_of_In. cbn in Hin. unfold newline in Hin. lia.
  - cbn. unfold LINELEN. lia.
  - done.
  - done.
Defined.

Lemma xargs_exec_failure_piles_witness :
  main (λ _, true) (λ _, false) (λ _ i, i) [echo] (replicate LINELEN 7) (XState (text [[49]; [50]] []) 0 []) =
  Exited 0 (XState [] 2 [[echo; [49]]; [echo; [49; 50]]]).
Proof.
  apply (xargs_exec_failure_piles (λ _, true) (λ _, false) (λ _ i, i) [echo] _ [[49]; [50]] [] (XState _ 0 [])).
  - reflexivity.
  - cbn. lia.
  - apply length_replicate.
  - intros l Hl%list_elem_of_In Hin%list_elem_of_In. cbn in Hl. unfold newline in Hin.
    destruct Hl as [<-|[<-|[]]]; cbn in Hin; lia.
  - apply not_elem_of_nil.
  - cbn. unfold LINELEN. lia.
  - done.
  - done.
Defined.
