(* ===== verification/Pingpong.v ===== *)
(** * pingpong (lab1, pingpong.c)

    A parent and a child exchange one message over two pipes.  Each process is
    the list of system calls it has yet to make; a step lets one process make
    its next call.  Whether [fork] succeeds is a parameter; [pipe] succeeds, as
    the program assumes. *)

From stdpp Require Import relations.
From S2P Require Import Prelude.

(** ** Processes and pipes *)

Inductive pipe := P1 | P2.
Inductive role := Parent | Child.

(** The system calls: [Close p w] closes the write end of [p] when [w]; [Say]
    is [printf] of the pid and a text. *)
Inductive call :=
  | Close (p : pipe) (w : bool)
  | Read (p : pipe) (n : nat)
  | Write (p : pipe) (bs : list Z)
  | Say (msg : string)
  | Exit (status : Z).

(** The calls a process has yet to make, its open pipe ends and its [buf];
    after [Exit] nothing is left. *)
Record proc := Proc { todo : list call; ends : list (pipe * bool); buf : list Z }.

(** Both processes, the bytes in both pipes, what was printed. *)
Record conf := Conf { par : proc; chi : proc; data1 : list Z; data2 : list Z; out : list (role * string) }.

#[export] Instance pipe_eq_dec : EqDecision pipe.
Proof. solve_decision. Defined.
#[export] Instance role_eq_dec : EqDecision role.
Proof. solve_decision. Defined.
#[export] Instance call_eq_dec : EqDecision call.
Proof. solve_decision. Defined.
#[export] Instance proc_eq_dec : EqDecision proc.
Proof. solve_decision. Defined.
#[export] Instance conf_eq_dec : EqDecision conf.
Proof. solve_decision. Defined.

Definition get (r : role) (c : conf) : proc := match r with Parent => par c | Child => chi c end.
Definition put (r : role) (p : proc) (c : conf) : conf :=
  match r with
  | Parent => Conf p (chi c) (data1 c) (data2 c) (out c)
  | Child => Conf (par c) p (data1 c) (data2 c) (out c)
  end.
Definition data (p : pipe) (c : conf) : list Z := match p with P1 => data1 c | P2 => data2 c end.
Definition set_data (p : pipe) (d : list Z) (c : conf) : conf :=
  match p with
  | P1 => Conf (par c) (chi c) d (data2 c) (out c)
  | P2 => Conf (par c) (chi c) (data1 c) d (out c)
  end.

(** Somebody has the write ([w]) or the read end of [p] open. *)
Definition held (p : pipe) (w : bool) (c : conf) : bool :=
  bool_decide ((p, w) ∈ ends (par c)) || bool_decide ((p, w) ∈ ends (chi c)).

Definition PIPESIZE : nat := 512.

(** ** The program *)

Definition contentLen : nat := 12.
(** "hello world\n" *)
Definition hello : list Z := [104; 101; 108; 108; 111; 32; 119; 111; 114; 108; 100; 10].

Definition child_calls : list call :=
  [Close P1 true; Close P2 false; Read P1 contentLen; Say "%d: received ping\n";
   Write P2 hello; Close P1 false; Close P2 true; Exit 0].

Definition parent_calls : list call :=
  [Close P1 false; Close P2 true; Write P1 hello; Read P2 contentLen;
   Close P1 true; Close P2 false; Say "%d: received pong\n"; Exit 0].

Definition all_ends : list (pipe * bool) := [(P1, false); (P1, true); (P2, false); (P2, true)].

(** After [fork]: the child has copies of the parent's pipe ends.  When [fork]
    fails there is no child and the parent's next call is [exit(1)]. *)
Definition start (fork_ok : bool) (junk : list Z) : conf :=
  if fork_ok then Conf (Proc parent_calls all_ends junk) (Proc child_calls all_ends junk) [] [] []
  else Conf (Proc [Exit 1] all_ends junk) (Proc [] [] []) [] [] [].

(** ** System calls

    [read] takes what is there, up to [n] bytes, waits for data while somebody
    can still write, and returns nothing otherwise.  [write] fails without a
    reader and waits while there is no room.  [None]: the call waits, or the
    descriptor is not open. *)
Definition perform (r : role) (k : call) (rest : list call) (c : conf) : option conf :=
  let me := get r c in
  match k with
  | Close p w => Some (put r (Proc rest (filter (λ e, e ≠ (p, w)) (ends me)) (buf me)) c)
  | Read p n =>
      if bool_decide ((p, false) ∈ ends me) then
        match data p c with
        | [] => if held p true c then None else Some (put r (Proc rest (ends me) (buf me)) c)
        | d => Some (set_data p (drop n d)
                 (put r (Proc rest (ends me) (take n d ++ drop (length (take n d)) (buf me))) c))
        end
      else None
  | Write p bs =>
      if bool_decide ((p, true) ∈ ends me) then
        if negb (held p false c) then Some (put r (Proc rest (ends me) (buf me)) c)
        else if Nat.leb (length (data p c) + length bs) PIPESIZE
        then Some (set_data p (data p c ++ bs) (put r (Proc rest (ends me) (buf me)) c))
        else None
      else None
  | Say msg =>
      Some (Conf (par (put r (Proc rest (ends me) (buf me)) c)) (chi (put r (Proc rest (ends me) (buf me)) c))
              (data1 c) (data2 c) (out c ++ [(r, msg)]))
  | Exit _ => Some (put r (Proc [] [] (buf me)) c)
  end.

(** The step of one process, if it can take one. *)
Definition step_of (r : role) (c : conf) : option conf :=
  match todo (get r c) with
  | [] => None
  | k :: rest => perform r k rest c
  end.

Definition step (c c' : conf) : Prop := ∃ r, step_of r c = Some c'.

(** ** Every interleaving *)

Definition successors (c : conf) : list conf :=
  omap (λ r, step_of r c) [Parent; Child].

(** The configurations after [n] steps. *)
Fixpoint layer (n : nat) (cs : list conf) : list conf :=
  match n with
  | O => cs
  | S n => layer n (remove_dups (cs ≫= successors))
  end.

Lemma successors_step c c' : c' ∈ successors c ↔ step c c'.
Proof.
  unfold successors, step. rewrite list_elem_of_omap. split.
  - intros (r & _ & Hr). by exists r.
  - intros [r Hr]. exists r. split; [destruct r; set_solver|done].
Qed.

Lemma layer_complete n : ∀ c c' cs, c ∈ cs → nsteps step n c c' → c' ∈ layer n cs.
Proof.
  induction n as [|n IH]; intros c c' cs Hc Hn; inversion Hn as [|? ? c1 ? Hs Hr]; subst; [done|].
  cbn. apply (IH c1); [|done]. apply elem_of_remove_dups, list_elem_of_bind. exists c. by rewrite successors_step.
Qed.

(** What every run has to look like after [k] of its [n] steps: it is over
    exactly at the end, with [final] reached. *)
Definition on_course (n : nat) (final : conf → bool) (k : nat) (c : conf) : bool :=
  match successors c with
  | [] => bool_decide (k = n) && final c
  | _ => Nat.ltb k n
  end.

Lemma runs_complete n final c0 :
  forallb (λ k, forallb (on_course n final k) (layer k [c0])) (seq 0 (S n)) = true →
  ∀ k c, nsteps step k c0 c →
    (k < n)%nat ∧ (∃ c', step c c') ∨ k = n ∧ final c = true ∧ ∀ c', ¬ step c c'.
Proof.
  rewrite forallb_forall. intros Hall.
  assert (Hk : ∀ k c, (k ≤ n)%nat → nsteps step k c0 c → on_course n final k c = true).
  { intros k c Hle Hs. specialize (Hall k). rewrite <-list_elem_of_In, elem_of_seq, forallb_forall in Hall.
    apply Hall; [lia|]. apply list_elem_of_In. apply (layer_complete k c0); [set_solver|done]. }
  assert (Hle : ∀ k c, nsteps step k c0 c → (k ≤ n)%nat).
  { induction k as [|k IH]; intros c Hs; [lia|]. apply nsteps_inv_r in Hs as (c1 & Hs & Hstep).
    pose proof (IH c1 Hs) as Hle. specialize (Hk k c1 Hle Hs). unfold on_course in Hk.
    apply successors_step in Hstep. destruct (successors c1) as [|x l]; [by apply not_elem_of_nil in Hstep|].
    apply Nat.ltb_lt in Hk. lia. }
  intros k c Hs. specialize (Hk k c (Hle k c Hs) Hs). unfold on_course in Hk.
  destruct (successors c) as [|c' l] eqn:E.
  - apply andb_true_iff in Hk as [Hkn Hf]. apply bool_decide_eq_true in Hkn. right. split; [done|]. split; [done|].
    intros c' Hc'. apply successors_step in Hc'. rewrite E in Hc'. by apply not_elem_of_nil in Hc'.
  - left. split; [by apply Nat.ltb_lt|]. exists c'. apply successors_step. rewrite E. set_solver.
Qed.

(** ** The exchange *)

Definition finished (fork_ok : bool) (c : conf) : bool :=
  if fork_ok then
    bool_decide (c = Conf (Proc [] [] hello) (Proc [] [] hello) [] []
      [(Child, "%d: received ping\n"); (Parent, "%d: received pong\n")]%string)
  else bool_decide (out c = []) && bool_decide (todo (par c) = []).

(** C40: however the two processes are scheduled, the exchange completes: after
    any number of steps short of sixteen somebody can go on, and after sixteen
    both processes have exited with every pipe end closed and the pipes empty,
    each has the other's twelve bytes in its buffer, and "received ping" was
    printed by the child before "received pong" by the parent. *)
Theorem pingpong_completes k c :
  nsteps step k (start true (replicate contentLen 0)) c →
  (k < 16)%nat ∧ (∃ c', step c c') ∨ k = 16%nat ∧ finished true c = true ∧ ∀ c', ¬ step c c'.
Proof. apply (runs_complete 16 (finished true)). vm_compute. reflexivity. Qed.

(** When [fork] fails the parent exits, having printed nothing. *)
Lemma pingpong_no_fork k c :
  nsteps step k (start false (replicate contentLen 0)) c →
  (k < 1)%nat ∧ (∃ c', step c c') ∨ k = 1%nat ∧ finished false c = true ∧ ∀ c', ¬ step c c'.
Proof. apply (runs_complete 1 (finished false)). vm_compute. reflexivity. Qed.

Lemma pingpong_completes_witness :
  let c := start true (replicate contentLen 0) in nsteps step 0 c c ∧ ∃ c', step c c'.
Proof.
  split; [apply nsteps_O|].
  destruct (pingpong_completes 0 _ (nsteps_O _ _)) as [[_ Hs]|[Hk _]]; [exact Hs|discriminate].
Defined.
