(* ===== verification/Proc.v ===== *)
(** * The process table (kernel/proc.c of lab2, lab3 and lab4)

    Each lab adds something to [allocproc], [freeproc] and the set-up of a
    process's page table: a page shared with the process ("speed up system
    calls"), a second trapframe ("alarm"), a growth record ("superpages"), a
    trace mask.  What the labs have in common is here, over an interface ([Lab],
    with what it promises in [LabLaws]) for what they differ in; ProcLabs
    has the labs.  The allocator and the functions on page tables are used
    through what the stock kernel documents of them ([ProcEnv],
    [ProcEnvLaws]). *)

From S2P Require Import Prelude Memory Machine.

(** ** State *)

(** The fields of struct proc; [Ctx] are the words of [context]: ra, sp and
    the saved registers. *)
Inductive pfield :=
  | State | Pid | Parent | Name0 | Chan | Killed | Xstate | Kstack | Sz | Pagetable | Trapframe
  | Ctx (n : nat) | Usyscall | OrigTrapframe | Next | Ticks | TickCount | Run | TraceId.

#[export] Instance pfield_eq_dec : EqDecision pfield.
Proof. solve_decision. Defined.

Definition proc : Type := pfield → Z.

Definition upd (f : pfield) (v : Z) (p : proc) : proc := λ g, if decide (g = f) then v else p g.

(** The process table and the rest of the kernel. *)
Record pstate {P : Type} := PState { ptab : nat → proc; prest : P }.
Arguments pstate P : clear implicits.

Definition upd_proc {P} (k : nat) (p : proc) (x : pstate P) : pstate P :=
  PState _ (λ i, if Nat.eqb i k then p else ptab x i) (prest x).

(** Numbers of the stock headers. *)
Class ProcLayout := {
  NPROC : nat;
  UNUSED : Z; USED : Z;
  forkret : Z; trampoline : Z;
  UNUSED_USED : UNUSED ≠ USED;
}.

Section proc_ops.
Context `{Riscv, MemLayout, ProcLayout} {P : Type}.

Definition get (k : nat) (f : pfield) : M (kst (pstate P)) Z := getx (λ x, ptab x k f).
Definition set (k : nat) (f : pfield) (v : Z) : M (kst (pstate P)) unit :=
  modx (λ x, upd_proc k (upd f v (ptab x k)) x).

Definition plock (k : nat) : lock := ("proc", Z.of_nat k).

Definition proc_at (k : nat) (s : kst (pstate P)) : proc := ptab (ext s) k.
Definition with_proc (k : nat) (p : proc) (s : kst (pstate P)) : kst (pstate P) :=
  set_ext (upd_proc k p (ext s)) s.

(** ** The allocator and the page tables *)

(** Which pages have been handed out to callers of [kalloc] (the pages of page
    tables are not among them), and what each user page table maps: the page
    and the permissions at each address. *)
Class ProcEnv := {
  kalloc : M (kst (pstate P)) Z;
  kfree : Z → M (kst (pstate P)) unit;
  uvmcreate : M (kst (pstate P)) Z;
  mappages : Z → Z → Z → Z → Z → M (kst (pstate P)) Z;
  uvmunmap : Z → Z → Z → Z → M (kst (pstate P)) unit;
  uvmfree : Z → Z → M (kst (pstate P)) unit;
  allocpid : M (kst (pstate P)) Z;
  handed : P → gset Z;
  tables : P → gmap Z (gmap Z (Z * Z));
}.

Context `{!ProcEnv}.

(** The pages a table maps.  A table holds its pages when each is handed out
    and none is mapped twice: they can be given back, once. *)
Definition pages_of (μ : gmap Z (Z * Z)) : gset Z := map_img (fst <$> μ).

Definition holds_pages (h : gset Z) (μ : gmap Z (Z * Z)) : Prop :=
  pages_of μ ⊆ h ∧
  ∀ va va' e e', μ !! va = Some e → μ !! va' = Some e' → e.1 = e'.1 → va = va'.

Definition in_handed (h : gset Z) (b : Z) : Prop := ∃ p, p ∈ h ∧ in_range p 4096 b.

(** A stock function changes neither the process table nor the pages that
    stay handed out. *)
Record env_step (s s' : kst (pstate P)) (h : gset Z) (t : gmap Z (gmap Z (Z * Z))) : Prop := {
  es_ptab : ptab (ext s') = ptab (ext s);
  es_held : held s' = held s;
  es_console : console s' = console s;
  es_handed : handed (prest (ext s')) = h;
  es_tables : tables (prest (ext s')) = t;
  es_mem : agree_on (in_handed (h ∩ handed (prest (ext s)))) (kmem s) (kmem s');
}.

(** The documented behaviour of the stock functions; [uvmfree] gives back the
    user pages with the table. *)
Class ProcEnvLaws := {
  kalloc_law s : ∃ p s', kalloc s = Ok p s' ∧
    (p = 0 ∧ s' = s ∨
     0 < p ∧ (p ∉ handed (prest (ext s))) ∧
     (∀ q, q ∈ handed (prest (ext s)) → p + 4096 ≤ q ∨ q + 4096 ≤ p) ∧
     env_step s s' ({[p]} ∪ handed (prest (ext s))) (tables (prest (ext s))));
  kfree_law s p : p ∈ handed (prest (ext s)) →
    ∃ s', kfree p s = Ok tt s' ∧
      env_step s s' (handed (prest (ext s)) ∖ {[p]}) (tables (prest (ext s)));
  uvmcreate_law s : ∃ pt s', uvmcreate s = Ok pt s' ∧
    (pt = 0 ∧ s' = s ∨
     pt ≠ 0 ∧ tables (prest (ext s)) !! pt = None ∧
       env_step s s' (handed (prest (ext s))) (<[pt := ∅]> (tables (prest (ext s)))));
  mappages_law s pt μ va pa perm :
    tables (prest (ext s)) !! pt = Some μ → μ !! va = None →
    ∃ r s', mappages pt va PGSIZE pa perm s = Ok r s' ∧
      (r = 0 ∧ env_step s s' (handed (prest (ext s)))
                 (<[pt := <[va := (pa, perm)]> μ]> (tables (prest (ext s)))) ∨
       r = -1 ∧ env_step s s' (handed (prest (ext s))) (tables (prest (ext s))));
  uvmunmap_law s pt μ va :
    tables (prest (ext s)) !! pt = Some μ → is_Some (μ !! va) →
    ∃ s', uvmunmap pt va 1 0 s = Ok tt s' ∧
      env_step s s' (handed (prest (ext s))) (<[pt := delete va μ]> (tables (prest (ext s))));
  uvmunmap_absent s pt μ va :
    tables (prest (ext s)) !! pt = Some μ → μ !! va = None →
    ∃ msg s', uvmunmap pt va 1 0 s = Panic msg s';
  uvmfree_law s pt μ sz :
    tables (prest (ext s)) !! pt = Some μ →
    (∀ va, is_Some (μ !! va) ↔ va mod 4096 = 0 ∧ 0 ≤ va < sz) →
    holds_pages (handed (prest (ext s))) μ →
    ∃ s', uvmfree pt sz s = Ok tt s' ∧
      env_step s s' (handed (prest (ext s)) ∖ pages_of μ) (delete pt (tables (prest (ext s))));
  allocpid_law s : ∃ pid s', allocpid s = Ok pid s' ∧ 0 < pid < 2 ^ 31 ∧
    env_step s s' (handed (prest (ext s))) (tables (prest (ext s)));
}.

(** ** What the labs have in common *)

(** The search of [allocproc]: the first unused process, with its lock held. *)
Definition find_body (k : nat) : M (kst (pstate P)) (nat + option nat) :=
  if Nat.ltb k NPROC then
    acquire (plock k);;
    st ← get k State;
    if st =? UNUSED then mret (inr (Some k))
    else
      release (plock k);;
      mret (inl (S k))
  else mret (inr None).

Definition find_unused : M (kst (pstate P)) (option nat) := loop (S NPROC) find_body 0%nat.

(** [if(p->f) kfree((void* )p->f); p->f = 0;] *)
Definition free_page (k : nat) (f : pfield) : M (kst (pstate P)) unit :=
  v ← get k f;
  (if negb (v =? 0) then kfree v else mret tt);;
  set k f 0.

Fixpoint clear_fields (k : nat) (fs : list pfield) : M (kst (pstate P)) unit :=
  match fs with
  | [] => mret tt
  | f :: fs => set k f 0;; clear_fields k fs
  end.

(** The fields [freeproc] resets after the pages. *)
Definition reset : list pfield := [Pagetable; Sz; Pid; Parent; Name0; Chan; Killed; Xstate].

(** [memset(&p->context, 0, sizeof(p->context))] and the two words after it. *)
Definition clear_context (k : nat) : M (kst (pstate P)) unit :=
  modx (λ x, upd_proc k (λ f, match f with Ctx _ => 0 | _ => ptab x k f end) x).

Definition set_context (k : nat) : M (kst (pstate P)) unit :=
  clear_context k;;
  set k (Ctx 0) forkret;;
  kstack ← get k Kstack;
  set k (Ctx 1) (u64 (kstack + PGSIZE)).
End proc_ops.
Arguments ProcEnv P : clear implicits.

(** ** The search *)

Section find.
Context `{Riscv, MemLayout, ProcLayout} {P : Type}.

Definition unlocked_procs (s : kst (pstate P)) : Prop := ∀ k, (k < NPROC)%nat → plock k ∉ held s.

Lemma find_loop (s : kst (pstate P)) k d : ∀ fuel i,
  unlocked_procs s → (k < NPROC)%nat → proc_at k s State = UNUSED →
  (∀ j, (i ≤ j < k)%nat → proc_at j s State ≠ UNUSED) →
  (i + d = k)%nat → (d < fuel)%nat →
  loop fuel find_body i s = Ok (Some k) (set_held ({[plock k]} ∪ held s) s).
Proof.
  induction d as [|d IH]; intros [|fuel] i Hul Hk Hu Hno Hi Hf; try lia; rewrite loop_S;
    unfold find_body at 2; rewrite (proj2 (Nat.ltb_lt i NPROC)) by lia;
    rewrite bind_assoc, (bind_Ok _ _ _ _ _ (acquire_ok _ s (Hul i ltac:(lia))));
    rewrite bind_assoc; erewrite bind_Ok by reflexivity; cbv beta;
    change (ptab (ext _) i State) with (proc_at i s State).
  - replace i with k by lia. rewrite Hu, Z.eqb_refl. reflexivity.
  - rewrite (proj2 (Z.eqb_neq _ UNUSED)) by (apply Hno; lia). rewrite bind_assoc.
    destruct s as [m h c x]. unfold set_held; cbn [kmem held console ext].
    rewrite (bind_Ok _ _ _ _ _ (release_ok _ _ _ _ _ (Hul i ltac:(lia)))).
    apply (IH fuel (S i)); try done; try lia. intros j Hj. apply Hno. lia.
Qed.

Lemma find_none (s : kst (pstate P)) d : ∀ fuel i,
  unlocked_procs s → (∀ j, (j < NPROC)%nat → proc_at j s State ≠ UNUSED) →
  (i + d = NPROC)%nat → (d < fuel)%nat → loop fuel find_body i s = Ok None s.
Proof.
  induction d as [|d IH]; intros [|fuel] i Hul Hno Hi Hf; try lia; rewrite loop_S; unfold find_body at 2.
  - rewrite (proj2 (Nat.ltb_ge i NPROC)) by lia. reflexivity.
  - rewrite (proj2 (Nat.ltb_lt i NPROC)) by lia.
    rewrite bind_assoc, (bind_Ok _ _ _ _ _ (acquire_ok _ s (Hul i ltac:(lia)))).
    rewrite bind_assoc. erewrite bind_Ok by reflexivity. cbv beta.
    change (ptab (ext _) i State) with (proc_at i s State).
    rewrite (proj2 (Z.eqb_neq _ UNUSED)) by (apply Hno; lia). rewrite bind_assoc.
    destruct s as [m h c x]. unfold set_held; cbn [kmem held console ext].
    rewrite (bind_Ok _ _ _ _ _ (release_ok _ _ _ _ _ (Hul i ltac:(lia)))).
    apply (IH fuel (S i)); done || lia.
Qed.

(** The search finds the first unused process, or none and keeps the state. *)
Lemma find_unused_first (s : kst (pstate P)) k :
  unlocked_procs s → (k < NPROC)%nat → proc_at k s State = UNUSED →
  (∀ j, (j < k)%nat → proc_at j s State ≠ UNUSED) →
  find_unused s = Ok (Some k) (set_held ({[plock k]} ∪ held s) s).
Proof. intros. apply (find_loop s k k); try done; try lia. intros j Hj. auto with lia. Qed.

Lemma find_unused_none (s : kst (pstate P)) :
  unlocked_procs s → (∀ j, (j < NPROC)%nat → proc_at j s State ≠ UNUSED) → find_unused s = Ok None s.
Proof. intros. apply (find_none s NPROC); done || lia. Qed.
End find.

(** ** Steps on one process *)

Section steps.
Context `{Riscv, MemLayout, ProcLayout} {P : Type} `{!ProcEnv P, !ProcEnvLaws}.

Implicit Types s : kst (pstate P).

Definition hnd s : gset Z := handed (prest (ext s)).
Definition tbl s : gmap Z (gmap Z (Z * Z)) := tables (prest (ext s)).

(** From [s] to [s'] process [k] becomes [p], the others stay, and the pages
    handed out and the tables become [h] and [t]; pages handed out before and
    after keep their contents. *)
Record pstep (k : nat) s s' (p : proc) (h : gset Z) (t : gmap Z (gmap Z (Z * Z))) : Prop := {
  ps_proc f : proc_at k s' f = p f;
  ps_others j f : j ≠ k → proc_at j s' f = proc_at j s f;
  ps_held : held s' = held s;
  ps_handed : hnd s' = h;
  ps_tables : tbl s' = t;
  ps_mem : agree_on (in_handed (h ∩ hnd s)) (kmem s) (kmem s');
}.

Lemma env_pstep k s s' h t : env_step s s' h t → pstep k s s' (proc_at k s) h t.
Proof.
  intros [Hp Hh _ Hhd Ht Hm]. constructor; unfold proc_at; intros; by rewrite ?Hp.
Qed.

Lemma pstep_trans k s s1 s2 p1 p2 h1 h2 t1 t2 :
  pstep k s s1 p1 h1 t1 → pstep k s1 s2 p2 h2 t2 → h2 ∩ hnd s ⊆ h1 → pstep k s s2 p2 h2 t2.
Proof.
  intros [_ Ho1 Hh1 Hd1 _ Hm1] [Hp2 Ho2 Hh2 Hd2 Ht2 Hm2] Hsub. constructor; try done.
  - intros j f Hj. by rewrite Ho2, Ho1.
  - by rewrite Hh2, Hh1.
  - intros b (q & Hq & Hb). apply elem_of_intersection in Hq as [Hq2 Hq].
    pose proof (Hsub q ltac:(apply elem_of_intersection; done)) as Hq1.
    rewrite Hm2, Hm1; [done| |]; exists q; (split; [apply elem_of_intersection|done]); by rewrite ?Hd1.
Qed.

Lemma pstep_ext k s s' p q h t : (∀ f, p f = q f) → pstep k s s' p h t → pstep k s s' q h t.
Proof. intros Hpq []. constructor; try done. intros f. by rewrite <-Hpq. Qed.

Lemma upd_same f v p : upd f v p f = v.
Proof. unfold upd. by rewrite decide_True. Qed.

Lemma upd_other f v p g : g ≠ f → upd f v p g = p g.
Proof. intros Hg. unfold upd. by rewrite decide_False. Qed.

Lemma upd_pstep k s s1 s2 f v p h h2 t t2 :
  pstep k s s1 p h t → pstep k s1 s2 (upd f v (proc_at k s1)) h2 t2 → h2 ∩ hnd s ⊆ h →
  pstep k s s2 (upd f v p) h2 t2.
Proof.
  intros Hp1 Hp2 Hsub. eapply pstep_ext; [|by eapply pstep_trans]. intros g. unfold upd.
  case_decide; [done|]. apply Hp1.
Qed.

Lemma pstep_refl k s : pstep k s s (proc_at k s) (hnd s) (tbl s).
Proof. by constructor. Qed.

Lemma with_proc_at k p s f : proc_at k (with_proc k p s) f = p f.
Proof. unfold proc_at, with_proc; cbn. by rewrite Nat.eqb_refl. Qed.

Lemma with_proc_pstep k p s : pstep k s (with_proc k p s) p (hnd s) (tbl s).
Proof.
  constructor; try done.
  - apply with_proc_at.
  - intros j f Hj. unfold proc_at, with_proc; cbn. by rewrite (proj2 (Nat.eqb_neq j k)).
Qed.

Lemma get_run k f s : get k f s = Ok (proc_at k s f) s.
Proof. done. Qed.
Lemma set_run k f v s : set k f v s = Ok tt (with_proc k (upd f v (proc_at k s)) s).
Proof. done. Qed.

Lemma set_pstep k f v s :
  ∃ s', set k f v s = Ok tt s' ∧ pstep k s s' (upd f v (proc_at k s)) (hnd s) (tbl s).
Proof. eexists. split; [apply set_run|apply with_proc_pstep]. Qed.

(** All the fields of a list set to zero. *)
Definition zeroed (fs : list pfield) (p : proc) : proc := λ g, if decide (g ∈ fs) then 0 else p g.

Lemma zeroed_pstep k s s1 s2 fs p h h2 t t2 :
  pstep k s s1 p h t → pstep k s1 s2 (zeroed fs (proc_at k s1)) h2 t2 → h2 ∩ hnd s ⊆ h →
  pstep k s s2 (zeroed fs p) h2 t2.
Proof.
  intros Hp1 Hp2 Hsub. eapply pstep_ext; [|by eapply pstep_trans]. intros g. unfold zeroed.
  case_decide; [done|]. apply Hp1.
Qed.

Lemma clear_pstep fs : ∀ k s,
  ∃ s', clear_fields k fs s = Ok tt s' ∧ pstep k s s' (zeroed fs (proc_at k s)) (hnd s) (tbl s).
Proof.
  induction fs as [|f fs IH]; intros k s.
  { exists s. split; [done|]. eapply pstep_ext, pstep_refl. intros g. unfold zeroed.
    rewrite decide_False; [done|]. by apply not_elem_of_nil. }
  destruct (set_pstep k f 0 s) as (s1 & Hr1 & Hp1). destruct (IH k s1) as (s2 & Hr2 & Hp2).
  exists s2. cbn [clear_fields]. rewrite (bind_Ok _ _ _ _ _ Hr1). split; [done|].
  rewrite (ps_handed _ _ _ _ _ _ Hp1), (ps_tables _ _ _ _ _ _ Hp1) in Hp2.
  eapply pstep_ext; [|by eapply pstep_trans; [apply Hp1|apply Hp2|set_solver]].
  intros g. unfold zeroed. rewrite (ps_proc _ _ _ _ _ _ Hp1). unfold upd.
  repeat case_decide; subst; try done; set_solver.
Qed.

(** A page the process holds is given back and forgotten. *)
Lemma free_page_pstep k f s :
  proc_at k s f = 0 ∨ proc_at k s f ∈ hnd s →
  ∃ s', free_page k f s = Ok tt s' ∧
    pstep k s s' (upd f 0 (proc_at k s)) (if proc_at k s f =? 0 then hnd s else hnd s ∖ {[proc_at k s f]}) (tbl s).
Proof.
  intros Hv. unfold free_page. rewrite (bind_Ok _ _ _ _ _ (get_run k f s)).
  destruct (proc_at k s f =? 0) eqn:E; cbn [negb].
  - destruct (set_pstep k f 0 s) as (s' & Hr & Hp). exists s'. by erewrite bind_Ok by reflexivity.
  - destruct Hv as [Hv|Hv]; [bool_to_Prop; lia|].
    destruct (kfree_law s _ Hv) as (s1 & Hr1 & Hs1). apply (env_pstep k) in Hs1.
    destruct (set_pstep k f 0 s1) as (s2 & Hr2 & Hp2). exists s2.
    rewrite (bind_Ok _ _ _ _ _ Hr1). split; [done|].
    rewrite (ps_handed _ _ _ _ _ _ Hs1), (ps_tables _ _ _ _ _ _ Hs1) in Hp2.
    eapply pstep_ext; [|by eapply pstep_trans; [apply Hs1|apply Hp2|set_solver]].
    intros g. unfold upd. case_decide; [done|]. apply (ps_proc _ _ _ _ _ _ Hs1).
Qed.

(** A page asked for and stored in a field: null when there is none. *)
Lemma alloc_page_pstep k f s :
  ∃ v s', (∀ B (K : Z → M (kst (pstate P)) B), (v ← kalloc; set k f v;; K v) s = K v s') ∧
    pstep k s s' (upd f v (proc_at k s)) (if v =? 0 then hnd s else {[v]} ∪ hnd s) (tbl s) ∧
    (v ≠ 0 → 0 < v ∧ (v ∉ hnd s) ∧ ∀ q, q ∈ hnd s → v + 4096 ≤ q ∨ q + 4096 ≤ v).
Proof.
  destruct (kalloc_law s) as (v & s1 & Hr1 & [[-> ->]|(Hv & Hn & Hd & Hs1)]).
  - destruct (set_pstep k f 0 s) as (s' & Hr & Hp). exists 0, s'. split; [|done].
    intros B K. by rewrite (bind_Ok _ _ _ _ _ Hr1), (bind_Ok _ _ _ _ _ Hr).
  - apply (env_pstep k) in Hs1.
    destruct (set_pstep k f v s1) as (s2 & Hr2 & Hp2). exists v, s2. split.
    { intros B K. by rewrite (bind_Ok _ _ _ _ _ Hr1), (bind_Ok _ _ _ _ _ Hr2). }
    rewrite (proj2 (Z.eqb_neq v 0)) by lia. split; [|done].
    rewrite (ps_handed _ _ _ _ _ _ Hs1), (ps_tables _ _ _ _ _ _ Hs1) in Hp2.
    eapply pstep_ext; [|by eapply pstep_trans; [apply Hs1|apply Hp2|set_solver]].
    intros g. unfold upd. case_decide; [done|]. apply (ps_proc _ _ _ _ _ _ Hs1).
Qed.

(** ** Functions on page tables *)

Definition quiet s s' t : Prop := env_step s s' (hnd s) t.

Lemma quiet_trans s s1 s2 t1 t2 : quiet s s1 t1 → quiet s1 s2 t2 → quiet s s2 t2.
Proof.
  intros [Hp1 Hh1 Hc1 Hd1 _ Hm1] [Hp2 Hh2 Hc2 Hd2 Ht2 Hm2]. fold (hnd s1) in *. fold (hnd s) in *.
  rewrite Hd1 in *. constructor; try congruence.
  by transitivity (kmem s1).
Qed.

Lemma quiet_env_step s s1 s2 h t1 t2 :
  h ⊆ hnd s → quiet s s1 t1 → env_step s1 s2 h t2 → env_step s s2 h t2.
Proof.
  intros Hsub [Hp1 Hh1 Hc1 Hd1 _ Hm1] [Hp2 Hh2 Hc2 Hd2 Ht2 Hm2]. fold (hnd s1) in *. fold (hnd s) in *.
  rewrite Hd1 in *. constructor; try congruence. transitivity (kmem s1); [|done].
  eapply agree_on_mono; [done|]. intros b (q & Hq & Hb). exists q. set_solver.
Qed.

Lemma quiet_tbl s s' t : quiet s s' t → tbl s' = t.
Proof. intros []. done. Qed.

(** Since [s0] the table [pt] has been made, and maps [μ]. *)
Definition made s0 s (pt : Z) (μ : gmap Z (Z * Z)) : Prop :=
  pt ≠ 0 ∧ tbl s0 !! pt = None ∧ quiet s0 s (<[pt := μ]> (tbl s0)).

Lemma made_lookup s0 s pt μ : made s0 s pt μ → tbl s !! pt = Some μ.
Proof. intros (_ & _ & Hq). rewrite (quiet_tbl _ _ _ Hq). apply lookup_insert_eq. Qed.

Lemma made_step s0 s s' pt μ μ' :
  made s0 s pt μ → quiet s s' (<[pt := μ']> (tbl s)) → made s0 s' pt μ'.
Proof.
  intros (Hpt & Hn & Hq) Hq'. split; [done|]. split; [done|].
  rewrite (quiet_tbl _ _ _ Hq), insert_insert_eq in Hq'. by eapply quiet_trans.
Qed.

Lemma uvmcreate_made s :
  (uvmcreate s = Ok 0 s) ∨ ∃ pt s', uvmcreate s = Ok pt s' ∧ made s s' pt ∅.
Proof.
  destruct (uvmcreate_law s) as (pt & s' & Hr & [[-> ->]|(Hpt & Hn & Hq)]); [by left|right].
  by exists pt, s'.
Qed.

Lemma mappages_made s0 s pt μ va pa perm :
  made s0 s pt μ → μ !! va = None →
  ∃ r s', mappages pt va PGSIZE pa perm s = Ok r s' ∧
    (r = 0 ∧ made s0 s' pt (<[va := (pa, perm)]> μ) ∨ r = -1 ∧ made s0 s' pt μ).
Proof.
  intros Hm Hva. destruct (mappages_law s pt μ va pa perm (made_lookup _ _ _ _ Hm) Hva)
    as (r & s' & Hr & [[-> Hq]|[-> Hq]]); exists r, s' || eexists _, s'; (split; [done|]).
  - left. split; [done|]. by eapply made_step.
  - right. split; [done|]. apply (made_step s0 s s' pt μ); [done|].
    unfold quiet. change (tables (prest (ext s))) with (tbl s) in Hq.
    by rewrite insert_id by (by eapply made_lookup).
Qed.

Lemma uvmunmap_made s0 s pt μ va :
  made s0 s pt μ → is_Some (μ !! va) →
  ∃ s', uvmunmap pt va 1 0 s = Ok tt s' ∧ made s0 s' pt (delete va μ).
Proof.
  intros Hm Hva. destruct (uvmunmap_law s pt μ va (made_lookup _ _ _ _ Hm) Hva) as (s' & Hr & Hq).
  exists s'. split; [done|]. by eapply made_step.
Qed.

Lemma pages_of_empty : pages_of ∅ = ∅.
Proof. unfold pages_of. by rewrite fmap_empty, map_img_empty_L. Qed.

Lemma holds_pages_empty h : holds_pages h ∅.
Proof. split; [rewrite pages_of_empty; set_solver|done]. Qed.

Lemma uvmfree_made s0 s pt :
  made s0 s pt ∅ → ∃ s', uvmfree pt 0 s = Ok tt s' ∧ quiet s0 s' (tbl s0).
Proof.
  intros Hm. destruct (uvmfree_law s pt ∅ 0 (made_lookup _ _ _ _ Hm)) as (s' & Hr & Hq).
  { intros va. rewrite lookup_empty. split; [by intros []|intros; lia]. }
  { apply holds_pages_empty. }
  rewrite pages_of_empty, difference_empty_L in Hq. exists s'. split; [done|]. destruct Hm as (_ & Hn & Hq0). change (tables (prest (ext s))) with (tbl s) in Hq.
  rewrite (quiet_tbl _ _ _ Hq0), delete_insert_id in Hq by done. by eapply quiet_trans.
Qed.

End steps.


(** ** A lab *)

Section lab.
Context `{Riscv, MemLayout, ProcLayout} {P : Type} `{!ProcEnv P}.
Implicit Types s : kst (pstate P).

(** What the labs differ in: the field that holds the second page of a
    process, what is written to that page, the page table of a new process and
    how it is taken apart, the fields [freeproc] clears at its end, and those
    [allocproc] clears at its end. *)
Class Lab := {
  second : pfield;
  publish : nat → M (kst (pstate P)) unit;
  proc_pagetable : nat → M (kst (pstate P)) Z;
  proc_freepagetable : Z → Z → M (kst (pstate P)) unit;
  last : list pfield;
  init : list pfield;
}.

Context `{lab : !Lab}.

Definition freeproc (k : nat) : M (kst (pstate P)) unit :=
  free_page k Trapframe;;
  free_page k second;;
  pt ← get k Pagetable;
  (if negb (pt =? 0) then sz ← get k Sz; proc_freepagetable pt sz else mret tt);;
  clear_fields k reset;;
  set k State UNUSED;;
  clear_fields k last.

(** Giving up an allocation that failed. *)
Definition abandon (k : nat) : M (kst (pstate P)) (option nat) :=
  freeproc k;;
  release (plock k);;
  mret None.

(** [allocproc] from "An empty user page table" on. *)
Definition allocproc_table (k : nat) : M (kst (pstate P)) (option nat) :=
  pt ← proc_pagetable k;
  set k Pagetable pt;;
  if pt =? 0 then abandon k
  else
    set_context k;;
    clear_fields k init;;
    mret (Some k).

(** [allocproc] after its label [found]. *)
Definition allocproc_found (k : nat) : M (kst (pstate P)) (option nat) :=
  pid ← allocpid;
  set k Pid pid;;
  set k State USED;;
  tf ← kalloc;
  set k Trapframe tf;;
  if tf =? 0 then abandon k
  else
    v ← kalloc;
    set k second v;;
    if v =? 0 then abandon k
    else
      publish k;;
      allocproc_table k.

Definition allocproc : M (kst (pstate P)) (option nat) :=
  found ← find_unused;
  match found with
  | None => mret None
  | Some k => allocproc_found k
  end.

(** What the proofs use of a lab: [mapped tf v] is what the page table of a
    new process maps, [user_table] the tables that can be taken apart,
    [user_part] what of a table are the process's own pages,
    [published] what the second page holds, and [table_panics] how the set-up
    of a page table can stop the kernel. *)
Class LabLaws := {
  mapped : Z → Z → gmap Z (Z * Z);
  user_table : gmap Z (Z * Z) → Z → Prop;
  user_part : gmap Z (Z * Z) → gmap Z (Z * Z);
  published : mem → Z → Z → Prop;
  table_panics : nat → kst (pstate P) → Prop;
  second_cases : second = Usyscall ∨ second = OrigTrapframe;
  init_fields f : f ∈ init → f = Ticks ∨ f = TickCount ∨ f = Run;
  last_fields f : f ∈ last → f = Next;
  proc_pagetable_law k s :
    (∃ pt s', proc_pagetable k s = Ok pt s' ∧
       made s s' pt (mapped (proc_at k s Trapframe) (proc_at k s second))) ∨
    (∃ s', proc_pagetable k s = Ok 0 s' ∧ quiet s s' (tbl s)) ∨
    (∃ msg s', proc_pagetable k s = Panic msg s' ∧ table_panics k s);
  proc_freepagetable_law s pt μ sz :
    tbl s !! pt = Some μ → user_table μ sz → holds_pages (hnd s) (user_part μ) →
    ∃ s', proc_freepagetable pt sz s = Ok tt s' ∧
      env_step s s' (hnd s ∖ pages_of (user_part μ)) (delete pt (tbl s));
  mapped_user_table tf v : user_table (mapped tf v) 0;
  mapped_user_part tf v : user_part (mapped tf v) = ∅;
  publish_law k s : 0 < proc_at k s Pid < 2 ^ 31 →
    ∃ m, publish k s = Ok tt (set_mem m s) ∧
      agree_on (λ b, ¬ in_range (proc_at k s second) 4096 b) (kmem s) m ∧
      published m (proc_at k s second) (proc_at k s Pid);
  published_ext m m' v pid :
    agree_on (in_range v 4096) m m' → published m v pid → published m' v pid;
}.

Context `{!ProcEnvLaws, laws : !LabLaws}.

(** The second page's field is none of the others. *)
Ltac field := let E := fresh in destruct second_cases as [E|E]; rewrite ?E; set_solver.

(** ** Freeing *)

(** What [freeproc] makes of a process. *)
Definition freed (p : proc) : proc :=
  zeroed last (upd State UNUSED (zeroed (Trapframe :: second :: reset) p)).

Definition without (v : Z) (h : gset Z) : gset Z := if v =? 0 then h else h ∖ {[v]}.

Lemma without_sub v h : without v h ⊆ h.
Proof. unfold without. destruct (v =? 0); set_solver. Qed.

(** The page table of a process, if it has one, can be taken apart when [h]
    are the pages handed out. *)
Definition table_held (h : gset Z) (k : nat) s : Prop :=
  proc_at k s Pagetable = 0 ∨
  ∃ μ, tbl s !! proc_at k s Pagetable = Some μ ∧ user_table μ (proc_at k s Sz) ∧ holds_pages h (user_part μ).

(** A process [freeproc] can take apart. *)
Record proc_ok (k : nat) s : Prop := {
  pk_trapframe : proc_at k s Trapframe = 0 ∨ proc_at k s Trapframe ∈ hnd s;
  pk_second : proc_at k s second = 0 ∨ proc_at k s second ∈ hnd s;
  pk_distinct : proc_at k s Trapframe = proc_at k s second → proc_at k s second = 0;
  pk_pagetable : table_held (without (proc_at k s second) (without (proc_at k s Trapframe) (hnd s))) k s;
}.

(** The process's own pages, those its table maps for user space. *)
Definition user_pages (k : nat) s : gset Z :=
  if proc_at k s Pagetable =? 0 then ∅
  else match tbl s !! proc_at k s Pagetable with Some μ => pages_of (user_part μ) | None => ∅ end.

Lemma user_pages_none k s : proc_at k s Pagetable = 0 → user_pages k s = ∅.
Proof. unfold user_pages. by intros ->. Qed.

(** The page table of a process, if it has one, freed with the user pages. *)
Lemma free_table k s :
  table_held (hnd s) k s →
  ∃ s', (pt ← get k Pagetable;
         if negb (pt =? 0) then sz ← get k Sz; proc_freepagetable pt sz else mret tt) s = Ok tt s' ∧
    env_step s s' (hnd s ∖ user_pages k s)
      (if proc_at k s Pagetable =? 0 then tbl s else delete (proc_at k s Pagetable) (tbl s)).
Proof.
  intros Hpt. rewrite (bind_Ok _ _ _ _ _ (get_run k Pagetable s)). unfold user_pages.
  destruct (proc_at k s Pagetable =? 0) eqn:E; cbn [negb]; [exists s; by rewrite difference_empty_L|].
  destruct Hpt as [Hpt|(μ & Hμ & Hok & Hh)]; [bool_to_Prop; lia|].
  rewrite (bind_Ok _ _ _ _ _ (get_run k Sz s)), Hμ. by eapply proc_freepagetable_law.
Qed.

(** The pages of a process given back. *)
Lemma free_pages_pstep k s :
  proc_ok k s →
  ∃ s', (∀ B (K : M (kst (pstate P)) B), (free_page k Trapframe;; free_page k second;; K) s = K s') ∧
    pstep k s s' (upd second 0 (upd Trapframe 0 (proc_at k s)))
      (without (proc_at k s second) (without (proc_at k s Trapframe) (hnd s))) (tbl s).
Proof.
  intros [Htf Hus Hne _]. destruct (free_page_pstep k Trapframe s Htf) as (s1 & Hr1 & Hp1).
  change (if _ =? 0 then _ else _) with (without (proc_at k s Trapframe) (hnd s)) in Hp1 at 1.
  assert (Hf : proc_at k s1 second = proc_at k s second).
  { rewrite (ps_proc _ _ _ _ _ _ Hp1). apply upd_other. field. }
  destruct (free_page_pstep k second s1) as (s2 & Hr2 & Hp2).
  { rewrite Hf, (ps_handed _ _ _ _ _ _ Hp1). destruct Hus as [?|Hus]; [by left|]. unfold without.
    destruct (proc_at k s Trapframe =? 0) eqn:E; [by right|]. bool_to_Prop.
    destruct (decide (proc_at k s Trapframe = proc_at k s second)) as [He|He]; [left; auto|right; set_solver]. }
  change (if _ =? 0 then _ else _) with (without (proc_at k s1 second) (hnd s1)) in Hp2 at 1.
  rewrite Hf, (ps_handed _ _ _ _ _ _ Hp1), (ps_tables _ _ _ _ _ _ Hp1) in Hp2.
  exists s2. split; [intros B K; by rewrite (bind_Ok _ _ _ _ _ Hr1), (bind_Ok _ _ _ _ _ Hr2)|].
  eapply upd_pstep; [done|done|]. pose proof (without_sub (proc_at k s second) (without (proc_at k s Trapframe) (hnd s))). set_solver.
Qed.

(** The fields reset. *)
Lemma reset_pstep k s :
  ∃ s', (clear_fields k reset;; set k State UNUSED;; clear_fields k last) s = Ok tt s' ∧
    pstep k s s' (zeroed last (upd State UNUSED (zeroed reset (proc_at k s)))) (hnd s) (tbl s).
Proof.
  destruct (clear_pstep reset k s) as (s1 & Hr1 & Hp1). destruct (set_pstep k State UNUSED s1) as (s2 & Hr2 & Hp2).
  destruct (clear_pstep last k s2) as (s3 & Hr3 & Hp3). exists s3.
  rewrite (bind_Ok _ _ _ _ _ Hr1), (bind_Ok _ _ _ _ _ Hr2). split; [done|].
  rewrite (ps_handed _ _ _ _ _ _ Hp1), (ps_tables _ _ _ _ _ _ Hp1) in Hp2.
  rewrite (ps_handed _ _ _ _ _ _ Hp2), (ps_tables _ _ _ _ _ _ Hp2) in Hp3.
  eapply zeroed_pstep; [eapply upd_pstep; [apply Hp1|apply Hp2|]|apply Hp3|]; set_solver.
Qed.

Lemma freeproc_pstep k s :
  proc_ok k s →
  ∃ s', freeproc k s = Ok tt s' ∧
    pstep k s s' (freed (proc_at k s))
      (without (proc_at k s second) (without (proc_at k s Trapframe) (hnd s)) ∖ user_pages k s)
      (if proc_at k s Pagetable =? 0 then tbl s else delete (proc_at k s Pagetable) (tbl s)).
Proof.
  intros Hok. unfold freeproc. destruct (free_pages_pstep k s Hok) as (s1 & Hr1 & Hp1). rewrite Hr1, <-bind_assoc.
  assert (Hf : ∀ f, f ≠ Trapframe → f ≠ second → proc_at k s1 f = proc_at k s f).
  { intros f Hf Hf'. by rewrite (ps_proc _ _ _ _ _ _ Hp1), !upd_other. }
  assert (Hu : user_pages k s1 = user_pages k s).
  { unfold user_pages. by rewrite !Hf, (ps_tables _ _ _ _ _ _ Hp1) by (try done; field). }
  destruct (free_table k s1) as (s2 & Hr2 & Hp2).
  { unfold table_held. rewrite !Hf, (ps_tables _ _ _ _ _ _ Hp1), (ps_handed _ _ _ _ _ _ Hp1) by (try done; field). apply Hok. }
  rewrite Hu in Hp2. apply (env_pstep k) in Hp2. rewrite Hf, (ps_tables _ _ _ _ _ _ Hp1), (ps_handed _ _ _ _ _ _ Hp1) in Hp2 by (try done; field).
  destruct (reset_pstep k s2) as (s3 & Hr3 & Hp3). exists s3. rewrite (bind_Ok _ _ _ _ _ Hr2). split; [done|].
  rewrite (ps_handed _ _ _ _ _ _ Hp2), (ps_tables _ _ _ _ _ _ Hp2) in Hp3.
  pose proof (pstep_trans _ _ _ _ _ _ _ _ _ _ Hp1 Hp2 ltac:(set_solver)) as Hp12.
  eapply pstep_ext; [|eapply pstep_trans; [apply Hp12|apply Hp3|set_solver]].
  intros f. unfold freed, zeroed, upd. rewrite (ps_proc _ _ _ _ _ _ Hp12), (ps_proc _ _ _ _ _ _ Hp1). unfold upd.
  repeat case_decide; subst; try done; set_solver.
Qed.

(** ** Allocating *)

(** The context a new process starts with. *)
Definition start_context (p : proc) : proc := λ f,
  match f with
  | Ctx 0 => forkret | Ctx 1 => u64 (p Kstack + PGSIZE) | Ctx _ => 0
  | _ => p f
  end.

(** What is set in an unused process until the page table is made, and what
    [allocproc] makes of it. *)
Definition claimed (p : proc) (pid tf v : Z) : proc :=
  upd second v (upd Trapframe tf (upd State USED (upd Pid pid p))).

Definition newproc (p : proc) (pid tf v pt : Z) : proc :=
  zeroed init (start_context (upd Pagetable pt (claimed p pid tf v))).

(** What a successful [allocproc] has done to process [k]. *)
Record allocated (k : nat) s s' : Prop := {
  al_held : held s' = {[plock k]} ∪ held s;
  al_others j f : j ≠ k → proc_at j s' f = proc_at j s f;
  al_mem : agree_on (in_handed (hnd s)) (kmem s) (kmem s');
  al_made : ∃ pid tf v pt, 0 < pid < 2 ^ 31 ∧ (tf ∉ hnd s) ∧ (v ∉ hnd s) ∧ tf ≠ v ∧ tf ≠ 0 ∧ v ≠ 0 ∧ pt ≠ 0 ∧
    (∀ f, proc_at k s' f = newproc (proc_at k s) pid tf v pt f) ∧
    hnd s' = {[v]} ∪ ({[tf]} ∪ hnd s) ∧
    tbl s !! pt = None ∧ tbl s' = <[pt := mapped tf v]> (tbl s) ∧
    published (kmem s') v pid;
}.

(** What a failed one has: everything is given back. *)
Record not_allocated (k : nat) s s' : Prop := {
  na_held : held s' = held s;
  na_handed : hnd s' = hnd s;
  na_tables : tbl s' = tbl s;
  na_proc f : proc_at k s' f = freed (proc_at k s) f;
  na_others j f : j ≠ k → proc_at j s' f = proc_at j s f;
  na_mem : agree_on (in_handed (hnd s)) (kmem s) (kmem s');
}.

(** Giving up frees what was allocated and lets the lock go. *)
Lemma abandon_ok (k : nat) s s1 (p : proc) (h : gset Z) :
  plock k ∉ held s → pstep k (set_held ({[plock k]} ∪ held s) s) s1 p h (tbl s) →
  (∀ f, f ∉ [Pid; State; Trapframe; second; Pagetable] → p f = proc_at k s f) →
  p Pagetable = 0 → (p Trapframe = 0 ∨ p Trapframe ∈ h) → (p second = 0 ∨ p second ∈ h) →
  (p Trapframe = p second → p second = 0) → hnd s ⊆ h →
  without (p second) (without (p Trapframe) h) = hnd s →
  ∃ s', abandon k s1 = Ok None s' ∧ not_allocated k s s'.
Proof.
  intros Hk Hp Hkeep Hpt Htf Hus Hne Hsub Hw. pose proof (ps_proc _ _ _ _ _ _ Hp) as Hf.
  assert (Hok : proc_ok k s1).
  { split; unfold table_held; rewrite ?Hf, ?(ps_handed _ _ _ _ _ _ Hp); auto. }
  destruct (freeproc_pstep k s1 Hok) as (s2 & Hr & Hp1).
  rewrite user_pages_none, difference_empty_L in Hp1 by (by rewrite Hf). rewrite !Hf, Hpt, (ps_handed _ _ _ _ _ _ Hp), (ps_tables _ _ _ _ _ _ Hp), Hw in Hp1. cbn [Z.eqb] in Hp1.
  destruct (pstep_trans _ _ _ _ _ _ _ _ _ _ Hp Hp1 ltac:(set_solver)) as [Hp2 Ho2 Hh2 Hd2 Ht2 Hm2].
  exists (set_held (held s) s2). unfold abandon. rewrite (bind_Ok _ _ _ _ _ Hr). split.
  { destruct s2 as [m2 h2 c2 x2]. cbn in Hh2. subst h2. by rewrite (bind_Ok _ _ _ _ _ (release_ok _ _ _ _ _ Hk)). }
  constructor; try done.
  - intros f. change (proc_at k s2 f = freed (proc_at k s) f). rewrite Hp2. unfold freed, zeroed, upd. rewrite Hf.
    repeat case_decide; try done. apply Hkeep. set_solver.
  - intros b Hb. apply Hm2. by rewrite (idemp_L (∩)).
Qed.

Lemma start_context_pstep k s :
  ∃ s', set_context k s = Ok tt s' ∧ pstep k s s' (start_context (proc_at k s)) (hnd s) (tbl s).
Proof.
  set (q := λ f, match f with Ctx _ => 0 | _ => proc_at k s f end).
  pose proof (with_proc_pstep k q s) as Hp1. set (s1 := with_proc k q s) in *.
  destruct (set_pstep k (Ctx 0) forkret s1) as (s2 & Hr2 & Hp2).
  destruct (set_pstep k (Ctx 1) (u64 (proc_at k s2 Kstack + PGSIZE)) s2) as (s3 & Hr3 & Hp3).
  exists s3. unfold set_context. split.
  { assert (Hr1 : clear_context k s = Ok tt s1) by done.
    rewrite (bind_Ok _ _ _ _ _ Hr1), (bind_Ok _ _ _ _ _ Hr2), (bind_Ok _ _ _ _ _ (get_run k Kstack s2)). done. }
  rewrite (ps_handed _ _ _ _ _ _ Hp1), (ps_tables _ _ _ _ _ _ Hp1) in Hp2.
  rewrite (ps_handed _ _ _ _ _ _ Hp2), (ps_tables _ _ _ _ _ _ Hp2) in Hp3.
  eapply pstep_ext; [|eapply pstep_trans; [eapply pstep_trans; [apply Hp1|apply Hp2|]|apply Hp3|]]; try set_solver.
  assert (Hk : proc_at k s2 Kstack = proc_at k s Kstack).
  { rewrite (ps_proc _ _ _ _ _ _ Hp2 Kstack). apply (ps_proc _ _ _ _ _ _ Hp1 Kstack). }
  assert (Hq : ∀ f, f ≠ Ctx 0 → f ≠ Ctx 1 → upd (Ctx 1) (u64 (proc_at k s2 Kstack + PGSIZE)) (proc_at k s2) f = q f).
  { intros f Hf0 Hf1. unfold upd. rewrite decide_False, (ps_proc _ _ _ _ _ _ Hp2) by done. unfold upd.
    rewrite decide_False by done. apply Hp1. }
  intros f. destruct f as [| | | | | | | | | | |[|[|n]]| | | | | | |]; try by rewrite Hq.
  - unfold upd. rewrite decide_False, (ps_proc _ _ _ _ _ _ Hp2) by done. unfold upd. by rewrite decide_True.
  - unfold upd. by rewrite decide_True, Hk.
Qed.
(** The state of [allocproc] when it has found process [k]. *)
Definition locked (k : nat) s : kst (pstate P) := set_held ({[plock k]} ∪ held s) s.

Lemma claim_pstep k s :
  ∃ pid s', (∀ B (K : M (kst (pstate P)) B), (pid ← allocpid; set k Pid pid;; set k State USED;; K) (locked k s) = K s') ∧
    0 < pid < 2 ^ 31 ∧ pstep k (locked k s) s' (upd State USED (upd Pid pid (proc_at k s))) (hnd s) (tbl s).
Proof.
  destruct (allocpid_law (locked k s)) as (pid & s1 & Hr1 & Hpid & Hp1). apply (env_pstep k) in Hp1.
  destruct (set_pstep k Pid pid s1) as (s2 & Hr2 & Hp2). destruct (set_pstep k State USED s2) as (s3 & Hr3 & Hp3).
  exists pid, s3. split; [|split; [done|]].
  { intros B K. by rewrite (bind_Ok _ _ _ _ _ Hr1), (bind_Ok _ _ _ _ _ Hr2), (bind_Ok _ _ _ _ _ Hr3). }
  rewrite (ps_handed _ _ _ _ _ _ Hp1), (ps_tables _ _ _ _ _ _ Hp1) in Hp2.
  rewrite (ps_handed _ _ _ _ _ _ Hp2), (ps_tables _ _ _ _ _ _ Hp2) in Hp3.
  eapply upd_pstep; [eapply upd_pstep; [apply Hp1|apply Hp2|]|apply Hp3|]; set_solver.
Qed.

(** What has been done when the page table is to be made. *)
Record prepared (k : nat) s s' (pid tf v : Z) : Prop := {
  pr_pid : 0 < pid < 2 ^ 31;
  pr_tf : 0 < tf ∧ tf ∉ hnd s;
  pr_second : 0 < v ∧ v ∉ hnd s ∧ tf ≠ v;
  pr_pstep : pstep k (locked k s) s' (claimed (proc_at k s) pid tf v) ({[v]} ∪ ({[tf]} ∪ hnd s)) (tbl s);
  pr_published : published (kmem s') v pid;
}.

Lemma claimed_fields p pid tf v :
  claimed p pid tf v Pid = pid ∧ claimed p pid tf v Trapframe = tf ∧ claimed p pid tf v second = v ∧
  ∀ f, f ∉ [Pid; State; Trapframe; second] → claimed p pid tf v f = p f.
Proof.
  unfold claimed. split; [rewrite 3!upd_other by field; apply upd_same|].
  split; [rewrite upd_other by field; apply upd_same|]. split; [apply upd_same|].
  intros f Hf. by rewrite !upd_other by set_solver.
Qed.

(** Writing to the second page keeps the pages handed out before. *)
Lemma store_pstep k s s' p h t (m : mem) v :
  pstep k s s' p h t → agree_on (λ b, ¬ in_range v 4096 b) (kmem s') m →
  (∀ q, q ∈ hnd s → v + 4096 ≤ q ∨ q + 4096 ≤ v) → pstep k s (set_mem m s') p h t.
Proof.
  intros [Hp Ho Hh Hd Ht Hm] Ha Hv. constructor; try done. transitivity (kmem s'); [done|].
  eapply agree_on_mono; [done|]. intros b (q & Hq & Hb) Hb'.
  specialize (Hv q ltac:(set_solver)). unfold in_range in *. lia.
Qed.

(** Nothing to give back but the trapframe page, if that. *)
Lemma first_page_fails k s s1 pid :
  plock k ∉ held s → proc_at k s second = 0 → proc_at k s Pagetable = 0 →
  pstep k (locked k s) s1 (upd Trapframe 0 (upd State USED (upd Pid pid (proc_at k s)))) (hnd s) (tbl s) →
  ∃ s', abandon k s1 = Ok None s' ∧ not_allocated k s s'.
Proof.
  intros Hk Hus Hpt Hp.
  assert (Hs : upd Trapframe 0 (upd State USED (upd Pid pid (proc_at k s))) second = 0)
    by (by rewrite !upd_other by field).
  eapply abandon_ok; [done|apply Hp|..]; rewrite ?Hs; try done; try by left.
  intros f Hf. by rewrite !upd_other by set_solver.
Qed.

Lemma given_back tf v (h : gset Z) :
  tf ≠ 0 → (tf ∉ h) → v ≠ 0 → (v ∉ h) → without v (without tf ({[v]} ∪ ({[tf]} ∪ h))) = h.
Proof.
  intros. unfold without. rewrite (proj2 (Z.eqb_neq tf 0)), (proj2 (Z.eqb_neq v 0)) by done. set_solver.
Qed.

Lemma second_page_fails k s s1 pid tf :
  plock k ∉ held s → proc_at k s Pagetable = 0 → 0 < tf → (tf ∉ hnd s) →
  pstep k (locked k s) s1 (claimed (proc_at k s) pid tf 0) ({[tf]} ∪ hnd s) (tbl s) →
  ∃ s', abandon k s1 = Ok None s' ∧ not_allocated k s s'.
Proof.
  intros Hk Hpt Htf Hn Hp. destruct (claimed_fields (proc_at k s) pid tf 0) as (_ & Ht & Hs & Hf).
  eapply abandon_ok; [done|apply Hp|..]; rewrite ?Hs, ?Ht; try done; try by left.
  - intros f Hf'. apply Hf. set_solver.
  - rewrite Hf; [done|field].
  - right. set_solver.
  - set_solver.
  - change (without tf ({[tf]} ∪ hnd s) = hnd s). unfold without.
    rewrite (proj2 (Z.eqb_neq tf 0)) by lia. set_solver.
Qed.

Lemma prepare k s :
  plock k ∉ held s → proc_at k s Trapframe = 0 → proc_at k s second = 0 → proc_at k s Pagetable = 0 →
  (∃ s', allocproc_found k (locked k s) = Ok None s' ∧ not_allocated k s s') ∨
  (∃ pid tf v s', prepared k s s' pid tf v ∧ allocproc_found k (locked k s) = allocproc_table k s').
Proof.
  intros Hk Htf0 Hus0 Hpt0. unfold allocproc_found.
  destruct (claim_pstep k s) as (pid & s1 & Hr1 & Hpid & Hp1). rewrite Hr1. clear Hr1.
  destruct (alloc_page_pstep k Trapframe s1) as (tf & s2 & Hr2 & Hp2 & Htf). rewrite Hr2. clear Hr2.
  rewrite (ps_handed _ _ _ _ _ _ Hp1), (ps_tables _ _ _ _ _ _ Hp1) in *.
  apply (upd_pstep _ _ _ _ _ _ _ _ _ _ _ Hp1) in Hp2; [|destruct (tf =? 0); set_solver].
  destruct (tf =? 0) eqn:Etf; bool_to_Prop.
  { left. subst tf. by eapply first_page_fails. }
  destruct (Htf Etf) as (Htf1 & Htf2 & _). clear Htf.
  destruct (alloc_page_pstep k second s2) as (v & s3 & Hr3 & Hp3 & Hv). rewrite Hr3. clear Hr3.
  rewrite (ps_handed _ _ _ _ _ _ Hp2), (ps_tables _ _ _ _ _ _ Hp2) in *.
  apply (upd_pstep _ _ _ _ _ _ _ _ _ _ _ Hp2) in Hp3; [|destruct (v =? 0); set_solver].
  destruct (v =? 0) eqn:Ev; bool_to_Prop.
  { left. subst v. by eapply second_page_fails. }
  destruct (Hv Ev) as (Hv1 & Hv2 & Hv3). clear Hv. right. fold (claimed (proc_at k s) pid tf v) in Hp3.
  destruct (claimed_fields (proc_at k s) pid tf v) as (Hc1 & Hc2 & Hc3 & _). rewrite <-(ps_proc _ _ _ _ _ _ Hp3) in Hc1, Hc3.
  destruct (publish_law k s3) as (m & Hr4 & Hm & Hpub); [by rewrite Hc1|]. rewrite Hc1, Hc3 in *.
  exists pid, tf, v, (set_mem m s3). rewrite (bind_Ok _ _ _ _ _ Hr4). split; [|done].
  constructor; try done; [split; [done|set_solver]|].
  eapply store_pstep; [done|done|]. intros q Hq. apply Hv3. set_solver.
Qed.

Lemma start_context_ext p q : (∀ f, p f = q f) → ∀ f, start_context p f = start_context q f.
Proof. intros Hpq f. unfold start_context. rewrite !Hpq. by destruct f. Qed.

(** The table made for a prepared process, and its other fields. *)
Lemma table_made k s s1 s2 pid tf v pt :
  prepared k s s1 pid tf v →
  proc_pagetable k s1 = Ok pt s2 → made s1 s2 pt (mapped tf v) →
  ∃ s', allocproc_table k s1 = Ok (Some k) s' ∧ allocated k s s'.
Proof.
  intros [Hpid Htf Hv Hp Hsh] Hr (Hpt & Hn & Hq). apply (env_pstep k) in Hq.
  rewrite (ps_handed _ _ _ _ _ _ Hp), (ps_tables _ _ _ _ _ _ Hp) in *.
  unfold allocproc_table. rewrite (bind_Ok _ _ _ _ _ Hr).
  destruct (set_pstep k Pagetable pt s2) as (s3 & Hr3 & Hp3). rewrite (bind_Ok _ _ _ _ _ Hr3).
  rewrite (proj2 (Z.eqb_neq pt 0)) by done.
  destruct (start_context_pstep k s3) as (s4 & Hr4 & Hp4). destruct (clear_pstep init k s4) as (s5 & Hr5 & Hp5).
  exists s5. rewrite (bind_Ok _ _ _ _ _ Hr4), (bind_Ok _ _ _ _ _ Hr5). split; [done|].
  rewrite (ps_handed _ _ _ _ _ _ Hq), (ps_tables _ _ _ _ _ _ Hq) in Hp3.
  rewrite (ps_handed _ _ _ _ _ _ Hp3), (ps_tables _ _ _ _ _ _ Hp3) in Hp4.
  rewrite (ps_handed _ _ _ _ _ _ Hp4), (ps_tables _ _ _ _ _ _ Hp4) in Hp5.
  apply (upd_pstep _ _ _ _ _ _ _ _ _ _ _ Hq) in Hp3; [|set_solver].
  apply (pstep_trans _ _ _ _ _ _ _ _ _ _ Hp3) in Hp4; [|set_solver].
  apply (zeroed_pstep _ _ _ _ _ _ _ _ _ _ Hp4) in Hp5; [|set_solver].
  destruct (pstep_trans _ _ _ _ _ _ _ _ _ _ Hp Hp5 ltac:(set_solver)) as [Hf Ho Hh Hd Ht Hm].
  constructor; try done.
  { eapply agree_on_mono; [done|]. intros b (q & Hq' & Hb). exists q. split; [|done].
    change (hnd (locked k s)) with (hnd s). set_solver. }
  exists pid, tf, v, pt. repeat (split; [tauto || lia || done|]). split; [|repeat (split; [done|])].
  - intros f. rewrite Hf. unfold newproc, zeroed. case_decide; [done|]. apply start_context_ext.
    intros g. rewrite (ps_proc _ _ _ _ _ _ Hp3). unfold upd. case_decide; [done|]. apply Hp.
  - eapply published_ext; [|done]. eapply agree_on_mono; [apply (ps_mem _ _ _ _ _ _ Hp5)|].
    intros b Hb. exists v. rewrite (ps_handed _ _ _ _ _ _ Hp). split; [set_solver|done].
Qed.

Lemma table_failed k s s1 s2 pid tf v :
  plock k ∉ held s → prepared k s s1 pid tf v →
  proc_pagetable k s1 = Ok 0 s2 → quiet s1 s2 (tbl s1) →
  ∃ s', allocproc_table k s1 = Ok None s' ∧ not_allocated k s s'.
Proof.
  intros Hk [Hpid Htf Hv Hp Hsh] Hr Hq. apply (env_pstep k) in Hq.
  unfold allocproc_table. rewrite (bind_Ok _ _ _ _ _ Hr).
  destruct (set_pstep k Pagetable 0 s2) as (s3 & Hr3 & Hp3). rewrite (bind_Ok _ _ _ _ _ Hr3), Z.eqb_refl.
  rewrite (ps_handed _ _ _ _ _ _ Hp), (ps_tables _ _ _ _ _ _ Hp) in Hq.
  pose proof (pstep_trans _ _ _ _ _ _ _ _ _ _ Hp Hq ltac:(set_solver)) as Hp2.
  rewrite (ps_handed _ _ _ _ _ _ Hp2), (ps_tables _ _ _ _ _ _ Hp2) in Hp3.
  apply (upd_pstep _ _ _ _ _ _ _ _ _ _ _ Hp2) in Hp3; [|set_solver].
  apply (pstep_ext _ _ _ _ (upd Pagetable 0 (claimed (proc_at k s) pid tf v))) in Hp3;
    [|intros f; unfold upd at 1 2; case_decide; [done|apply Hp]].
  destruct (claimed_fields (proc_at k s) pid tf v) as (_ & Hc2 & Hc3 & Hf).
  eapply abandon_ok; [done|apply Hp3|..]; rewrite ?upd_same; rewrite ?(upd_other Pagetable 0 _ second), ?(upd_other Pagetable 0 _ Trapframe), ?Hc2, ?Hc3 by field;
    try done.
  - intros f Hf'. rewrite upd_other by set_solver. apply Hf. set_solver.
  - right. clear. set_solver.
  - right. clear. set_solver.
  - tauto.
  - clear. set_solver.
  - destruct Htf as [??], Hv as (? & ? & ?). apply given_back; done || lia.
Qed.

Lemma allocproc_cases k s :
  unlocked_procs s → (k < NPROC)%nat → proc_at k s State = UNUSED →
  (∀ j, (j < k)%nat → proc_at j s State ≠ UNUSED) →
  proc_at k s Trapframe = 0 → proc_at k s second = 0 → proc_at k s Pagetable = 0 →
  (∃ s', allocproc s = Ok (Some k) s' ∧ allocated k s s') ∨
  (∃ s', allocproc s = Ok None s' ∧ not_allocated k s s') ∨
  (∃ msg s' s1, allocproc s = Panic msg s' ∧ table_panics k s1).
Proof.
  intros Hul Hk Hu Hno Htf Hus Hpt. unfold allocproc.
  rewrite (bind_Ok _ _ _ _ _ (find_unused_first s k Hul Hk Hu Hno)). fold (locked k s).
  destruct (prepare k s (Hul k Hk) Htf Hus Hpt) as [Hf|(pid & tf & v & s1 & Hp & Hr)]; [by right; left|].
  rewrite Hr. pose proof (ps_proc _ _ _ _ _ _ (pr_pstep _ _ _ _ _ _ Hp)) as Hs.
  destruct (claimed_fields (proc_at k s) pid tf v) as (_ & Hc2 & Hc3 & _). rewrite <-Hs in Hc2, Hc3.
  destruct (proc_pagetable_law k s1) as [(pt & s2 & Hr2 & Hm)|[(s2 & Hr2 & Hq)|(msg & s2 & Hr2 & Hm)]].
  - left. rewrite Hc2, Hc3 in Hm. by eapply table_made.
  - right; left. by eapply table_failed; [apply Hul| | |].
  - right; right. exists msg, s2, s1. split; [|done]. unfold allocproc_table. by rewrite (bind_Panic _ _ _ _ _ Hr2).
Qed.

(** C21: [allocproc] with an unused process in the table (the first one): the
    process comes back locked, with a fresh pid, a trapframe page and a second
    page (in "speed up system calls" it holds the pid and user space can read
    it, in "alarm" it is for saving the trapframe), a page table that maps what
    the lab maps, and a context that starts in [forkret]; or, when memory runs
    out, nothing, every page and table given back, the process as [freeproc]
    leaves it and the lock released.  The one other outcome is a panic in the
    set-up of the page table. *)
Theorem allocproc_outcomes k s :
  unlocked_procs s → (k < NPROC)%nat → proc_at k s State = UNUSED →
  (∀ j, (j < k)%nat → proc_at j s State ≠ UNUSED) →
  proc_at k s Trapframe = 0 → proc_at k s second = 0 → proc_at k s Pagetable = 0 →
  (∃ s', allocproc s = Ok (Some k) s' ∧ allocated k s s') ∨
  (∃ s', allocproc s = Ok None s' ∧ not_allocated k s s') ∨
  (∃ msg s' s1, allocproc s = Panic msg s' ∧ table_panics k s1).
Proof. apply allocproc_cases. Qed.

(** With no unused process [allocproc] finds none and changes nothing. *)
Theorem allocproc_full s :
  unlocked_procs s → (∀ j, (j < NPROC)%nat → proc_at j s State ≠ UNUSED) → allocproc s = Ok None s.
Proof.
  intros Hul Hno. unfold allocproc. by rewrite (bind_Ok _ _ _ _ _ (find_unused_none s Hul Hno)).
Qed.

(** The fields of a new process that [freeproc] looks at, and those neither
    it nor [allocproc] touches. *)
Lemma newproc_fields p pid tf v pt :
  let q := newproc p pid tf v pt in
  q Trapframe = tf ∧ q second = v ∧ q Pagetable = pt ∧ q Sz = p Sz ∧
  ∀ f, f ∉ [Pid; State; Trapframe; second; Pagetable; Ticks; TickCount; Run] → (∀ n, f ≠ Ctx n) → q f = p f.
Proof.
  cbv zeta. destruct (claimed_fields p pid tf v) as (_ & Hc2 & Hc3 & Hc).
  assert (Hq : ∀ f, f ≠ Ticks → f ≠ TickCount → f ≠ Run → (∀ n, f ≠ Ctx n) →
            newproc p pid tf v pt f = upd Pagetable pt (claimed p pid tf v) f).
  { intros f Ht Htc Hr Hctx. unfold newproc, zeroed.
    rewrite decide_False by (intros Hi; destruct (init_fields f Hi) as [?|[?|?]]; done).
    unfold start_context. destruct f; try done. by destruct (Hctx n). }
  rewrite !Hq by (field || (intros; field)). rewrite upd_same, !(upd_other Pagetable) by field.
  rewrite Hc2, Hc3, Hc by field. repeat (split; [done|]). intros f Hf Hctx.
  rewrite Hq, upd_other by (done || set_solver). apply Hc. set_solver.
Qed.

Lemma freed_zero p f : f ∈ [Trapframe; second; Pagetable; Pid; Sz] → freed p f = 0.
Proof.
  intros Hf. unfold freed, zeroed. case_decide; [done|]. rewrite upd_other by (intros ->; revert Hf; field). rewrite decide_True; [done|set_solver].
Qed.

Lemma freed_unused p : freed p State = UNUSED.
Proof. unfold freed, zeroed. rewrite decide_False; [apply upd_same|]. intros Hi. by apply last_fields in Hi. Qed.

Lemma freeproc_allocated k s s' :
  allocated k s s' → proc_at k s Sz = 0 →
  ∃ s'', freeproc k s' = Ok tt s'' ∧ held s'' = {[plock k]} ∪ held s ∧ hnd s'' = hnd s ∧ tbl s'' = tbl s ∧
    (∀ f, f ∈ [Trapframe; second; Pagetable; Pid; Sz] → proc_at k s'' f = 0) ∧
    proc_at k s'' State = UNUSED ∧
    (∀ j f, j ≠ k → proc_at j s'' f = proc_at j s f) ∧ agree_on (in_handed (hnd s)) (kmem s) (kmem s'').
Proof.
  intros [Hld Ho Hm (pid & tf & v & pt & Hpid & Htf & Hv & Htv & Htf0 & Hv0 & Hpt & Hf & Hh & Hn & Ht & _)] Hsz.
  destruct (newproc_fields (proc_at k s) pid tf v pt) as (Hq1 & Hq2 & Hq3 & Hq4 & _). rewrite <-Hf in *.
  destruct (freeproc_pstep k s') as (s2 & Hr & [Hf2 Ho2 Hh2 Hd2 Ht2 Hm2]).
  { split; unfold table_held; rewrite ?Hq1, ?Hq2, ?Hq3, ?Hq4, ?Hsz, ?Ht, ?Hh; try (right; clear; set_solver); [done|].
    right. exists (mapped tf v). split; [apply lookup_insert_eq|]. split; [apply mapped_user_table|].
    rewrite mapped_user_part. apply holds_pages_empty. }
  assert (Hu : user_pages k s' = ∅).
  { unfold user_pages. rewrite Hq3, Ht, lookup_insert_eq, mapped_user_part, pages_of_empty. by destruct (pt =? 0). }
  rewrite Hu, difference_empty_L in Hd2, Hm2.
  rewrite Hq1, Hq2, Hh, given_back in Hd2, Hm2 by done. rewrite Hq3, (proj2 (Z.eqb_neq pt 0)), Ht, delete_insert_id in Ht2 by done.
  exists s2. split; [done|]. rewrite Hh2, Hld. do 3 (split; [done|]). split; [|split; [|split]].
  - intros f Hin. rewrite Hf2. by apply freed_zero.
  - rewrite Hf2. apply freed_unused.
  - intros j f Hj. by rewrite Ho2, Ho.
  - transitivity (kmem s'); [done|]. eapply agree_on_mono; [done|]. intros b (q & Hq & Hb). exists q.
    split; [set_solver|done].
Qed.

(** C22: [freeproc] undoes [allocproc]: freeing a process just allocated gives
    back both pages and the page table, makes the slot unused, without pages,
    page table, pid or size, and leaves the other processes and the pages
    handed out before as they were. *)
Theorem allocproc_freeproc k s s' :
  unlocked_procs s → (k < NPROC)%nat → proc_at k s State = UNUSED →
  (∀ j, (j < k)%nat → proc_at j s State ≠ UNUSED) →
  proc_at k s Trapframe = 0 → proc_at k s second = 0 → proc_at k s Pagetable = 0 → proc_at k s Sz = 0 →
  allocproc s = Ok (Some k) s' →
  ∃ s'', freeproc k s' = Ok tt s'' ∧ held s'' = {[plock k]} ∪ held s ∧ hnd s'' = hnd s ∧ tbl s'' = tbl s ∧
    (∀ f, f ∈ [Trapframe; second; Pagetable; Pid; Sz] → proc_at k s'' f = 0) ∧
    proc_at k s'' State = UNUSED ∧
    (∀ j f, j ≠ k → proc_at j s'' f = proc_at j s f) ∧ agree_on (in_handed (hnd s)) (kmem s) (kmem s'').
Proof.
  intros Hul Hk Hu Hno Htf0' Hus0 Hpt0 Hsz Hal.
  apply freeproc_allocated; [|done].
  by destruct (allocproc_cases k s Hul Hk Hu Hno Htf0' Hus0 Hpt0) as [(s1 & Hr & Ha)|[(s1 & Hr & _)|(msg & s1 & s2 & Hr & _)]];
    rewrite Hr in Hal; simplify_eq.
Qed.
End lab.
