(* ===== verification/ProcLabs.v ===== *)
(** * The labs' process tables (kernel/proc.c of lab2 "system call tracing",
    lab3 "speed up system calls" and "use superpages", lab4 "alarm")

    [Usyscall] and [SuperTable] have a page shared with user space, [AlarmProc]
    a page for saving the trapframe; each is an instance of [Lab], so that what
    Proc proves of [allocproc] and [freeproc] holds of them.  [Trace] has the
    [freeproc] of the tracing lab. *)

From S2P Require Import Prelude Memory Machine Proc.

(** ** lab3 "speed up system calls" *)

Module Usyscall.
Section usyscall.
Context `{Riscv, MemLayout, ProcLayout} {P : Type} `{!ProcEnv P}.

Definition proc_pagetable (k : nat) : M (kst (pstate P)) Z :=
  pagetable ← uvmcreate;
  if pagetable =? 0 then mret 0
  else
    r ← mappages pagetable TRAMPOLINE PGSIZE trampoline (Z.lor PTE_R PTE_X);
    if r <? 0 then
      uvmfree pagetable 0;;
      mret 0
    else
      tf ← get k Trapframe;
      r ← mappages pagetable TRAPFRAME PGSIZE tf (Z.lor PTE_R PTE_W);
      if r <? 0 then
        uvmunmap pagetable TRAMPOLINE 1 0;;
        uvmfree pagetable 0;;
        mret 0
      else
        us ← get k Usyscall;
        r ← mappages pagetable USYSCALL PGSIZE us (Z.lor PTE_R PTE_U);
        if r <? 0 then
          uvmunmap pagetable USYSCALL 1 0;;
          uvmunmap pagetable TRAMPOLINE 1 0;;
          uvmfree pagetable 0;;
          mret 0
        else mret pagetable.

Definition proc_freepagetable (pagetable sz : Z) : M (kst (pstate P)) unit :=
  uvmunmap pagetable TRAMPOLINE 1 0;;
  uvmunmap pagetable TRAPFRAME 1 0;;
  uvmunmap pagetable USYSCALL 1 0;;
  uvmfree pagetable sz.

(** [p->usyscall->pid = p->pid]. *)
Definition publish (k : nat) : M (kst (pstate P)) unit :=
  pid ← get k Pid;
  us ← get k Usyscall;
  modify (λ s, set_mem (store32 (kmem s) us pid) s).

(** The lab; [last] are the fields that [freeproc] clears at its end. *)
Definition lab_with (last : list pfield) : Lab :=
  {| second := Usyscall; Proc.publish := publish; Proc.proc_pagetable := proc_pagetable;
     Proc.proc_freepagetable := proc_freepagetable; last := last; init := [] |}.

Definition freeproc : nat → M (kst (pstate P)) unit := Proc.freeproc (lab := lab_with []).
Definition allocproc : M (kst (pstate P)) (option nat) := Proc.allocproc (lab := lab_with []).

(** What the page table of a new process maps, without the shared page and
    with it. *)
Definition mapped2 (tf : Z) : gmap Z (Z * Z) :=
  <[TRAPFRAME := (tf, Z.lor PTE_R PTE_W)]> (<[TRAMPOLINE := (trampoline, Z.lor PTE_R PTE_X)]> ∅).

Definition mapped3 (tf us : Z) : gmap Z (Z * Z) :=
  <[USYSCALL := (us, Z.lor PTE_R PTE_U)]> (mapped2 tf).

Context `{!ProcEnvLaws}.
Implicit Types s : kst (pstate P).

(** The trampoline and the trapframe get mapped, the shared page does not. *)
Definition third_fails (k : nat) s : Prop :=
  ∃ pt s2 s3, made s s2 pt (mapped2 (proc_at k s Trapframe)) ∧
    mappages pt USYSCALL PGSIZE (proc_at k s Usyscall) (Z.lor PTE_R PTE_U) s2 = Ok (-1) s3.

Lemma addresses_distinct : TRAMPOLINE ≠ TRAPFRAME ∧ TRAMPOLINE ≠ USYSCALL ∧ TRAPFRAME ≠ USYSCALL.
Proof. pose proof TRAPFRAME_below. pose proof USYSCALL_below. lia. Qed.

(** Giving up after the trampoline only. *)
Lemma second_fails s0 s pt e :
  made s0 s pt (<[TRAMPOLINE := e]> ∅) →
  ∃ s', (uvmunmap pt TRAMPOLINE 1 0;; uvmfree pt 0;; mret 0) s = Ok 0 s' ∧ quiet s0 s' (tbl s0).
Proof.
  intros Hm. destruct (uvmunmap_made s0 s pt _ TRAMPOLINE Hm) as (s1 & Hr1 & Hm1); [by rewrite lookup_insert_eq|].
  rewrite delete_insert_id in Hm1 by done. destruct (uvmfree_made s0 s1 pt Hm1) as (s2 & Hr2 & Hq2).
  exists s2. by rewrite (bind_Ok _ _ _ _ _ Hr1), (bind_Ok _ _ _ _ _ Hr2).
Qed.

(** The page table of a new process: made, with its three pages; or not made,
    and nothing changed; or a panic. *)
Lemma proc_pagetable_outcomes k s :
  let tf := proc_at k s Trapframe in
  let us := proc_at k s Usyscall in
  (∃ pt s', proc_pagetable k s = Ok pt s' ∧ made s s' pt (mapped3 tf us)) ∨
  (∃ s', proc_pagetable k s = Ok 0 s' ∧ quiet s s' (tbl s)) ∨
  (∃ msg s', proc_pagetable k s = Panic msg s' ∧ third_fails k s).
Proof.
  cbv zeta. unfold proc_pagetable. destruct addresses_distinct as (Ha1 & Ha2 & Ha3).
  destruct (uvmcreate_made s) as [Hr|(pt & s1 & Hr1 & Hm1)].
  { right; left. exists s. rewrite (bind_Ok _ _ _ _ _ Hr). split; [done|by constructor]. }
  rewrite (bind_Ok _ _ _ _ _ Hr1), (proj2 (Z.eqb_neq pt 0)) by apply Hm1.
  destruct (mappages_made s s1 pt ∅ TRAMPOLINE trampoline (Z.lor PTE_R PTE_X) Hm1)
    as (r2 & s2 & Hr2 & [[-> Hm2]|[-> Hm2]]); [done| |]; rewrite (bind_Ok _ _ _ _ _ Hr2); cbn [Z.ltb Z.compare].
  2: { destruct (uvmfree_made s s2 pt Hm2) as (s3 & Hr3 & Hq3).
       right; left. exists s3. by rewrite (bind_Ok _ _ _ _ _ Hr3). }
  rewrite (bind_Ok _ _ _ _ _ (get_run k Trapframe s2)).
  destruct (mappages_made s s2 pt _ TRAPFRAME (proc_at k s2 Trapframe) (Z.lor PTE_R PTE_W) Hm2)
    as (r3 & s3 & Hr3 & [[-> Hm3]|[-> Hm3]]); [by rewrite lookup_insert_ne| |];
    rewrite (bind_Ok _ _ _ _ _ Hr3); cbn [Z.ltb Z.compare].
  2: { right; left. by eapply second_fails. }
  rewrite (bind_Ok _ _ _ _ _ (get_run k Usyscall s3)).
  assert (Htf : proc_at k s2 Trapframe = proc_at k s Trapframe).
  { unfold proc_at. by rewrite (es_ptab _ _ _ _ (proj2 (proj2 Hm2))). }
  assert (Hus : proc_at k s3 Usyscall = proc_at k s Usyscall).
  { unfold proc_at. by rewrite (es_ptab _ _ _ _ (proj2 (proj2 Hm3))). }
  rewrite Hus. rewrite Htf in Hm3.
  destruct (mappages_made s s3 pt _ USYSCALL (proc_at k s Usyscall) (Z.lor PTE_R PTE_U) Hm3)
    as (r4 & s4 & Hr4 & [[-> Hm4]|[-> Hm4]]); [by rewrite !lookup_insert_ne by done| |];
    rewrite (bind_Ok _ _ _ _ _ Hr4); cbn [Z.ltb Z.compare].
  - left. exists pt, s4. done.
  - right; right. destruct (uvmunmap_absent s4 pt _ USYSCALL (made_lookup _ _ _ _ Hm4)) as (msg & s5 & Hr5).
    { unfold mapped2. by rewrite !lookup_insert_ne by done. }
    exists msg, s5. rewrite (bind_Panic _ _ _ _ _ Hr5). split; [done|]. exists pt, s3, s4. done.
Qed.

(** C28: when the trampoline and the trapframe have been mapped and the shared
    page cannot be, [proc_pagetable] does not return null, which its callers
    handle, but panics: its error path unmaps the shared page, which is not
    mapped, where it means the trapframe. *)
Theorem shared_page_failure_panics k s pt s1 s2 s3 s4 :
  uvmcreate s = Ok pt s1 → pt ≠ 0 →
  mappages pt TRAMPOLINE PGSIZE trampoline (Z.lor PTE_R PTE_X) s1 = Ok 0 s2 →
  mappages pt TRAPFRAME PGSIZE (proc_at k s Trapframe) (Z.lor PTE_R PTE_W) s2 = Ok 0 s3 →
  mappages pt USYSCALL PGSIZE (proc_at k s Usyscall) (Z.lor PTE_R PTE_U) s3 = Ok (-1) s4 →
  ∃ msg s', proc_pagetable k s = Panic msg s'.
Proof.
  intros Hr1 Hpt Hr2 Hr3 Hr4. destruct addresses_distinct as (Ha1 & Ha2 & Ha3).
  destruct (uvmcreate_made s) as [Hr|(pt' & s1' & Hr & Hm1)]; rewrite Hr1 in Hr; simplify_eq.
  destruct (mappages_made s s1' pt' ∅ TRAMPOLINE trampoline (Z.lor PTE_R PTE_X) Hm1)
    as (r & s2' & Hr & [[-> Hm2]|[-> _]]); [done| |]; rewrite Hr2 in Hr; simplify_eq.
  destruct (mappages_made s s2' pt' _ TRAPFRAME (proc_at k s Trapframe) (Z.lor PTE_R PTE_W) Hm2)
    as (r & s3' & Hr & [[-> Hm3]|[-> _]]); [by rewrite lookup_insert_ne| |]; rewrite Hr3 in Hr; simplify_eq.
  destruct (mappages_made s s3' pt' _ USYSCALL (proc_at k s Usyscall) (Z.lor PTE_R PTE_U) Hm3)
    as (r & s4' & Hr & [[-> _]|[-> Hm4]]); [by rewrite !lookup_insert_ne by done| |]; rewrite Hr4 in Hr; simplify_eq.
  destruct (uvmunmap_absent s4' pt' _ USYSCALL (made_lookup _ _ _ _ Hm4)) as (msg & s5 & Hr5).
  { by rewrite !lookup_insert_ne by done. }
  assert (Hf : ∀ f s' μ, made s s' pt' μ → proc_at k s' f = proc_at k s f).
  { intros f s' μ (_ & _ & Hq). unfold proc_at. by rewrite (es_ptab _ _ _ _ Hq). }
  exists msg, s5. unfold proc_pagetable. rewrite (bind_Ok _ _ _ _ _ Hr1), (proj2 (Z.eqb_neq pt' 0)) by done.
  rewrite (bind_Ok _ _ _ _ _ Hr2). cbn [Z.ltb Z.compare].
  rewrite (bind_Ok _ _ _ _ _ (get_run k Trapframe s2')), (Hf Trapframe _ _ Hm2), (bind_Ok _ _ _ _ _ Hr3). cbn [Z.ltb Z.compare].
  rewrite (bind_Ok _ _ _ _ _ (get_run k Usyscall s3')), (Hf Usyscall _ _ Hm3), (bind_Ok _ _ _ _ _ Hr4). cbn [Z.ltb Z.compare].
  by rewrite (bind_Panic _ _ _ _ _ Hr5).
Qed.

(** ** Freeing *)

(** What of a table are the process's own pages. *)
Definition own (μ : gmap Z (Z * Z)) : gmap Z (Z * Z) := delete USYSCALL (delete TRAPFRAME (delete TRAMPOLINE μ)).

(** A table with the three pages, and the user pages below [sz]. *)
Record table_ok (μ : gmap Z (Z * Z)) (sz : Z) : Prop := {
  tk_trampoline : is_Some (μ !! TRAMPOLINE);
  tk_trapframe : is_Some (μ !! TRAPFRAME);
  tk_usyscall : is_Some (μ !! USYSCALL);
  tk_sz : sz ≤ USYSCALL;
  tk_user va : va ≠ TRAMPOLINE → va ≠ TRAPFRAME → va ≠ USYSCALL →
    is_Some (μ !! va) ↔ va mod 4096 = 0 ∧ 0 ≤ va < sz;
}.

Lemma proc_freepagetable_ok s pt μ sz :
  tbl s !! pt = Some μ → table_ok μ sz → holds_pages (hnd s) (own μ) →
  ∃ s', proc_freepagetable pt sz s = Ok tt s' ∧ env_step s s' (hnd s ∖ pages_of (own μ)) (delete pt (tbl s)).
Proof.
  intros Ht [Hk1 Hk2 Hk3 Hsz Hu] Hown. destruct addresses_distinct as (Ha1 & Ha2 & Ha3).
  pose proof TRAPFRAME_below. pose proof USYSCALL_below. unfold proc_freepagetable.
  destruct (uvmunmap_law s pt μ TRAMPOLINE Ht Hk1) as (s1 & Hr1 & Hq1).
  pose proof (quiet_tbl _ _ _ Hq1) as Ht1. change (tables (prest (ext s))) with (tbl s) in *.
  destruct (uvmunmap_law s1 pt (delete TRAMPOLINE μ) TRAPFRAME) as (s2 & Hr2 & Hq2).
  { change (tbl s1 !! pt = Some (delete TRAMPOLINE μ)). by rewrite Ht1, lookup_insert_eq. }
  { by rewrite lookup_delete_ne. }
  pose proof (quiet_tbl _ _ _ Hq2) as Ht2. change (tables (prest (ext s1))) with (tbl s1) in *.
  destruct (uvmunmap_law s2 pt (delete TRAPFRAME (delete TRAMPOLINE μ)) USYSCALL) as (s3 & Hr3 & Hq3).
  { change (tbl s2 !! pt = Some (delete TRAPFRAME (delete TRAMPOLINE μ))). by rewrite Ht2, lookup_insert_eq. }
  { by rewrite !lookup_delete_ne. }
  pose proof (quiet_tbl _ _ _ Hq3) as Ht3. change (tables (prest (ext s2))) with (tbl s2) in *.
  pose proof (quiet_trans _ _ _ _ _ Hq1 (quiet_trans _ _ _ _ _ Hq2 Hq3)) as Hq123.
  assert (Hh3 : handed (prest (ext s3)) = hnd s) by apply Hq123.
  destruct (uvmfree_law s3 pt (own μ) sz) as (s4 & Hr4 & Hq4).
  { change (tbl s3 !! pt = Some (own μ)). by rewrite Ht3, lookup_insert_eq. }
  { intros va. unfold own. destruct (decide (va = USYSCALL)) as [->|N3]; [rewrite lookup_delete_eq; split; [by intros []|lia]|].
    rewrite lookup_delete_ne by done.
    destruct (decide (va = TRAPFRAME)) as [->|N2]; [rewrite lookup_delete_eq; split; [by intros []|lia]|].
    rewrite lookup_delete_ne by done.
    destruct (decide (va = TRAMPOLINE)) as [->|N1]; [rewrite lookup_delete_eq; split; [by intros []|lia]|].
    rewrite lookup_delete_ne by done. by apply Hu. }
  { by rewrite Hh3. }
  rewrite Hh3 in Hq4. change (tables (prest (ext s3))) with (tbl s3) in *.
  exists s4. rewrite (bind_Ok _ _ _ _ _ Hr1), (bind_Ok _ _ _ _ _ Hr2), (bind_Ok _ _ _ _ _ Hr3). split; [done|].
  rewrite Ht3, Ht2, Ht1, !insert_insert_eq, delete_insert_eq in Hq4.
  change (handed (prest (ext s))) with (hnd s) in *. eapply quiet_env_step; [|exact Hq123|exact Hq4]. apply subseteq_difference_l. done.
Qed.


Lemma mapped3_table_ok tf us : table_ok (mapped3 tf us) 0.
Proof.
  destruct addresses_distinct as (Ha1 & Ha2 & Ha3). unfold mapped3, mapped2. split.
  - rewrite !lookup_insert_ne by done. by rewrite lookup_insert_eq.
  - rewrite lookup_insert_ne by done. by rewrite lookup_insert_eq.
  - by rewrite lookup_insert_eq.
  - pose proof USYSCALL_pos. lia.
  - intros va H1' H2' H3'. rewrite !lookup_insert_ne by done. rewrite lookup_empty. split; [by intros []|lia].
Qed.

Lemma mapped3_own tf us : own (mapped3 tf us) = ∅.
Proof.
  destruct addresses_distinct as (Ha1 & Ha2 & Ha3). apply map_eq. intros va. unfold own, mapped3, mapped2.
  rewrite lookup_empty. repeat (rewrite lookup_delete; case_decide; [done|]). by rewrite !lookup_insert_ne by done.
Qed.

Lemma publish_ok k s : 0 < proc_at k s Pid < 2 ^ 31 →
  ∃ m, publish k s = Ok tt (set_mem m s) ∧
    agree_on (λ b, ¬ in_range (proc_at k s Usyscall) 4096 b) (kmem s) m ∧
    load32 m (proc_at k s Usyscall) = proc_at k s Pid.
Proof.
  intros Hpid. exists (store32 (kmem s) (proc_at k s Usyscall) (proc_at k s Pid)). split; [done|]. split.
  - intros b Hb. cbv beta in Hb. apply store32_ne. unfold in_range in *. lia.
  - rewrite load32_store32_eq. unfold u32. apply Z.mod_small. lia.
Qed.

Lemma lab_laws (fs : list pfield) : (∀ f, f ∈ fs → f = Next) → LabLaws (lab := lab_with fs).
Proof.
  intros Hfs. refine {| mapped := mapped3 : Z → Z → gmap Z (Z * Z); user_table := table_ok; user_part := own; published m v pid := load32 m v = pid;
    table_panics := third_fails |}.
  - by left.
  - cbn. intros f Hf. set_solver.
  - done.
  - apply proc_pagetable_outcomes.
  - apply proc_freepagetable_ok.
  - apply mapped3_table_ok.
  - apply mapped3_own.
  - apply publish_ok.
  - cbn. intros m m' v pid Hm <-. apply load32_ext. eapply agree_on_mono; [done|]. unfold in_range. lia.
Defined.
End usyscall.
End Usyscall.

(** ** lab3 "use superpages"

    The functions of "speed up system calls", but [freeproc] ends with
    [p->next = 0]: the growth record goes with the process. *)

Module SuperTable.
Section super_table.
Context `{Riscv, MemLayout, ProcLayout} {P : Type} `{!ProcEnv P}.

Definition proc_pagetable : nat → M (kst (pstate P)) Z := Usyscall.proc_pagetable.
Definition proc_freepagetable : Z → Z → M (kst (pstate P)) unit := Usyscall.proc_freepagetable.
Definition freeproc : nat → M (kst (pstate P)) unit := Proc.freeproc (lab := Usyscall.lab_with [Next]).
Definition allocproc : M (kst (pstate P)) (option nat) := Proc.allocproc (lab := Usyscall.lab_with [Next]).

Context `{!ProcEnvLaws}.

Lemma super_laws : LabLaws (lab := Usyscall.lab_with [Next]).
Proof. apply Usyscall.lab_laws. set_solver. Defined.

(** A process that is freed leaves no growth record behind: [p->next] is
    zero when the slot is used again. *)
Theorem freeproc_forgets_growth (k : nat) (s : kst (pstate P)) :
  proc_ok (laws := super_laws) k s →
  ∃ s', freeproc k s = Ok tt s' ∧ proc_at k s' Next = 0 ∧ proc_at k s' State = UNUSED ∧
    (proc_at k s' Pagetable = 0) ∧ (∀ j f, j ≠ k → proc_at j s' f = proc_at j s f).
Proof.
  intros Hok. destruct (freeproc_pstep (laws := super_laws) k s Hok) as (s' & Hr & Hp).
  exists s'. split; [exact Hr|]. rewrite !(ps_proc _ _ _ _ _ _ Hp). split; [done|].
  split; [|split; [done|apply Hp]]. apply (freed_unused (laws := super_laws)).
Qed.
End super_table.
End SuperTable.

(** ** lab4 "alarm"

    The page table of a process is the stock kernel's. *)

Module AlarmProc.
Section alarm_proc.
Context `{Riscv, MemLayout, ProcLayout} {P : Type} `{!ProcEnv P}.

(** The stock [proc_pagetable] and [proc_freepagetable]. *)
Class StockTable := {
  stock_pagetable : nat → M (kst (pstate P)) Z;
  stock_freepagetable : Z → Z → M (kst (pstate P)) unit;
}.

Context `{!StockTable}.

(** [p->originaltrapframe] is only allocated; the alarm's fields start at
    zero. *)
Definition alarm_lab : Lab :=
  {| second := OrigTrapframe; Proc.publish := λ _, mret tt; Proc.proc_pagetable := stock_pagetable;
     Proc.proc_freepagetable := stock_freepagetable; last := []; init := [Ticks; TickCount; Run] |}.

Definition freeproc : nat → M (kst (pstate P)) unit := Proc.freeproc (lab := alarm_lab).
Definition allocproc : M (kst (pstate P)) (option nat) := Proc.allocproc (lab := alarm_lab).

(** What the stock functions are documented to do: a page table with the
    trampoline and the trapframe, or none; the user pages freed with the
    table. *)
Definition stock_mapped (tf : Z) : gmap Z (Z * Z) :=
  <[TRAPFRAME := (tf, Z.lor PTE_R PTE_W)]> (<[TRAMPOLINE := (trampoline, Z.lor PTE_R PTE_X)]> ∅).

Definition stock_user (μ : gmap Z (Z * Z)) (sz : Z) : Prop :=
  is_Some (μ !! TRAMPOLINE) ∧ is_Some (μ !! TRAPFRAME) ∧ sz ≤ TRAPFRAME ∧
  ∀ va, va ≠ TRAMPOLINE → va ≠ TRAPFRAME → is_Some (μ !! va) ↔ va mod 4096 = 0 ∧ 0 ≤ va < sz.

Definition stock_own (μ : gmap Z (Z * Z)) : gmap Z (Z * Z) := delete TRAPFRAME (delete TRAMPOLINE μ).

Class StockTableLaws := {
  stock_pagetable_law k s :
    (∃ pt s', stock_pagetable k s = Ok pt s' ∧ made s s' pt (stock_mapped (proc_at k s Trapframe))) ∨
    (∃ s', stock_pagetable k s = Ok 0 s' ∧ quiet s s' (tbl s));
  stock_freepagetable_law s pt μ sz :
    tbl s !! pt = Some μ → stock_user μ sz → holds_pages (hnd s) (stock_own μ) →
    ∃ s', stock_freepagetable pt sz s = Ok tt s' ∧
      env_step s s' (hnd s ∖ pages_of (stock_own μ)) (delete pt (tbl s));
}.

Context `{!ProcEnvLaws, !StockTableLaws}.

Lemma stock_mapped_user tf : stock_user (stock_mapped tf) 0.
Proof.
  pose proof TRAPFRAME_below. pose proof USYSCALL_below. pose proof USYSCALL_pos. unfold stock_mapped.
  split; [rewrite lookup_insert_ne by lia; by rewrite lookup_insert_eq|].
  split; [by rewrite lookup_insert_eq|]. split; [lia|].
  intros va H1' H2'. rewrite !lookup_insert_ne, lookup_empty by done. split; [by intros []|lia].
Qed.

Lemma stock_mapped_own tf : stock_own (stock_mapped tf) = ∅.
Proof.
  apply map_eq. intros va. unfold stock_own, stock_mapped. rewrite lookup_empty.
  repeat (rewrite lookup_delete; case_decide; [done|]). by rewrite !lookup_insert_ne by done.
Qed.

Lemma alarm_laws : LabLaws (lab := alarm_lab).
Proof.
  refine {| mapped tf _ := stock_mapped tf : gmap Z (Z * Z); user_table := stock_user; user_part := stock_own;
    published _ _ _ := True; table_panics _ _ := False |}.
  - by right.
  - cbn. intros f Hf. set_solver.
  - cbn. intros f Hf. set_solver.
  - intros k s. destruct (stock_pagetable_law k s); [by left|by right; left].
  - apply stock_freepagetable_law.
  - intros. apply stock_mapped_user.
  - intros. apply stock_mapped_own.
  - intros k s _. exists (kmem s). destruct s. done.
  - done.
Defined.

(** A new process has no alarm: with an unused process in the table,
    [allocproc] returns it with [ticks], [tickcount] and [run] zero whatever
    the slot held, with two different pages for the trapframe and its copy, or
    gives everything back and returns none; it never panics. *)
Theorem allocproc_no_alarm (k : nat) (s : kst (pstate P)) :
  unlocked_procs s → (k < NPROC)%nat → proc_at k s State = UNUSED →
  (∀ j, (j < k)%nat → proc_at j s State ≠ UNUSED) →
  proc_at k s Trapframe = 0 → proc_at k s OrigTrapframe = 0 → proc_at k s Pagetable = 0 →
  (∃ s', allocproc s = Ok (Some k) s' ∧
     (∀ f, f ∈ [Ticks; TickCount; Run] → proc_at k s' f = 0) ∧ proc_at k s' State = USED ∧
     proc_at k s' Trapframe ≠ proc_at k s' OrigTrapframe ∧
     hnd s' = {[proc_at k s' OrigTrapframe]} ∪ ({[proc_at k s' Trapframe]} ∪ hnd s)) ∨
  (∃ s', allocproc s = Ok None s' ∧ hnd s' = hnd s ∧ tbl s' = tbl s ∧ held s' = held s).
Proof.
  intros Hul Hk Hu Hno Htf Hs Hpt.
  destruct (allocproc_cases (laws := alarm_laws) k s Hul Hk Hu Hno Htf Hs Hpt)
    as [(s' & Hr & [_ _ _ (pid & tf & v & pt & _ & _ & _ & Hne & _ & _ & _ & Hf & Hh & _)])|[(s' & Hr & [? ? ? _ _ _])|(? & ? & ? & _ & [])]].
  - left. exists s'. split; [exact Hr|]. split.
    { intros f Hin. rewrite Hf. unfold newproc, zeroed. by rewrite decide_True. }
    by rewrite !Hf.
  - right. by exists s'.
Qed.
End alarm_proc.
End AlarmProc.

(** ** lab2 "system call tracing" *)

Module Trace.
Section trace.
Context `{Riscv, MemLayout, ProcLayout} {P : Type} `{!ProcEnv P, !AlarmProc.StockTable (P := P)}.

Definition freeproc (k : nat) : M (kst (pstate P)) unit :=
  free_page k Trapframe;;
  pt ← get k Pagetable;
  (if negb (pt =? 0) then sz ← get k Sz; AlarmProc.stock_freepagetable pt sz else mret tt);;
  clear_fields k reset;;
  set k State UNUSED;;
  set k TraceId 0.

Context `{!ProcEnvLaws, !AlarmProc.StockTableLaws}.

(** A freed process is no longer traced: [freeproc] gives back the
    trapframe page, the page table and the user pages it maps, and leaves the slot unused with trace
    mask zero, so that the next process in it starts untraced; the other
    processes are as they were. *)
Theorem freeproc_untraced (k : nat) (s : kst (pstate P)) :
  proc_at k s Trapframe = 0 ∨ proc_at k s Trapframe ∈ hnd s →
  table_held (laws := AlarmProc.alarm_laws) (without (proc_at k s Trapframe) (hnd s)) k s →
  ∃ s', freeproc k s = Ok tt s' ∧ proc_at k s' TraceId = 0 ∧ proc_at k s' State = UNUSED ∧
    hnd s' = without (proc_at k s Trapframe) (hnd s) ∖ user_pages (laws := AlarmProc.alarm_laws) k s ∧
    tbl s' = (if proc_at k s Pagetable =? 0 then tbl s else delete (proc_at k s Pagetable) (tbl s)) ∧
    (∀ j f, j ≠ k → proc_at j s' f = proc_at j s f).
Proof.
  intros Htf Hpt. unfold freeproc. destruct (free_page_pstep k Trapframe s Htf) as (s1 & Hr1 & Hp1).
  rewrite (bind_Ok _ _ _ _ _ Hr1), <-bind_assoc.
  change (if _ =? 0 then _ else _) with (without (proc_at k s Trapframe) (hnd s)) in Hp1 at 1.
  assert (Hu : user_pages (laws := AlarmProc.alarm_laws) k s1 = user_pages (laws := AlarmProc.alarm_laws) k s).
  { unfold user_pages. by rewrite !(ps_proc _ _ _ _ _ _ Hp1), (ps_tables _ _ _ _ _ _ Hp1). }
  destruct (free_table (laws := AlarmProc.alarm_laws) k s1) as (s2 & Hr2 & Hp2).
  { unfold table_held. rewrite (ps_handed _ _ _ _ _ _ Hp1), !(ps_proc _ _ _ _ _ _ Hp1), (ps_tables _ _ _ _ _ _ Hp1). exact Hpt. }
  rewrite Hu in Hp2. apply (env_pstep k) in Hp2. rewrite (ps_proc _ _ _ _ _ _ Hp1), (ps_tables _ _ _ _ _ _ Hp1), (ps_handed _ _ _ _ _ _ Hp1) in Hp2.
  cbn in Hr2. rewrite (bind_Ok _ _ _ _ _ Hr2).
  destruct (clear_pstep reset k s2) as (s3 & Hr3 & Hp3). destruct (set_pstep k State UNUSED s3) as (s4 & Hr4 & Hp4).
  destruct (set_pstep k TraceId 0 s4) as (s5 & Hr5 & Hp5). exists s5.
  rewrite (bind_Ok _ _ _ _ _ Hr3), (bind_Ok _ _ _ _ _ Hr4). split; [done|].
  rewrite !(ps_proc _ _ _ _ _ _ Hp5), upd_same, upd_other, (ps_proc _ _ _ _ _ _ Hp4), upd_same by done.
  rewrite (ps_handed _ _ _ _ _ _ Hp5), (ps_handed _ _ _ _ _ _ Hp4), (ps_handed _ _ _ _ _ _ Hp3), (ps_handed _ _ _ _ _ _ Hp2).
  rewrite (ps_tables _ _ _ _ _ _ Hp5), (ps_tables _ _ _ _ _ _ Hp4), (ps_tables _ _ _ _ _ _ Hp3), (ps_tables _ _ _ _ _ _ Hp2).
  do 4 (split; [done|]). intros j f Hj.
  rewrite (ps_others _ _ _ _ _ _ Hp5 j f Hj), (ps_others _ _ _ _ _ _ Hp4 j f Hj), (ps_others _ _ _ _ _ _ Hp3 j f Hj).
  by rewrite (ps_others _ _ _ _ _ _ Hp2 j f Hj), (ps_others _ _ _ _ _ _ Hp1 j f Hj).
Qed.
End trace.
End Trace.
