(* ===== verification/ProcExample.v ===== *)
(** * Example processes for ProcLabs: a small kernel that satisfies the
    documented laws, and the theorems at concrete states. *)

From S2P Require Import Prelude Memory Machine Proc ProcLabs.

#[local] Existing Instance sv39.
#[local] Existing Instance small_layout.

#[export] Instance two_procs : ProcLayout.
Proof.
  refine {| NPROC := 2; UNUSED := 0; USED := 1; forkret := 2147483648; trampoline := 2147487744 |}. done.
Defined.

(** ** A small kernel

    Two pages can be handed out, one page table made, and [tk_maps] pages
    mapped. *)

Record tkernel := TKernel {
  tk_handed : gset Z;
  tk_tables : gmap Z (gmap Z (Z * Z));
  tk_maps : nat;
  tk_pid : Z;
}.

Definition tstate : Type := kst (pstate tkernel).

Definition with_rest (r : tkernel) (s : tstate) : tstate := set_ext (PState _ (ptab (ext s)) r) s.

Definition apart (h : gset Z) (p : Z) : bool :=
  forallb (λ q, (p + 4096 <=? q) || (q + 4096 <=? p)) (elements h).

Definition toy_kalloc : M tstate Z := λ s,
  let r := prest (ext s) in
  match List.filter (apart (tk_handed r)) [4096; 8192] with
  | [] => Ok 0 s
  | p :: _ => Ok p (with_rest (TKernel ({[p]} ∪ tk_handed r) (tk_tables r) (tk_maps r) (tk_pid r)) s)
  end.

Definition toy_kfree (p : Z) : M tstate unit := λ s,
  let r := prest (ext s) in
  Ok tt (with_rest (TKernel (tk_handed r ∖ {[p]}) (tk_tables r) (tk_maps r) (tk_pid r)) s).

Definition with_tables (t : gmap Z (gmap Z (Z * Z))) (n : nat) (s : tstate) : tstate :=
  with_rest (TKernel (tk_handed (prest (ext s))) t n (tk_pid (prest (ext s)))) s.

Definition toy_uvmcreate : M tstate Z := λ s,
  let r := prest (ext s) in
  match tk_tables r !! 1 with
  | None => Ok 1 (with_tables (<[1 := ∅]> (tk_tables r)) (tk_maps r) s)
  | Some _ => Ok 0 s
  end.

Definition toy_mappages (pt va sz pa perm : Z) : M tstate Z := λ s,
  let r := prest (ext s) in
  match tk_tables r !! pt, tk_maps r with
  | Some μ, S n => Ok 0 (with_tables (<[pt := <[va := (pa, perm)]> μ]> (tk_tables r)) n s)
  | _, _ => Ok (-1) s
  end.

Definition toy_uvmunmap (pt va npages do_free : Z) : M tstate unit := λ s,
  let r := prest (ext s) in
  match tk_tables r !! pt with
  | Some μ =>
      if decide (is_Some (μ !! va)) then Ok tt (with_tables (<[pt := delete va μ]> (tk_tables r)) (tk_maps r) s)
      else Panic "uvmunmap: not mapped" s
  | None => Panic "uvmunmap: walk" s
  end.

(** Table [pt] gone, and the pages [μ] of it given back. *)
Definition drop_table (pt : Z) (part : gmap Z (Z * Z) → gmap Z (Z * Z)) (s : tstate) : tstate :=
  let r := prest (ext s) in
  let μ := default ∅ (tk_tables r !! pt) in
  with_rest (TKernel (tk_handed r ∖ pages_of (part μ)) (delete pt (tk_tables r)) (tk_maps r) (tk_pid r)) s.

Definition toy_uvmfree (pt sz : Z) : M tstate unit := λ s, Ok tt (drop_table pt id s).

Definition toy_allocpid : M tstate Z := λ s,
  let r := prest (ext s) in
  Ok (1 + tk_pid r mod 1000) (with_rest (TKernel (tk_handed r) (tk_tables r) (tk_maps r) (tk_pid r + 1)) s).

#[export] Instance toy_env : ProcEnv tkernel := {|
  kalloc := toy_kalloc; kfree := toy_kfree; uvmcreate := toy_uvmcreate; mappages := toy_mappages;
  uvmunmap := toy_uvmunmap; uvmfree := toy_uvmfree; allocpid := toy_allocpid;
  handed := tk_handed; tables := tk_tables;
|}.

Lemma apart_spec h p : apart h p = true → p ∉ h ∧ ∀ q, q ∈ h → p + 4096 ≤ q ∨ q + 4096 ≤ p.
Proof.
  unfold apart. rewrite forallb_forall. intros Ha.
  assert (Hd : ∀ q, q ∈ h → p + 4096 ≤ q ∨ q + 4096 ≤ p).
  { intros q Hq. specialize (Ha q). rewrite <-list_elem_of_In, elem_of_elements in Ha. specialize (Ha Hq).
    bool_to_Prop. lia. }
  split; [|done]. intros Hp. specialize (Hd p Hp). lia.
Qed.

#[export] Instance toy_env_laws : ProcEnvLaws.
Proof.
  split; intros s; cbn.
  - unfold toy_kalloc. destruct (List.filter _ _) as [|p l] eqn:E; [by exists 0, s; split; [|left]|].
    assert (Hin : In p (List.filter (apart (tk_handed (prest (ext s)))) [4096; 8192])) by (rewrite E; by left).
    apply List.filter_In in Hin as [Hin Ha]. apply apart_spec in Ha as [Hn Hd].
    eexists p, _. split; [done|]. right. split; [cbn in Hin; lia|]. split; [done|]. split; [done|]. by constructor.
  - intros p Hp. eexists. split; [done|]. by constructor.
  - unfold toy_uvmcreate. destruct (tk_tables (prest (ext s)) !! 1) eqn:E.
    + exists 0, s. split; [done|]. by left.
    + eexists 1, _. split; [done|]. right. split; [done|]. split; [done|]. by constructor.
  - intros pt μ va pa perm Hμ Hva. unfold toy_mappages. rewrite Hμ. destruct (tk_maps (prest (ext s))) eqn:E.
    + exists (-1), s. split; [done|]. right. split; [done|]. by constructor.
    + eexists 0, _. split; [done|]. left. split; [done|]. by constructor.
  - intros pt μ va Hμ Hva. unfold toy_uvmunmap. rewrite Hμ, decide_True by done. eexists. split; [done|]. by constructor.
  - intros pt μ va Hμ Hva. unfold toy_uvmunmap. rewrite Hμ, decide_False by (rewrite Hva; by intros []). by eauto.
  - intros pt μ sz Hμ Hva Hh. eexists. split; [done|]. constructor; try done. cbn. by rewrite Hμ.
  - eexists _, _. split; [done|]. split; [pose proof (Z.mod_pos_bound (tk_pid (prest (ext s))) 1000); lia|]. by constructor.
Qed.

(** ** States *)

(** A process table of two unused slots whose other fields are [junk]. *)
Definition slot (junk : Z) : proc := λ f,
  match f with
  | State | Pid | Sz | Pagetable | Trapframe | Usyscall | OrigTrapframe => 0
  | Kstack => 16384
  | _ => junk
  end.

Definition booted (maps : nat) : tstate :=
  KSt (λ _, 5) ∅ [] (PState _ (λ _, slot 7) (TKernel ∅ ∅ maps 41)).

(** ** The theorems there *)

Definition found {A} (r : outcome tstate (option A)) : bool :=
  match r with Ok (Some _) _ => true | _ => false end.
Definition not_found {A} (r : outcome tstate (option A)) : bool :=
  match r with Ok None _ => true | _ => false end.
Definition panics {A} (r : outcome tstate A) : bool :=
  match r with Panic _ _ => true | _ => false end.

(** With three mappings [allocproc] succeeds, with one or none it gives up, and
    with two it panics. *)
Example usyscall_mappings :
  found (Usyscall.allocproc (booted 3)) = true ∧ panics (Usyscall.allocproc (booted 2)) = true ∧
  not_found (Usyscall.allocproc (booted 1)) = true ∧ not_found (Usyscall.allocproc (booted 0)) = true.
Proof. repeat split; vm_compute; reflexivity. Qed.

Definition shared_laws : LabLaws (lab := Usyscall.lab_with []).
Proof. apply Usyscall.lab_laws. set_solver. Defined.

Lemma allocproc_outcomes_witness :
  unlocked_procs (booted 3) ∧ ∃ s', Usyscall.allocproc (booted 3) = Ok (Some 0%nat) s' ∧
    allocated (laws := shared_laws) 0 (booted 3) s'.
Proof.
  assert (Hul : unlocked_procs (booted 3)) by (intros k Hk; set_solver).
  assert (Hno : ∀ j, (j < 0)%nat → proc_at j (booted 3) State ≠ UNUSED) by lia.
  split; [done|].
  destruct (allocproc_outcomes (laws := shared_laws) 0 (booted 3) Hul ltac:(unfold NPROC, two_procs; lia) eq_refl Hno
    eq_refl eq_refl eq_refl) as [Hok|[(s' & Hr & _)|(msg & s' & s1 & Hr & _)]]; [done|exfalso|exfalso].
  all: assert (Hf : found (Usyscall.allocproc (booted 3)) = true) by (vm_compute; reflexivity);
    unfold Usyscall.allocproc in Hf; by rewrite Hr in Hf.
Defined.

Lemma allocproc_full_witness :
  let s := set_ext (upd_proc 0 (upd State USED (slot 7)) (upd_proc 1 (upd State 4 (slot 7)) (ext (booted 3)))) (booted 3) in
  unlocked_procs s ∧ Usyscall.allocproc s = Ok None s.
Proof.
  cbv zeta. set (s := set_ext _ _). assert (Hul : unlocked_procs s) by (intros k Hk; set_solver).
  split; [done|]. apply (allocproc_full (lab := Usyscall.lab_with []) s Hul).
  intros [|[|j]] Hj; [done|done|]. unfold NPROC, two_procs in Hj. lia.
Defined.

Lemma found_some (r : outcome tstate (option nat)) :
  match r with Ok (Some O) _ => true | _ => false end = true → ∃ s', r = Ok (Some 0%nat) s'.
Proof. destruct r as [[[|k]|] s'| | | |]; try done. by exists s'. Qed.

Lemma allocproc_freeproc_witness :
  ∃ s' s'', Usyscall.allocproc (booted 3) = Ok (Some 0%nat) s' ∧ hnd s' = {[8192; 4096]} ∧
    Usyscall.freeproc 0 s' = Ok tt s'' ∧ hnd s'' = ∅ ∧ tbl s'' = ∅ ∧ proc_at 0 s'' State = UNUSED.
Proof.
  assert (Hul : unlocked_procs (booted 3)) by (intros k Hk; set_solver).
  assert (Hno : ∀ j, (j < 0)%nat → proc_at j (booted 3) State ≠ UNUSED) by lia.
  destruct (found_some (Usyscall.allocproc (booted 3))) as [s' Hr]; [vm_compute; reflexivity|].
  assert (Hh : match Usyscall.allocproc (booted 3) with Ok _ s' => bool_decide (hnd s' = {[8192; 4096]}) | _ => false end = true)
    by (vm_compute; reflexivity).
  destruct (allocproc_freeproc (laws := shared_laws) 0 (booted 3) s' Hul ltac:(unfold NPROC, two_procs; lia) eq_refl Hno
    eq_refl eq_refl eq_refl eq_refl Hr) as (s'' & Hf & _ & Hd & Ht & _ & Hs & _).
  rewrite Hr in Hh. apply bool_decide_eq_true in Hh. by exists s', s''.
Defined.

Lemma shared_page_failure_panics_witness :
  ∃ msg s', Usyscall.proc_pagetable 0 (booted 2) = Panic msg s'.
Proof. by eapply Usyscall.shared_page_failure_panics. Defined.

Lemma freeproc_forgets_growth_witness :
  proc_at 0 (booted 3) Next = 7 ∧ ∃ s', SuperTable.freeproc 0 (booted 3) = Ok tt s' ∧ proc_at 0 s' Next = 0.
Proof.
  split; [done|].
  destruct (SuperTable.freeproc_forgets_growth 0 (booted 3)) as (s' & Hr & Hn & _); [|by exists s'].
  split; [by left|by left|done|by left].
Defined.

(** *** The stock page table of lab4 *)

#[export] Instance toy_stock_table : AlarmProc.StockTable (P := tkernel) := {|
  AlarmProc.stock_pagetable k := λ s,
    let r := prest (ext s) in
    match tk_tables r !! 1 with
    | None => Ok 1 (with_tables (<[1 := AlarmProc.stock_mapped (proc_at k s Trapframe)]> (tk_tables r)) (tk_maps r) s)
    | Some _ => Ok 0 s
    end;
  AlarmProc.stock_freepagetable pt sz := λ s, Ok tt (drop_table pt AlarmProc.stock_own s);
|}.

#[export] Instance toy_stock_laws : AlarmProc.StockTableLaws.
Proof.
  split.
  - intros k s. cbn. destruct (tk_tables (prest (ext s)) !! 1) eqn:E; [right|left].
    + exists s. split; [done|]. by constructor.
    + eexists 1, _. split; [done|]. split; [done|]. split; [done|]. by constructor.
  - intros s pt μ sz Hμ _ _. eexists. split; [done|]. constructor; try done. cbn.
    change (tk_tables (prest (ext s)) !! pt = Some μ) in Hμ. by rewrite Hμ.
Qed.

Lemma allocproc_no_alarm_witness :
  proc_at 0 (booted 0) Ticks = 7 ∧ ∃ s', AlarmProc.allocproc (booted 0) = Ok (Some 0%nat) s' ∧ proc_at 0 s' Ticks = 0.
Proof.
  assert (Hul : unlocked_procs (booted 0)) by (intros k Hk; set_solver).
  assert (Hno : ∀ j, (j < 0)%nat → proc_at j (booted 0) State ≠ UNUSED) by lia.
  split; [done|].
  destruct (AlarmProc.allocproc_no_alarm 0 (booted 0) Hul ltac:(unfold NPROC, two_procs; lia) eq_refl Hno
    eq_refl eq_refl eq_refl) as [(s' & Hr & Hz & _)|(s' & Hr & _)]; [exists s'|exfalso].
  - split; [done|]. apply Hz. set_solver.
  - assert (Hf : found (AlarmProc.allocproc (booted 0)) = true) by (vm_compute; reflexivity). by rewrite Hr in Hf.
Defined.

Lemma freeproc_untraced_witness :
  proc_at 0 (booted 0) TraceId = 7 ∧ ∃ s', Trace.freeproc 0 (booted 0) = Ok tt s' ∧ proc_at 0 s' TraceId = 0.
Proof.
  split; [done|].
  destruct (Trace.freeproc_untraced 0 (booted 0)) as (s' & Hr & Ht & _); [by left|by left|by exists s'].
Defined.
